(** * Session orchestration engine of the Gemini automation manager

    A shallow embedding of [gemini_automation_extended.py] (the wave
    scheduler [run_task], the per-session coroutine [create_session], the
    cancellation path [stop_task] and the bookkeeping of [Task]), together
    with the properties of the engine that the specification states.

    The program is cooperative (asyncio): the code between two [await]s runs
    atomically.  Every coroutine is therefore modelled by a control point
    (the [await] it is suspended at) plus its locals, and one step of the
    model resumes one coroutine and runs it up to its next [await]. *)

From Stdlib Require Import ZArith QArith Qround Lia Ascii.
From stdpp Require Import gmap strings list pretty.

Local Open Scope Z_scope.

(** ** RandomizedTimingPolicy: the wave plan of [run_task] *)

Module Timing.

(** [random.randint(a, b)]: an integer of [a..b], both ends included.  The
    generator is outside the model: [draw] is the raw value it produced. *)
Definition randint (a b draw : Z) : Z := a + draw mod (b - a + 1).

Record WavePlan := {
  sessions_per_wave : Z;
  waves_count : Z;
  delay_between_waves : Z * Z  (* the bounds handed to [random.uniform] *)
}.

(** The three tiers of [run_task]; [//] is floor division, as [Z.div]. *)
Definition plan_waves (session_count draw : Z) : WavePlan :=
  if session_count <=? 100 then
    let spw := Z.min 3 (Z.max 1 (session_count / 5)) in
    {| sessions_per_wave := spw;
       waves_count := (session_count + spw - 1) / spw;
       delay_between_waves := (45, 75) |}
  else if session_count <=? 500 then
    let spw := randint 5 10 draw in
    {| sessions_per_wave := spw;
       waves_count := (session_count + spw - 1) / spw;
       delay_between_waves := (30, 60) |}
  else
    let spw := randint 10 20 draw in
    {| sessions_per_wave := spw;
       waves_count := (session_count + spw - 1) / spw;
       delay_between_waves := (20, 40) |}.

(** The locals of [run_task] before the plan is computed. *)
Definition no_plan : WavePlan :=
  {| sessions_per_wave := 0; waves_count := 0; delay_between_waves := (0, 0) |}.

(** [min(sessions_per_wave, session_count - wave_num * sessions_per_wave)] *)
Definition sessions_in_wave (p : WavePlan) (session_count wave_num : Z) : Z :=
  Z.min (sessions_per_wave p) (session_count - wave_num * sessions_per_wave p).

(** The sizes of the waves [for wave_num in range(waves_count)]. *)
Definition wave_sizes (p : WavePlan) (session_count : Z) : list Z :=
  map (fun w => sessions_in_wave p session_count (Z.of_nat w))
      (seq 0 (Z.to_nat (waves_count p))).

Definition total (l : list Z) : Z := foldr Z.add 0 l.

(** The first version, [gemini_automation.py], computes the same plan. *)
Module Basic.
Definition plan_waves (session_count draw : Z) : Z * Z :=
  if session_count <=? 100 then
    let spw := Z.min 3 (Z.max 1 (session_count / 5)) in
    (spw, (session_count + spw - 1) / spw)
  else if session_count <=? 500 then
    let spw := randint 5 10 draw in
    (spw, (session_count + spw - 1) / spw)
  else
    let spw := randint 10 20 draw in
    (spw, (session_count + spw - 1) / spw).
End Basic.

End Timing.

(** ** Data model *)

Inductive Status := Pending | Running | Stopped | Completed.

Global Instance Status_eq_dec : EqDecision Status.
Proof. solve_decision. Defined.

(** One entry of [Task.results], as appended by [save_result].  The
    wall-clock [timestamp] of the entry is not modelled. *)
Record Result := {
  res_session_id : string;
  res_success : bool;
  res_data : list (string * Z)
}.

Record Task := {
  id : string;
  prompt : string;
  session_count : Z;
  status : Status;
  active_sessions : Z;
  completed_sessions : Z;
  failed_sessions : Z;
  results : list Result
}.

Definition set_status (st : Status) (t : Task) : Task :=
  {| id := id t; prompt := prompt t; session_count := session_count t;
     status := st; active_sessions := active_sessions t;
     completed_sessions := completed_sessions t;
     failed_sessions := failed_sessions t; results := results t |}.

Definition set_active (n : Z) (t : Task) : Task :=
  {| id := id t; prompt := prompt t; session_count := session_count t;
     status := status t; active_sessions := n;
     completed_sessions := completed_sessions t;
     failed_sessions := failed_sessions t; results := results t |}.

Definition set_completed (n : Z) (t : Task) : Task :=
  {| id := id t; prompt := prompt t; session_count := session_count t;
     status := status t; active_sessions := active_sessions t;
     completed_sessions := n;
     failed_sessions := failed_sessions t; results := results t |}.

Definition set_failed (n : Z) (t : Task) : Task :=
  {| id := id t; prompt := prompt t; session_count := session_count t;
     status := status t; active_sessions := active_sessions t;
     completed_sessions := completed_sessions t;
     failed_sessions := n; results := results t |}.

Definition set_results (l : list Result) (t : Task) : Task :=
  {| id := id t; prompt := prompt t; session_count := session_count t;
     status := status t; active_sessions := active_sessions t;
     completed_sessions := completed_sessions t;
     failed_sessions := failed_sessions t; results := l |}.

(** [Task(id=..., prompt=..., session_count=...)] with the dataclass defaults. *)
Definition new_task (task_id prompt : string) (session_count : Z) : Task :=
  {| id := task_id; prompt := prompt; session_count := session_count;
     status := Pending; active_sessions := 0; completed_sessions := 0;
     failed_sessions := 0; results := [] |}.

(** What [save_to_file] dumps into [results/<id>_results.json]. *)
Record Snapshot := {
  snap_task_id : string;
  snap_prompt : string;
  snap_session_count : Z;
  snap_completed_sessions : Z;
  snap_failed_sessions : Z;
  snap_results : list Result
}.

Definition save_to_file (t : Task) : Snapshot :=
  {| snap_task_id := id t; snap_prompt := prompt t;
     snap_session_count := session_count t;
     snap_completed_sessions := completed_sessions t;
     snap_failed_sessions := failed_sessions t;
     snap_results := results t |}.

(** [Task.save_result]: append, then dump when the length is a multiple of
    10.  The second component is the list of dumps written by the call. *)
Definition save_result (session_id : string) (success : bool)
    (data : list (string * Z)) (t : Task) : Task * list Snapshot :=
  let t' := set_results (results t ++ [{| res_session_id := session_id;
                                           res_success := success;
                                           res_data := data |}]) t in
  if (Z.of_nat (length (results t')) mod 10 =? 0)
  then (t', [save_to_file t'])
  else (t', []).

(** ** The session registry: a Python [dict], insertion ordered *)

Module Registry.

Definition t := list (string * nat).

Fixpoint lookup (k : string) (d : t) : option nat :=
  match d with
  | [] => None
  | (k', v) :: d' => if decide (k' = k) then Some v else lookup k d'
  end.

(** [d[k] = v]: an existing key keeps its place, a new key goes last. *)
Fixpoint insert (k : string) (v : nat) (d : t) : t :=
  match d with
  | [] => [(k, v)]
  | (k', v') :: d' =>
      if decide (k' = k) then (k, v) :: d' else (k', v') :: insert k v d'
  end.

(** [if k in d: del d[k]] *)
Fixpoint delete (k : string) (d : t) : t :=
  match d with
  | [] => []
  | (k', v') :: d' =>
      if decide (k' = k) then d' else (k', v') :: delete k d'
  end.

Definition keys (d : t) : list string := map fst d.

(** [[k for k in d.keys() if k.startswith(p)]] *)
Definition keys_with_prefix (p : string) (d : t) : list string :=
  filter (fun k => String.prefix p k = true) (keys d).

End Registry.

(** ** Coroutines *)

(** What the automation driver answers when an awaited call completes:
    normally, with [PlaywrightTimeoutError], or with any other exception.
    A [CancelledError] is not an answer of the driver: it is delivered to a
    coroutine on which [cancel()] was called (see [s_must_cancel]). *)
Inductive Outcome := Ok | Timeout | DriverError.

(** The [await]s of one iteration of [create_session], in program order.
    [TypeChar]/[PauseChar] occur once per character of the prompt. *)
Inductive Await :=
| Goto | LoadState | ScreenshotLoaded | WaitInput | QueryInput | ClickInput
| PauseInput | TypeChar | PauseChar | ScreenshotEntered | WaitRun | QueryRun
| PauseRun | ClickRun | OutcomeWindow | AwaitAllow
| RestartWait | RestartPause | RestartClick | RestartSettle.

Inductive Kind :=
| DriverCall     (* a Playwright call inside the iteration's [try] *)
| Sleep          (* [asyncio.sleep] inside the iteration's [try] *)
| AllowJoin      (* [await allow_task] under [except CancelledError: pass] *)
| RestartCall    (* a Playwright call inside [_wait_and_click_restart] *)
| RestartSleep.  (* [asyncio.sleep] inside [_wait_and_click_restart] *)

Definition kind (a : Await) : Kind :=
  match a with
  | Goto | LoadState | ScreenshotLoaded | WaitInput | QueryInput | ClickInput
  | TypeChar | ScreenshotEntered | WaitRun | QueryRun | ClickRun => DriverCall
  | PauseInput | PauseChar | PauseRun | OutcomeWindow => Sleep
  | AwaitAllow => AllowJoin
  | RestartWait | RestartClick => RestartCall
  | RestartPause | RestartSettle => RestartSleep
  end.

Definition iteration_body (task_prompt : string) : list Await :=
  [Goto; LoadState; ScreenshotLoaded; WaitInput; QueryInput; ClickInput;
   PauseInput]
  ++ flat_map (fun _ => [TypeChar; PauseChar]) (String.list_ascii_of_string task_prompt)
  ++ [ScreenshotEntered; WaitRun; QueryRun; PauseRun; ClickRun;
      OutcomeWindow; AwaitAllow;
      RestartWait; RestartPause; RestartClick; RestartSettle].

(** How the [while] loop of a session was left. *)
Inductive LoopExit :=
| LoopEnded      (* the loop condition became false *)
| LoopTimedOut   (* [except PlaywrightTimeoutError: ...; break] *)
| LoopCancelled  (* [except asyncio.CancelledError: ...; break] *)
| LoopErrored.   (* another exception is propagating through [finally] *)

(** The [await]s of the [finally] block of a session. *)
Inductive CleanupStage := PageContent | ClosePage | CloseContext | NotifyUpdate.

(** How the coroutine [create_session] ended. *)
Inductive Exit :=
| Finished (how : LoopExit) (iterations : nat)
                 (* the cleanup ran to its end and the function returned *)
| Cancelled      (* outer [except asyncio.CancelledError] *)
| CancelledActive
                 (* the same handler, reached from the [await] between
                    [task.active_sessions += 1] and the inner [try] *)
| Errored        (* outer [except Exception] *)
| NeverRan       (* cancelled before its first step: no line was executed *)
| Crashed.       (* [self.tasks[task_id]] raised before the outer [try] *)

Inductive SessPc :=
| SNotStarted
| SStartDelay                 (* [await asyncio.sleep(delay_before_start)] *)
| SNewContext | SNewPage | SInitScript
| SNotifyActive               (* [await notify_clients] after [active_sessions += 1] *)
| SBody (iteration : nat) (k : nat)  (* at the [k]-th await of the body *)
| SCleanup (stage : CleanupStage) (how : LoopExit) (iterations : nat)
| SDone (e : Exit).

Record Session := {
  s_task_id : string;
  s_prompt : string;
  s_session_id : string;
  s_task : option nat;       (* the [task] local, once bound: a heap address *)
  s_pc : SessPc;
  s_must_cancel : bool;      (* [cancel()] was called and is not yet delivered *)
  s_cancel_requests : nat    (* how often [cancel()] was called before the end *)
}.

Inductive RunPc :=
| RNotStarted
| RInitBrowser                (* [await self.init_browser()] *)
| RWaveNotify (wave_num : nat)   (* [await notify_clients] of [task_wave] *)
| RWaveSleep (wave_num : nat)    (* [await asyncio.sleep(delay_between_waves)] *)
| RWaitSessions               (* [await asyncio.sleep(2)] *)
| RCompletedNotify            (* [await notify_clients] of [task_completed] *)
| RDone
| RFailed.                    (* [init_browser] raised *)

Record Run := {
  r_task : nat;               (* the [task] argument: a heap address *)
  r_pc : RunPc;
  r_plan : Timing.WavePlan;
  r_session_id_counter : nat
}.

Inductive StopPc :=
| StopAwait (key : string) (handle : nat) (rest : list string)
                              (* [await self.session_tasks[key]] *)
| StopReturned
| StopKeyError                (* [self.session_tasks[key]] raised *)
| StopCrashed                 (* the awaited session had raised *)
| StopNotFound.               (* [raise ValueError] *)

Record Stop := {
  st_task_id : string;
  st_task : option nat;       (* the [task] local: a heap address *)
  st_pc : StopPc
}.

Inductive Coro := CSession (s : Session) | CRun (r : Run) | CStop (s : Stop).

(** ** The manager and the event loop *)

Record World := {
  tasks : gmap string nat;            (* [self.tasks]: id to [Task] object *)
  heap : list Task;                   (* the [Task] objects *)
  session_tasks : Registry.t;         (* [self.session_tasks] *)
  browser : bool;                     (* [self.browser] is set *)
  coros : list Coro;                  (* the [asyncio] tasks, by handle *)
  files : list Snapshot               (* the dumps written, oldest first *)
}.

Definition init (browser_ready : bool) : World :=
  {| tasks := ∅; heap := []; session_tasks := []; browser := browser_ready;
     coros := []; files := [] |}.

Definition with_tasks (m : gmap string nat) (w : World) : World :=
  {| tasks := m; heap := heap w; session_tasks := session_tasks w;
     browser := browser w; coros := coros w; files := files w |}.
Definition with_heap (h : list Task) (w : World) : World :=
  {| tasks := tasks w; heap := h; session_tasks := session_tasks w;
     browser := browser w; coros := coros w; files := files w |}.
Definition with_session_tasks (d : Registry.t) (w : World) : World :=
  {| tasks := tasks w; heap := heap w; session_tasks := d;
     browser := browser w; coros := coros w; files := files w |}.
Definition with_browser (b : bool) (w : World) : World :=
  {| tasks := tasks w; heap := heap w; session_tasks := session_tasks w;
     browser := b; coros := coros w; files := files w |}.
Definition with_coros (c : list Coro) (w : World) : World :=
  {| tasks := tasks w; heap := heap w; session_tasks := session_tasks w;
     browser := browser w; coros := c; files := files w |}.
Definition with_files (f : list Snapshot) (w : World) : World :=
  {| tasks := tasks w; heap := heap w; session_tasks := session_tasks w;
     browser := browser w; coros := coros w; files := f |}.

(** [f"{task_id}_{session_id}"] *)
Definition session_key (task_id session_id : string) : string :=
  task_id +:+ "_" +:+ session_id.

(** *** [create_session] *)

Definition at_pc (pc : SessPc) (s : Session) : Session :=
  {| s_task_id := s_task_id s; s_prompt := s_prompt s;
     s_session_id := s_session_id s; s_task := s_task s; s_pc := pc;
     s_must_cancel := false; s_cancel_requests := s_cancel_requests s |}.

Definition bind_task (r : nat) (s : Session) : Session :=
  {| s_task_id := s_task_id s; s_prompt := s_prompt s;
     s_session_id := s_session_id s; s_task := Some r; s_pc := SStartDelay;
     s_must_cancel := false; s_cancel_requests := s_cancel_requests s |}.

Definition request_cancel (s : Session) : Session :=
  {| s_task_id := s_task_id s; s_prompt := s_prompt s;
     s_session_id := s_session_id s; s_task := s_task s; s_pc := s_pc s;
     s_must_cancel := true; s_cancel_requests := S (s_cancel_requests s) |}.

(** Entering [finally]: [task.active_sessions -= 1], then the block runs up
    to [await page.content()]. *)
Definition enter_finally (how : LoopExit) (iteration : nat) (t : Task)
    : SessPc * Task :=
  (SCleanup PageContent how iteration,
   set_active (active_sessions t - 1) t).

(** [while task.status == "running" and iteration < 5: iteration += 1 ...] *)
Definition loop_test (iteration : nat) (t : Task) : SessPc * Task :=
  if bool_decide (status t = Running) && (iteration <? 5)%nat
  then (SBody (S iteration) 0, t)
  else enter_finally LoopEnded iteration t.

(** The end of the iteration's [try] body, after [_wait_and_click_restart]. *)
Definition iteration_done (s : Session) (iteration : nat) (t : Task)
    : SessPc * Task * list Snapshot :=
  let t1 := set_completed (completed_sessions t + 1) t in
  let '(t2, dumps) :=
    save_result (s_session_id s) true [("iteration", Z.of_nat iteration)] t1 in
  let '(pc, t3) := loop_test iteration t2 in
  (pc, t3, dumps).

Definition advance (s : Session) (iteration k : nat) (t : Task)
    : SessPc * Task * list Snapshot :=
  if decide (S k < length (iteration_body (s_prompt s)))%nat
  then (SBody iteration (S k), t, [])
  else iteration_done s iteration t.

(** The two outer handlers: both do [task.failed_sessions += 1]. *)
Definition outer_handler (e : Exit) (t : Task) : SessPc * Task * list Snapshot :=
  (SDone e, set_failed (failed_sessions t + 1) t, []).

(** Resuming a session that is suspended inside the outer [try], on the
    [Task] object [t] it is bound to. *)
Definition session_resume (browser_set : bool) (o : Outcome)
    (s : Session) (t : Task) : SessPc * Task * list Snapshot :=
  let cancelled := s_must_cancel s in
  match s_pc s with
  | SNotStarted | SDone _ => (s_pc s, t, [])
  | SStartDelay =>
      if cancelled then outer_handler Cancelled t
      else if browser_set then (SNewContext, t, [])
      else outer_handler Errored t          (* [raise RuntimeError] *)
  | SNewContext =>
      if cancelled then outer_handler Cancelled t
      else match o with
           | Ok => (SNewPage, t, [])
           | _ => outer_handler Errored t
           end
  | SNewPage =>
      if cancelled then outer_handler Cancelled t
      else match o with
           | Ok => (SInitScript, t, [])
           | _ => outer_handler Errored t
           end
  | SInitScript =>
      if cancelled then outer_handler Cancelled t
      else match o with
           | Ok => (SNotifyActive, set_active (active_sessions t + 1) t, [])
           | _ => outer_handler Errored t
           end
  | SNotifyActive =>
      if cancelled then outer_handler CancelledActive t
      else let '(pc, t') := loop_test 0 t in (pc, t', [])
  | SBody iteration k =>
      match iteration_body (s_prompt s) !! k with
      | None => (s_pc s, t, [])
      | Some a =>
          if cancelled then
            match kind a with
            | AllowJoin => advance s iteration k t
            | _ => let '(pc, t') := enter_finally LoopCancelled iteration t in
                   (pc, t', [])
            end
          else
            match kind a, o with
            | DriverCall, Ok => advance s iteration k t
            | DriverCall, Timeout =>
                let '(pc, t') :=
                  enter_finally LoopTimedOut iteration
                    (set_failed (failed_sessions t + 1) t) in
                (pc, t', [])
            | DriverCall, DriverError =>
                let '(pc, t') := enter_finally LoopErrored iteration t in
                (pc, t', [])
            | Sleep, _ | AllowJoin, _ | RestartSleep, _ => advance s iteration k t
            | RestartCall, Ok => advance s iteration k t
            | RestartCall, _ => iteration_done s iteration t
            end
      end
  | SCleanup stage how iteration =>
      if cancelled then outer_handler Cancelled t
      else
        match stage, o with
        | PageContent, _ => (SCleanup ClosePage how iteration, t, [])
        | ClosePage, Ok => (SCleanup CloseContext how iteration, t, [])
        | ClosePage, _ => outer_handler Errored t
        | CloseContext, Ok => (SCleanup NotifyUpdate how iteration, t, [])
        | CloseContext, _ => outer_handler Errored t
        | NotifyUpdate, _ =>
            match how with
            | LoopErrored => outer_handler Errored t
            | _ => (SDone (Finished how iteration), t, [])
            end
        end
  end.

(** The exits that pass through the outermost [finally], which removes the
    session's key from the registry. *)
Definition runs_outer_finally (pc : SessPc) : bool :=
  match pc with
  | SDone (Finished _ _) | SDone Cancelled | SDone CancelledActive
  | SDone Errored => true
  | _ => false
  end.

Definition resume_session (cid : nat) (o : Outcome) (s : Session) (w : World)
    : World :=
  match s_pc s with
  | SDone _ => w
  | SNotStarted =>
      if s_must_cancel s
      then with_coros (<[cid := CSession (at_pc (SDone NeverRan) s)]> (coros w)) w
      else match tasks w !! s_task_id s with
           | None =>
               with_coros (<[cid := CSession (at_pc (SDone Crashed) s)]> (coros w)) w
           | Some r =>
               with_coros (<[cid := CSession (bind_task r s)]> (coros w)) w
           end
  | _ =>
      match s_task s with
      | None => w
      | Some r =>
          match heap w !! r with
          | None => w
          | Some t =>
              let '(pc, t', dumps) := session_resume (browser w) o s t in
              let w1 := with_heap (<[r := t']> (heap w)) w in
              let w2 := with_files (files w1 ++ dumps) w1 in
              let w3 := with_coros (<[cid := CSession (at_pc pc s)]> (coros w2)) w2 in
              if runs_outer_finally pc
              then with_session_tasks
                     (Registry.delete (session_key (s_task_id s) (s_session_id s))
                        (session_tasks w3)) w3
              else w3
          end
      end
  end.

(** *** [run_task] *)

Definition spawn (c : Coro) (w : World) : World :=
  with_coros (coros w ++ [c]) w.

Definition new_session (t : Task) (session_id : string) : Session :=
  {| s_task_id := id t; s_prompt := prompt t; s_session_id := session_id;
     s_task := None; s_pc := SNotStarted; s_must_cancel := false;
     s_cancel_requests := 0 |}.

(** [for _ in range(n)]: the launch loop of one wave.  It has no [await];
    [counter] is [session_id_counter]. *)
Fixpoint launch (n : nat) (r : nat) (counter : nat) (w : World) : nat * World :=
  match n with
  | O => (counter, w)
  | S n' =>
      match heap w !! r with
      | None => (counter, w)
      | Some t =>
          if bool_decide (status t = Running) then
            let counter' := S counter in
            let session_id := pretty counter' in
            let handle := length (coros w) in
            let w1 := spawn (CSession (new_session t session_id)) w in
            let w2 := with_session_tasks
                        (Registry.insert (session_key (id t) session_id) handle
                           (session_tasks w1)) w1 in
            launch n' r counter' w2
          else (counter, w)        (* [break] *)
      end
  end.

(** After the waiting loop: [if task.status == "running": ...] *)
Definition run_finish (r : nat) (w : World) : RunPc * World :=
  match heap w !! r with
  | None => (RDone, w)
  | Some t =>
      if bool_decide (status t = Running) then
        let t' := set_status Completed t in
        (RCompletedNotify,
         with_files (files w ++ [save_to_file t'])
           (with_heap (<[r := t']> (heap w)) w))
      else (RDone, w)
  end.

(** [while len([k for k in ... if k.startswith(task.id)]) > 0: await sleep(2)] *)
Definition run_wait (r : nat) (w : World) : RunPc * World :=
  match heap w !! r with
  | None => (RDone, w)
  | Some t =>
      match Registry.keys_with_prefix (id t) (session_tasks w) with
      | [] => run_finish r w
      | _ :: _ => (RWaitSessions, w)
      end
  end.

(** The head of [for wave_num in range(waves_count)], up to the [await] of
    the [task_wave] notification. *)
Definition run_wave (p : Timing.WavePlan) (wave_num : nat) (r : nat) (w : World)
    : RunPc * World :=
  match heap w !! r with
  | None => (RDone, w)
  | Some t =>
      if (Z.of_nat wave_num <? Timing.waves_count p)
         && bool_decide (status t = Running)
      then (RWaveNotify wave_num, w)
      else run_wait r w
  end.

Definition at_run (pc : RunPc) (p : Timing.WavePlan) (counter : nat) (rn : Run)
    : Run :=
  {| r_task := r_task rn; r_pc := pc; r_plan := p;
     r_session_id_counter := counter |}.

(** From the computation of the wave plan to the next [await]. *)
Definition run_plan (cid : nat) (draw : Z) (rn : Run) (w : World) : World :=
  match heap w !! r_task rn with
  | None => w
  | Some t =>
      let p := Timing.plan_waves (session_count t) draw in
      let '(pc, w1) := run_wave p 0 (r_task rn) w in
      with_coros (<[cid := CRun (at_run pc p 0 rn)]> (coros w1)) w1
  end.

Definition reset_counters (t : Task) : Task :=
  set_failed 0 (set_completed 0 (set_active 0 (set_status Running t))).

Definition resume_run (cid : nat) (o : Outcome) (draw : Z) (rn : Run) (w : World)
    : World :=
  let r := r_task rn in
  match r_pc rn with
  | RNotStarted =>
      match heap w !! r with
      | None => w
      | Some t =>
          let w1 := with_heap (<[r := reset_counters t]> (heap w)) w in
          if browser w1 then run_plan cid draw rn w1
          else with_coros
                 (<[cid := CRun (at_run RInitBrowser (r_plan rn) 0 rn)]> (coros w1)) w1
      end
  | RInitBrowser =>
      match o with
      | Ok => run_plan cid draw rn (with_browser true w)
      | _ => with_coros
               (<[cid := CRun (at_run RFailed (r_plan rn) 0 rn)]> (coros w)) w
      end
  | RWaveNotify wave_num =>
      match heap w !! r with
      | None => w
      | Some t =>
          let p := r_plan rn in
          let n := Timing.sessions_in_wave p (session_count t) (Z.of_nat wave_num) in
          let '(counter, w1) := launch (Z.to_nat n) r (r_session_id_counter rn) w in
          let '(pc, w2) :=
            if Z.of_nat wave_num <? Timing.waves_count p - 1
            then (RWaveSleep wave_num, w1)
            else run_wave p (S wave_num) r w1 in
          with_coros (<[cid := CRun (at_run pc p counter rn)]> (coros w2)) w2
      end
  | RWaveSleep wave_num =>
      let '(pc, w1) := run_wave (r_plan rn) (S wave_num) r w in
      with_coros
        (<[cid := CRun (at_run pc (r_plan rn) (r_session_id_counter rn) rn)]> (coros w1)) w1
  | RWaitSessions =>
      let '(pc, w1) := run_wait r w in
      with_coros
        (<[cid := CRun (at_run pc (r_plan rn) (r_session_id_counter rn) rn)]> (coros w1)) w1
  | RCompletedNotify =>
      with_coros
        (<[cid := CRun (at_run RDone (r_plan rn) (r_session_id_counter rn) rn)]> (coros w)) w
  | RDone | RFailed => w
  end.

(** *** [stop_task] *)

(** The result of an [asyncio] task, when it is done. *)
Definition exit_of (h : nat) (w : World) : option Exit :=
  match coros w !! h with
  | Some (CSession s) =>
      match s_pc s with SDone e => Some e | _ => None end
  | _ => None
  end.

(** [Task.cancel()]: no effect on a task that is done. *)
Definition cancel (h : nat) (w : World) : World :=
  match coros w !! h with
  | Some (CSession s) =>
      match s_pc s with
      | SDone _ => w
      | _ => with_coros (<[h := CSession (request_cancel s)]> (coros w)) w
      end
  | _ => w
  end.

(** [for key in keys_to_remove], up to the first [await] that suspends;
    awaiting a task that is done does not suspend. *)
Fixpoint stop_loop (keys : list string) (r : nat) (w : World) : StopPc * World :=
  match keys with
  | [] =>
      match heap w !! r with
      | None => (StopReturned, w)
      | Some t => (StopReturned, with_files (files w ++ [save_to_file t]) w)
      end
  | key :: rest =>
      match Registry.lookup key (session_tasks w) with
      | None => (StopKeyError, w)
      | Some h =>
          let w1 := cancel h w in
          match exit_of h w1 with
          | None => (StopAwait key h rest, w1)
          | Some Crashed => (StopCrashed, w1)
          | Some _ =>
              stop_loop rest r
                (with_session_tasks (Registry.delete key (session_tasks w1)) w1)
          end
      end
  end.

Definition stop_task (task_id : string) (w : World) : World :=
  match tasks w !! task_id with
  | None =>
      spawn (CStop {| st_task_id := task_id; st_task := None;
                      st_pc := StopNotFound |}) w
  | Some r =>
      match heap w !! r with
      | None => w
      | Some t =>
          let w1 := with_heap (<[r := set_status Stopped t]> (heap w)) w in
          let keys_to_remove :=
            Registry.keys_with_prefix task_id (session_tasks w1) in
          let '(pc, w2) := stop_loop keys_to_remove r w1 in
          spawn (CStop {| st_task_id := task_id; st_task := Some r;
                          st_pc := pc |}) w2
      end
  end.

(** Resuming [stop_task] at its [await]: possible once the awaited session
    is done. *)
Definition at_stop (pc : StopPc) (st : Stop) : Stop :=
  {| st_task_id := st_task_id st; st_task := st_task st; st_pc := pc |}.

Definition resume_stop (cid : nat) (st : Stop) (w : World) : World :=
  match st_pc st with
  | StopAwait key h rest =>
      match exit_of h w, st_task st with
      | Some Crashed, _ =>
          with_coros (<[cid := CStop (at_stop StopCrashed st)]> (coros w)) w
      | Some _, Some r =>
          let '(pc, w1) :=
            stop_loop rest r
              (with_session_tasks (Registry.delete key (session_tasks w)) w) in
          with_coros (<[cid := CStop (at_stop pc st)]> (coros w1)) w1
      | _, _ => w
      end
  | _ => w
  end.

(** *** The control plane and the scheduler *)

Definition add_task (task_id prompt : string) (session_count : Z) (w : World)
    : World :=
  with_tasks (<[task_id := length (heap w)]> (tasks w))
    (with_heap (heap w ++ [new_task task_id prompt session_count]) w).

Definition start_task (task_id : string) (w : World) : World :=
  match tasks w !! task_id with
  | None => w                              (* [raise ValueError] *)
  | Some r =>
      spawn (CRun {| r_task := r; r_pc := RNotStarted;
                     r_plan := Timing.no_plan;
                     r_session_id_counter := 0 |}) w
  end.

(** What happens to the manager from outside: a call of one of its three
    entry points, or the event loop resuming a suspended coroutine.  The
    HTTP handlers reach the manager through the same three methods;
    [AddTask] is the call of [manager.add_task] itself, with the [str] and
    [int] arguments of its signature. *)
Inductive Event :=
| AddTask (task_id prompt : string) (session_count : Z)
| StartTask (task_id : string)
| StopTask (task_id : string)
| Resume (cid : nat) (o : Outcome) (draw : Z).

Definition step (e : Event) (w : World) : World :=
  match e with
  | AddTask task_id prompt n => add_task task_id prompt n w
  | StartTask task_id => start_task task_id w
  | StopTask task_id => stop_task task_id w
  | Resume cid o draw =>
      match coros w !! cid with
      | Some (CSession s) => resume_session cid o s w
      | Some (CRun rn) => resume_run cid o draw rn w
      | Some (CStop st) => resume_stop cid st w
      | None => w
      end
  end.

Fixpoint run (evs : list Event) (w : World) : World :=
  match evs with
  | [] => w
  | e :: evs' => run evs' (step e w)
  end.

(** * Elementary facts *)

Definition session_of (c : Coro) : option Session :=
  match c with CSession s => Some s | _ => None end.

Definition done (pc : SessPc) : bool :=
  match pc with SDone _ => true | _ => false end.

(** The control points at which the session has executed
    [task.active_sessions += 1] and not the matching decrement. *)
Definition holding (pc : SessPc) : Z :=
  match pc with
  | SNotifyActive | SBody _ _ | SDone CancelledActive => 1
  | _ => 0
  end.

(** The control points after the [while] loop. *)
Definition past_loop (pc : SessPc) : bool :=
  match pc with SCleanup _ _ _ | SDone _ => true | _ => false end.

(** What a resumption of a session may do to its [Task] object. *)
Record task_step (pc pc' : SessPc) (t t' : Task) : Prop := {
  ts_id : id t' = id t;
  ts_prompt : prompt t' = prompt t;
  ts_session_count : session_count t' = session_count t;
  ts_status : status t' = status t;
  ts_active : active_sessions t' - active_sessions t = holding pc' - holding pc;
  ts_completed : completed_sessions t <= completed_sessions t' <= completed_sessions t + 1;
  ts_failed : failed_sessions t <= failed_sessions t' <= failed_sessions t + 1;
  ts_results : exists l, results t' = results t ++ l
}.

(** * What the pieces of a step change *)

(** The coroutines a wave adds, and the keys it registers. *)
Fixpoint launched (t : Task) (counter n : nat) : list Coro :=
  match n with
  | O => []
  | S n' => CSession (new_session t (pretty (S counter))) :: launched t (S counter) n'
  end.

Fixpoint registered (task_id : string) (counter handle n : nat) (d : Registry.t)
    : Registry.t :=
  match n with
  | O => d
  | S n' =>
      registered task_id (S counter) (S handle) n'
        (Registry.insert (session_key task_id (pretty (S counter))) handle d)
  end.

(** ** Sessions seen from another coroutine *)

(** [s'] is [s] after zero or more calls of [cancel()]. *)
Definition cancelled_from (s s' : Session) : Prop :=
  s_task_id s' = s_task_id s /\ s_prompt s' = s_prompt s
  /\ s_session_id s' = s_session_id s /\ s_task s' = s_task s
  /\ s_pc s' = s_pc s
  /\ ((s_must_cancel s' = s_must_cancel s
       /\ s_cancel_requests s' = s_cancel_requests s)
      \/ (s_must_cancel s' = true /\ done (s_pc s) = false
          /\ (s_cancel_requests s < s_cancel_requests s')%nat)).

Definition coro_frame (c c' : Coro) : Prop :=
  match c with
  | CSession s => exists s', c' = CSession s' /\ cancelled_from s s'
  | _ => c' = c
  end.

Definition coros_frame (l l' : list Coro) : Prop :=
  forall i c, l !! i = Some c -> exists c', l' !! i = Some c' /\ coro_frame c c'.

(** Replacing the coroutine that runs leaves the others alone. *)
Definition coros_frame_but (cid : nat) (l l' : list Coro) : Prop :=
  forall i c, i <> cid -> l !! i = Some c ->
              exists c', l' !! i = Some c' /\ coro_frame c c'.

(** ** The cancellation loop of [stop_task] *)

(** What [stop_loop] may do to the world. *)
Record stop_effect (w w' : World) : Prop := {
  se_tasks : tasks w' = tasks w;
  se_heap : heap w' = heap w;
  se_browser : browser w' = browser w;
  se_length : length (coros w') = length (coros w);
  se_coros : coros_frame (coros w) (coros w');
  se_registry : forall x, x ∈ session_tasks w' -> x ∈ session_tasks w;
  se_nodup : NoDup (Registry.keys (session_tasks w)) ->
             NoDup (Registry.keys (session_tasks w'));
  se_files : files w' = files w
             \/ exists r t, heap w !! r = Some t /\ files w' = files w ++ [save_to_file t]
}.

Definition registry_sessions (w : World) : Prop :=
  forall k h, (k, h) ∈ session_tasks w -> exists s, coros w !! h = Some (CSession s).

(** ** The tail of [run_task]: waiting for the sessions, then completing *)

(** The world after [task.status = "completed"; task.save_to_file()]. *)
Definition completed_world (r : nat) (t : Task) (w : World) : World :=
  with_files (files w ++ [save_to_file (set_status Completed t)])
    (with_heap (<[r := set_status Completed t]> (heap w)) w).

(** Either nothing changes, or the task is marked completed: its status was
    [Running] and no key of the registry started with its id. *)
Inductive run_tail (r : nat) (w : World) : RunPc -> World -> Prop :=
| tail_wave n t :
    heap w !! r = Some t -> status t = Running -> run_tail r w (RWaveNotify n) w
| tail_wait t :
    heap w !! r = Some t ->
    Registry.keys_with_prefix (id t) (session_tasks w) <> [] ->
    run_tail r w RWaitSessions w
| tail_done :
    (forall t, heap w !! r = Some t ->
               status t <> Running
               /\ Registry.keys_with_prefix (id t) (session_tasks w) = []) ->
    run_tail r w RDone w
| tail_completed t :
    heap w !! r = Some t -> status t = Running ->
    Registry.keys_with_prefix (id t) (session_tasks w) = [] ->
    run_tail r w RCompletedNotify (completed_world r t w).

(** ** What one step does to one [Task] object *)

Inductive task_change (w : World) (e : Event) (w' : World) (r : nat) (t : Task)
    : Task -> Prop :=
| tc_same : task_change w e w' r t t
| tc_session cid o d s pc t' dumps :
    e = Resume cid o d -> coros w !! cid = Some (CSession s) ->
    s_task s = Some r ->
    session_resume (browser w) o s t = (pc, t', dumps) ->
    files w' = files w ++ dumps ->
    task_change w e w' r t t'
| tc_start cid o d rn :
    e = Resume cid o d -> coros w !! cid = Some (CRun rn) ->
    r_task rn = r -> r_pc rn = RNotStarted ->
    task_change w e w' r t (reset_counters t)
| tc_start_completed cid o d rn :
    e = Resume cid o d -> coros w !! cid = Some (CRun rn) ->
    r_task rn = r -> r_pc rn = RNotStarted -> session_count t <= 0 ->
    Registry.keys_with_prefix (id t) (session_tasks w') = [] ->
    files w' = files w ++ [save_to_file (set_status Completed (reset_counters t))] ->
    task_change w e w' r t (set_status Completed (reset_counters t))
| tc_completed cid o d rn :
    e = Resume cid o d -> coros w !! cid = Some (CRun rn) ->
    r_task rn = r -> r_pc rn <> RNotStarted -> status t = Running ->
    Registry.keys_with_prefix (id t) (session_tasks w') = [] ->
    files w' = files w ++ [save_to_file (set_status Completed t)] ->
    task_change w e w' r t (set_status Completed t)
| tc_stopped task_id :
    e = StopTask task_id -> tasks w !! task_id = Some r ->
    task_change w e w' r t (set_status Stopped t).

(** * Vocabulary of the statements *)

(** The event runs the first step of a [run_task] coroutine of the task
    object [r]: the step that sets the status to [Running] and resets the
    counters. *)
Definition starts_run (r : nat) (e : Event) (w : World) : bool :=
  match e with
  | Resume cid _ _ =>
      match coros w !! cid with
      | Some (CRun rn) =>
          bool_decide (r_task rn = r)
          && match r_pc rn with RNotStarted => true | _ => false end
      | _ => false
      end
  | _ => false
  end.

(** No event of the trace starts a run of [r]. *)
Fixpoint never_started (r : nat) (evs : list Event) (w : World) : bool :=
  match evs with
  | [] => true
  | e :: evs' => negb (starts_run r e w) && never_started r evs' (step e w)
  end.

Definition task_field {A} (f : Task -> A) (r : nat) (w : World) : option A :=
  f <$> heap w !! r.

Definition session_at (cid : nat) (w : World) : option Session :=
  coros w !! cid ≫= session_of.

Definition stop_at (cid : nat) (w : World) : option StopPc :=
  match coros w !! cid with
  | Some (CStop st) => Some (st_pc st)
  | _ => None
  end.

(** The trace of the witness: one session of task ["t"] (prompt ["x"]),
    handle 1, runs its first iteration to the end. *)
Definition one_iteration : list Event :=
  [AddTask "t" "x" 1; StartTask "t"; Resume 0 Ok 0; Resume 0 Ok 0]
  ++ repeat (Resume 1 Ok 0) 26.

(** ** What a resumption does to the session itself *)

Inductive own_step (w : World) (o : Outcome) (s : Session) : Session -> Prop :=
| os_stutter :
    done (s_pc s) = true \/ (s_pc s <> SNotStarted /\ s_task s ≫= (heap w !!.) = None) ->
    own_step w o s s
| os_never_ran :
    s_pc s = SNotStarted -> s_must_cancel s = true ->
    own_step w o s (at_pc (SDone NeverRan) s)
| os_crashed :
    s_pc s = SNotStarted -> s_must_cancel s = false ->
    tasks w !! s_task_id s = None ->
    own_step w o s (at_pc (SDone Crashed) s)
| os_bound r :
    s_pc s = SNotStarted -> s_must_cancel s = false ->
    tasks w !! s_task_id s = Some r ->
    own_step w o s (bind_task r s)
| os_resumed r t pc t' dumps :
    s_pc s <> SNotStarted -> done (s_pc s) = false ->
    s_task s = Some r -> heap w !! r = Some t ->
    session_resume (browser w) o s t = (pc, t', dumps) ->
    own_step w o s (at_pc pc s).

(** A step of [run_task] on the task object [r_task rn], holding [t]:
    [t1] is [t], or [t] with the counters reset (first step); [m] sessions
    are launched; [fin] tells whether the task is marked completed. *)
Definition run_result (cid : nat) (rn : Run) (w : World) (t t1 : Task)
    (b1 : bool) (m : nat) (fin : bool) (rn' : Run) : World :=
  let t2 := if fin then set_status Completed t1 else t1 in
  {| tasks := tasks w;
     heap := <[r_task rn := t2]> (heap w);
     session_tasks :=
       registered (id t) (r_session_id_counter rn) (length (coros w)) m
         (session_tasks w);
     browser := b1;
     coros := <[cid := CRun rn']> (coros w ++ launched t (r_session_id_counter rn) m);
     files := files w ++ (if fin then [save_to_file t2] else []) |}.

Definition past_init (pc : RunPc) : bool :=
  match pc with
  | RNotStarted | RInitBrowser | RFailed => false
  | _ => true
  end.

(** The bounds of [session_id_counter] along the wave loop. *)
Definition run_bounds (rn : Run) (session_count : Z) : Prop :=
  0 <= Timing.sessions_per_wave (r_plan rn)
  /\ (0 <= session_count -> Z.of_nat (r_session_id_counter rn) <= session_count)
  /\ match r_pc rn with
     | RNotStarted | RInitBrowser | RFailed => r_session_id_counter rn = 0%nat
     | RWaveNotify k =>
         Z.of_nat (r_session_id_counter rn)
         <= Timing.sessions_per_wave (r_plan rn) * Z.of_nat k
     | RWaveSleep k =>
         Z.of_nat (r_session_id_counter rn)
         <= Timing.sessions_per_wave (r_plan rn) * (Z.of_nat k + 1)
     | _ => True
     end.

Record run_facts (rn : Run) (w : World) (t t1 : Task) (b1 : bool) (m : nat)
    (fin : bool) (rn' : Run) : Prop := {
  rf_task : r_task rn' = r_task rn;
  rf_reset : (t1 = t /\ r_pc rn <> RNotStarted)
             \/ (t1 = reset_counters t /\ r_pc rn = RNotStarted);
  rf_browser : (b1 = browser w \/ b1 = true)
               /\ (past_init (r_pc rn') = true ->
                   b1 = true \/ past_init (r_pc rn) = true);
  rf_launch : (m = 0%nat /\ (r_session_id_counter rn' = r_session_id_counter rn
                             \/ (past_init (r_pc rn) = false
                                 /\ r_session_id_counter rn' = 0%nat)))
              \/ exists wave_num,
                   r_pc rn = RWaveNotify wave_num /\ status t = Running
                   /\ m = Z.to_nat (Timing.sessions_in_wave (r_plan rn)
                                      (session_count t) (Z.of_nat wave_num))
                   /\ r_session_id_counter rn' = (r_session_id_counter rn + m)%nat;
  rf_fin : fin = true ->
           status t1 = Running /\ r_pc rn' = RCompletedNotify
           /\ Registry.keys_with_prefix (id t)
                (registered (id t) (r_session_id_counter rn) (length (coros w)) m
                   (session_tasks w)) = [];
  rf_bounds : run_bounds rn (session_count t) -> run_bounds rn' (session_count t)
}.

(** * Invariants of the reachable worlds *)

Definition reachable (w : World) : Prop :=
  exists b evs, w = run evs (init b).

(** Session ids are the decimal numerals of the positive counter values. *)
Definition numeral (session_id : string) : Prop :=
  exists n : nat, (1 <= n)%nat /\ session_id = pretty n.

Record session_ok (w : World) (s : Session) : Prop := {
  so_numeral : numeral (s_session_id s);
  so_task_id : exists r t, heap w !! r = Some t /\ id t = s_task_id s;
  so_bound : forall r, s_task s = Some r ->
                       exists t, heap w !! r = Some t /\ id t = s_task_id s;
  so_unbound : s_task s = None -> s_pc s = SNotStarted \/ s_pc s = SDone NeverRan;
  so_not_crashed : s_pc s <> SDone Crashed;
  so_body : forall i k, s_pc s = SBody i k ->
                        (k < length (iteration_body (s_prompt s)))%nat;
  so_cancel : s_must_cancel s = true -> done (s_pc s) = false;
  so_requests : s_must_cancel s = true \/ s_pc s = SDone NeverRan ->
                (1 <= s_cancel_requests s)%nat
}.

Record run_ok (w : World) (rn : Run) : Prop := {
  ro_task : exists t, heap w !! r_task rn = Some t
                      /\ run_bounds rn (session_count t);
  ro_browser : past_init (r_pc rn) = true -> browser w = true
}.

Definition stop_ok (w : World) (st : Stop) : Prop :=
  forall key h rest, st_pc st = StopAwait key h rest ->
    exists s, coros w !! h = Some (CSession s)
              /\ key = session_key (s_task_id s) (s_session_id s)
              /\ (1 <= s_cancel_requests s)%nat.

Record wf (w : World) : Prop := {
  wf_tasks : forall k r, tasks w !! k = Some r ->
                         exists t, heap w !! r = Some t /\ id t = k;
  wf_heap : forall r t, heap w !! r = Some t -> is_Some (tasks w !! id t);
  wf_nodup : NoDup (Registry.keys (session_tasks w));
  wf_registry : forall k h, (k, h) ∈ session_tasks w ->
      exists s, coros w !! h = Some (CSession s)
                /\ k = session_key (s_task_id s) (s_session_id s)
                /\ (done (s_pc s) = true -> s_pc s = SDone NeverRan);
  wf_session : forall c s, coros w !! c = Some (CSession s) -> session_ok w s;
  wf_run : forall c rn, coros w !! c = Some (CRun rn) -> run_ok w rn;
  wf_stop : forall c st, coros w !! c = Some (CStop st) -> stop_ok w st;
  wf_browser : forall c s, coros w !! c = Some (CSession s) -> browser w = true
}.

(** ** Monotonicity *)

Definition heap_kept (w w' : World) : Prop :=
  forall r t, heap w !! r = Some t ->
    exists t', heap w' !! r = Some t' /\ id t' = id t
               /\ session_count t' = session_count t.

Definition sessions_kept (w w' : World) : Prop :=
  forall h s, coros w !! h = Some (CSession s) ->
    exists s', coros w' !! h = Some (CSession s')
               /\ s_task_id s' = s_task_id s /\ s_session_id s' = s_session_id s
               /\ (s_cancel_requests s <= s_cancel_requests s')%nat.

(** The entry [(k, h)] belongs to a session that a wave has launched in
    this step. *)
Definition launched_by (w : World) (e : Event) (k : string) (h : nat) : Prop :=
  exists cid o d rn rn' t n,
    e = Resume cid o d /\ coros w !! cid = Some (CRun rn)
    /\ coros (step e w) !! cid = Some (CRun rn')
    /\ heap w !! r_task rn = Some t /\ status t = Running
    /\ past_init (r_pc rn) = true
    /\ (r_session_id_counter rn < n <= r_session_id_counter rn')%nat
    /\ k = session_key (id t) (pretty n)
    /\ (length (coros w) <= h)%nat
    /\ coros (step e w) !! h = Some (CSession (new_session t (pretty n)))
    /\ Registry.lookup k (session_tasks (step e w)) = Some h.

(** The step of a [stop_task] coroutine, in closed form. *)
Inductive stop_resumed (cid : nat) (st : Stop) (w : World) : World -> Prop :=
| sr_stutter :
    (forall key h rest, st_pc st = StopAwait key h rest ->
       exit_of h w = None \/ (st_task st = None /\ exit_of h w <> Some Crashed)) ->
    stop_resumed cid st w w
| sr_crashed key h rest :
    st_pc st = StopAwait key h rest -> exit_of h w = Some Crashed ->
    stop_resumed cid st w
      (with_coros (<[cid := CStop (at_stop StopCrashed st)]> (coros w)) w)
| sr_loop key h rest e r pc w1 :
    st_pc st = StopAwait key h rest -> exit_of h w = Some e -> e <> Crashed ->
    st_task st = Some r ->
    stop_loop rest r (with_session_tasks (Registry.delete key (session_tasks w)) w)
    = (pc, w1) ->
    stop_resumed cid st w
      (with_coros (<[cid := CStop (at_stop pc st)]> (coros w1)) w1).

Definition same_kind (c c' : Coro) : Prop :=
  match c, c' with
  | CSession _, CSession _ => True
  | CRun rn, CRun rn' => r_task rn' = r_task rn
  | CStop st, CStop st' => st_task_id st' = st_task_id st /\ st_task st' = st_task st
  | _, _ => False
  end.

(** The [Task] object a session works on: the one it is bound to, or,
    before its first step, the one its task id names. *)
Definition session_task (cid : nat) (w : World) : option nat :=
  s ← session_at cid w;
  match s_task s with
  | Some r => Some r
  | None => tasks w !! s_task_id s
  end.

(** The session [cid] is resumed on its nominal path: no cancellation is
    pending, the awaited call answers without timeout or error, and the
    task is [Running].  Resuming a session that has ended does nothing. *)
Definition nominal_resume (cid : nat) (o : Outcome) (w : World) : bool :=
  match session_at cid w with
  | None => false
  | Some s =>
      done (s_pc s)
      || (match o with Ok => true | _ => false end
          && negb (s_must_cancel s)
          && bool_decide (session_task cid w ≫= (fun r => task_field status r w)
                          = Some Running))
  end.

(** Every event of the trace that resumes [cid] does so nominally. *)
Fixpoint nominal (cid : nat) (evs : list Event) (w : World) : bool :=
  match evs with
  | [] => true
  | e :: evs' =>
      match e with
      | Resume c o _ => if decide (c = cid) then nominal_resume cid o w else true
      | _ => true
      end
      && nominal cid evs' (step e w)
  end.

(** How often the trace resumes [cid]. *)
Fixpoint resumes (cid : nat) (evs : list Event) : nat :=
  match evs with
  | [] => 0
  | Resume c _ _ :: evs' => (if decide (c = cid) then 1 else 0) + resumes cid evs'
  | _ :: evs' => resumes cid evs'
  end.

(** What the steps of [cid] add to the counter [f] of its task. *)
Fixpoint contribution (f : Task -> Z) (cid : nat) (evs : list Event) (w : World)
    : Z :=
  match evs with
  | [] => 0
  | e :: evs' =>
      match e, session_at cid w ≫= s_task with
      | Resume c _ _, Some r =>
          if decide (c = cid)
          then default 0 (task_field f r (step e w)) - default 0 (task_field f r w)
          else 0
      | _, _ => 0
      end
      + contribution f cid evs' (step e w)
  end.

(** The number of [await]s of a session that runs its five iterations. *)
Definition session_steps (task_prompt : string) : nat :=
  6 + 5 * length (iteration_body task_prompt) + 4.

(** The [await]s left on the way of a session whose calls all succeed. *)
Definition remaining (task_prompt : string) (pc : SessPc) : nat :=
  let body := length (iteration_body task_prompt) in
  match pc with
  | SNotStarted => 10 + 5 * body
  | SStartDelay => 9 + 5 * body
  | SNewContext => 8 + 5 * body
  | SNewPage => 7 + 5 * body
  | SInitScript => 6 + 5 * body
  | SNotifyActive => 5 + 5 * body
  | SBody i k => (body - k) + (5 - i) * body + 4
  | SCleanup PageContent _ _ => 4
  | SCleanup ClosePage _ _ => 3
  | SCleanup CloseContext _ _ => 2
  | SCleanup NotifyUpdate _ _ => 1
  | SDone _ => 0
  end.

(** The iterations such a session has completed. *)
Definition credit (pc : SessPc) : Z :=
  match pc with
  | SBody i _ => Z.of_nat i - 1
  | SCleanup _ _ _ | SDone _ => 5
  | _ => 0
  end.

Definition on_track (task_prompt : string) (pc : SessPc) : Prop :=
  match pc with
  | SBody i k => (1 <= i <= 5)%nat /\ (k < length (iteration_body task_prompt))%nat
  | SCleanup _ how i => how = LoopEnded /\ i = 5%nat
  | SDone e => e = Finished LoopEnded 5
  | _ => True
  end.

(** * Counting over the coroutines *)

Definition sumZ {A} (f : A -> Z) (l : list A) : Z := foldr (fun c a => f c + a) 0 l.

(** What a coroutine holds of [active_sessions] of the task object [r]. *)
Definition held (r : nat) (c : Coro) : Z :=
  match c with
  | CSession s => if decide (s_task s = Some r) then holding (s_pc s) else 0
  | _ => 0
  end.

(** The sessions created for the task id [task_id]. *)
Definition member (task_id : string) (c : Coro) : Z :=
  match c with
  | CSession s => if decide (s_task_id s = task_id) then 1 else 0
  | _ => 0
  end.

(** [session_id_counter] of the runs of the task object [r]. *)
Definition launched_count (r : nat) (c : Coro) : Z :=
  match c with
  | CRun rn => if decide (r_task rn = r) then Z.of_nat (r_session_id_counter rn) else 0
  | _ => 0
  end.

(** No other [Task] object was created with the id of [r]. *)
Definition unique_id (r : nat) (w : World) : Prop :=
  forall t r' t', heap w !! r = Some t -> heap w !! r' = Some t' ->
                  id t' = id t -> r' = r.

(** [run_task] was called at most once on the task object [r]. *)
Definition single_run (r : nat) (w : World) : Prop :=
  forall c c' rn rn', coros w !! c = Some (CRun rn) -> coros w !! c' = Some (CRun rn') ->
                      r_task rn = r -> r_task rn' = r -> c = c'.

(** A weight that [cancel()] does not change. *)
Definition stable (f : Coro -> Z) : Prop :=
  forall c c', coro_frame c c' -> f c' = f c.

(** What the event changes in the weight of the coroutine it resumes. *)
Definition own_change (f : Coro -> Z) (e : Event) (w : World) : Z :=
  match e with
  | Resume cid _ _ =>
      match coros w !! cid, coros (step e w) !! cid with
      | Some c, Some c' => f c' - f c
      | _, _ => 0
      end
  | _ => 0
  end.

(** * Registry keys *)

Fixpoint no_underscore (s : string) : bool :=
  match s with
  | EmptyString => true
  | String a s' => negb (Ascii.eqb a "_"%char) && no_underscore s'
  end.

(** * What [stop_task] does to one registry entry *)

(** The session [h] has ended after a call of [cancel()], and the entry
    [(k, h)] is gone. *)
Definition processed (k : string) (h : nat) (w : World) : Prop :=
  ((k, h) ∉ session_tasks w)
  /\ exists s, coros w !! h = Some (CSession s) /\ done (s_pc s) = true
               /\ (1 <= s_cancel_requests s)%nat.

(** The key [k] is bound to [h] or to nothing. *)
Definition pending (k : string) (h : nat) (w : World) : Prop :=
  Registry.lookup k (session_tasks w) = Some h
  \/ Registry.lookup k (session_tasks w) = None.

(** Where [stop_task] is with the entry [(k, h)] of its snapshot. *)
Definition stop_inv (k : string) (h : nat) (pc : StopPc) (w : World) : Prop :=
  match pc with
  | StopAwait key hh rest =>
      (k ∈ rest /\ pending k h w)
      \/ (key = k /\ hh = h
          /\ exists s, coros w !! h = Some (CSession s)
                       /\ (1 <= s_cancel_requests s)%nat)
      \/ processed k h w
  | StopReturned => processed k h w
  | _ => True
  end.

(** The entry [(k, h)] is the one of a session of the task object [r]. *)
Definition owned (k : string) (h r : nat) (w : World) : Prop :=
  exists s t, coros w !! h = Some (CSession s) /\ heap w !! r = Some t
              /\ s_task_id s = id t
              /\ k = session_key (s_task_id s) (s_session_id s).

(** What the loop of [stop_task] relies on. *)
Definition loop_ok (w : World) : Prop :=
  NoDup (Registry.keys (session_tasks w))
  /\ forall k h, (k, h) ∈ session_tasks w ->
       exists s, coros w !! h = Some (CSession s)
                 /\ (done (s_pc s) = true -> (1 <= s_cancel_requests s)%nat).

(** * Further properties of the engine *)

(** The worlds used to instantiate the statements below: one task with one
    session, the session launched, and then resumed [n] times. *)
Definition launched_world (n : nat) : World :=
  run ([AddTask "t" "x" 1; StartTask "t"; Resume 0 Ok 0; Resume 0 Ok 0]
       ++ replicate n (Resume 1 Ok 0)) (init true).

(** * The result log of a task *)

(** [for r in rs: task.save_result(r.session_id, r.success, r.data)]: the
    calls made one after the other; the dumps are collected in order. *)
Fixpoint save_results (rs : list Result) (t : Task) : Task * list Snapshot :=
  match rs with
  | [] => (t, [])
  | r :: rs' =>
      let '(t1, d1) :=
        save_result (res_session_id r) (res_success r) (res_data r) t in
      let '(t2, d2) := save_results rs' t1 in
      (t2, d1 ++ d2)
  end.

(** A dump holds the first [10 * k] results of the log, for some [k >= 1]. *)
Definition full_page (log : list Result) (d : Snapshot) : Prop :=
  exists k : nat, (1 <= k)%nat /\ snap_results d = take (10 * k) log
                  /\ length (snap_results d) = (10 * k)%nat.

(** * The end of an iteration *)

(** The world used to instantiate the statements on the end of an
    iteration: the session of [launched_world] at its [n]-th resumption, with
    a cancellation requested by [stop_task] when [stopped] is set. *)
Definition body_world (n : nat) (stopped : bool) : World :=
  let w := launched_world n in
  if stopped then step (StopTask "t") w else w.

(** What the end of the iteration's [try] body records. *)
Definition iteration_recorded (s : Session) (i : nat) (t t' : Task) : Prop :=
  completed_sessions t' = completed_sessions t + 1
  /\ failed_sessions t' = failed_sessions t
  /\ status t' = status t
  /\ results t'
     = results t ++ [{| res_session_id := s_session_id s; res_success := true;
                        res_data := [("iteration", Z.of_nat i)] |}].

(** * Starting a task *)

(** The world in which a task was created and started while no browser is
    there. *)
Definition unlaunched_world : World :=
  run [AddTask "t" "x" 1; StartTask "t"] (init false).

(** * The reach of [stop_task] *)

(** The event is a step of a call [stop_task(task_id)]: the call itself, up
    to its first [await], or a resumption of its coroutine. *)
Definition runs_stop (task_id : string) (e : Event) (w : World) : Prop :=
  e = StopTask task_id
  \/ exists c o d st, e = Resume c o d /\ coros w !! c = Some (CStop st)
                      /\ st_task_id st = task_id.

(** The keys a suspended [stop_task] has still to handle are the rest of
    its [keys_to_remove]: they start with its task id. *)
Definition stop_scope (w : World) : Prop :=
  forall c st key h rest, coros w !! c = Some (CStop st) ->
    st_pc st = StopAwait key h rest ->
    Forall (fun k => String.prefix (st_task_id st) k = true) (key :: rest).

(** No two keys of the registry are bound to the same handle. *)
Definition handles_inj (d : Registry.t) : Prop :=
  forall k k' h, (k, h) ∈ d -> (k', h) ∈ d -> k = k'.

(** Two tasks, each started and with its one session launched. *)
Definition two_tasks_world : World :=
  run [AddTask "a" "x" 1; AddTask "b" "x" 1; StartTask "a"; StartTask "b";
       Resume 0 Ok 0; Resume 0 Ok 0; Resume 1 Ok 0; Resume 1 Ok 0] (init true).

(** * The Allow monitor *)

(** What wakes the coroutine [_monitor_and_click_allow] at an [await]: the
    awaited call answers ([button] tells whether [query_selector] found the
    Allow button; it is not looked at elsewhere), or the [CancelledError] of
    a [cancel()] is thrown there. *)
Inductive MonitorWake :=
| Answer (o : Outcome) (button : bool)
| CancelHere.

(** The [await]s of [_monitor_and_click_allow], and its ends. *)
Inductive MonitorPc :=
| MNotStarted
| MQuery          (* [await page.query_selector(...)] *)
| MPauseBefore    (* [await asyncio.sleep(random.uniform(0.3, 0.8))] *)
| MClick          (* [await allow_button.click()] *)
| MPauseAfter     (* [await asyncio.sleep(random.uniform(1, 2))] *)
| MPoll           (* [await asyncio.sleep(1)], the last line of the outer [try] *)
| MRecover        (* [await asyncio.sleep(1)] in [except Exception] *)
| MReturned       (* [except asyncio.CancelledError: ...; break] *)
| MCancelled      (* a [CancelledError] left the coroutine *)
| MRaised.        (* another exception left the coroutine *)

Record Monitor := {
  m_pc : MonitorPc;
  allow_count : nat
}.

Definition monitor_at (pc : MonitorPc) (m : Monitor) : Monitor :=
  {| m_pc := pc; allow_count := allow_count m |}.

(** The [await]s inside the inner [try], whose bare [except: pass] catches
    everything, [CancelledError] included. *)
Definition in_inner_try (pc : MonitorPc) : bool :=
  match pc with
  | MQuery | MPauseBefore | MClick | MPauseAfter => true
  | _ => false
  end.

Definition monitor_ended (pc : MonitorPc) : bool :=
  match pc with
  | MReturned | MCancelled | MRaised => true
  | _ => false
  end.

(** One resumption of the monitor, up to its next [await]. *)
Definition monitor_resume (e : MonitorWake) (m : Monitor) : Monitor :=
  match m_pc m, e with
  | MNotStarted, CancelHere => monitor_at MCancelled m
  | MNotStarted, Answer _ _ => monitor_at MQuery m
  | MQuery, Answer Ok true => monitor_at MPauseBefore m
  | MQuery, _ => monitor_at MPoll m
  | MPauseBefore, Answer Ok _ => monitor_at MClick m
  | MPauseBefore, _ => monitor_at MPoll m
  | MClick, Answer Ok _ =>
      {| m_pc := MPauseAfter; allow_count := S (allow_count m) |}
  | MClick, _ => monitor_at MPoll m
  | MPauseAfter, _ => monitor_at MPoll m
  | MPoll, Answer Ok _ => monitor_at MQuery m
  | MPoll, Answer _ _ => monitor_at MRecover m
  | MPoll, CancelHere => monitor_at MReturned m
  | MRecover, Answer Ok _ => monitor_at MQuery m
  | MRecover, Answer _ _ => monitor_at MRaised m
  | MRecover, CancelHere => monitor_at MCancelled m
  | (MReturned | MCancelled | MRaised), _ => m
  end.

Fixpoint monitor_run (evs : list MonitorWake) (m : Monitor) : Monitor :=
  match evs with
  | [] => m
  | e :: evs' => monitor_run evs' (monitor_resume e m)
  end.

(** The two [asyncio.sleep(1)] never raise: the trace answers them with
    [Ok] or cancels them. *)
Fixpoint sleeps_return (evs : list MonitorWake) (m : Monitor) : bool :=
  match evs with
  | [] => true
  | e :: evs' =>
      match m_pc m, e with
      | (MPoll | MRecover), Answer (Timeout | DriverError) _ => false
      | _, _ => true
      end
      && sleeps_return evs' (monitor_resume e m)
  end.

(** The monitor of the first version, [gemini_automation.py]: one [try]
    with [except Exception] only. *)
Inductive BasicMonitorPc :=
| BNotStarted
| BQuery         (* [await page.query_selector_all(...)] *)
| BClick         (* [await allow_buttons[-1].click()] *)
| BPause         (* [await asyncio.sleep(random.uniform(0.5, 1.5))] *)
| BPoll          (* [await asyncio.sleep(1)] *)
| BRecover       (* [await asyncio.sleep(1)] in [except Exception] *)
| BCancelled     (* a [CancelledError] left the coroutine *)
| BRaised.       (* another exception left the coroutine *)

Definition basic_monitor_resume (e : MonitorWake) (pc : BasicMonitorPc)
    : BasicMonitorPc :=
  match pc, e with
  | (BCancelled | BRaised), _ => pc
  | _, CancelHere => BCancelled
  | BNotStarted, Answer _ _ => BQuery
  | BQuery, Answer Ok true => BClick
  | BQuery, Answer Ok false => BPoll
  | BClick, Answer Ok _ => BPause
  | BPause, Answer Ok _ => BPoll
  | BPoll, Answer Ok _ => BQuery
  | (BQuery | BClick | BPause | BPoll), Answer _ _ => BRecover
  | BRecover, Answer Ok _ => BQuery
  | BRecover, Answer _ _ => BRaised
  end.

Fixpoint basic_monitor_run (evs : list MonitorWake) (pc : BasicMonitorPc)
    : BasicMonitorPc :=
  match evs with
  | [] => pc
  | e :: evs' => basic_monitor_run evs' (basic_monitor_resume e pc)
  end.

(** * Notifying the WebSocket clients *)

(** [ws_connections] is a list of connection objects, here numbered.
    [notify_clients] is taken while no other coroutine changes the list
    between its [await]s; [answers] are the outcomes of its calls of
    [send_json], in order. *)

(** [l.remove(c)]: the first occurrence goes. *)
Fixpoint list_remove (c : nat) (l : list nat) : list nat :=
  match l with
  | [] => []
  | x :: l' => if decide (x = c) then l' else x :: list_remove c l'
  end.

(** The first loop: [disconnected] collects the connections whose
    [send_json] raised. *)
Fixpoint disconnected (ws_connections : list nat) (answers : list Outcome)
    : list nat :=
  match ws_connections, answers with
  | c :: conns, Ok :: answers' => disconnected conns answers'
  | c :: conns, _ :: answers' => c :: disconnected conns answers'
  | _, _ => []
  end.

(** The second loop: [if connection in ws_connections: remove]. *)
Fixpoint drop_connections (gone : list nat) (ws_connections : list nat)
    : list nat :=
  match gone with
  | [] => ws_connections
  | c :: gone' =>
      drop_connections gone'
        (if bool_decide (c ∈ ws_connections) then list_remove c ws_connections
         else ws_connections)
  end.

Definition notify_clients (answers : list Outcome) (ws_connections : list nat)
    : list nat :=
  drop_connections (disconnected ws_connections answers) ws_connections.

(** The connections whose send succeeded. *)
Fixpoint delivered (ws_connections : list nat) (answers : list Outcome)
    : list nat :=
  match ws_connections, answers with
  | c :: conns, Ok :: answers' => c :: delivered conns answers'
  | c :: conns, _ :: answers' => delivered conns answers'
  | _, _ => []
  end.

(** * The first version of the manager: [gemini_automation.py]

    The first version has the same manager state and the same coroutines.
    Its [Task] has no [failed_sessions] and no [results] (the two fields
    below are never touched), its sessions have no iteration counter (the
    [iteration] of [SBody] and [SCleanup] counts, as a ghost, the iterations
    the session has completed) and no screenshots, and the control points
    [SInitScript], [SNotifyActive], [PageContent] and [NotifyUpdate] do not
    exist. *)

(** The [await]s of one iteration of the first [create_session]. *)
Definition basic_iteration_body (task_prompt : string) : list Await :=
  [Goto; LoadState; WaitInput; QueryInput; ClickInput; PauseInput]
  ++ flat_map (fun _ => [TypeChar; PauseChar]) (String.list_ascii_of_string task_prompt)
  ++ [WaitRun; QueryRun; PauseRun; ClickRun; OutcomeWindow; AwaitAllow;
      RestartWait; RestartPause; RestartClick; RestartSettle].

(** Entering the inner [finally]: [task.active_sessions -= 1], then up to
    [await page.close()]. *)
Definition basic_enter_finally (how : LoopExit) (iteration : nat) (t : Task)
    : SessPc * Task :=
  (SCleanup ClosePage how iteration, set_active (active_sessions t - 1) t).

(** [while task.status == "running":] *)
Definition basic_loop_test (iteration : nat) (t : Task) : SessPc * Task :=
  if bool_decide (status t = Running) then (SBody iteration 0, t)
  else basic_enter_finally LoopEnded iteration t.

(** The end of the loop body: [task.completed_sessions += 1]. *)
Definition basic_iteration_done (iteration : nat) (t : Task) : SessPc * Task :=
  basic_loop_test (S iteration) (set_completed (completed_sessions t + 1) t).

Definition basic_advance (s : Session) (iteration k : nat) (t : Task)
    : SessPc * Task :=
  if decide (S k < length (basic_iteration_body (s_prompt s)))%nat
  then (SBody iteration (S k), t)
  else basic_iteration_done iteration t.

(** Resuming a session that is suspended inside the inner [try], on the
    [Task] object it is bound to.  There is no handler inside the loop: an
    exception of the driver or a cancellation passes through the inner
    [finally] to the outer handlers, which both end the coroutine
    normally. *)
Definition basic_session_resume (o : Outcome) (s : Session) (t : Task)
    : SessPc * Task :=
  let cancelled := s_must_cancel s in
  match s_pc s with
  | SBody iteration k =>
      match basic_iteration_body (s_prompt s) !! k with
      | None => (s_pc s, t)
      | Some a =>
          if cancelled then
            match kind a with
            | AllowJoin => basic_advance s iteration k t
            | _ => basic_enter_finally LoopCancelled iteration t
            end
          else
            match kind a, o with
            | DriverCall, Ok => basic_advance s iteration k t
            | DriverCall, _ => basic_enter_finally LoopErrored iteration t
            | Sleep, _ | AllowJoin, _ | RestartSleep, _ => basic_advance s iteration k t
            | RestartCall, Ok => basic_advance s iteration k t
            | RestartCall, _ => basic_iteration_done iteration t
            end
      end
  | SCleanup stage how iteration =>
      if cancelled then (SDone Cancelled, t)
      else
        match stage, o with
        | ClosePage, Ok => (SCleanup CloseContext how iteration, t)
        | CloseContext, Ok =>
            (match how with
             | LoopEnded => SDone (Finished LoopEnded iteration)
             | LoopCancelled => SDone Cancelled
             | _ => SDone Errored
             end, t)
        | (ClosePage | CloseContext), _ => (SDone Errored, t)
        | (PageContent | NotifyUpdate), _ => (s_pc s, t)
        end
  | _ => (s_pc s, t)
  end.

(** The coroutine ends after one of the outer handlers: the outer
    [finally] removes its key. *)
Definition basic_end (cid : nat) (e : Exit) (s : Session) (w : World) : World :=
  with_session_tasks
    (Registry.delete (session_key (s_task_id s) (s_session_id s)) (session_tasks w))
    (with_coros (<[cid := CSession (at_pc (SDone e) s)]> (coros w)) w).

Definition basic_goto (cid : nat) (pc : SessPc) (s : Session) (w : World) : World :=
  with_coros (<[cid := CSession (at_pc pc s)]> (coros w)) w.

Definition basic_resume_session (cid : nat) (o : Outcome) (s : Session) (w : World)
    : World :=
  match s_pc s with
  | SDone _ | SInitScript | SNotifyActive => w
  | SNotStarted =>
      if s_must_cancel s
      then with_coros (<[cid := CSession (at_pc (SDone NeverRan) s)]> (coros w)) w
      else basic_goto cid SStartDelay s w
  | SStartDelay =>
      if s_must_cancel s then basic_end cid Cancelled s w
      else if browser w then basic_goto cid SNewContext s w
      else basic_end cid Errored s w          (* [raise RuntimeError] *)
  | SNewContext =>
      if s_must_cancel s then basic_end cid Cancelled s w
      else match o with
           | Ok => basic_goto cid SNewPage s w
           | _ => basic_end cid Errored s w
           end
  | SNewPage =>
      if s_must_cancel s then basic_end cid Cancelled s w
      else match o with
           | Ok =>
               match tasks w !! s_task_id s with
               | None => basic_end cid Errored s w      (* [KeyError] *)
               | Some r =>
                   match heap w !! r with
                   | None => w
                   | Some t =>
                       let '(pc, t') :=
                         basic_loop_test 0 (set_active (active_sessions t + 1) t) in
                       with_coros
                         (<[cid := CSession (at_pc pc (bind_task r s))]> (coros w))
                         (with_heap (<[r := t']> (heap w)) w)
                   end
               end
           | _ => basic_end cid Errored s w
           end
  | SBody _ _ | SCleanup _ _ _ =>
      match s_task s with
      | None => w
      | Some r =>
          match heap w !! r with
          | None => w
          | Some t =>
              let '(pc, t') := basic_session_resume o s t in
              let w1 := with_heap (<[r := t']> (heap w)) w in
              let w2 := with_coros (<[cid := CSession (at_pc pc s)]> (coros w1)) w1 in
              if done pc
              then with_session_tasks
                     (Registry.delete (session_key (s_task_id s) (s_session_id s))
                        (session_tasks w2)) w2
              else w2
          end
      end
  end.

(** [run_task] of the first version: no notification, and no wait for the
    sessions at the end. *)

(** [if task.status == "running": task.status = "completed"] *)
Definition basic_run_finish (r : nat) (w : World) : World :=
  match heap w !! r with
  | None => w
  | Some t =>
      if bool_decide (status t = Running)
      then with_heap (<[r := set_status Completed t]> (heap w)) w
      else w
  end.

(** One turn of [for wave_num in range(waves_count)], from the head of the
    loop to the [await] between two waves, or to the end of [run_task] when
    the wave is the last one. *)
Definition basic_run_wave (p : Timing.WavePlan) (wave_num : nat) (counter : nat)
    (r : nat) (w : World) : RunPc * nat * World :=
  match heap w !! r with
  | None => (RDone, counter, w)
  | Some t =>
      if (Z.of_nat wave_num <? Timing.waves_count p)
         && bool_decide (status t = Running)
      then
        let n := Timing.sessions_in_wave p (session_count t) (Z.of_nat wave_num) in
        let '(counter', w1) := launch (Z.to_nat n) r counter w in
        if Z.of_nat wave_num <? Timing.waves_count p - 1
        then (RWaveSleep wave_num, counter', w1)
        else (RDone, counter', basic_run_finish r w1)
      else (RDone, counter, basic_run_finish r w)
  end.

Definition basic_run_plan (cid : nat) (draw : Z) (rn : Run) (w : World) : World :=
  match heap w !! r_task rn with
  | None => w
  | Some t =>
      let p := Timing.plan_waves (session_count t) draw in
      let '(pc, counter, w1) := basic_run_wave p 0 0 (r_task rn) w in
      with_coros (<[cid := CRun (at_run pc p counter rn)]> (coros w1)) w1
  end.

(** [task.status = "running"; task.active_sessions = 0;
    task.completed_sessions = 0] *)
Definition basic_reset_counters (t : Task) : Task :=
  set_completed 0 (set_active 0 (set_status Running t)).

Definition basic_resume_run (cid : nat) (o : Outcome) (draw : Z) (rn : Run)
    (w : World) : World :=
  let r := r_task rn in
  match r_pc rn with
  | RNotStarted =>
      match heap w !! r with
      | None => w
      | Some t =>
          let w1 := with_heap (<[r := basic_reset_counters t]> (heap w)) w in
          if browser w1 then basic_run_plan cid draw rn w1
          else with_coros
                 (<[cid := CRun (at_run RInitBrowser (r_plan rn) 0 rn)]> (coros w1)) w1
      end
  | RInitBrowser =>
      match o with
      | Ok => basic_run_plan cid draw rn (with_browser true w)
      | _ => with_coros
               (<[cid := CRun (at_run RFailed (r_plan rn) 0 rn)]> (coros w)) w
      end
  | RWaveSleep wave_num =>
      let '(pc, counter, w1) :=
        basic_run_wave (r_plan rn) (S wave_num) (r_session_id_counter rn) r w in
      with_coros (<[cid := CRun (at_run pc (r_plan rn) counter rn)]> (coros w1)) w1
  | _ => w
  end.

(** [stop_task] of the first version: [del self.session_tasks[key]] is not
    guarded, and nothing is written. *)
Fixpoint basic_stop_loop (keys : list string) (w : World) : StopPc * World :=
  match keys with
  | [] => (StopReturned, w)
  | key :: rest =>
      match Registry.lookup key (session_tasks w) with
      | None => (StopKeyError, w)
      | Some h =>
          let w1 := cancel h w in
          match exit_of h w1 with
          | None => (StopAwait key h rest, w1)
          | Some _ =>
              match Registry.lookup key (session_tasks w1) with
              | None => (StopKeyError, w1)
              | Some _ =>
                  basic_stop_loop rest
                    (with_session_tasks (Registry.delete key (session_tasks w1)) w1)
              end
          end
      end
  end.

Definition basic_stop_task (task_id : string) (w : World) : World :=
  match tasks w !! task_id with
  | None =>
      spawn (CStop {| st_task_id := task_id; st_task := None;
                      st_pc := StopNotFound |}) w
  | Some r =>
      match heap w !! r with
      | None => w
      | Some t =>
          let w1 := with_heap (<[r := set_status Stopped t]> (heap w)) w in
          let keys_to_remove :=
            Registry.keys_with_prefix task_id (session_tasks w1) in
          let '(pc, w2) := basic_stop_loop keys_to_remove w1 in
          spawn (CStop {| st_task_id := task_id; st_task := Some r;
                          st_pc := pc |}) w2
      end
  end.

(** Resuming [stop_task] at its [await], once the awaited session is done:
    [del self.session_tasks[key]] comes next. *)
Definition basic_resume_stop (cid : nat) (st : Stop) (w : World) : World :=
  match st_pc st with
  | StopAwait key h rest =>
      match exit_of h w with
      | None => w
      | Some _ =>
          match Registry.lookup key (session_tasks w) with
          | None =>
              with_coros (<[cid := CStop (at_stop StopKeyError st)]> (coros w)) w
          | Some _ =>
              let '(pc, w1) :=
                basic_stop_loop rest
                  (with_session_tasks (Registry.delete key (session_tasks w)) w) in
              with_coros (<[cid := CStop (at_stop pc st)]> (coros w1)) w1
          end
      end
  | _ => w
  end.

Definition basic_step (e : Event) (w : World) : World :=
  match e with
  | AddTask task_id prompt n => add_task task_id prompt n w
  | StartTask task_id => start_task task_id w
  | StopTask task_id => basic_stop_task task_id w
  | Resume cid o draw =>
      match coros w !! cid with
      | Some (CSession s) => basic_resume_session cid o s w
      | Some (CRun rn) => basic_resume_run cid o draw rn w
      | Some (CStop st) => basic_resume_stop cid st w
      | None => w
      end
  end.

Fixpoint basic_run (evs : list Event) (w : World) : World :=
  match evs with
  | [] => w
  | e :: evs' => basic_run evs' (basic_step e w)
  end.

(** The session [c] is suspended at the [k]-th [await] of the body, bound
    to the task object [r], which holds [t]; no cancellation is pending. *)
Definition basic_in_body (w : World) (c r i k : nat) (p : string) (t : Task)
    : Prop :=
  exists s, coros w !! c = Some (CSession s) /\ s_task s = Some r
            /\ s_prompt s = p /\ s_pc s = SBody i k /\ s_must_cancel s = false
            /\ heap w !! r = Some t.

(** A task with two sessions, started in the first version, after its
    first wave. *)
Definition basic_two_waves : World :=
  basic_run [AddTask "t" "x" 2; StartTask "t"; Resume 0 Ok 0] (init true).

(** The first session of [basic_two_waves], resumed [n] times. *)
Definition basic_session_world (n : nat) : World :=
  basic_run (replicate n (Resume 1 Ok 0)) basic_two_waves.

(** What a resumption of the session [s] may have done to the rest of the
    world: when it has ended the coroutine, the key of the session is gone. *)
Definition basic_resumed (cid : nat) (s : Session) (w w' : World) : Prop :=
  length (coros w') = length (coros w)
  /\ (forall j, j <> cid -> coros w' !! j = coros w !! j)
  /\ exists s', coros w' !! cid = Some (CSession s')
       /\ s_task_id s' = s_task_id s /\ s_session_id s' = s_session_id s
       /\ s_pc s' <> SNotStarted
       /\ ((done (s_pc s') = done (s_pc s) /\ session_tasks w' = session_tasks w)
           \/ (done (s_pc s) = false /\ done (s_pc s') = true
               /\ session_tasks w'
                  = Registry.delete (session_key (s_task_id s) (s_session_id s))
                      (session_tasks w))).

(** A task with two sessions in the first version, both launched, the
    first one started. *)
Definition basic_started_world : World :=
  basic_run [AddTask "t" "x" 2; StartTask "t"; Resume 0 Ok 0; Resume 0 Ok 0;
             Resume 1 Ok 0; Resume 1 Ok 0] (init true).

(** * How much one session adds to the counters *)

(** [iteration] of a session never goes beyond five. *)
Definition iter_ok (s : Session) : Prop :=
  forall i k, s_pc s = SBody i k -> (i <= 5)%nat.

(** What a session may have added to [failed_sessions] so far: one for the
    timeout that ended its loop, and two once it has ended, since the outer
    handlers count a session that the timeout handler has counted already. *)
Definition failures (pc : SessPc) : Z :=
  match pc with
  | SCleanup _ LoopTimedOut _ => 1
  | SDone _ => 2
  | _ => 0
  end.

(** The weight [wt] of the sessions that are bound to the task object [r]. *)
Definition spent (wt : SessPc -> Z) (r : nat) (c : Coro) : Z :=
  match c with
  | CSession s => if decide (s_task s = Some r) then wt (s_pc s) else 0
  | _ => 0
  end.

(** A session of [launched_world] whose first call times out and whose
    cleanup is then cancelled by [stop_task]. *)
Definition twice_failed_world : World :=
  run [Resume 1 Timeout 0; StopTask "t"; Resume 1 Ok 0] (launched_world 6).

(** * After [stop_task] *)

(** A task of seven sessions, stopped while [run_task] sleeps between its
    first and its second wave. *)
Definition stopped_between_waves : World :=
  run [AddTask "t" "x" 7; StartTask "t"; Resume 0 Ok 0; Resume 0 Ok 0;
       StopTask "t"] (init true).

(** * The status of a task in both versions *)

(** No event of the trace starts a run of [r], in the first version. *)
Fixpoint basic_never_started (r : nat) (evs : list Event) (w : World) : bool :=
  match evs with
  | [] => true
  | e :: evs' =>
      negb (starts_run r e w) && basic_never_started r evs' (basic_step e w)
  end.

(** The worlds of the witness: [one_session_ended] is a task whose only
    session has ended while [run_task] waits for it; in [stopped_in_waves]
    and [basic_stopped_in_waves] a task of seven sessions is stopped while
    its [run_task] sleeps after the first wave. *)
Definition one_session_ended : World :=
  run [AddTask "t" "x" 1; StartTask "t"; Resume 0 Ok 0; Resume 0 Ok 0;
       Resume 1 Ok 0; Resume 1 Ok 0; Resume 1 DriverError 0] (init true).

Definition stopped_in_waves : World :=
  run [AddTask "t" "x" 7; StartTask "t"; Resume 0 Ok 0; Resume 0 Ok 0;
       StopTask "t"] (init true).

Definition basic_stopped_in_waves : World :=
  basic_run [AddTask "t" "x" 7; StartTask "t"; Resume 0 Ok 0; StopTask "t"]
    (init true).

(** * Properties *)

Ltac task_simpl :=
  unfold set_failed, set_completed, set_active, set_status, set_results in *;
  simpl in *.

Lemma save_result_spec sid b d t t' dumps :
  save_result sid b d t = (t', dumps) ->
  id t' = id t /\ prompt t' = prompt t /\ session_count t' = session_count t
  /\ status t' = status t /\ active_sessions t' = active_sessions t
  /\ completed_sessions t' = completed_sessions t
  /\ failed_sessions t' = failed_sessions t
  /\ results t' = results t ++ [{| res_session_id := sid; res_success := b;
                                   res_data := d |}]
  /\ dumps = (if Z.of_nat (length (results t')) mod 10 =? 0
              then [save_to_file t'] else []).
Proof.
  unfold save_result. case_match eqn:E; intros [= <- <-]; task_simpl; rewrite E;
    repeat split; reflexivity.
Qed.

Lemma task_step_same pc pc' t : holding pc = holding pc' -> task_step pc pc' t t.
Proof. intros E. split; try lia; try reflexivity. exists []. by rewrite app_nil_r. Qed.

Lemma task_step_refl pc t : task_step pc pc t t.
Proof. by apply task_step_same. Qed.

Lemma loop_test_spec i t pc t' :
  loop_test i t = (pc, t') ->
  (pc = SBody (S i) 0 /\ t' = t /\ status t = Running /\ (i < 5)%nat)
  \/ (pc = SCleanup PageContent LoopEnded i
      /\ t' = set_active (active_sessions t - 1) t
      /\ (status t <> Running \/ (5 <= i)%nat)).
Proof.
  unfold loop_test, enter_finally.
  destruct (bool_decide (status t = Running)) eqn:E1;
    destruct (i <? 5)%nat eqn:E2; simpl; intros [= <- <-].
  - left. apply bool_decide_eq_true in E1. apply Nat.ltb_lt in E2. done.
  - right. apply Nat.ltb_ge in E2. auto.
  - right. apply bool_decide_eq_false in E1. auto.
  - right. apply bool_decide_eq_false in E1. auto.
Qed.

Lemma iteration_done_spec s i t pc t' dumps :
  iteration_done s i t = (pc, t', dumps) ->
  exists t1,
    save_result (s_session_id s) true [("iteration", Z.of_nat i)]
      (set_completed (completed_sessions t + 1) t) = (t1, dumps)
    /\ loop_test i t1 = (pc, t').
Proof.
  unfold iteration_done.
  destruct (save_result _ _ _ _) as [t1 d] eqn:E1.
  destruct (loop_test i t1) as [pc1 t3] eqn:E2.
  intros [= <- <- <-]. eauto.
Qed.

Lemma iteration_done_task_step s i k t pc t' dumps :
  iteration_done s i t = (pc, t', dumps) -> task_step (SBody i k) pc t t'.
Proof.
  intros (t1 & H1 & H2)%iteration_done_spec.
  apply save_result_spec in H1 as (?&?&?&?&?&?&?&?&?).
  apply loop_test_spec in H2 as [(-> & -> & _)|(-> & -> & _)];
    task_simpl; split; simpl; try lia; try congruence; eauto.
Qed.

Lemma advance_task_step s i k t pc t' dumps :
  advance s i k t = (pc, t', dumps) -> task_step (SBody i k) pc t t'.
Proof.
  unfold advance. case_decide.
  - intros [= <- <- <-]. by apply task_step_same.
  - apply iteration_done_task_step.
Qed.

Ltac ts_solve :=
  split; task_simpl; simpl; try lia; try reflexivity;
  try (exists []; by rewrite app_nil_r).

Lemma session_resume_task_step b o s t pc t' dumps :
  session_resume b o s t = (pc, t', dumps) -> task_step (s_pc s) pc t t'.
Proof.
  unfold session_resume, outer_handler, enter_finally. intros H.
  destruct (s_pc s) as [| | | | | |i k|stage how i|e] eqn:Hpc.
  all: simplify_eq/=; repeat (case_match; simplify_eq/=); try solve [ts_solve].
  all: try (by eapply advance_task_step).
  all: try (by eapply iteration_done_task_step).
  all: try match goal with
       | H : loop_test _ _ = _ |- _ =>
           apply loop_test_spec in H as [(-> & -> & _)|(-> & -> & _)];
           solve [ts_solve]
       end.
Qed.

(** * The registry as a dictionary *)

Module RegistryFacts.

Import Registry.

Lemma lookup_insert_eq k v d : lookup k (insert k v d) = Some v.
Proof.
  induction d as [|[k' v'] d IH]; simpl.
  - by rewrite decide_True.
  - destruct (decide (k' = k)) as [->|Hne]; simpl.
    + by rewrite decide_True.
    + by rewrite decide_False.
Qed.

Lemma lookup_insert_ne k k' v d : k <> k' -> lookup k' (insert k v d) = lookup k' d.
Proof.
  intros Hne. induction d as [|[k0 v0] d IH]; simpl.
  - by rewrite decide_False.
  - destruct (decide (k0 = k)) as [->|Hne0]; simpl.
    + by rewrite !decide_False.
    + destruct (decide (k0 = k')); done.
Qed.

Lemma lookup_Some_elem k v d : lookup k d = Some v -> (k, v) ∈ d.
Proof.
  induction d as [|[k0 v0] d IH]; simpl; [done|].
  destruct (decide (k0 = k)) as [->|Hne].
  - intros [= ->]. left.
  - intros H. right. auto.
Qed.

Lemma lookup_None_keys k d : lookup k d = None <-> k ∉ keys d.
Proof.
  unfold keys. induction d as [|[k0 v0] d IH]; simpl.
  - split; [intros _; apply not_elem_of_nil|done].
  - rewrite not_elem_of_cons. destruct (decide (k0 = k)) as [->|Hne].
    + split; [done|]. intros [? _]. done.
    + rewrite IH. split; [intros ?; split; [congruence|done]|intros [_ ?]; done].
Qed.

Lemma elem_lookup k v d : NoDup (keys d) -> (k, v) ∈ d -> lookup k d = Some v.
Proof.
  unfold keys. induction d as [|[k0 v0] d IH]; simpl.
  - intros _ H. by apply elem_of_nil in H.
  - intros [Hk Hd]%NoDup_cons [[= -> ->]|Hin]%elem_of_cons.
    + by rewrite decide_True.
    + rewrite decide_False; [auto|].
      intros ->. apply Hk. apply list_elem_of_fmap. by exists (k, v).
Qed.

Lemma keys_insert_in k v d : k ∈ keys d -> keys (insert k v d) = keys d.
Proof.
  unfold keys. induction d as [|[k0 v0] d IH]; cbn [insert map fst].
  - intros H. by apply elem_of_nil in H.
  - intros H. destruct (decide (k0 = k)) as [->|Hne]; cbn [map fst]; [done|].
    apply elem_of_cons in H as [->|H]; [done|]. by rewrite IH.
Qed.

Lemma keys_insert_notin k v d : k ∉ keys d -> keys (insert k v d) = keys d ++ [k].
Proof.
  unfold keys. induction d as [|[k0 v0] d IH]; cbn [insert map fst]; [done|].
  intros [Hne Hin]%not_elem_of_cons.
  rewrite decide_False by congruence. cbn [map fst]. by rewrite IH.
Qed.

Lemma NoDup_insert k v d : NoDup (keys d) -> NoDup (keys (insert k v d)).
Proof.
  intros H. destruct (decide (k ∈ keys d)).
  - by rewrite keys_insert_in.
  - rewrite keys_insert_notin by done.
    apply NoDup_app. split; [done|]. split; [|apply NoDup_singleton].
    intros x Hx ->%list_elem_of_singleton. done.
Qed.

Lemma elem_delete k x d : x ∈ delete k d -> x ∈ d.
Proof.
  induction d as [|[k0 v0] d IH]; simpl; [done|].
  destruct (decide (k0 = k)).
  - by right.
  - intros [->|?]%elem_of_cons; [left|right; auto].
Qed.

Lemma keys_delete_subseteq k d : keys (delete k d) ⊆ keys d.
Proof.
  intros x (y & -> & Hy)%list_elem_of_fmap.
  apply list_elem_of_fmap. exists y. split; [done|]. by eapply elem_delete.
Qed.

Lemma NoDup_delete k d : NoDup (keys d) -> NoDup (keys (delete k d)).
Proof.
  unfold keys. induction d as [|[k0 v0] d IH]; simpl; [done|].
  intros [Hk Hd]%NoDup_cons. destruct (decide (k0 = k)); [done|].
  simpl. apply NoDup_cons. split; [|auto].
  intros Hin. apply Hk. by eapply (keys_delete_subseteq k).
Qed.

Lemma lookup_delete_eq k d : NoDup (keys d) -> lookup k (delete k d) = None.
Proof.
  unfold keys. induction d as [|[k0 v0] d IH]; simpl; [done|].
  intros [Hk Hd]%NoDup_cons. destruct (decide (k0 = k)) as [->|Hne].
  - by apply lookup_None_keys.
  - simpl. rewrite decide_False by done. auto.
Qed.

Lemma lookup_delete_ne k k' d : k <> k' -> lookup k' (delete k d) = lookup k' d.
Proof.
  intros Hne. induction d as [|[k0 v0] d IH]; simpl; [done|].
  destruct (decide (k0 = k)) as [->|Hne0]; simpl.
  - by rewrite decide_False.
  - by destruct (decide (k0 = k')).
Qed.

Lemma prefix_app p s : String.prefix p (p +:+ s) = true.
Proof.
  induction p as [|a p IH]; simpl; [by destruct s|].
  destruct (Ascii.ascii_dec a a); [done|congruence].
Qed.

Lemma prefix_trans p q s :
  String.prefix p q = true -> String.prefix q s = true -> String.prefix p s = true.
Proof.
  revert q s. induction p as [|a p IH]; intros q s; [by destruct s|].
  destruct q as [|b q]; [done|]. destruct s as [|c s]; [done|]. simpl.
  destruct (Ascii.ascii_dec a b) as [->|]; [|done].
  destruct (Ascii.ascii_dec b c) as [->|]; [|done].
  destruct (Ascii.ascii_dec c c); [|done]. apply IH.
Qed.

Lemma elem_keys_with_prefix p k d :
  k ∈ keys_with_prefix p d <-> k ∈ keys d /\ String.prefix p k = true.
Proof. unfold keys_with_prefix. rewrite list_elem_of_filter. tauto. Qed.

End RegistryFacts.

Lemma launch_running n : forall r counter w t,
  heap w !! r = Some t -> status t = Running ->
  launch n r counter w
  = ((counter + n)%nat,
     with_session_tasks
       (registered (id t) counter (length (coros w)) n (session_tasks w))
       (with_coros (coros w ++ launched t counter n) w)).
Proof.
  induction n as [|n IH]; intros r counter w t Ht Hs; simpl.
  - rewrite Nat.add_0_r, app_nil_r. by destruct w.
  - rewrite Ht, bool_decide_eq_true_2 by done.
    erewrite IH; [|exact Ht|exact Hs].
    unfold spawn, with_session_tasks, with_coros. simpl.
    rewrite length_app, <- app_assoc. simpl.
    do 2 f_equal; [lia|]. do 2 f_equal. lia.
Qed.

Lemma launch_not_running n r counter w t :
  heap w !! r = Some t -> status t <> Running -> launch n r counter w = (counter, w).
Proof.
  intros Ht Hs. destruct n; simpl; [done|].
  by rewrite Ht, bool_decide_eq_false_2.
Qed.

Lemma launched_length t counter n : length (launched t counter n) = n.
Proof. revert counter. induction n; intros; simpl; auto. Qed.

Lemma launched_lookup t counter n j :
  (j < n)%nat ->
  launched t counter n !! j = Some (CSession (new_session t (pretty (counter + 1 + j)%nat))).
Proof.
  revert counter j. induction n as [|n IH]; intros counter j Hj; [lia|].
  destruct j as [|j]; simpl.
  - do 4 f_equal. lia.
  - rewrite IH by lia. do 4 f_equal. lia.
Qed.

Lemma cancelled_from_refl s : cancelled_from s s.
Proof. unfold cancelled_from. tauto. Qed.

Lemma cancelled_from_trans s1 s2 s3 :
  cancelled_from s1 s2 -> cancelled_from s2 s3 -> cancelled_from s1 s3.
Proof.
  unfold cancelled_from.
  intros (?&?&?&?&Hpc&Ha) (?&?&?&?&?&Hb).
  repeat split; try congruence.
  rewrite Hpc in Hb.
  destruct Ha as [[? ?]|(?&?&?)], Hb as [[? ?]|(?&?&?)]; [left|right..];
    repeat split; try congruence; lia.
Qed.

Lemma coro_frame_refl c : coro_frame c c.
Proof. destruct c; simpl; eauto using cancelled_from_refl. Qed.

Lemma coro_frame_trans c1 c2 c3 :
  coro_frame c1 c2 -> coro_frame c2 c3 -> coro_frame c1 c3.
Proof.
  destruct c1; simpl.
  - intros (s2 & -> & H12) (s3 & -> & H23). eauto using cancelled_from_trans.
  - intros -> H. exact H.
  - intros -> H. exact H.
Qed.

Lemma coros_frame_refl l : coros_frame l l.
Proof. intros i c H. eauto using coro_frame_refl. Qed.

Lemma coros_frame_trans l1 l2 l3 :
  coros_frame l1 l2 -> coros_frame l2 l3 -> coros_frame l1 l3.
Proof.
  intros H12 H23 i c H.
  destruct (H12 i c H) as (c2 & H2 & ?).
  destruct (H23 i c2 H2) as (c3 & H3 & ?).
  eauto using coro_frame_trans.
Qed.

Lemma coros_frame_app l l' : coros_frame l (l ++ l').
Proof.
  intros i c H. exists c. split; [|apply coro_frame_refl].
  by apply lookup_app_l_Some.
Qed.

Lemma coros_frame_insert l i c c' :
  l !! i = Some c -> coro_frame c c' -> coros_frame l (<[i := c']> l).
Proof.
  intros Hi Hf j cj Hj. destruct (decide (i = j)) as [<-|Hne].
  - exists c'. rewrite list_lookup_insert_eq by (by eapply lookup_lt_Some).
    split; [done|]. congruence.
  - exists cj. rewrite list_lookup_insert_ne by done. split; [done|apply coro_frame_refl].
Qed.

Lemma coros_frame_but_insert cid l l' c :
  coros_frame l l' -> coros_frame_but cid l (<[cid := c]> l').
Proof.
  intros H i ci Hne Hi. rewrite list_lookup_insert_ne by done. by apply H.
Qed.

Lemma request_cancel_from s : done (s_pc s) = false -> cancelled_from s (request_cancel s).
Proof. intros H. unfold cancelled_from; simpl. repeat split; try done. right. auto with lia. Qed.

Lemma cancel_spec h w :
  tasks (cancel h w) = tasks w /\ heap (cancel h w) = heap w
  /\ session_tasks (cancel h w) = session_tasks w
  /\ browser (cancel h w) = browser w /\ files (cancel h w) = files w
  /\ length (coros (cancel h w)) = length (coros w)
  /\ coros_frame (coros w) (coros (cancel h w)).
Proof.
  unfold cancel. destruct (coros w !! h) as [[s| |]|] eqn:E;
    try by (repeat split; try done; apply coros_frame_refl).
  destruct (s_pc s) eqn:Hpc; simpl; rewrite ?length_insert;
    repeat split; try done; try apply coros_frame_refl.
  all: eapply coros_frame_insert; [done|]; simpl; eexists; split; [done|];
    apply request_cancel_from; by rewrite Hpc.
Qed.

Lemma exit_of_cancel h h' w e : exit_of h (cancel h' w) = Some e <-> exit_of h w = Some e.
Proof.
  unfold exit_of, cancel.
  destruct (coros w !! h') as [[s| |]|] eqn:E; try done.
  destruct (s_pc s) eqn:Hpc; try done; simpl.
  all: destruct (decide (h = h')) as [->|Hne];
    [rewrite list_lookup_insert_eq by (by eapply lookup_lt_Some); rewrite E; simpl;
     rewrite Hpc; done
    |rewrite list_lookup_insert_ne by done; done].
Qed.

Lemma stop_effect_refl w : stop_effect w w.
Proof. split; auto using coros_frame_refl. Qed.

Lemma stop_effect_trans w1 w2 w3 :
  files w2 = files w1 -> stop_effect w1 w2 -> stop_effect w2 w3 -> stop_effect w1 w3.
Proof.
  intros Hf [] []. split; try congruence; eauto using coros_frame_trans.
  destruct se_files1 as [?|(r & t & ? & ?)]; [left; congruence|].
  right. exists r, t. split; congruence.
Qed.

Lemma stop_effect_cancel h w : stop_effect w (cancel h w).
Proof.
  destruct (cancel_spec h w) as (?&?&E&?&?&?&?).
  split; auto; rewrite E; auto.
Qed.

Lemma stop_effect_delete k w :
  stop_effect w (with_session_tasks (Registry.delete k (session_tasks w)) w).
Proof.
  split; simpl; auto using coros_frame_refl, RegistryFacts.NoDup_delete.
  intros x. apply RegistryFacts.elem_delete.
Qed.

Lemma stop_loop_effect keys r : forall w pc w',
  stop_loop keys r w = (pc, w') -> stop_effect w w'.
Proof.
  induction keys as [|key rest IH]; intros w pc w'; simpl.
  - destruct (heap w !! r) as [t|] eqn:Ht; intros [= <- <-].
    + split; simpl; auto using coros_frame_refl. right. eauto.
    + apply stop_effect_refl.
  - destruct (Registry.lookup key (session_tasks w)) as [h|] eqn:Hk.
    2: { intros [= <- <-]. apply stop_effect_refl. }
    destruct (exit_of h (cancel h w)) as [e|] eqn:He.
    2: { intros [= <- <-]. apply stop_effect_cancel. }
    pose proof (stop_effect_cancel h w) as Hc.
    assert (files (cancel h w) = files w) as Hf by apply cancel_spec.
    assert (forall z, stop_loop rest r
        (with_session_tasks (Registry.delete key (session_tasks (cancel h w)))
           (cancel h w)) = z -> z = (pc, w') -> stop_effect w w') as Hrec.
    { intros z Hz ->. apply IH in Hz.
      eapply stop_effect_trans; [exact Hf|exact Hc|].
      eapply stop_effect_trans; [|apply stop_effect_delete|exact Hz]. done. }
    destruct e; try (intros H; by eapply Hrec).
    intros [= <- <-]. exact Hc.
Qed.

Lemma registry_sessions_effect w w' :
  stop_effect w w' -> registry_sessions w -> registry_sessions w'.
Proof.
  intros [] H k h Hin. apply se_registry0 in Hin.
  destruct (H k h Hin) as (s & Hs).
  destruct (se_coros0 h _ Hs) as (c' & Hc' & s' & -> & _). eauto.
Qed.

Lemma cancel_live h w s :
  coros w !! h = Some (CSession s) ->
  exit_of h (cancel h w) = None ->
  exists s', coros (cancel h w) !! h = Some (CSession s')
             /\ done (s_pc s') = false /\ s_must_cancel s' = true
             /\ (1 <= s_cancel_requests s')%nat.
Proof.
  intros Hh He. rewrite eq_None_not_Some in He.
  assert (exit_of h w = None) as He'.
  { destruct (exit_of h w) eqn:E; [|done]. exfalso. apply He.
    exists e. by apply exit_of_cancel. }
  unfold exit_of in He'. rewrite Hh in He'.
  unfold cancel. rewrite Hh.
  destruct (s_pc s) eqn:Hpc; try done.
  all: simpl; rewrite list_lookup_insert_eq by (by eapply lookup_lt_Some);
    exists (request_cancel s); simpl; rewrite Hpc; repeat split; try done; lia.
Qed.

(** The control point [stop_loop] stops at. *)
Lemma stop_loop_pc keys r : forall w pc w',
  registry_sessions w ->
  stop_loop keys r w = (pc, w') ->
  match pc with
  | StopAwait key h rest =>
      exists s, coros w' !! h = Some (CSession s)
                /\ done (s_pc s) = false /\ s_must_cancel s = true
                /\ (1 <= s_cancel_requests s)%nat
                /\ key ∈ keys
                /\ Registry.lookup key (session_tasks w') = Some h
                /\ (forall k, k ∈ rest -> k ∈ keys)
  | StopNotFound => False
  | _ => True
  end.
Proof.
  induction keys as [|key rest IH]; intros w pc w' Hreg; simpl.
  - destruct (heap w !! r); by intros [= <- <-].
  - destruct (Registry.lookup key (session_tasks w)) as [h|] eqn:Hk.
    2: by intros [= <- <-].
    destruct (exit_of h (cancel h w)) as [e|] eqn:He.
    + assert (forall z, stop_loop rest r
          (with_session_tasks (Registry.delete key (session_tasks (cancel h w)))
             (cancel h w)) = z -> z = (pc, w') ->
          match pc with
          | StopAwait key0 h0 rest0 =>
              exists s, coros w' !! h0 = Some (CSession s)
                /\ done (s_pc s) = false /\ s_must_cancel s = true
                /\ (1 <= s_cancel_requests s)%nat
                /\ key0 ∈ key :: rest
                /\ Registry.lookup key0 (session_tasks w') = Some h0
                /\ (forall k, k ∈ rest0 -> k ∈ key :: rest)
          | StopNotFound => False
          | _ => True
          end) as Hrec.
      { intros z Hz ->. apply IH in Hz.
        2: { eapply registry_sessions_effect; [|exact Hreg].
             eapply stop_effect_trans; [|apply stop_effect_cancel|apply stop_effect_delete].
             apply cancel_spec. }
        destruct pc; try done.
        destruct Hz as (s & ? & ? & ? & ? & ? & ? & ?).
        exists s. repeat split; try done; [by right|].
        intros k ?. right. auto. }
      destruct e; try (intros H; by eapply Hrec).
      by intros [= <- <-].
    + intros [= <- <-].
      destruct (Hreg key h) as (s & Hs); [by apply RegistryFacts.lookup_Some_elem|].
      destruct (cancel_live h w s Hs He) as (s' & ? & ? & ? & ?).
      exists s'. repeat split; try done; [left| |intros k ?; by right].
      destruct (cancel_spec h w) as (_&_&E&_). by rewrite E.
Qed.

Lemma run_finish_tail r w pc w' t :
  heap w !! r = Some t ->
  Registry.keys_with_prefix (id t) (session_tasks w) = [] ->
  run_finish r w = (pc, w') ->
  run_tail r w pc w' /\ (forall m, pc <> RWaveNotify m).
Proof.
  unfold run_finish. intros Ht Hk. rewrite Ht.
  case_bool_decide as Hs; intros [= <- <-]; (split; [|done]).
  - by apply (tail_completed _ _ t).
  - apply tail_done. intros t' Ht'. by simplify_eq.
Qed.

Lemma run_wait_tail r w pc w' :
  run_wait r w = (pc, w') ->
  run_tail r w pc w' /\ (forall m, pc <> RWaveNotify m).
Proof.
  unfold run_wait. destruct (heap w !! r) as [t|] eqn:Ht.
  - destruct (Registry.keys_with_prefix _ _) eqn:Hk.
    + by apply run_finish_tail with t.
    + intros [= <- <-]. split; [|done]. apply (tail_wait _ _ t); [done|]. by rewrite Hk.
  - intros [= <- <-]. split; [|done]. apply tail_done. intros t' Ht'. congruence.
Qed.

Lemma run_wave_tail p n r w pc w' :
  run_wave p n r w = (pc, w') ->
  run_tail r w pc w'
  /\ (forall m, pc = RWaveNotify m -> m = n /\ Z.of_nat n < Timing.waves_count p).
Proof.
  unfold run_wave. destruct (heap w !! r) as [t|] eqn:Ht.
  - destruct (Z.of_nat n <? Timing.waves_count p) eqn:E1; simpl.
    + case_bool_decide as Hs.
      * intros [= <- <-]. split; [by apply (tail_wave _ _ _ t)|].
        intros m [= <-]. split; [done|]. by apply Z.ltb_lt.
      * intros [H Hn]%run_wait_tail. split; [done|].
        intros m ->. by destruct (Hn m).
    + intros [H Hn]%run_wait_tail. split; [done|].
      intros m ->. by destruct (Hn m).
  - intros [= <- <-]. split; [|by intros m [=]].
    apply tail_done. intros t' Ht'. congruence.
Qed.

(** What a tail leaves as it was. *)
Lemma run_tail_frame r w pc w' :
  run_tail r w pc w' ->
  tasks w' = tasks w /\ session_tasks w' = session_tasks w
  /\ browser w' = browser w /\ coros w' = coros w
  /\ length (heap w') = length (heap w)
  /\ (forall r', r' <> r -> heap w' !! r' = heap w !! r').
Proof.
  intros []; repeat split; try done; simpl.
  - by rewrite length_insert.
  - intros r' Hne. by rewrite list_lookup_insert_ne.
Qed.

Section wave_plan.

Import Timing.

Lemma randint_range a b draw : a <= b -> a <= randint a b draw <= b.
Proof.
  intros Hab. unfold randint.
  pose proof (Z.mod_pos_bound draw (b - a + 1)). lia.
Qed.

Lemma plan_waves_count sc draw :
  waves_count (plan_waves sc draw)
  = (sc + sessions_per_wave (plan_waves sc draw) - 1)
      / sessions_per_wave (plan_waves sc draw).
Proof. unfold plan_waves. repeat case_match; reflexivity. Qed.

Lemma plan_waves_per_wave sc draw :
  1 <= sessions_per_wave (plan_waves sc draw) <= 20.
Proof.
  unfold plan_waves. repeat case_match; simpl.
  - lia.
  - pose proof (randint_range 5 10 draw). lia.
  - pose proof (randint_range 10 20 draw). lia.
Qed.

(** [(n + d - 1) // d] is the ceiling of [n / d]. *)
Lemma ceil_div_bounds n d :
  1 <= d -> d * ((n + d - 1) / d - 1) < n <= d * ((n + d - 1) / d).
Proof.
  intros Hd.
  pose proof (Z.div_mod (n + d - 1) d ltac:(lia)).
  pose proof (Z.mod_pos_bound (n + d - 1) d ltac:(lia)).
  nia.
Qed.

Lemma ceil_div_Qceiling n d :
  1 <= d -> (n + d - 1) / d = Qceiling (n # Z.to_pos d).
Proof.
  intros Hd. unfold Qceiling, Qfloor, Qopp. simpl.
  rewrite Z2Pos.id by lia.
  pose proof (ceil_div_bounds n d Hd).
  set (c := (n + d - 1) / d) in *.
  symmetry. apply Z.opp_inj. rewrite Z.opp_involutive.
  symmetry. apply (Z.div_unique_pos (- n) d (- c) (d * c - n)); lia.
Qed.

Lemma total_app l1 l2 : total (l1 ++ l2) = total l1 + total l2.
Proof. unfold total. induction l1; simpl; lia. Qed.

(** The first [k] waves, none of them the last, are full. *)
Lemma total_full_waves p sc (k : nat) :
  1 <= sessions_per_wave p ->
  sessions_per_wave p * Z.of_nat k <= sc ->
  total (map (fun w => sessions_in_wave p sc (Z.of_nat w)) (seq 0 k))
  = sessions_per_wave p * Z.of_nat k.
Proof.
  intros Hd. induction k as [|k IH]; intros Hk; [simpl; lia|].
  rewrite seq_S, map_app, total_app, IH by lia.
  simpl. unfold sessions_in_wave. lia.
Qed.

(** C1.  For every [session_count >= 1] and every random draw, the plan of
  [run_task] has at least one session per wave, as many waves as the
  ceiling of [session_count / sessions_per_wave], in wave [wave_num] the
  minimum of [sessions_per_wave] and of what is left (between 1 and
  [sessions_per_wave]; the last wave takes the remainder), and wave sizes
  that sum to [session_count]; the launch loop of a wave of a running task
  creates exactly that many sessions. *)
Theorem plan_waves_partitions_sessions (session_count draw : Z) :
  1 <= session_count ->
  let p := Timing.plan_waves session_count draw in
  let spw := Timing.sessions_per_wave p in
  let wc := Timing.waves_count p in
  1 <= spw
  /\ wc = Qceiling (session_count # Z.to_pos spw)
  /\ (forall wave_num, 0 <= wave_num < wc ->
        Timing.sessions_in_wave p session_count wave_num
        = Z.min spw (session_count - spw * wave_num)
        /\ 1 <= Timing.sessions_in_wave p session_count wave_num <= spw)
  /\ Timing.sessions_in_wave p session_count (wc - 1)
     = session_count - spw * (wc - 1)
  /\ Timing.total (Timing.wave_sizes p session_count) = session_count
  /\ (forall w r t counter wave_num,
        heap w !! r = Some t -> status t = Running ->
        let n := Z.to_nat (Timing.sessions_in_wave p session_count wave_num) in
        length (coros (launch n r counter w).2) = (length (coros w) + n)%nat).
Proof.
  intros Hsc p spw wc.
  pose proof (plan_waves_per_wave session_count draw) as Hspw.
  pose proof (plan_waves_count session_count draw) as Hwc.
  fold p in Hspw, Hwc. fold spw in Hspw, Hwc. fold wc in Hwc.
  pose proof (ceil_div_bounds session_count spw ltac:(lia)) as Hceil.
  rewrite <- Hwc in Hceil.
  assert (1 <= wc) by nia.
  split; [lia|]. split.
  { rewrite Hwc. apply ceil_div_Qceiling. lia. }
  split.
  { intros wave_num Hw. unfold Timing.sessions_in_wave. fold spw.
    split; [f_equal; lia|]. nia. }
  split.
  { unfold Timing.sessions_in_wave. fold spw. nia. }
  split.
  { unfold Timing.wave_sizes. fold wc.
    replace (Z.to_nat wc) with (S (Z.to_nat (wc - 1))) by lia.
    rewrite seq_S, map_app, total_app.
    rewrite total_full_waves; fold spw; [|lia|nia].
    simpl. unfold Timing.sessions_in_wave. fold spw.
    rewrite !Z2Nat.id by lia. nia. }
  intros w r t counter wave_num Ht Hs n.
  rewrite (launch_running n r counter w t Ht Hs). simpl.
  by rewrite length_app, launched_length.
Qed.

Lemma plan_waves_partitions_sessions_witness :
  1 <= 7
  /\ Timing.waves_count (Timing.plan_waves 7 0) = 7
  /\ Timing.total (Timing.wave_sizes (Timing.plan_waves 7 0) 7) = 7.
Proof.
  assert (1 <= 7) as H7 by lia. split; [exact H7|].
  destruct (plan_waves_partitions_sessions 7 0 H7) as (_ & H2 & _ & _ & H5 & _).
  split; [reflexivity|exact H5].
Defined.

End wave_plan.

Lemma plan_waves_count_pos sc draw :
  1 <= sc -> 1 <= Timing.waves_count (Timing.plan_waves sc draw).
Proof.
  intros Hsc.
  pose proof (plan_waves_per_wave sc draw) as Hspw.
  pose proof (ceil_div_bounds sc _ (proj1 Hspw)) as Hc.
  rewrite <- plan_waves_count in Hc. nia.
Qed.

Lemma run_plan_spec cid draw rn w t :
  heap w !! r_task rn = Some t ->
  exists pc w1,
    run_wave (Timing.plan_waves (session_count t) draw) 0 (r_task rn) w = (pc, w1)
    /\ run_plan cid draw rn w
       = with_coros (<[cid := CRun (at_run pc (Timing.plan_waves (session_count t) draw)
                                       0 rn)]> (coros w1)) w1.
Proof.
  intros Ht. unfold run_plan. rewrite Ht.
  destruct (run_wave _ _ _ _) as [pc w1]. eauto.
Qed.

Lemma run_tail_cases r w pc w' t :
  run_tail r w pc w' -> heap w !! r = Some t ->
  (w' = w /\ pc <> RCompletedNotify)
  \/ (pc = RCompletedNotify /\ status t = Running
      /\ Registry.keys_with_prefix (id t) (session_tasks w) = []
      /\ w' = completed_world r t w).
Proof.
  intros [] Ht; try (left; split; done).
  right. simplify_eq. done.
Qed.

Lemma run_wave_completed p n r w w' t :
  heap w !! r = Some t -> run_wave p n r w = (RCompletedNotify, w') ->
  Timing.waves_count p <= Z.of_nat n.
Proof.
  unfold run_wave. intros Ht. rewrite Ht.
  destruct (Z.of_nat n <? Timing.waves_count p) eqn:E1; simpl.
  - case_bool_decide as Hs; [done|].
    intros [H _]%run_wait_tail.
    destruct (run_tail_cases _ _ _ _ _ H Ht) as [[_ ?]|(_ & ? & _)]; done.
  - intros _. by apply Z.ltb_ge.
Qed.

Lemma launch_frame n r counter w c' w' :
  launch n r counter w = (c', w') ->
  tasks w' = tasks w /\ heap w' = heap w /\ browser w' = browser w
  /\ files w' = files w.
Proof.
  destruct (heap w !! r) as [t|] eqn:Ht.
  - destruct (decide (status t = Running)) as [Hs|Hs].
    + rewrite (launch_running n r counter w t Ht Hs). by intros [= <- <-].
    + rewrite (launch_not_running n r counter w t Ht Hs). by intros [= <- <-].
  - destruct n; simpl; rewrite ?Ht; by intros [= <- <-].
Qed.

Lemma reset_counters_status t : status (reset_counters t) = Running.
Proof. done. Qed.

Lemma resume_run_task_change cid o d rn w r t :
  coros w !! cid = Some (CRun rn) -> heap w !! r = Some t ->
  exists t', heap (resume_run cid o d rn w) !! r = Some t'
             /\ task_change w (Resume cid o d) (resume_run cid o d rn w) r t t'.
Proof.
  intros Hc Ht.
  assert (r < length (heap w))%nat as Hr by (by eapply lookup_lt_Some).
  unfold resume_run in *.
  destruct (r_pc rn) eqn:Hpc.
  - (* the first step *)
    destruct (heap w !! r_task rn) as [t0|] eqn:Ht0.
    2: { exists t. split; [done|constructor]. }
    destruct (browser _) eqn:Hb; simpl in Hb.
    2: { destruct (decide (r_task rn = r)) as [E|Hne]; simpl.
         - rewrite E in *. simplify_eq. exists (reset_counters t).
           rewrite list_lookup_insert_eq by done. split; [done|].
           by eapply tc_start.
         - exists t. rewrite list_lookup_insert_ne by done. split; [done|constructor]. }
    set (w1 := with_heap _ w) in *.
    assert (heap w1 !! r_task rn = Some (reset_counters t0)) as Ht1.
    { simpl. apply list_lookup_insert_eq. by eapply lookup_lt_Some. }
    destruct (run_plan_spec cid d rn w1 _ Ht1) as (pc & w2 & Hw & ->).
    simpl.
    pose proof (run_wave_tail _ _ _ _ _ _ Hw) as [Htail _].
    destruct (run_tail_cases _ _ _ _ _ Htail Ht1) as [[-> _]|(-> & _ & Hk & ->)].
    + destruct (decide (r_task rn = r)) as [E|Hne]; simpl.
      * rewrite E in *. simplify_eq. exists (reset_counters t).
        rewrite list_lookup_insert_eq by done. split; [done|]. by eapply tc_start.
      * exists t. rewrite list_lookup_insert_ne by done. split; [done|constructor].
    + apply (run_wave_completed _ _ _ _ _ _ Ht1) in Hw. simpl in Hw.
      destruct (decide (r_task rn = r)) as [E|Hne]; simpl.
      * rewrite E in *. simplify_eq. exists (set_status Completed (reset_counters t)).
        rewrite list_lookup_insert_eq by (by rewrite length_insert).
        split; [done|]. eapply tc_start_completed; try done.
        destruct (decide (1 <= session_count t)) as [H1|H1]; [|lia].
        pose proof (plan_waves_count_pos _ d H1). lia.
      * exists t. rewrite !list_lookup_insert_ne by done. split; [done|constructor].
  - (* after [init_browser] *)
    destruct o; try (exists t; split; [done|constructor]).
    destruct (heap w !! r_task rn) as [t0|] eqn:Ht0.
    2: { unfold run_plan in *. simpl in *. rewrite Ht0. exists t. split; [done|constructor]. }
    destruct (run_plan_spec cid d rn (with_browser true w) _ Ht0) as (pc & w2 & Hw & E).
    rewrite E in *. simpl.
    pose proof (run_wave_tail _ _ _ _ _ _ Hw) as [Htail _].
    destruct (run_tail_cases _ _ _ _ _ Htail Ht0) as [[-> _]|(-> & Hs & Hk & ->)].
    + exists t. split; [done|constructor].
    + destruct (decide (r_task rn = r)) as [E'|Hne]; simpl.
      * rewrite E' in *. simplify_eq. exists (set_status Completed t).
        rewrite list_lookup_insert_eq by done. split; [done|].
        eapply tc_completed; try done; try congruence.
      * exists t. rewrite list_lookup_insert_ne by done. split; [done|constructor].
  - (* after the notification of a wave *)
    destruct (heap w !! r_task rn) as [t0|] eqn:Ht0.
    2: { exists t. split; [done|constructor]. }
    destruct (launch _ _ _ _) as [counter w1] eqn:Hl.
    apply launch_frame in Hl as (_ & Hh & _ & Hf).
    destruct (Z.of_nat wave_num <? _).
    { simpl. rewrite Hh. exists t. split; [done|constructor]. }
    destruct (run_wave _ _ _ _) as [pc w2] eqn:Hw.
    assert (heap w1 !! r_task rn = Some t0) as Ht1 by (by rewrite Hh).
    pose proof (run_wave_tail _ _ _ _ _ _ Hw) as [Htail _].
    destruct (run_tail_cases _ _ _ _ _ Htail Ht1) as [[-> _]|(-> & Hs & Hk & ->)].
    + simpl. rewrite Hh. exists t. split; [done|constructor].
    + simpl in *. rewrite Hh. destruct (decide (r_task rn = r)) as [E'|Hne].
      * rewrite E' in *. simplify_eq. exists (set_status Completed t).
        rewrite list_lookup_insert_eq by done. split; [done|].
        eapply tc_completed; try done; simpl; try congruence.
      * exists t. rewrite list_lookup_insert_ne by done. split; [done|constructor].
  - (* after the pause between two waves *)
    destruct (run_wave _ _ _ _) as [pc w2] eqn:Hw.
    destruct (heap w !! r_task rn) as [t0|] eqn:Ht0.
    2: { unfold run_wave in Hw. rewrite Ht0 in Hw. simplify_eq. simpl.
         exists t. split; [done|constructor]. }
    pose proof (run_wave_tail _ _ _ _ _ _ Hw) as [Htail _].
    destruct (run_tail_cases _ _ _ _ _ Htail Ht0) as [[-> _]|(-> & Hs & Hk & ->)].
    + exists t. split; [done|constructor].
    + simpl in *. destruct (decide (r_task rn = r)) as [E'|Hne].
      * rewrite E' in *. simplify_eq. exists (set_status Completed t).
        rewrite list_lookup_insert_eq by done. split; [done|].
        eapply tc_completed; try done; try congruence.
      * exists t. rewrite list_lookup_insert_ne by done. split; [done|constructor].
  - (* in the waiting loop *)
    destruct (run_wait _ _) as [pc w2] eqn:Hw.
    destruct (heap w !! r_task rn) as [t0|] eqn:Ht0.
    2: { unfold run_wait in Hw. rewrite Ht0 in Hw. simplify_eq. simpl.
         exists t. split; [done|constructor]. }
    pose proof (run_wait_tail _ _ _ _ Hw) as [Htail _].
    destruct (run_tail_cases _ _ _ _ _ Htail Ht0) as [[-> _]|(-> & Hs & Hk & ->)].
    + exists t. split; [done|constructor].
    + simpl in *. destruct (decide (r_task rn = r)) as [E'|Hne].
      * rewrite E' in *. simplify_eq. exists (set_status Completed t).
        rewrite list_lookup_insert_eq by done. split; [done|].
        eapply tc_completed; try done; try congruence.
      * exists t. rewrite list_lookup_insert_ne by done. split; [done|constructor].
  - exists t. split; [done|constructor].
  - exists t. split; [done|constructor].
  - exists t. split; [done|constructor].
Qed.

Lemma step_task_change e w r t :
  heap w !! r = Some t ->
  exists t', heap (step e w) !! r = Some t' /\ task_change w e (step e w) r t t'.
Proof.
  intros Ht. assert (r < length (heap w))%nat as Hr by (by eapply lookup_lt_Some).
  destruct e as [tid p n|tid|tid|cid o d]; simpl.
  - (* AddTask *)
    exists t. split; [|constructor]. unfold add_task; simpl. by apply lookup_app_l_Some.
  - (* StartTask *)
    exists t. split; [|constructor]. unfold start_task. by case_match.
  - (* StopTask *)
    unfold stop_task. destruct (tasks w !! tid) as [r0|] eqn:Hr0.
    2: { exists t. split; [done|constructor]. }
    destruct (heap w !! r0) as [t0|] eqn:Ht0.
    2: { exists t. split; [done|constructor]. }
    destruct (stop_loop _ _ _) as [pc w2] eqn:Hl.
    apply stop_loop_effect in Hl as [_ Hh _ _ _ _ _ _]. simpl in *. rewrite Hh.
    destruct (decide (r0 = r)) as [->|Hne].
    + simplify_eq. exists (set_status Stopped t).
      rewrite list_lookup_insert_eq by done. split; [done|].
      by apply tc_stopped with tid.
    + exists t. rewrite list_lookup_insert_ne by done. split; [done|constructor].
  - (* Resume *)
    destruct (coros w !! cid) as [[s|rn|st]|] eqn:Hc.
    4: { exists t. split; [done|constructor]. }
    + (* a session *)
      unfold resume_session.
      destruct (s_pc s) eqn:Hpc; try (exists t; split; [done|constructor]);
        try (repeat case_match; exists t; split; done || constructor).
      all: destruct (s_task s) as [r0|] eqn:Hr0;
        [|exists t; split; [done|constructor]].
      all: destruct (heap w !! r0) as [t0|] eqn:Ht0;
        [|exists t; split; [done|constructor]].
      all: destruct (session_resume (browser w) o s t0) as [[pc t'] dumps] eqn:Hres.
      all: destruct (decide (r0 = r)) as [->|Hne];
        [simplify_eq; exists t'; split;
         [case_match; simpl; by rewrite list_lookup_insert_eq
         |eapply tc_session; try done; by case_match]
        |exists t; split; [case_match; simpl; by rewrite list_lookup_insert_ne
                          |constructor]].
    + (* [run_task] *)
      by apply resume_run_task_change.
    + (* [stop_task] *)
      unfold resume_stop. exists t. split; [|constructor].
      destruct (st_pc st); try done.
      destruct (exit_of handle w) as [[]|]; try done;
        destruct (st_task st); try done;
        destruct (stop_loop _ _ _) as [pc w1] eqn:Hl;
        apply stop_loop_effect in Hl as [_ Hh _ _ _ _ _ _]; simpl in *;
        by rewrite Hh.
Qed.

Lemma starts_run_spec r e w :
  starts_run r e w = true <->
  exists cid o d rn, e = Resume cid o d /\ coros w !! cid = Some (CRun rn)
                     /\ r_task rn = r /\ r_pc rn = RNotStarted.
Proof.
  unfold starts_run. split.
  - destruct e as [| | |cid o d]; try done.
    destruct (coros w !! cid) as [[|rn|]|] eqn:E; try done.
    intros [?%bool_decide_eq_true Hpc]%andb_true_iff.
    exists cid, o, d, rn. by destruct (r_pc rn).
  - intros (cid & o & d & rn & -> & -> & ? & ->).
    by rewrite bool_decide_eq_true_2.
Qed.

Lemma resume_run_start cid o d rn w t :
  r_pc rn = RNotStarted -> heap w !! r_task rn = Some t ->
  exists t', heap (resume_run cid o d rn w) !! r_task rn = Some t'
             /\ (t' = reset_counters t \/ t' = set_status Completed (reset_counters t)).
Proof.
  intros Hpc Ht. unfold resume_run. rewrite Hpc, Ht.
  assert (r_task rn < length (heap w))%nat as Hr by (by eapply lookup_lt_Some).
  destruct (browser _) eqn:Hb; simpl in Hb.
  2: { simpl. rewrite list_lookup_insert_eq by done. eauto. }
  set (w1 := with_heap _ w) in *.
  assert (heap w1 !! r_task rn = Some (reset_counters t)) as Ht1.
  { simpl. by apply list_lookup_insert_eq. }
  destruct (run_plan_spec cid d rn w1 _ Ht1) as (pc & w2 & Hw & ->).
  simpl.
  pose proof (run_wave_tail _ _ _ _ _ _ Hw) as [Htail _].
  destruct (run_tail_cases _ _ _ _ _ Htail Ht1) as [[-> _]|(-> & _ & Hk & ->)].
  - eauto.
  - simpl. rewrite list_lookup_insert_eq by (by rewrite length_insert). eauto.
Qed.

(** Outside the first step of [run_task] no step lowers a counter. *)
Lemma step_counters e w r t t' :
  heap w !! r = Some t -> heap (step e w) !! r = Some t' ->
  starts_run r e w = false ->
  completed_sessions t <= completed_sessions t'
  /\ failed_sessions t <= failed_sessions t'.
Proof.
  intros Ht Ht' Hs.
  destruct (step_task_change e w r t Ht) as (t1 & Ht1 & Hc). simplify_eq.
  destruct Hc as [|cid o d s pc t' dumps -> Hc Hr Hres _| | | |].
  - lia.
  - apply session_resume_task_step in Hres as []. lia.
  - exfalso. apply not_true_iff_false in Hs. apply Hs, starts_run_spec. eauto 10.
  - exfalso. apply not_true_iff_false in Hs. apply Hs, starts_run_spec. eauto 10.
  - simpl. lia.
  - simpl. lia.
Qed.

Lemma step_start_resets e w r t t' :
  heap w !! r = Some t -> heap (step e w) !! r = Some t' ->
  starts_run r e w = true ->
  completed_sessions t' = 0 /\ failed_sessions t' = 0 /\ active_sessions t' = 0.
Proof.
  intros Ht Ht' (cid & o & d & rn & -> & Hc & Hr & Hpc)%starts_run_spec.
  simpl in Ht'. rewrite Hc in Ht'. subst r.
  destruct (resume_run_start cid o d rn w t Hpc Ht) as (t1 & Ht1 & [->| ->]);
    by simplify_eq.
Qed.

Lemma step_status_stopped e w r t t' :
  heap w !! r = Some t -> heap (step e w) !! r = Some t' ->
  starts_run r e w = false -> status t = Stopped -> status t' = Stopped.
Proof.
  intros Ht Ht' Hs Hst.
  destruct (step_task_change e w r t Ht) as (t1 & Ht1 & Hc). simplify_eq.
  destruct Hc as [|cid o d s pc t' dumps -> Hc Hr Hres _| | | |]; try done.
  - apply session_resume_task_step in Hres as []. congruence.
  - exfalso. apply not_true_iff_false in Hs. apply Hs, starts_run_spec. eauto 10.
  - exfalso. apply not_true_iff_false in Hs. apply Hs, starts_run_spec. eauto 10.
  - congruence.
Qed.

Lemma step_immutable e w r t :
  heap w !! r = Some t ->
  exists t', heap (step e w) !! r = Some t' /\ id t' = id t
             /\ prompt t' = prompt t /\ session_count t' = session_count t.
Proof.
  intros Ht. destruct (step_task_change e w r t Ht) as (t1 & Ht1 & Hc).
  exists t1. split; [done|].
  destruct Hc as [|cid o d s pc t' dumps -> Hc Hr Hres _| | | |]; try done.
  apply session_resume_task_step in Hres as []. done.
Qed.

(** C8 (amended): between two starts the counters never decrease; the first
    step of [run_task] sets both to 0. *)
Theorem counters_monotone_between_starts (evs : list Event) (w : World)
    (r : nat) (t : Task) :
  heap w !! r = Some t ->
  (never_started r evs w = true ->
   exists t', heap (run evs w) !! r = Some t'
              /\ completed_sessions t <= completed_sessions t'
              /\ failed_sessions t <= failed_sessions t')
  /\ (forall e, starts_run r e w = true ->
        exists t', heap (step e w) !! r = Some t'
                   /\ completed_sessions t' = 0 /\ failed_sessions t' = 0).
Proof.
  intros Ht. split.
  - revert w t Ht. induction evs as [|e evs IH]; intros w t Ht; simpl.
    + intros _. exists t. split; [done|lia].
    + intros [Hs Hn]%andb_true_iff. apply negb_true_iff in Hs.
      destruct (step_immutable e w r t Ht) as (t1 & Ht1 & _).
      destruct (step_counters e w r t t1 Ht Ht1 Hs).
      destruct (IH _ _ Ht1 Hn) as (t' & Ht' & ? & ?).
      exists t'. split; [done|lia].
  - intros e Hs.
    destruct (step_immutable e w r t Ht) as (t1 & Ht1 & _).
    destruct (step_start_resets e w r t t1 Ht Ht1 Hs) as (? & ? & _). eauto.
Qed.

Lemma counters_monotone_between_starts_witness :
  exists t', heap (run (repeat (Resume 1 Ok 0) 26)
                     (run [AddTask "t" "x" 1; StartTask "t"; Resume 0 Ok 0;
                           Resume 0 Ok 0] (init true))) !! 0%nat = Some t'
             /\ 0 <= completed_sessions t' /\ 0 <= failed_sessions t'.
Proof.
  refine (proj1 (counters_monotone_between_starts (repeat (Resume 1 Ok 0) 26)
            (run [AddTask "t" "x" 1; StartTask "t"; Resume 0 Ok 0;
                  Resume 0 Ok 0] (init true)) 0%nat
            (reset_counters (new_task "t" "x" 1)) _) _).
  - vm_compute. reflexivity.
  - vm_compute. reflexivity.
Defined.

(** C8, as stated, fails: a second start of the task resets a counter that
    was 1 back to 0. *)
Lemma restart_resets_counters :
  task_field completed_sessions 0 (run one_iteration (init true)) = Some 1
  /\ task_field completed_sessions 0
       (run (one_iteration ++ [StartTask "t"; Resume 2 Ok 0]) (init true))
     = Some 0.
Proof. vm_compute. done. Qed.

(** C4, as stated, fails: a task that was stopped and then started again
    is marked [Completed]. *)
Lemma stopped_then_restarted_completes :
  let evs :=
    [AddTask "t" "x" 1; StartTask "t"; Resume 0 Ok 0; Resume 0 Ok 0;
     StopTask "t"; Resume 1 Ok 0; Resume 2 Ok 0; Resume 0 Ok 0;
     StartTask "t"; Resume 3 Ok 0; Resume 3 Ok 0;
     Resume 4 Ok 0; Resume 4 Ok 0; Resume 4 DriverError 0; Resume 3 Ok 0] in
  task_field status 0 (run (take 7 evs) (init true)) = Some Stopped
  /\ stop_at 2 (run (take 7 evs) (init true)) = Some StopReturned
  /\ task_field status 0 (run evs (init true)) = Some Completed.
Proof. vm_compute. done. Qed.

(** ** What one step does to the other coroutines *)

Lemma launch_coros n r counter w c' w' :
  launch n r counter w = (c', w') ->
  exists l, coros w' = coros w ++ l.
Proof.
  destruct (heap w !! r) as [t|] eqn:Ht.
  - destruct (decide (status t = Running)) as [Hs|Hs].
    + rewrite (launch_running n r counter w t Ht Hs). intros [= <- <-]. simpl. eauto.
    + rewrite (launch_not_running n r counter w t Ht Hs). intros [= <- <-].
      exists []. by rewrite app_nil_r.
  - destruct n; simpl; rewrite ?Ht; intros [= <- <-]; exists []; by rewrite app_nil_r.
Qed.

Lemma coros_frame_but_refl cid l : coros_frame_but cid l l.
Proof. intros i c _ H. eauto using coro_frame_refl. Qed.

Lemma coros_frame_weaken cid l l' : coros_frame l l' -> coros_frame_but cid l l'.
Proof. intros H i c _. apply H. Qed.

Lemma resume_session_frame cid o s w :
  coros_frame_but cid (coros w) (coros (resume_session cid o s w)).
Proof.
  unfold resume_session.
  repeat case_match; simpl;
    try apply coros_frame_but_refl;
    apply coros_frame_but_insert, coros_frame_refl.
Qed.

Lemma run_plan_frame cid draw rn w :
  coros_frame_but cid (coros w) (coros (run_plan cid draw rn w)).
Proof.
  unfold run_plan. destruct (heap w !! r_task rn) as [t|] eqn:Ht;
    [|apply coros_frame_but_refl].
  destruct (run_wave _ _ _ _) as [pc w1] eqn:Hw.
  apply run_wave_tail in Hw as [(_&_&_&E&_)%run_tail_frame _].
  simpl. rewrite E. apply coros_frame_but_insert, coros_frame_refl.
Qed.

Lemma resume_run_frame cid o d rn w :
  coros_frame_but cid (coros w) (coros (resume_run cid o d rn w)).
Proof.
  unfold resume_run. destruct (r_pc rn) eqn:Hpc.
  - destruct (heap w !! r_task rn) as [t|]; [|apply coros_frame_but_refl].
    case_match.
    + apply (run_plan_frame cid d rn (with_heap _ w)).
    + simpl. apply coros_frame_but_insert, coros_frame_refl.
  - destruct o.
    + apply (run_plan_frame cid d rn (with_browser true w)).
    + simpl. apply coros_frame_but_insert, coros_frame_refl.
    + simpl. apply coros_frame_but_insert, coros_frame_refl.
  - destruct (heap w !! r_task rn) as [t|]; [|apply coros_frame_but_refl].
    destruct (launch _ _ _ _) as [counter w1] eqn:Hl.
    apply launch_coros in Hl as [l Hl].
    destruct (Z.of_nat wave_num <? _).
    + simpl. rewrite Hl. apply coros_frame_but_insert, coros_frame_app.
    + destruct (run_wave _ _ _ _) as [pc w2] eqn:Hw.
      apply run_wave_tail in Hw as [(_&_&_&E&_)%run_tail_frame _].
      simpl. rewrite E, Hl. apply coros_frame_but_insert, coros_frame_app.
  - destruct (run_wave _ _ _ _) as [pc w2] eqn:Hw.
    apply run_wave_tail in Hw as [(_&_&_&E&_)%run_tail_frame _].
    simpl. rewrite E. apply coros_frame_but_insert, coros_frame_refl.
  - destruct (run_wait _ _) as [pc w2] eqn:Hw.
    apply run_wait_tail in Hw as [(_&_&_&E&_)%run_tail_frame _].
    simpl. rewrite E. apply coros_frame_but_insert, coros_frame_refl.
  - simpl. apply coros_frame_but_insert, coros_frame_refl.
  - apply coros_frame_but_refl.
  - apply coros_frame_but_refl.
Qed.

Lemma resume_stop_frame cid st w :
  coros_frame_but cid (coros w) (coros (resume_stop cid st w)).
Proof.
  unfold resume_stop. destruct (st_pc st); try apply coros_frame_but_refl.
  destruct (exit_of handle w) as [e|]; [|apply coros_frame_but_refl].
  destruct e; try (simpl; apply coros_frame_but_insert, coros_frame_refl).
  all: destruct (st_task st); [|apply coros_frame_but_refl].
  all: destruct (stop_loop _ _ _) as [pc w1] eqn:Hl;
    apply stop_loop_effect in Hl as [_ _ _ _ Hf _ _ _]; simpl in *;
    by apply coros_frame_but_insert.
Qed.

Lemma stop_task_frame task_id w :
  coros_frame (coros w) (coros (stop_task task_id w)).
Proof.
  unfold stop_task. destruct (tasks w !! task_id) as [r|].
  2: { simpl. apply coros_frame_app. }
  destruct (heap w !! r) as [t|]; [|apply coros_frame_refl].
  destruct (stop_loop _ _ _) as [pc w1] eqn:Hl.
  apply stop_loop_effect in Hl as [_ _ _ _ Hf _ _ _]. simpl in *.
  eapply coros_frame_trans; [exact Hf|apply coros_frame_app].
Qed.

(** A step leaves every coroutine it does not resume as it was, but for the
    cancellation requests it may have added. *)
Lemma step_frame e w i c :
  coros w !! i = Some c -> (forall o d, e <> Resume i o d) ->
  exists c', coros (step e w) !! i = Some c' /\ coro_frame c c'.
Proof.
  intros Hi Hne. destruct e as [tid p n|tid|tid|cid o d]; simpl.
  - exists c. split; [done|apply coro_frame_refl].
  - exists c. split; [|apply coro_frame_refl].
    unfold start_task. case_match; [|done]. simpl. by apply lookup_app_l_Some.
  - by apply stop_task_frame.
  - assert (i <> cid) as Hic by (intros ->; by eapply Hne).
    destruct (coros w !! cid) as [[s|rn|st]|] eqn:Hc.
    + by apply resume_session_frame.
    + by apply resume_run_frame.
    + by apply resume_stop_frame.
    + exists c. split; [done|apply coro_frame_refl].
Qed.

Lemma resume_session_own cid o s w :
  coros w !! cid = Some (CSession s) ->
  exists s', coros (resume_session cid o s w) !! cid = Some (CSession s')
             /\ own_step w o s s'.
Proof.
  intros Hc. assert (cid < length (coros w))%nat as Hlt by (by eapply lookup_lt_Some).
  unfold resume_session.
  destruct (s_pc s) eqn:Hpc.
  1: { destruct (s_must_cancel s) eqn:Hm; [|destruct (tasks w !! s_task_id s) eqn:Hr];
       simpl; rewrite list_lookup_insert_eq by done; eexists; (split; [done|]).
       - by apply os_never_ran.
       - by apply os_bound.
       - by apply os_crashed. }
  8: { exists s. split; [done|]. apply os_stutter. left. by rewrite Hpc. }
  all: destruct (s_task s) as [r|] eqn:Hr;
    [|exists s; split; [done|]; apply os_stutter; right; by rewrite Hpc, Hr].
  all: destruct (heap w !! r) as [t|] eqn:Ht;
    [|exists s; split; [done|]; apply os_stutter; right; rewrite Hpc, Hr; simpl; by rewrite Ht].
  all: destruct (session_resume (browser w) o s t) as [[pc t'] dumps] eqn:Hres.
  all: exists (at_pc pc s); split;
    [case_match; simpl; by rewrite list_lookup_insert_eq
    |eapply os_resumed; try done; by rewrite Hpc].
Qed.

Lemma session_resume_past_loop b o s t pc t' dumps :
  session_resume b o s t = (pc, t', dumps) ->
  past_loop (s_pc s) = true -> past_loop pc = true.
Proof.
  unfold session_resume, outer_handler. intros H Hp.
  destruct (s_pc s) as [| | | | | |i k|stage how i|e] eqn:Hpc; try done.
  all: simplify_eq/=; repeat (case_match; simplify_eq/=); done.
Qed.

(** Every step keeps a session a session. *)
Lemma step_session e w cid s :
  coros w !! cid = Some (CSession s) ->
  exists s', coros (step e w) !! cid = Some (CSession s')
    /\ (cancelled_from s s' \/ exists o d, e = Resume cid o d /\ own_step w o s s').
Proof.
  intros Hc.
  assert ((exists o d, e = Resume cid o d) \/ ~ (exists o d, e = Resume cid o d))
    as [(o & d & ->)|Hne].
  { destruct e as [| | |c o d]; try (right; by intros (? & ? & ?)).
    destruct (decide (c = cid)) as [->|]; [left; eauto|].
    right. intros (? & ? & ?). congruence. }
  - simpl. rewrite Hc.
    destruct (resume_session_own cid o s w Hc) as (s' & ? & ?). eauto 10.
  - destruct (step_frame e w cid _ Hc) as (c' & Hc' & s' & -> & Hf).
    { intros o d ->. apply Hne. eauto. }
    eauto.
Qed.

Lemma step_past_loop e w cid s :
  coros w !! cid = Some (CSession s) -> past_loop (s_pc s) = true ->
  exists s', coros (step e w) !! cid = Some (CSession s')
             /\ past_loop (s_pc s') = true.
Proof.
  intros Hc Hp.
  destruct (step_session e w cid s Hc) as (s' & Hc' & [Hf|(o & d & -> & Ho)]).
  - exists s'. split; [done|]. destruct Hf as (_&_&_&_& -> &_). done.
  - exists s'. split; [done|].
    destruct Ho as [| | | |r t pc t' dumps _ _ _ _ Hres]; try done;
      try (rewrite H in Hp; done).
    simpl. by eapply session_resume_past_loop.
Qed.

Lemma run_past_loop evs : forall w cid s,
  coros w !! cid = Some (CSession s) -> past_loop (s_pc s) = true ->
  exists s', coros (run evs w) !! cid = Some (CSession s')
             /\ past_loop (s_pc s') = true.
Proof.
  induction evs as [|e evs IH]; intros w cid s Hc Hp; simpl; [eauto|].
  destruct (step_past_loop e w cid s Hc Hp) as (s1 & Hc1 & Hp1). eauto.
Qed.

(** ** The world after a step of [run_task], in closed form *)

Lemma launch_closed n r counter w t :
  heap w !! r = Some t ->
  let m := if bool_decide (status t = Running) then n else 0%nat in
  launch n r counter w
  = ((counter + m)%nat,
     with_session_tasks
       (registered (id t) counter (length (coros w)) m (session_tasks w))
       (with_coros (coros w ++ launched t counter m) w)).
Proof.
  intros Ht. case_bool_decide as Hs; simpl.
  - by apply launch_running.
  - rewrite (launch_not_running n r counter w t Ht Hs), Nat.add_0_r, app_nil_r.
    by destruct w.
Qed.

Lemma sessions_in_wave_le p sc k :
  0 <= Timing.sessions_per_wave p ->
  Z.of_nat (Z.to_nat (Timing.sessions_in_wave p sc k))
  <= Timing.sessions_per_wave p
  /\ (0 <= Timing.sessions_in_wave p sc k ->
      Z.of_nat (Z.to_nat (Timing.sessions_in_wave p sc k))
      <= sc - k * Timing.sessions_per_wave p).
Proof. unfold Timing.sessions_in_wave. lia. Qed.

Lemma run_wave_bounds p n r w pc w' c sc :
  run_wave p n r w = (pc, w') ->
  0 <= Timing.sessions_per_wave p -> (0 <= sc -> Z.of_nat c <= sc) ->
  Z.of_nat c <= Timing.sessions_per_wave p * Z.of_nat n ->
  forall rn, run_bounds (at_run pc p c rn) sc.
Proof.
  intros Hw Hp Hc Hn rn. unfold run_bounds. simpl.
  split; [done|]. split; [done|].
  destruct (run_wave_tail _ _ _ _ _ _ Hw) as [Htail Hm].
  destruct pc; try done; try (by inversion Htail).
  by destruct (Hm _ eq_refl) as [-> _].
Qed.

Lemma run_tail_result cid rn w t t1 b1 m p' c' wX pc w' :
  heap wX !! r_task rn = Some t1 ->
  id t1 = id t ->
  wX = {| tasks := tasks w;
          heap := <[r_task rn := t1]> (heap w);
          session_tasks :=
            registered (id t) (r_session_id_counter rn) (length (coros w)) m
              (session_tasks w);
          browser := b1;
          coros := coros w ++ launched t (r_session_id_counter rn) m;
          files := files w |} ->
  run_tail (r_task rn) wX pc w' ->
  exists fin,
    with_coros (<[cid := CRun (at_run pc p' c' rn)]> (coros w')) w'
    = run_result cid rn w t t1 b1 m fin (at_run pc p' c' rn)
    /\ (fin = true ->
        status t1 = Running /\ pc = RCompletedNotify
        /\ Registry.keys_with_prefix (id t)
             (registered (id t) (r_session_id_counter rn) (length (coros w)) m
                (session_tasks w)) = []).
Proof.
  intros Ht1 Hid -> Htail.
  destruct (run_tail_cases _ _ _ _ _ Htail Ht1) as [[-> _]|(-> & Hs & Hk & ->)].
  - exists false. split; [|done]. unfold run_result. simpl. by rewrite app_nil_r.
  - exists true. split.
    + unfold run_result, completed_world. simpl. by rewrite list_insert_insert_eq.
    + intros _. simpl in Hk. rewrite Hid in Hk. done.
Qed.

Lemma world_eta w :
  w = {| tasks := tasks w; heap := heap w; session_tasks := session_tasks w;
         browser := browser w; coros := coros w; files := files w |}.
Proof. by destruct w. Qed.

Lemma resume_run_closed cid o d rn w :
  (resume_run cid o d rn w = w \/ resume_run cid o d rn w = with_browser true w)
  \/ (exists pc, ((pc = RFailed /\ r_pc rn = RInitBrowser)
                  \/ (pc = RDone /\ past_init (r_pc rn) = true))
        /\ resume_run cid o d rn w
           = with_coros (<[cid := CRun (at_run pc (r_plan rn)
                                         (if past_init pc then r_session_id_counter rn
                                          else 0%nat) rn)]> (coros w)) w)
  \/ exists t t1 b1 m fin rn',
       heap w !! r_task rn = Some t
       /\ resume_run cid o d rn w = run_result cid rn w t t1 b1 m fin rn'
       /\ run_facts rn w t t1 b1 m fin rn'.
Proof.
  unfold resume_run.
  destruct (heap w !! r_task rn) as [t|] eqn:Ht.
  2: { destruct (r_pc rn) eqn:Hpc; try by (left; left).
       - destruct o; [left; right|right; left; exists RFailed; split; [by left|done]..].
         unfold run_plan, with_browser. cbn [heap]. by rewrite Ht.
       - right; left. exists RDone. split; [by right|].
         unfold run_wave. by rewrite Ht.
       - right; left. exists RDone. split; [by right|].
         unfold run_wait. by rewrite Ht.
       - right; left. exists RDone. split; [by right|done]. }
  assert (r_task rn < length (heap w))%nat as Hr by (by eapply lookup_lt_Some).
  destruct (r_pc rn) eqn:Hpc.
  - (* first step *)
    right; right. destruct (browser _) eqn:Hb; simpl in Hb.
    + set (w1 := with_heap _ w).
      assert (heap w1 !! r_task rn = Some (reset_counters t)) as Ht1.
      { simpl. by apply list_lookup_insert_eq. }
      destruct (run_plan_spec cid d rn w1 _ Ht1) as (pc & w2 & Hw & ->).
      pose proof (run_wave_tail _ _ _ _ _ _ Hw) as [Htail _].
      edestruct (run_tail_result cid rn w t (reset_counters t) (browser w) 0)
        as (fin & E & Hfin); [exact Ht1|done| |exact Htail|].
      { unfold w1. simpl. by rewrite app_nil_r. }
      exists t, (reset_counters t), (browser w), 0%nat, fin. eexists.
      split; [done|]. split; [exact E|].
      split; simpl; rewrite ?Hpc; simpl; eauto.
      intros _. eapply run_wave_bounds; [exact Hw| |lia|lia].
      pose proof (plan_waves_per_wave (session_count t) d). simpl. lia.
    + exists t, (reset_counters t), (browser w), 0%nat, false. eexists.
      split; [done|]. split.
      { unfold run_result. simpl. by rewrite !app_nil_r. }
      split; simpl; rewrite ?Hpc; simpl; eauto; [done|].
      unfold run_bounds. simpl. intros (? & _ & _). split; [done|]. split; [lia|done].
  - (* after [init_browser] *)
    destruct o; [right; right|right; left; exists RFailed; split; [by left|done]..].
    assert (heap (with_browser true w) !! r_task rn = Some t) as Ht1 by done.
    destruct (run_plan_spec cid d rn _ _ Ht1) as (pc & w2 & Hw & ->).
    pose proof (run_wave_tail _ _ _ _ _ _ Hw) as [Htail _].
    edestruct (run_tail_result cid rn w t t true 0)
      as (fin & E & Hfin); [exact Ht1|done| |exact Htail|].
    { simpl. by rewrite app_nil_r, (list_insert_id (heap w)). }
    exists t, t, true, 0%nat, fin. eexists.
    split; [done|]. split; [exact E|].
    split; simpl; rewrite ?Hpc; simpl; eauto.
    intros _. eapply run_wave_bounds; [exact Hw| |lia|lia].
    pose proof (plan_waves_per_wave (session_count t) d). lia.
  - (* after the notification of a wave *)
    right; right.
    rewrite (launch_closed _ _ _ _ _ Ht).
    set (m := if bool_decide (status t = Running) then _ else 0%nat).
    set (w1 := with_session_tasks _ _).
    assert (heap w1 !! r_task rn = Some t) as Ht1 by done.
    assert ((m = 0%nat /\ True)
            \/ (status t = Running
                /\ m = Z.to_nat (Timing.sessions_in_wave (r_plan rn)
                                   (session_count t) (Z.of_nat wave_num)))) as Hm.
    { unfold m. case_bool_decide; auto. }
    destruct (Z.of_nat wave_num <? _).
    + exists t, t, (browser w), m, false. eexists. split; [done|]. split.
      { unfold run_result, w1. simpl. by rewrite app_nil_r, (list_insert_id (heap w)). }
      split; simpl; rewrite ?Hpc; simpl; eauto; [|done|].
      { destruct Hm as [[-> _]|[? ?]]; [left; rewrite Nat.add_0_r; auto|right; eauto 10]. }
      unfold run_bounds. rewrite Hpc. simpl. intros (Hp & Hsc & Hk).
      pose proof (sessions_in_wave_le (r_plan rn) (session_count t)
                    (Z.of_nat wave_num) Hp) as [Hle1 Hle2].
      assert (Z.of_nat m <= Timing.sessions_per_wave (r_plan rn)
              /\ (0 <= session_count t ->
                  Z.of_nat (r_session_id_counter rn + m) <= session_count t))
        as [? ?]; [|repeat split; [done|done|lia]].
      destruct Hm as [[-> _]|[_ ->]]; [split; [lia|]; rewrite Nat.add_0_r; done|].
      split; [done|]. intros ?.
      destruct (decide (0 <= Timing.sessions_in_wave (r_plan rn) (session_count t)
                               (Z.of_nat wave_num))); [|lia].
      specialize (Hle2 ltac:(done)). nia.
    + destruct (run_wave _ _ _ _) as [pc w2] eqn:Hw.
      pose proof (run_wave_tail _ _ _ _ _ _ Hw) as [Htail _].
      edestruct (run_tail_result cid rn w t t (browser w) m)
        as (fin & E & Hfin); [exact Ht1|done| |exact Htail|].
      { unfold w1. simpl. by rewrite (list_insert_id (heap w)). }
      exists t, t, (browser w), m, fin. eexists.
      split; [done|]. split; [exact E|].
      split; simpl; rewrite ?Hpc; simpl; eauto.
      { destruct Hm as [[-> _]|[? ?]]; [left; rewrite Nat.add_0_r; auto|right; eauto 10]. }
      unfold run_bounds at 1. rewrite Hpc. simpl. intros (Hp & Hsc & Hk).
      pose proof (sessions_in_wave_le (r_plan rn) (session_count t)
                    (Z.of_nat wave_num) Hp) as [Hle1 Hle2].
      assert (Z.of_nat m <= Timing.sessions_per_wave (r_plan rn)
              /\ (0 <= session_count t ->
                  Z.of_nat (r_session_id_counter rn + m) <= session_count t))
        as [? ?].
      { destruct Hm as [[-> _]|[_ ->]]; [split; [lia|]; rewrite Nat.add_0_r; done|].
        split; [done|]. intros ?.
        destruct (decide (0 <= Timing.sessions_in_wave (r_plan rn) (session_count t)
                                 (Z.of_nat wave_num))); [|lia].
        specialize (Hle2 ltac:(done)). nia. }
      eapply run_wave_bounds; [exact Hw|done|done|lia].
  - (* after the pause between two waves *)
    right; right.
    destruct (run_wave _ _ _ _) as [pc w2] eqn:Hw.
    pose proof (run_wave_tail _ _ _ _ _ _ Hw) as [Htail _].
    edestruct (run_tail_result cid rn w t t (browser w) 0)
      as (fin & E & Hfin); [exact Ht|done| |exact Htail|].
    { simpl. rewrite app_nil_r, (list_insert_id (heap w)) by done. apply world_eta. }
    exists t, t, (browser w), 0%nat, fin. eexists.
    split; [done|]. split; [exact E|].
    split; simpl; rewrite ?Hpc; simpl; eauto.
    unfold run_bounds at 1. rewrite Hpc. simpl. intros (Hp & Hsc & Hk).
    eapply run_wave_bounds; [exact Hw|done|done|lia].
  - (* in the waiting loop *)
    right; right.
    destruct (run_wait _ _) as [pc w2] eqn:Hw.
    pose proof (run_wait_tail _ _ _ _ Hw) as [Htail _].
    edestruct (run_tail_result cid rn w t t (browser w) 0)
      as (fin & E & Hfin); [exact Ht|done| |exact Htail|].
    { simpl. rewrite app_nil_r, (list_insert_id (heap w)) by done. apply world_eta. }
    exists t, t, (browser w), 0%nat, fin. eexists.
    split; [done|]. split; [exact E|].
    split; simpl; rewrite ?Hpc; simpl; eauto.
    unfold run_bounds. rewrite Hpc. simpl. intros (Hp & Hsc & Hk).
    destruct (run_wait_tail _ _ _ _ Hw) as [Ht' Hn'].
    repeat split; try done. destruct pc; try done; try (by inversion Ht').
    by destruct (Hn' wave_num).
  - right; left. exists RDone. split; [by right|done].
  - by left; left.
  - by left; left.
Qed.

Lemma step_heap_kept e w : heap_kept w (step e w).
Proof.
  intros r t Ht. destruct (step_immutable e w r t Ht) as (t' & ? & ? & ? & ?). eauto.
Qed.

Lemma session_ok_heap w w' s : heap_kept w w' -> session_ok w s -> session_ok w' s.
Proof.
  intros Hk []. split; try done.
  - destruct so_task_id0 as (r & t & Ht & ?).
    destruct (Hk r t Ht) as (t' & ? & ? & _). exists r, t'. split; congruence.
  - intros r Hr. destruct (so_bound0 r Hr) as (t & Ht & ?).
    destruct (Hk r t Ht) as (t' & ? & ? & _). exists t'. split; congruence.
Qed.

Lemma session_ok_cancelled w s s' :
  cancelled_from s s' -> session_ok w s -> session_ok w s'.
Proof.
  intros (E1 & E2 & E3 & E4 & E5 & Hc) [].
  split; rewrite ?E1, ?E2, ?E3, ?E4, ?E5; try done.
  - destruct Hc as [[-> _]|(_ & ? & _)]; auto.
  - destruct Hc as [[-> ->]|(_ & ? & ?)]; [done|]. intros _. lia.
Qed.

Lemma run_ok_mono w w' rn :
  heap_kept w w' -> (browser w = true -> browser w' = true) ->
  run_ok w rn -> run_ok w' rn.
Proof.
  intros Hk Hb [(t & Ht & ?) ?]. split; [|auto].
  destruct (Hk _ t Ht) as (t' & ? & _ & E). exists t'. by rewrite E.
Qed.

Lemma stop_ok_mono w w' st : sessions_kept w w' -> stop_ok w st -> stop_ok w' st.
Proof.
  intros Hk Hs key h rest Hpc.
  destruct (Hs key h rest Hpc) as (s & Hh & -> & ?).
  destruct (Hk h s Hh) as (s' & ? & E1 & E2 & ?).
  exists s'. rewrite E1, E2. split; [done|]. split; [done|lia].
Qed.

Lemma own_step_fields w o s s' :
  own_step w o s s' ->
  s_task_id s' = s_task_id s /\ s_session_id s' = s_session_id s
  /\ s_prompt s' = s_prompt s /\ s_cancel_requests s' = s_cancel_requests s.
Proof. by intros []. Qed.

Lemma step_sessions_kept e w : sessions_kept w (step e w).
Proof.
  intros h s Hh.
  destruct (step_session e w h s Hh) as (s' & Hh' & [Hf|(o & d & -> & Ho)]).
  - exists s'. destruct Hf as (?&?&?&?&?&Hc). repeat split; try done.
    destruct Hc as [[_ ->]|(_&_&?)]; lia.
  - exists s'. apply own_step_fields in Ho as (?&?&?&?). repeat split; try done. lia.
Qed.

(** ** What a step adds *)

Lemma session_key_inj_id task_id s1 s2 :
  session_key task_id s1 = session_key task_id s2 -> s1 = s2.
Proof.
  unfold session_key. intros H. apply String.app_inj in H.
  by apply (String.app_inj "_") in H.
Qed.

Lemma elem_registered x task_id n : forall counter handle d,
  x ∈ registered task_id counter handle n d ->
  x ∈ d \/ exists j, (j < n)%nat
                     /\ x = (session_key task_id (pretty (counter + 1 + j)%nat),
                             (handle + j)%nat).
Proof.
  induction n as [|n IH]; intros counter handle d; simpl; [by left|].
  intros [Hin|(j & Hj & ->)]%IH.
  - clear IH. induction d as [|[k0 v0] d IHd]; simpl in Hin.
    + apply list_elem_of_singleton in Hin as ->.
      right. exists 0%nat. split; [lia|]. by rewrite !Nat.add_0_r, Nat.add_1_r.
    + destruct (decide (k0 = _)) as [->|Hne].
      * apply elem_of_cons in Hin as [->|Hin]; [|left; by right].
        right. exists 0%nat. split; [lia|]. by rewrite !Nat.add_0_r, Nat.add_1_r.
      * apply elem_of_cons in Hin as [->|Hin]; [left; left|].
        destruct (IHd Hin) as [?|?]; [left; by right|by right].
  - right. exists (S j). split; [lia|].
    replace (counter + 1 + S j)%nat with (S counter + 1 + j)%nat by lia.
    by replace (handle + S j)%nat with (S handle + j)%nat by lia.
Qed.

Lemma NoDup_registered task_id n : forall counter handle d,
  NoDup (Registry.keys d) ->
  NoDup (Registry.keys (registered task_id counter handle n d)).
Proof.
  induction n as [|n IH]; intros counter handle d Hd; simpl; [done|].
  apply IH. by apply RegistryFacts.NoDup_insert.
Qed.

Lemma lookup_registered_ne task_id k n : forall counter handle d,
  (forall j, (j < n)%nat -> k <> session_key task_id (pretty (counter + 1 + j)%nat)) ->
  Registry.lookup k (registered task_id counter handle n d) = Registry.lookup k d.
Proof.
  induction n as [|n IH]; intros counter handle d Hk; simpl; [done|].
  rewrite IH.
  - apply RegistryFacts.lookup_insert_ne. intros E. apply (Hk 0%nat); [lia|].
    by rewrite Nat.add_0_r, Nat.add_1_r.
  - intros j Hj. replace (S counter + 1 + j)%nat with (counter + 1 + S j)%nat by lia.
    apply Hk. lia.
Qed.

Lemma lookup_registered task_id n : forall counter handle d j,
  (j < n)%nat ->
  Registry.lookup (session_key task_id (pretty (counter + 1 + j)%nat))
    (registered task_id counter handle n d) = Some (handle + j)%nat.
Proof.
  induction n as [|n IH]; intros counter handle d j Hj; [lia|]. simpl.
  destruct j as [|j].
  - rewrite lookup_registered_ne.
    + rewrite Nat.add_0_r, Nat.add_1_r, Nat.add_0_r.
      apply RegistryFacts.lookup_insert_eq.
    + intros j Hj' E%session_key_inj_id. apply (inj pretty) in E. lia.
  - replace (counter + 1 + S j)%nat with (S counter + 1 + j)%nat by lia.
    rewrite IH by lia. f_equal. lia.
Qed.

Lemma run_result_launched cid o d rn w t t1 b1 m fin rn' j :
  coros w !! cid = Some (CRun rn) ->
  heap w !! r_task rn = Some t ->
  resume_run cid o d rn w = run_result cid rn w t t1 b1 m fin rn' ->
  run_facts rn w t t1 b1 m fin rn' ->
  (j < m)%nat ->
  launched_by w (Resume cid o d)
    (session_key (id t) (pretty (r_session_id_counter rn + 1 + j)%nat))
    (length (coros w) + j)%nat.
Proof.
  intros Hc Ht E [Hrt _ _ Hl _] Hj.
  assert (cid < length (coros w))%nat as Hlt by (by eapply lookup_lt_Some).
  destruct Hl as [[-> _]|(wave & Hpc & Hs & Hm & Hcnt)]; [lia|].
  exists cid, o, d, rn, rn', t, (r_session_id_counter rn + 1 + j)%nat.
  assert (step (Resume cid o d) w = run_result cid rn w t t1 b1 m fin rn') as ->
    by (simpl; by rewrite Hc).
  unfold run_result. simpl.
  repeat split; try done.
  - apply list_lookup_insert_eq. rewrite length_app. lia.
  - by rewrite Hpc.
  - lia.
  - lia.
  - lia.
  - rewrite list_lookup_insert_ne by lia.
    rewrite lookup_app_r by lia.
    replace (length (coros w) + j - length (coros w))%nat with j by lia.
    by apply launched_lookup.
  - by apply lookup_registered.
Qed.

Lemma resume_session_registry cid o s w x :
  x ∈ session_tasks (resume_session cid o s w) -> x ∈ session_tasks w.
Proof.
  unfold resume_session.
  destruct (s_pc s); try done; try (repeat case_match; by simpl).
  all: destruct (s_task s) as [r|]; [|done].
  all: destruct (heap w !! r) as [t|]; [|done].
  all: destruct (session_resume _ _ _ _) as [[pc t'] dumps].
  all: destruct (runs_outer_finally pc); simpl; [apply RegistryFacts.elem_delete|done].
Qed.

Lemma step_registry e w k h :
  (k, h) ∈ session_tasks (step e w) ->
  (k, h) ∈ session_tasks w \/ launched_by w e k h.
Proof.
  destruct e as [tid p n|tid|tid|cid o d]; simpl.
  - by left.
  - unfold start_task. case_match; by left.
  - unfold stop_task. destruct (tasks w !! tid) as [r|]; [|by left].
    destruct (heap w !! r) as [t|]; [|by left].
    destruct (stop_loop _ _ _) as [pc w2] eqn:Hl.
    apply stop_loop_effect in Hl as [_ _ _ _ _ Hreg _ _]. simpl. intros H. left.
    by apply Hreg in H.
  - destruct (coros w !! cid) as [[s|rn|st]|] eqn:Hc; [| | |by left].
    + intros H. left. by eapply resume_session_registry.
    + destruct (resume_run_closed cid o d rn w)
        as [[->| ->]|[(pc & _ & ->)|(t & t1 & b1 & m & fin & rn' & Ht & E & Hf)]];
        try by left.
      rewrite E. unfold run_result at 1. simpl.
      intros [Hin|(j & Hj & [= -> ->])]%elem_registered; [by left|].
      right. by eapply run_result_launched.
    + unfold resume_stop. destruct (st_pc st); try by left.
      destruct (exit_of handle w) as [[]|]; try by left.
      all: destruct (st_task st); try by left.
      all: destruct (stop_loop _ _ _) as [pc w1] eqn:Hl.
      all: apply stop_loop_effect in Hl as [_ _ _ _ _ Hreg _ _]; simpl in *.
      all: intros H; left; apply Hreg in H; by eapply RegistryFacts.elem_delete.
Qed.

Lemma resume_session_length cid o s w :
  length (coros (resume_session cid o s w)) = length (coros w).
Proof.
  unfold resume_session.
  destruct (s_pc s); try done; try (repeat case_match; simpl; by rewrite ?length_insert).
  all: destruct (s_task s) as [r|]; [|done].
  all: destruct (heap w !! r) as [t|]; [|done].
  all: destruct (session_resume _ _ _ _) as [[pc t'] dumps].
  all: destruct (runs_outer_finally pc); simpl; by rewrite length_insert.
Qed.

Lemma resume_stop_length cid st w :
  length (coros (resume_stop cid st w)) = length (coros w).
Proof.
  unfold resume_stop. destruct (st_pc st); try done.
  destruct (exit_of handle w) as [[]|]; try done;
    try (simpl; by rewrite length_insert).
  all: destruct (st_task st); try done.
  all: destruct (stop_loop _ _ _) as [pc w1] eqn:Hl.
  all: apply stop_loop_effect in Hl as [_ _ _ Hlen _ _ _ _]; simpl in *.
  all: by rewrite length_insert.
Qed.

(** The coroutines a step creates. *)
Lemma step_new_coro e w c co :
  (length (coros w) <= c)%nat -> coros (step e w) !! c = Some co ->
  (exists task_id r,
     e = StartTask task_id /\ tasks w !! task_id = Some r
     /\ co = CRun {| r_task := r; r_pc := RNotStarted; r_plan := Timing.no_plan;
                     r_session_id_counter := 0 |})
  \/ (exists task_id st, e = StopTask task_id /\ co = CStop st
                         /\ st_task_id st = task_id)
  \/ (exists k, launched_by w e k c).
Proof.
  intros Hc Hco.
  assert (coros w !! c = None) as Hnone by (by apply lookup_ge_None).
  destruct e as [tid p n|tid|tid|cid o d]; simpl in Hco.
  - congruence.
  - unfold start_task in Hco. destruct (tasks w !! tid) as [r|] eqn:Hr; [|congruence].
    simpl in Hco. rewrite lookup_app_r in Hco by done.
    apply list_lookup_singleton_Some in Hco as [_ <-]. left. eauto.
  - right; left. unfold stop_task in Hco.
    destruct (tasks w !! tid) as [r|].
    2: { simpl in Hco. rewrite lookup_app_r in Hco by done.
         apply list_lookup_singleton_Some in Hco as [_ <-]. eauto. }
    destruct (heap w !! r) as [t|]; [|congruence].
    destruct (stop_loop _ _ _) as [pc w2] eqn:Hl.
    apply stop_loop_effect in Hl as [_ _ _ Hlen _ _ _ _]. simpl in *.
    rewrite lookup_app_r in Hco by lia.
    apply list_lookup_singleton_Some in Hco as [_ <-]. eauto.
  - destruct (coros w !! cid) as [[s|rn|st]|] eqn:Hcid; [| | |congruence].
    + apply lookup_lt_Some in Hco. rewrite resume_session_length in Hco. lia.
    + right; right.
      assert (cid < length (coros w))%nat as Hlt by (by eapply lookup_lt_Some).
      destruct (resume_run_closed cid o d rn w)
        as [[E|E]|[(pc & _ & E)|(t & t1 & b1 & m & fin & rn' & Ht & E & Hf)]];
        rewrite E in Hco; simpl in Hco; try congruence.
      { apply lookup_lt_Some in Hco. rewrite length_insert in Hco. lia. }
      rewrite list_lookup_insert_ne in Hco by lia.
      rewrite lookup_app_r in Hco by done.
      assert (c - length (coros w) < m)%nat as Hj.
      { apply lookup_lt_Some in Hco. by rewrite launched_length in Hco. }
      eexists.
      replace c with (length (coros w) + (c - length (coros w)))%nat at 1 by lia.
      by eapply run_result_launched.
    + apply lookup_lt_Some in Hco. rewrite resume_stop_length in Hco. lia.
Qed.

Lemma step_browser e w : browser w = true -> browser (step e w) = true.
Proof.
  intros Hb. destruct e as [tid p n|tid|tid|cid o d]; simpl.
  - done.
  - unfold start_task. by case_match.
  - unfold stop_task. destruct (tasks w !! tid) as [r|]; [|done].
    destruct (heap w !! r) as [t|]; [|done].
    destruct (stop_loop _ _ _) as [pc w2] eqn:Hl.
    apply stop_loop_effect in Hl as [_ _ E _ _ _ _ _]. simpl in *. congruence.
  - destruct (coros w !! cid) as [[s|rn|st]|] eqn:Hcid; [| | |done].
    + unfold resume_session.
      destruct (s_pc s); try done; try (repeat case_match; by simpl).
      all: destruct (s_task s) as [r|]; [|done].
      all: destruct (heap w !! r) as [t|]; [|done].
      all: destruct (session_resume _ _ _ _) as [[pc t'] dumps].
      all: by destruct (runs_outer_finally pc).
    + destruct (resume_run_closed cid o d rn w)
        as [[E|E]|[(pc & _ & E)|(t & t1 & b1 & m & fin & rn' & Ht & E & Hf)]];
        rewrite E; simpl; try done.
      destruct Hf as [_ _ [[-> | ->] _] _ _]; done.
    + unfold resume_stop. destruct (st_pc st); try done.
      destruct (exit_of handle w) as [[]|]; try done.
      all: destruct (st_task st); try done.
      all: destruct (stop_loop _ _ _) as [pc w1] eqn:Hl.
      all: apply stop_loop_effect in Hl as [_ _ E _ _ _ _ _]; simpl in *; congruence.
Qed.

(** The dictionary of tasks and the heap only grow, by [add_task]. *)
Lemma step_tasks e w :
  (tasks (step e w) = tasks w /\ length (heap (step e w)) = length (heap w))
  \/ exists task_id p n,
       tasks (step e w) = <[task_id := length (heap w)]> (tasks w)
       /\ heap (step e w) = heap w ++ [new_task task_id p n].
Proof.
  destruct e as [tid p n|tid|tid|cid o d]; simpl.
  - right. by exists tid, p, n.
  - left. unfold start_task. by case_match.
  - left. unfold stop_task. destruct (tasks w !! tid) as [r|]; [|done].
    destruct (heap w !! r) as [t|]; [|done].
    destruct (stop_loop _ _ _) as [pc w2] eqn:Hl.
    apply stop_loop_effect in Hl as [E1 E2 _ _ _ _ _ _]. simpl in *.
    rewrite E1, E2, length_insert. done.
  - left. destruct (coros w !! cid) as [[s|rn|st]|] eqn:Hcid; [| | |done].
    + unfold resume_session.
      destruct (s_pc s); try done; try (repeat case_match; by simpl).
      all: destruct (s_task s) as [r|]; [|done].
      all: destruct (heap w !! r) as [t|]; [|done].
      all: destruct (session_resume _ _ _ _) as [[pc t'] dumps].
      all: destruct (runs_outer_finally pc); simpl; by rewrite length_insert.
    + destruct (resume_run_closed cid o d rn w)
        as [[E|E]|[(pc & _ & E)|(t & t1 & b1 & m & fin & rn' & Ht & E & Hf)]];
        rewrite E; simpl; try done.
      by rewrite length_insert.
    + unfold resume_stop. destruct (st_pc st); try done.
      destruct (exit_of handle w) as [[]|]; try done.
      all: destruct (st_task st); try done.
      all: destruct (stop_loop _ _ _) as [pc w1] eqn:Hl.
      all: apply stop_loop_effect in Hl as [E1 E2 _ _ _ _ _ _]; simpl in *.
      all: by rewrite E1, E2.
Qed.

Lemma step_nodup e w :
  NoDup (Registry.keys (session_tasks w)) ->
  NoDup (Registry.keys (session_tasks (step e w))).
Proof.
  intros Hn. destruct e as [tid p n|tid|tid|cid o d]; simpl.
  - done.
  - unfold start_task. by case_match.
  - unfold stop_task. destruct (tasks w !! tid) as [r|]; [|done].
    destruct (heap w !! r) as [t|]; [|done].
    destruct (stop_loop _ _ _) as [pc w2] eqn:Hl.
    apply stop_loop_effect in Hl as [_ _ _ _ _ _ H _]. simpl in *. auto.
  - destruct (coros w !! cid) as [[s|rn|st]|] eqn:Hcid; [| | |done].
    + unfold resume_session.
      destruct (s_pc s); try done; try (repeat case_match; by simpl).
      all: destruct (s_task s) as [r|]; [|done].
      all: destruct (heap w !! r) as [t|]; [|done].
      all: destruct (session_resume _ _ _ _) as [[pc t'] dumps].
      all: destruct (runs_outer_finally pc); simpl;
        [by apply RegistryFacts.NoDup_delete|done].
    + destruct (resume_run_closed cid o d rn w)
        as [[E|E]|[(pc & _ & E)|(t & t1 & b1 & m & fin & rn' & Ht & E & Hf)]];
        rewrite E; simpl; try done.
      by apply NoDup_registered.
    + unfold resume_stop. destruct (st_pc st); try done.
      destruct (exit_of handle w) as [[]|]; try done.
      all: destruct (st_task st); try done.
      all: destruct (stop_loop _ _ _) as [pc w1] eqn:Hl.
      all: apply stop_loop_effect in Hl as [_ _ _ _ _ _ H _]; simpl in *.
      all: by apply H, RegistryFacts.NoDup_delete.
Qed.

(** ** Facts on [session_resume] *)

Lemma iteration_body_length p : (18 <= length (iteration_body p))%nat.
Proof. unfold iteration_body. rewrite !length_app. simpl. lia. Qed.

Lemma session_resume_pc b o s t pc t' dumps :
  session_resume b o s t = (pc, t', dumps) ->
  s_pc s <> SNotStarted -> done (s_pc s) = false ->
  (forall i k, s_pc s = SBody i k -> (k < length (iteration_body (s_prompt s)))%nat) ->
  pc <> SNotStarted /\ pc <> SDone NeverRan /\ pc <> SDone Crashed
  /\ (forall i k, pc = SBody i k -> (k < length (iteration_body (s_prompt s)))%nat)
  /\ (done pc = true -> runs_outer_finally pc = true).
Proof.
  unfold session_resume, outer_handler, advance, iteration_done,
    loop_test, enter_finally. intros H Hn Hd Hb.
  pose proof (iteration_body_length (s_prompt s)).
  destruct (s_pc s) as [| | | | | |i k|stage how i|e] eqn:Hpc; try done.
  all: try specialize (Hb _ _ eq_refl).
  all: simplify_eq/=; repeat (case_match; simplify_eq/=);
    repeat split; try done; intros; simplify_eq; try done; lia.
Qed.

Lemma resume_session_exit_registry cid o s w r t pc t' dumps :
  s_pc s <> SNotStarted -> done (s_pc s) = false ->
  s_task s = Some r -> heap w !! r = Some t ->
  session_resume (browser w) o s t = (pc, t', dumps) ->
  session_tasks (resume_session cid o s w)
  = if runs_outer_finally pc
    then Registry.delete (session_key (s_task_id s) (s_session_id s)) (session_tasks w)
    else session_tasks w.
Proof.
  intros Hn Hd Hr Ht Hres. unfold resume_session.
  destruct (s_pc s); try done; rewrite Hr, Ht, Hres; by case_match.
Qed.

(** ** The run coroutine after its own step *)

Lemma resume_run_at cid o d rn w :
  coros w !! cid = Some (CRun rn) ->
  exists rn', coros (resume_run cid o d rn w) !! cid = Some (CRun rn')
              /\ r_task rn' = r_task rn.
Proof.
  intros Hc. assert (cid < length (coros w))%nat as Hlt by (by eapply lookup_lt_Some).
  destruct (resume_run_closed cid o d rn w)
    as [[E|E]|[(pc & _ & E)|(t & t1 & b1 & m & fin & rn' & Ht & E & Hf)]];
    rewrite E; simpl; eauto.
  - eexists. by rewrite list_lookup_insert_eq.
  - exists rn'. rewrite list_lookup_insert_eq by (rewrite length_app; lia).
    split; [done|]. by destruct Hf.
Qed.

(** ** The invariants are kept by every step *)

Lemma wf_init b : wf (init b).
Proof.
  split; simpl; try done; try (intros; by rewrite ?lookup_nil in * ).
  - apply NoDup_nil_2.
  - intros k h H. by apply elem_of_nil in H.
Qed.

Lemma wf_step_tasks e w : wf w -> forall k r, tasks (step e w) !! k = Some r ->
  exists t, heap (step e w) !! r = Some t /\ id t = k.
Proof.
  intros Hw k r Hk.
  destruct (step_tasks e w) as [[E _]|(tid & p & n & E1 & E2)].
  - rewrite E in Hk. destruct (wf_tasks w Hw k r Hk) as (t & Ht & ?).
    destruct (step_heap_kept e w r t Ht) as (t' & ? & ? & _). exists t'. split; congruence.
  - rewrite E1 in Hk. rewrite E2.
    destruct (decide (tid = k)) as [->|Hne].
    + rewrite lookup_insert_eq in Hk. simplify_eq.
      exists (new_task k p n). split; [|done].
      rewrite lookup_app_r by done. by rewrite Nat.sub_diag.
    + rewrite lookup_insert_ne in Hk by done.
      destruct (wf_tasks w Hw k r Hk) as (t & Ht & ?).
      exists t. split; [|done]. by apply lookup_app_l_Some.
Qed.

Lemma wf_step_heap e w : wf w -> forall r t, heap (step e w) !! r = Some t ->
  is_Some (tasks (step e w) !! id t).
Proof.
  intros Hw r t Ht.
  destruct (step_tasks e w) as [[E El]|(tid & p & n & E1 & E2)].
  - rewrite E. assert (r < length (heap w))%nat as Hr.
    { rewrite <- El. by eapply lookup_lt_Some. }
    apply lookup_lt_is_Some in Hr as [t0 Ht0].
    destruct (step_heap_kept e w r t0 Ht0) as (t' & ? & E' & _). simplify_eq.
    rewrite E'. by eapply wf_heap.
  - rewrite E1. rewrite E2 in Ht.
    destruct (decide (id t = tid)) as [->|Hne]; [by rewrite lookup_insert_eq|].
    rewrite lookup_insert_ne by done.
    apply lookup_app_Some in Ht as [Ht|[_ Ht]]; [by eapply wf_heap|].
    apply list_lookup_singleton_Some in Ht as [_ <-]. done.
Qed.

Lemma launched_by_new w e k h :
  launched_by w e k h ->
  exists t n rn, coros (step e w) !! h = Some (CSession (new_session t (pretty n)))
    /\ k = session_key (id t) (pretty n) /\ (1 <= n)%nat
    /\ heap w !! r_task rn = Some t /\ (length (coros w) <= h)%nat
    /\ (exists cid, coros w !! cid = Some (CRun rn)) /\ past_init (r_pc rn) = true.
Proof.
  intros (cid & o & d & rn & rn' & t & n & -> & ? & ? & ? & ? & ? & ? & ? & ? & ? & ?).
  exists t, n, rn. repeat split; try done; [lia|eauto].
Qed.

Lemma wf_no_crash w s :
  wf w -> session_ok w s -> is_Some (tasks w !! s_task_id s).
Proof.
  intros Hw [_ (r & t & Ht & <-) _ _ _ _ _ _]. by eapply wf_heap.
Qed.

Lemma wf_step_registry e w : wf w -> forall k h,
  (k, h) ∈ session_tasks (step e w) ->
  exists s, coros (step e w) !! h = Some (CSession s)
            /\ k = session_key (s_task_id s) (s_session_id s)
            /\ (done (s_pc s) = true -> s_pc s = SDone NeverRan).
Proof.
  intros Hw k h Hin.
  destruct (step_registry e w k h Hin) as [Hold|Hnew].
  2: { apply launched_by_new in Hnew as (t & n & rn & ? & ? & _).
       eexists. split; [done|]. split; [done|]. done. }
  destruct (wf_registry w Hw k h Hold) as (s & Hs & Hk & Hd).
  destruct (step_session e w h s Hs) as (s' & Hs' & [Hf|(o & d & -> & Ho)]).
  - exists s'. destruct Hf as (E1 & _ & E3 & _ & E5 & _). by rewrite E1, E3, E5.
  - exists s'. split; [done|].
    pose proof (own_step_fields _ _ _ _ Ho) as (E1 & E3 & _).
    rewrite E1, E3. split; [done|].
    pose proof (wf_session w Hw h s Hs) as Hok.
    destruct Ho as [|?|? ? Hn|r ? ? ?|r t pc t' dumps Hns Hnd Hr Ht Hres]; simpl; try done.
    + pose proof (wf_no_crash w s Hw Hok) as [? ?]. congruence.
    + intros Hdone. exfalso.
      destruct (session_resume_pc _ _ _ _ _ _ _ Hres Hns Hnd (so_body _ _ Hok))
        as (_ & _ & _ & _ & Hfin).
      specialize (Hfin Hdone).
      simpl in Hin. rewrite Hs in Hin.
      pose proof (resume_session_exit_registry h o s w r t pc t' dumps
                    Hns Hnd Hr Ht Hres) as E.
      rewrite Hfin in E. rewrite E, Hk in Hin.
      apply RegistryFacts.elem_lookup in Hin;
        [|by apply RegistryFacts.NoDup_delete, wf_nodup].
      rewrite RegistryFacts.lookup_delete_eq in Hin by (by apply wf_nodup). done.
Qed.

Lemma wf_registry_sessions w : wf w -> registry_sessions w.
Proof.
  intros Hw k h Hin. destruct (wf_registry w Hw k h Hin) as (s & ? & _). eauto.
Qed.

Lemma registry_sessions_delete k w :
  registry_sessions w ->
  registry_sessions (with_session_tasks (Registry.delete k (session_tasks w)) w).
Proof.
  intros H k' h Hin. simpl in *. apply (H k' h).
  by eapply RegistryFacts.elem_delete.
Qed.

Lemma resume_stop_closed cid st w : stop_resumed cid st w (resume_stop cid st w).
Proof.
  unfold resume_stop.
  destruct (st_pc st) as [key h rest| | | |] eqn:Hpc;
    try (apply sr_stutter; intros; congruence).
  destruct (exit_of h w) as [e|] eqn:He.
  2: { apply sr_stutter. intros k' h' r' E. rewrite ?Hpc in E. simplify_eq. by left. }
  assert (e = Crashed \/ e <> Crashed) as [->|Hne]
    by (destruct e; auto; by right).
  { by eapply sr_crashed. }
  destruct (st_task st) as [r|] eqn:Hr.
  - destruct (stop_loop _ _ _) as [pc w1] eqn:Hl.
    assert (match e with
            | Crashed => with_coros (<[cid := CStop (at_stop StopCrashed st)]> (coros w)) w
            | _ => with_coros (<[cid := CStop (at_stop pc st)]> (coros w1)) w1
            end = with_coros (<[cid := CStop (at_stop pc st)]> (coros w1)) w1) as ->
      by (by destruct e).
    by eapply sr_loop.
  - assert (match e with
            | Crashed => with_coros (<[cid := CStop (at_stop StopCrashed st)]> (coros w)) w
            | _ => w
            end = w) as -> by (by destruct e).
    apply sr_stutter. intros k' h' r' E. rewrite ?Hpc in E. simplify_eq.
    right. split; [done|congruence].
Qed.

Lemma stop_loop_await keys r w pc w' :
  registry_sessions w -> stop_loop keys r w = (pc, w') ->
  forall key h rest, pc = StopAwait key h rest ->
    exists s, coros w' !! h = Some (CSession s)
              /\ (1 <= s_cancel_requests s)%nat
              /\ (key, h) ∈ session_tasks w'.
Proof.
  intros Hreg Hl key h rest ->. apply stop_loop_pc in Hl; [|done].
  destruct Hl as (s & Hs & _ & _ & ? & _ & Hk & _).
  exists s. split; [done|]. split; [done|]. by apply RegistryFacts.lookup_Some_elem.
Qed.

Lemma stop_resumed_at cid st w w' :
  coros w !! cid = Some (CStop st) -> stop_resumed cid st w w' ->
  exists st', coros w' !! cid = Some (CStop st')
              /\ st_task_id st' = st_task_id st /\ st_task st' = st_task st.
Proof.
  intros Hc. assert (cid < length (coros w))%nat as Hlt by (by eapply lookup_lt_Some).
  intros [|key h rest|key h rest e r pc w1 _ _ _ _ Hl]; simpl.
  - eauto.
  - eexists. by rewrite list_lookup_insert_eq.
  - apply stop_loop_effect in Hl as [_ _ _ Hlen _ _ _ _]. simpl in *.
    eexists. rewrite list_lookup_insert_eq by lia. done.
Qed.

Lemma step_kind e w c co :
  coros w !! c = Some co ->
  exists co', coros (step e w) !! c = Some co' /\ same_kind co co'.
Proof.
  intros Hc.
  assert ((exists o d, e = Resume c o d) \/ forall o d, e <> Resume c o d)
    as [(o & d & ->)|Hne].
  { destruct e as [| | |c' o d]; try (right; by intros).
    destruct (decide (c' = c)) as [->|]; [left; eauto|].
    right. intros ? ?. congruence. }
  - simpl. rewrite Hc. destruct co as [s|rn|st].
    + destruct (resume_session_own c o s w Hc) as (s' & ? & _). by exists (CSession s').
    + destruct (resume_run_at c o d rn w Hc) as (rn' & ? & ?). by exists (CRun rn').
    + destruct (stop_resumed_at c st w _ Hc (resume_stop_closed c st w))
        as (st' & ? & ? & ?). by exists (CStop st').
  - destruct (step_frame e w c co Hc Hne) as (co' & Hco' & Hf).
    exists co'. split; [done|]. destruct co; simpl in *.
    + by destruct Hf as (s' & -> & _).
    + by subst.
    + by subst.
Qed.

Lemma new_session_ok w t n r :
  heap w !! r = Some t -> (1 <= n)%nat -> session_ok w (new_session t (pretty n)).
Proof.
  intros Ht Hn. split; simpl; try done.
  - by exists n.
  - eauto.
  - auto.
  - intros [?|?]; done.
Qed.

Lemma wf_step_session e w : wf w -> forall c s',
  coros (step e w) !! c = Some (CSession s') -> session_ok (step e w) s'.
Proof.
  intros Hw c s' Hc'.
  destruct (decide (c < length (coros w))%nat) as [Hlt|Hge].
  2: { destruct (step_new_coro e w c _ ltac:(lia) Hc')
         as [(? & ? & _ & _ & ?)|[(? & ? & _ & ? & _)|[k Hl]]]; try done.
       apply launched_by_new in Hl as (t & n & rn & Hn & _ & ? & Ht & _).
       rewrite Hn in Hc'. simplify_eq.
       destruct (step_heap_kept e w _ t Ht) as (t' & Ht' & Hid & _).
       eapply session_ok_heap; [apply step_heap_kept|].
       by eapply new_session_ok. }
  apply lookup_lt_is_Some in Hlt as [co Hco].
  destruct (step_kind e w c co Hco) as (co' & Hco' & Hk).
  rewrite Hc' in Hco'. simplify_eq. destruct co as [s| |]; try done.
  pose proof (wf_session w Hw c s Hco) as Hok.
  destruct (step_session e w c s Hco) as (s'' & Hs'' & [Hf|(o & d & -> & Ho)]);
    rewrite Hc' in Hs''; simplify_eq.
  { eapply session_ok_heap; [apply step_heap_kept|]. by eapply session_ok_cancelled. }
  eapply session_ok_heap; [apply step_heap_kept|].
  destruct Ho as [|Hn Hm|Hn Hm Hnone|r Hn Hm Hr|r t pc t' dumps Hns Hnd Hr Ht Hres]; try done.
  - destruct Hok. split; simpl; try done; auto.
  - pose proof (wf_no_crash w s Hw Hok) as [? ?]. congruence.
  - destruct Hok. destruct (wf_tasks w Hw _ _ Hr) as (t & ? & ?).
    split; simpl; try done.
    + intros ? [= <-]. eauto.
    + intros [?|?]; done.
  - destruct (session_resume_pc _ _ _ _ _ _ _ Hres Hns Hnd (so_body _ _ Hok))
      as (? & ? & ? & ? & _).
    destruct Hok. split; simpl; try done.
    + rewrite Hr. done.
    + intros [?|?]; done.
Qed.

Lemma wf_step_run e w : wf w -> forall c rn',
  coros (step e w) !! c = Some (CRun rn') -> run_ok (step e w) rn'.
Proof.
  intros Hw c rn' Hc'.
  destruct (decide (c < length (coros w))%nat) as [Hlt|Hge].
  2: { destruct (step_new_coro e w c _ ltac:(lia) Hc')
         as [(tid & r & _ & Hr & E)|[(? & ? & _ & ? & _)|[k Hl]]]; try done.
       - simplify_eq. destruct (wf_tasks w Hw _ _ Hr) as (t & Ht & _).
         destruct (step_heap_kept e w r t Ht) as (t' & Ht' & _ & Hsc).
         split; [|done]. exists t'. split; [done|]. unfold run_bounds. simpl. lia.
       - apply launched_by_new in Hl as (t & n & rn & Hn & _). congruence. }
  apply lookup_lt_is_Some in Hlt as [co Hco].
  destruct (step_kind e w c co Hco) as (co' & Hco' & Hk).
  rewrite Hc' in Hco'. simplify_eq. destruct co as [|rn|]; try done.
  pose proof (wf_run w Hw c rn Hco) as Hok.
  assert (run_ok w rn' -> run_ok (step e w) rn') as Hmono.
  { apply run_ok_mono; [apply step_heap_kept|apply step_browser]. }
  assert ((exists o d, e = Resume c o d) \/ forall o d, e <> Resume c o d)
    as [(o & d & ->)|Hne].
  { destruct e as [| | |c' o d]; try (right; by intros).
    destruct (decide (c' = c)) as [->|]; [left; eauto|].
    right. intros ? ?. congruence. }
  2: { destruct (step_frame e w c _ Hco Hne) as (co' & Hco' & Hf). simpl in Hf.
       simplify_eq. auto. }
  assert (c < length (coros w))%nat as Hlt by (by eapply lookup_lt_Some).
  simpl in *. rewrite Hco in *.
  destruct (resume_run_closed c o d rn w)
    as [[E|E]|[(pc & Hpc & E)|(t & t1 & b1 & m & fin & rn'' & Ht & E & Hf)]];
    rewrite E in *; simpl in *.
  - simplify_eq. done.
  - simplify_eq. destruct Hok as [? ?]. split; [done|]. done.
  - rewrite list_lookup_insert_eq in Hc' by done. simplify_eq.
    destruct Hok as [(t & Ht & Hp & Hsc & Hb) Hbr].
    split; simpl.
    + exists t. split; [done|]. unfold run_bounds. simpl.
      destruct Hpc as [[-> ?]|[-> ?]]; simpl; repeat split; try done; try lia.
    + destruct Hpc as [[-> ?]|[-> ?]]; [done|auto].
  - rewrite list_lookup_insert_eq in Hc' by (rewrite length_app; lia).
    assert (rn'' = rn') as -> by congruence.
    destruct Hok as [(t0 & Ht0 & Hb) Hbr].
    assert (t0 = t) as -> by congruence.
    destruct Hf as [Htask Hreset [Hb1 Hbrowser] _ _ Hbounds].
    assert (r_task rn < length (heap w))%nat by (by eapply lookup_lt_Some).
    split; unfold run_result; simpl.
    + eexists. rewrite Htask, list_lookup_insert_eq by done. split; [done|].
      replace (session_count (if fin then set_status Completed t1 else t1))
        with (session_count t); [auto|].
      destruct fin, Hreset as [[-> _]|[-> _]]; done.
    + intros Hp. destruct (Hbrowser Hp) as [?|Hq]; [done|].
      destruct Hb1 as [->|?]; auto.
Qed.

Lemma wf_step_stop e w : wf w -> forall c st',
  coros (step e w) !! c = Some (CStop st') -> stop_ok (step e w) st'.
Proof.
  intros Hw c st' Hc'.
  assert (forall key h, (key, h) ∈ session_tasks (step e w) ->
            forall s, coros (step e w) !! h = Some (CSession s) ->
            (1 <= s_cancel_requests s)%nat ->
            exists s, coros (step e w) !! h = Some (CSession s)
                      /\ key = session_key (s_task_id s) (s_session_id s)
                      /\ (1 <= s_cancel_requests s)%nat) as Hkey.
  { intros key h Hin s Hs Hreq.
    destruct (wf_step_registry e w Hw key h Hin) as (s0 & Hs0 & ? & _).
    simplify_eq. eauto. }
  assert (stop_ok w st' -> stop_ok (step e w) st') as Hmono.
  { apply stop_ok_mono, step_sessions_kept. }
  destruct (decide (c < length (coros w))%nat) as [Hlt|Hge].
  2: { destruct (step_new_coro e w c _ ltac:(lia) Hc')
         as [(? & ? & _ & _ & ?)|[(tid & st & -> & ? & _)|[k Hl]]]; try done.
       2: { apply launched_by_new in Hl as (t & n & rn & Hn & _). congruence. }
       simplify_eq. simpl in *. unfold stop_task in *.
       destruct (tasks w !! tid) as [r|].
       2: { simpl in Hc'. rewrite lookup_app_r in Hc' by lia.
            apply list_lookup_singleton_Some in Hc' as [_ [= <-]].
            by intros ? ? ? ?. }
       destruct (heap w !! r) as [t|]; [|by apply lookup_lt_Some in Hc'; lia].
       destruct (stop_loop _ _ _) as [pc w2] eqn:Hl.
       pose proof (stop_loop_effect _ _ _ _ _ Hl) as [_ _ _ Hlen _ _ _ _].
       simpl in *. rewrite lookup_app_r in Hc' by lia.
       apply list_lookup_singleton_Some in Hc' as [_ [= <-]].
       intros key h rest Hpc. simpl in Hpc.
       destruct (stop_loop_await _ _ (with_heap _ w) _ _
                   (wf_registry_sessions w Hw) Hl key h rest Hpc)
         as (s & Hs & ? & Hin).
       apply (Hkey key h Hin s); [|done]. simpl. by apply lookup_app_l_Some. }
  apply lookup_lt_is_Some in Hlt as [co Hco].
  destruct (step_kind e w c co Hco) as (co' & Hco' & Hk).
  rewrite Hc' in Hco'. simplify_eq. destruct co as [| |st]; try done.
  pose proof (wf_stop w Hw c st Hco) as Hok.
  assert ((exists o d, e = Resume c o d) \/ forall o d, e <> Resume c o d)
    as [(o & d & ->)|Hne].
  { destruct e as [| | |c' o d]; try (right; by intros).
    destruct (decide (c' = c)) as [->|]; [left; eauto|].
    right. intros ? ?. congruence. }
  2: { destruct (step_frame e w c _ Hco Hne) as (co' & Hco' & Hf). simpl in Hf.
       simplify_eq. auto. }
  assert (c < length (coros w))%nat as Hlt by (by eapply lookup_lt_Some).
  simpl in *. rewrite Hco in *.
  destruct (resume_stop_closed c st w) as [|key h rest|key h rest ex r pc w1 _ _ _ _ Hl].
  - simplify_eq. auto.
  - simpl in Hc'. rewrite list_lookup_insert_eq in Hc' by done. simplify_eq.
    by intros ? ? ? ?.
  - pose proof (stop_loop_effect _ _ _ _ _ Hl) as [_ _ _ Hlen _ _ _ _].
    simpl in *. rewrite list_lookup_insert_eq in Hc' by lia. simplify_eq.
    intros key0 h0 rest0 Hpc. simpl in Hpc.
    destruct (stop_loop_await _ _ _ _ _
                (registry_sessions_delete key w (wf_registry_sessions w Hw)) Hl
                key0 h0 rest0 Hpc) as (s & Hs & ? & Hin).
    apply (Hkey key0 h0 Hin s); [|done].
    rewrite list_lookup_insert_ne; [done|].
    intros <-. pose proof (stop_loop_effect _ _ _ _ _ Hl) as [_ _ _ _ Hf _ _ _].
    destruct (Hf c _ Hco) as (c' & Hc'' & Hfr). simpl in *. congruence.
Qed.

Lemma wf_step_browser e w : wf w -> forall c s',
  coros (step e w) !! c = Some (CSession s') -> browser (step e w) = true.
Proof.
  intros Hw c s' Hc'. apply step_browser.
  destruct (decide (c < length (coros w))%nat) as [Hlt|Hge].
  - apply lookup_lt_is_Some in Hlt as [co Hco].
    destruct (step_kind e w c co Hco) as (co' & Hco' & Hk).
    rewrite Hc' in Hco'. simplify_eq. destruct co as [s| |]; try done.
    by eapply wf_browser.
  - destruct (step_new_coro e w c _ ltac:(lia) Hc')
      as [(? & ? & _ & _ & ?)|[(? & ? & _ & ? & _)|[k Hl]]]; try done.
    apply launched_by_new in Hl as (t & n & rn & _ & _ & _ & _ & _ & [cid Hrn] & Hp).
    by apply (wf_run w Hw cid rn Hrn).
Qed.

Theorem wf_step e w : wf w -> wf (step e w).
Proof.
  intros Hw. split.
  - by apply wf_step_tasks.
  - by apply wf_step_heap.
  - apply step_nodup, Hw.
  - by apply wf_step_registry.
  - by apply wf_step_session.
  - by apply wf_step_run.
  - by apply wf_step_stop.
  - by apply wf_step_browser.
Qed.

Lemma wf_run_trace evs : forall w, wf w -> wf (run evs w).
Proof. induction evs; simpl; auto using wf_step. Qed.

Lemma reachable_wf w : reachable w -> wf w.
Proof. intros (b & evs & ->). apply wf_run_trace, wf_init. Qed.

Lemma reachable_step e w : reachable w -> reachable (step e w).
Proof.
  intros (b & evs & ->). exists b, (evs ++ [e]).
  generalize (init b).
  induction evs as [|e' evs IH]; intros w0; simpl; [done|]. by apply IH.
Qed.

Lemma reachable_run evs : forall w, reachable w -> reachable (run evs w).
Proof. induction evs; simpl; auto using reachable_step. Qed.

(** C6 (amended): a [PlaywrightTimeoutError] raised by a driver call of the
    iteration body (outside [_wait_and_click_restart]) adds one to
    [failed_sessions], appends nothing to [results], and leaves the loop for
    good. *)
Theorem timeout_ends_session_without_record (w : World) (cid : nat)
    (s : Session) (r : nat) (t : Task) (iteration k : nat) (a : Await)
    (draw : Z) :
  coros w !! cid = Some (CSession s) ->
  s_pc s = SBody iteration k -> s_must_cancel s = false ->
  iteration_body (s_prompt s) !! k = Some a -> kind a = DriverCall ->
  s_task s = Some r -> heap w !! r = Some t ->
  let w' := step (Resume cid Timeout draw) w in
  exists t' s',
    heap w' !! r = Some t' /\ coros w' !! cid = Some (CSession s')
    /\ failed_sessions t' = failed_sessions t + 1
    /\ completed_sessions t' = completed_sessions t
    /\ results t' = results t
    /\ files w' = files w
    /\ s_pc s' = SCleanup PageContent LoopTimedOut iteration
    /\ forall evs, exists s'',
         coros (run evs w') !! cid = Some (CSession s'')
         /\ past_loop (s_pc s'') = true.
Proof.
  intros Hc Hpc Hm Ha Hk Hr Ht w'.
  assert (cid < length (coros w))%nat by (by eapply lookup_lt_Some).
  assert (r < length (heap w))%nat by (by eapply lookup_lt_Some).
  assert (w' = with_coros
            (<[cid := CSession (at_pc (SCleanup PageContent LoopTimedOut iteration) s)]>
               (coros w))
            (with_heap
               (<[r := set_active (active_sessions t - 1)
                         (set_failed (failed_sessions t + 1) t)]> (heap w)) w))
    as ->.
  { unfold w'. simpl. rewrite Hc. unfold resume_session.
    rewrite Hpc, Hr, Ht. unfold session_resume. rewrite Hpc, Hm, Ha, Hk. simpl.
    rewrite app_nil_r. by destruct w. }
  eexists _, _. simpl.
  rewrite !list_lookup_insert_eq by done.
  repeat split; try done.
  intros evs. eapply run_past_loop; simpl;
    [by rewrite list_lookup_insert_eq|done].
Qed.

Lemma timeout_ends_session_without_record_witness :
  exists t' s',
    heap (step (Resume 1 Timeout 0)
            (run ([AddTask "t" "x" 1; StartTask "t"; Resume 0 Ok 0;
                   Resume 0 Ok 0] ++ repeat (Resume 1 Ok 0) 9) (init true)))
      !! 0%nat = Some t'
    /\ coros (step (Resume 1 Timeout 0)
               (run ([AddTask "t" "x" 1; StartTask "t"; Resume 0 Ok 0;
                      Resume 0 Ok 0] ++ repeat (Resume 1 Ok 0) 9) (init true)))
         !! 1%nat = Some (CSession s')
    /\ failed_sessions t' = 0 + 1
    /\ s_pc s' = SCleanup PageContent LoopTimedOut 1.
Proof.
  edestruct (timeout_ends_session_without_record
    (run ([AddTask "t" "x" 1; StartTask "t"; Resume 0 Ok 0; Resume 0 Ok 0]
          ++ repeat (Resume 1 Ok 0) 9) (init true))
    1%nat
    {| s_task_id := "t"; s_prompt := "x"; s_session_id := "1";
       s_task := Some 0%nat; s_pc := SBody 1 3; s_must_cancel := false;
       s_cancel_requests := 0 |}
    0%nat
    {| id := "t"; prompt := "x"; session_count := 1; status := Running;
       active_sessions := 1; completed_sessions := 0; failed_sessions := 0;
       results := [] |}
    1%nat 3%nat WaitInput 0)
    as (t' & s' & H1 & H2 & H3 & _ & _ & _ & H7 & _).
  - vm_compute. reflexivity.
  - reflexivity.
  - reflexivity.
  - reflexivity.
  - reflexivity.
  - reflexivity.
  - vm_compute. reflexivity.
  - exists t', s'. auto.
Defined.

(** C6, as stated, fails: the wait for the input field times out in the
    first iteration; the failure is counted, and [results] stays empty. *)
Lemma timeout_records_no_outcome :
  let w := run ([AddTask "t" "x" 1; StartTask "t"; Resume 0 Ok 0;
                 Resume 0 Ok 0] ++ repeat (Resume 1 Ok 0) 9
                ++ [Resume 1 Timeout 0]) (init true) in
  s_pc <$> session_at 1 w = Some (SCleanup PageContent LoopTimedOut 1)
  /\ task_field failed_sessions 0 w = Some 1
  /\ task_field results 0 w = Some [].
Proof. vm_compute. done. Qed.

(** C5: the code counts a cancellation as a failure when it is delivered
    at the start delay. *)
Lemma cancel_at_start_delay_counts_failure :
  let before := run [AddTask "t" "x" 1; StartTask "t"; Resume 0 Ok 0;
                     Resume 0 Ok 0; Resume 1 Ok 0; StopTask "t"] (init true) in
  let after := step (Resume 1 Ok 0) before in
  s_pc <$> session_at 1 before = Some SStartDelay
  /\ s_must_cancel <$> session_at 1 before = Some true
  /\ task_field failed_sessions 0 before = Some 0
  /\ s_pc <$> session_at 1 after = Some (SDone Cancelled)
  /\ task_field failed_sessions 0 after = Some 1.
Proof. vm_compute. done. Qed.

(** C9: [stop_task] raises [KeyError] when a session of its list has ended
    by itself; the task is [Stopped] and no dump was ever written. *)
Lemma stop_crash_skips_snapshot :
  let evs :=
    [AddTask "t" "x" 2; StartTask "t";
     Resume 0 Ok 0; Resume 0 Ok 0; Resume 0 Ok 0; Resume 0 Ok 0]
    ++ repeat (Resume 1 Ok 0) 6
    ++ repeat (Resume 2 Ok 0) 6 ++ [Resume 2 Timeout 0]
    ++ repeat (Resume 2 Ok 0) 3
    ++ [StopTask "t"; Resume 2 Ok 0]
    ++ repeat (Resume 1 Ok 0) 5
    ++ [Resume 3 Ok 0] in
  let w := run evs (init true) in
  task_field status 0 w = Some Stopped
  /\ stop_at 3 w = Some StopKeyError
  /\ s_pc <$> session_at 1 w = Some (SDone (Finished LoopCancelled 1))
  /\ s_pc <$> session_at 2 w = Some (SDone (Finished LoopTimedOut 1))
  /\ files w = [].
Proof. vm_compute. done. Qed.

(** * The nominal path of a session *)

Ltac body_length :=
  unfold on_track, remaining, credit in *; cbv zeta in *;
  match goal with
  | s : Session |- _ =>
      pose proof (iteration_body_length (s_prompt s));
      generalize dependent (length (iteration_body (s_prompt s))); intros
  end.

Lemma nominal_advance s i k t pc t' dumps :
  status t = Running -> (1 <= i <= 5)%nat ->
  (k < length (iteration_body (s_prompt s)))%nat ->
  advance s i k t = (pc, t', dumps) ->
  on_track (s_prompt s) pc
  /\ S (remaining (s_prompt s) pc) = remaining (s_prompt s) (SBody i k)
  /\ completed_sessions t' - completed_sessions t = credit pc - credit (SBody i k)
  /\ failed_sessions t' = failed_sessions t.
Proof.
  intros Hs Hi Hk. unfold advance.
  case_decide as Hd.
  - intros [= <- <- <-]. body_length. repeat split; try lia.
  - intros (t1 & H1 & H2)%iteration_done_spec.
    apply save_result_spec in H1 as (_&_&_& Hst &_& Hco & Hf &_&_).
    apply loop_test_spec in H2 as [(-> & -> & _ & Hlt)|(-> & -> & [Hn|Hge])].
    + rewrite Hco, Hf. task_simpl. body_length.
      assert (i = 1 \/ i = 2 \/ i = 3 \/ i = 4)%nat as Hc by lia.
      repeat split; try lia.
    + exfalso. apply Hn. rewrite Hst. by task_simpl.
    + assert (i = 5)%nat as -> by lia. task_simpl. rewrite Hco, Hf. body_length.
      repeat split; lia.
Qed.

Lemma nominal_session_resume s t pc t' dumps :
  s_pc s <> SNotStarted -> done (s_pc s) = false ->
  s_must_cancel s = false -> status t = Running ->
  on_track (s_prompt s) (s_pc s) ->
  session_resume true Ok s t = (pc, t', dumps) ->
  on_track (s_prompt s) pc
  /\ S (remaining (s_prompt s) pc) = remaining (s_prompt s) (s_pc s)
  /\ completed_sessions t' - completed_sessions t = credit pc - credit (s_pc s)
  /\ failed_sessions t' = failed_sessions t.
Proof.
  intros Hns Hd Hm Hs Ht. unfold session_resume. rewrite Hm.
  destruct (s_pc s) as [| | | | | |i k|stage how i|e] eqn:Hpc; try done.
  - intros [= <- <- <-]. body_length. repeat split; lia.
  - intros [= <- <- <-]. body_length. repeat split; lia.
  - intros [= <- <- <-]. body_length. repeat split; lia.
  - intros [= <- <- <-]. task_simpl. body_length. repeat split; lia.
  - unfold loop_test. rewrite bool_decide_eq_true_2 by done. change (0 <? 5)%nat with true. cbn [andb].
    intros [= <- <- <-]. body_length. repeat split; lia.
  - destruct Ht as [Hi Hk].
    destruct (iteration_body (s_prompt s) !! k) as [a|] eqn:Ha.
    2: { apply lookup_ge_None in Ha. lia. }
    intros H. apply (nominal_advance s i k t pc t' dumps); try done.
    by destruct (kind a).
  - destruct Ht as [-> ->].
    destruct stage; intros [= <- <- <-]; simpl; repeat split; lia.
Qed.

Lemma resume_session_resumed cid o s w r t pc t' dumps :
  s_pc s <> SNotStarted -> done (s_pc s) = false ->
  s_task s = Some r -> heap w !! r = Some t ->
  session_resume (browser w) o s t = (pc, t', dumps) ->
  heap (resume_session cid o s w) = <[r := t']> (heap w)
  /\ coros (resume_session cid o s w) = <[cid := CSession (at_pc pc s)]> (coros w).
Proof.
  intros Hns Hd Hr Ht Hres. unfold resume_session.
  destruct (s_pc s); try done; rewrite Hr, Ht, Hres; by case_match.
Qed.

Section nominal.

Variable cid : nat.

Lemma contribution_other f e evs w :
  (forall o d, e <> Resume cid o d) ->
  contribution f cid (e :: evs) w = contribution f cid evs (step e w).
Proof.
  intros Hne. cbn [contribution]. destruct e as [| | |c o d]; try done.
  destruct (session_at cid w ≫= s_task); [|done].
  destruct (decide (c = cid)) as [->|]; [|done]. by destruct (Hne o d).
Qed.

Lemma contribution_own_same f o d evs w :
  heap (step (Resume cid o d) w) = heap w ->
  contribution f cid (Resume cid o d :: evs) w
  = contribution f cid evs (step (Resume cid o d) w).
Proof.
  intros E. cbn [contribution]. unfold task_field. rewrite E.
  destruct (session_at cid w ≫= s_task); [|done].
  rewrite decide_True by done. lia.
Qed.

Lemma contribution_own f o d evs w s r t t' :
  coros w !! cid = Some (CSession s) -> s_task s = Some r ->
  heap w !! r = Some t -> heap (step (Resume cid o d) w) !! r = Some t' ->
  contribution f cid (Resume cid o d :: evs) w
  = f t' - f t + contribution f cid evs (step (Resume cid o d) w).
Proof.
  intros Hc Hr Ht Ht'. cbn [contribution]. unfold session_at, task_field.
  rewrite Hc. cbn [mbind option_bind session_of]. rewrite Hr, Ht, Ht'.
  by rewrite decide_True.
Qed.

Lemma resumes_own o d evs : resumes cid (Resume cid o d :: evs) = S (resumes cid evs).
Proof. simpl. by rewrite decide_True. Qed.

Lemma nominal_run evs : forall w s,
  wf w -> coros w !! cid = Some (CSession s) ->
  on_track (s_prompt s) (s_pc s) ->
  nominal cid evs w = true ->
  (remaining (s_prompt s) (s_pc s) <= resumes cid evs)%nat ->
  s_pc <$> session_at cid (run evs w) = Some (SDone (Finished LoopEnded 5))
  /\ contribution completed_sessions cid evs w = 5 - credit (s_pc s)
  /\ contribution failed_sessions cid evs w = 0.
Proof.
  induction evs as [|e evs IH]; intros w s Hwf Hc Ht Hn Hr.
  { simpl in *. unfold session_at. rewrite Hc. simpl.
    destruct (s_pc s) as [| | | | | |i k|[] how i|ex]; simpl in *; try lia.
    subst ex. done. }
  cbn [nominal] in Hn. apply andb_true_iff in Hn as [Hn1 Hn].
  pose proof (wf_step e w Hwf) as Hwf'.
  pose proof (wf_session w Hwf cid s Hc) as Hok.
  assert ((exists o d, e = Resume cid o d) \/ (forall o d, e <> Resume cid o d))
    as [(o & d & ->)|Hne].
  { destruct e as [| | |c o d]; try (by right).
    destruct (decide (c = cid)) as [->|]; [left; eauto|].
    right. congruence. }
  2: { (* another coroutine, or the control plane *)
    destruct (step_frame e w cid _ Hc Hne) as (c' & Hc' & s' & -> & Hf).
    destruct Hf as (E1 & E2 & E3 & E4 & E5 & _).
    assert (resumes cid (e :: evs) = resumes cid evs) as Hres.
    { destruct e as [| | |c o d]; try done. simpl.
      destruct (decide (c = cid)) as [->|]; [by destruct (Hne o d)|done]. }
    rewrite Hres in Hr. rewrite !contribution_other by done.
    rewrite <- E5, <- E2 in *. cbn [run]. by apply (IH (step e w) s'). }
  (* the session itself *)
  rewrite resumes_own in Hr. rewrite decide_True in Hn1 by done.
  unfold nominal_resume, session_task, session_at in Hn1.
  rewrite Hc in Hn1. cbn [mbind option_bind session_of] in Hn1.
  cbn [run].
  destruct (done (s_pc s)) eqn:Hd.
  { (* already at its end *)
    assert (step (Resume cid o d) w = w) as Hst.
    { simpl. rewrite Hc. unfold resume_session. by destruct (s_pc s). }
    rewrite !contribution_own_same by (by rewrite Hst). rewrite Hst in *.
    apply (IH w s); try done. destruct (s_pc s); try done. simpl. lia. }
  cbn [orb] in Hn1.
  apply andb_true_iff in Hn1 as [Hn1 Hrun]. apply andb_true_iff in Hn1 as [Ho Hm].
  destruct o; try done. apply negb_true_iff in Hm.
  apply bool_decide_eq_true in Hrun.
  assert (s_pc s = SNotStarted \/ s_pc s <> SNotStarted) as [Hns|Hns]
    by (destruct (s_pc s); auto).
  { (* its first step *)
    destruct (so_task_id _ _ Hok) as (r0 & t0 & Ht0 & Hid).
    destruct (wf_heap w Hwf r0 t0 Ht0) as [r' Hr'].
    assert (step (Resume cid Ok d) w
            = with_coros (<[cid := CSession (bind_task r' s)]> (coros w)) w) as Hst.
    { simpl. rewrite Hc. unfold resume_session. by rewrite Hns, Hm, <- Hid, Hr'. }
    rewrite !contribution_own_same by (by rewrite Hst).
    destruct (IH (step (Resume cid Ok d) w) (bind_task r' s)) as (H1 & H2 & H3);
      try done.
    - rewrite Hst. simpl. apply list_lookup_insert_eq. by eapply lookup_lt_Some.
    - rewrite Hns in Hr. simpl in *. lia.
    - rewrite Hns. simpl in *. split; [done|]. split; [lia|done]. }
  (* a step inside the outer [try] *)
  destruct (s_task s) as [r|] eqn:Hr0.
  2: { destruct (so_unbound _ _ Hok Hr0) as [?|E]; [done|]. by rewrite E in Hd. }
  destruct (so_bound _ _ Hok r Hr0) as (t & Htk & _).
  simpl in Hrun. unfold task_field in Hrun. rewrite Htk in Hrun. simpl in Hrun.
  assert (status t = Running) as Hs by congruence.
  pose proof (wf_browser w Hwf cid s Hc) as Hb.
  destruct (session_resume (browser w) Ok s t) as [[pc t'] dumps] eqn:Hres.
  destruct (resume_session_resumed cid Ok s w r t pc t' dumps Hns Hd Hr0 Htk Hres)
    as [Hhp Hco].
  rewrite Hb in Hres.
  destruct (nominal_session_resume s t pc t' dumps Hns Hd Hm Hs Ht Hres)
    as (Ht' & Hrem & Hcomp & Hfail).
  assert (step (Resume cid Ok d) w = resume_session cid Ok s w) as Hst
    by (simpl; by rewrite Hc).
  destruct (IH (step (Resume cid Ok d) w) (at_pc pc s)) as (H1 & H2 & H3);
    try done.
  - rewrite Hst, Hco. apply list_lookup_insert_eq. by eapply lookup_lt_Some.
  - cbn [at_pc s_pc s_prompt]. lia.
  - cbn [at_pc s_pc s_prompt] in H2. split; [done|].
    assert (heap (step (Resume cid Ok d) w) !! r = Some t') as Ht1.
    { rewrite Hst, Hhp. apply list_lookup_insert_eq. by eapply lookup_lt_Some. }
    rewrite !(contribution_own _ Ok d evs w s r t t') by done. lia.
Qed.

End nominal.

Section sums.

Context {A : Type} (f : A -> Z).

Lemma sumZ_app l1 l2 : sumZ f (l1 ++ l2) = sumZ f l1 + sumZ f l2.
Proof. induction l1 as [|c l1 IH]; simpl; [done|]. rewrite IH. lia. Qed.

Lemma sumZ_insert l i c c' :
  l !! i = Some c -> sumZ f (<[i := c']> l) = sumZ f l + f c' - f c.
Proof.
  revert i. induction l as [|x l IH]; intros [|i] H; simplify_eq/=; [lia|].
  rewrite (IH i) by done. lia.
Qed.

Lemma sumZ_zero l : (forall c, c ∈ l -> f c = 0) -> sumZ f l = 0.
Proof.
  induction l as [|x l IH]; intros H; simpl; [done|].
  rewrite (H x), IH; [done| |]; [|left]. intros c Hc. apply H. by right.
Qed.

Lemma sumZ_nonneg l : (forall c, c ∈ l -> 0 <= f c) -> 0 <= sumZ f l.
Proof.
  induction l as [|x l IH]; intros H; simpl; [done|].
  assert (0 <= f x) by (apply H; left).
  assert (0 <= sumZ f l) by (apply IH; intros c Hc; apply H; by right). lia.
Qed.

Lemma sumZ_zero_inv l c :
  (forall c, c ∈ l -> 0 <= f c) -> sumZ f l = 0 -> c ∈ l -> f c = 0.
Proof.
  induction l as [|x l IH]; intros H Hs Hc; [by apply elem_of_nil in Hc|].
  simpl in Hs.
  assert (0 <= f x) by (apply H; left).
  assert (0 <= sumZ f l) by (apply sumZ_nonneg; intros c0 Hc0; apply H; by right).
  apply elem_of_cons in Hc as [->|Hc]; [lia|].
  apply IH; [|lia|done]. intros c0 Hc0. apply H. by right.
Qed.

Lemma sumZ_le (g : A -> Z) l :
  (forall c, c ∈ l -> f c <= g c) -> sumZ f l <= sumZ g l.
Proof.
  induction l as [|x l IH]; intros H; simpl; [done|].
  assert (f x <= g x) by (apply H; left).
  assert (sumZ f l <= sumZ g l) by (apply IH; intros c Hc; apply H; by right). lia.
Qed.

(** Two lists that agree in weight at every index but [i]. *)
Lemma sumZ_but l : forall l' i,
  length l' = length l ->
  (forall j c c', j <> i -> l !! j = Some c -> l' !! j = Some c' -> f c' = f c) ->
  sumZ f l' = sumZ f l
              + match l !! i, l' !! i with
                | Some c, Some c' => f c' - f c
                | _, _ => 0
                end.
Proof.
  induction l as [|x l IH]; intros [|x' l'] i Hl H; simplify_eq/=; [done|].
  destruct i as [|i]; simpl.
  - rewrite (IH l' (length l)); [|done|].
    2: { intros j c c' _ Hc Hc'. by apply (H (S j) c c'). }
    rewrite (lookup_ge_None_2 l (length l)) by done. lia.
  - rewrite (IH l' i); [|done|].
    2: { intros j c c' ? Hc Hc'. apply (H (S j) c c'); [lia|done|done]. }
    rewrite (H 0%nat x x') by done. lia.
Qed.

Lemma sumZ_same l l' :
  length l' = length l ->
  (forall j c c', l !! j = Some c -> l' !! j = Some c' -> f c' = f c) ->
  sumZ f l' = sumZ f l.
Proof.
  intros Hl H. rewrite (sumZ_but l l' (length l)); [|done|by eauto].
  rewrite (lookup_ge_None_2 l (length l)) by done. lia.
Qed.

End sums.

Lemma held_stable r : stable (held r).
Proof.
  intros [s| |] c' H; simpl in H; [|by subst..].
  destruct H as (s' & -> & _ & _ & _ & E1 & E2 & _). simpl. by rewrite E1, E2.
Qed.

Lemma member_stable task_id : stable (member task_id).
Proof.
  intros [s| |] c' H; simpl in H; [|by subst..].
  destruct H as (s' & -> & E & _). simpl. by rewrite E.
Qed.

Lemma launched_count_stable r : stable (launched_count r).
Proof.
  intros [s| |] c' H; simpl in H; [|by subst..].
  by destruct H as (s' & -> & _).
Qed.

Lemma held_nonneg r c : 0 <= held r c <= 1.
Proof.
  destruct c as [s| |]; simpl; try lia. case_decide; [|lia].
  destruct (s_pc s) as [| | | | | | | |[]]; simpl; lia.
Qed.

Lemma member_nonneg task_id c : 0 <= member task_id c <= 1.
Proof. destruct c as [s| |]; simpl; try lia. case_decide; lia. Qed.

Lemma sumZ_launched f t counter n :
  (forall s, s_task_id s = id t -> s_task s = None -> s_pc s = SNotStarted ->
             f (CSession s) = 1) ->
  sumZ f (launched t counter n) = Z.of_nat n.
Proof.
  intros H. revert counter. induction n as [|n IH]; intros counter; [done|].
  cbn [launched sumZ foldr]. fold (sumZ f (launched t (S counter) n)).
  rewrite IH, H by done. lia.
Qed.

Lemma sumZ_launched_zero f t counter n :
  (forall s, s_task_id s = id t -> s_task s = None -> f (CSession s) = 0) ->
  sumZ f (launched t counter n) = 0.
Proof.
  intros H. apply sumZ_zero. intros c Hc.
  apply list_elem_of_lookup in Hc as [j Hj].
  assert (j < n)%nat as Hlt.
  { apply lookup_lt_Some in Hj. by rewrite launched_length in Hj. }
  rewrite launched_lookup in Hj by done. simplify_eq. by apply H.
Qed.

(** ** The coroutines after a step *)

Lemma step_length e w : (length (coros w) <= length (coros (step e w)))%nat.
Proof.
  destruct (coros w) as [|c l] eqn:E using rev_ind; [simpl; lia|]. clear IHl.
  destruct (step_kind e w (length l) c) as (c' & Hc' & _).
  { rewrite E. by apply list_lookup_middle. }
  apply lookup_lt_Some in Hc'. rewrite length_app. simpl. lia.
Qed.

Lemma step_sumZ f e w :
  stable f ->
  sumZ f (coros (step e w))
  = sumZ f (coros w) + own_change f e w
    + sumZ f (drop (length (coros w)) (coros (step e w))).
Proof.
  intros Hf. pose proof (step_length e w) as Hl.
  rewrite <- (take_drop (length (coros w)) (coros (step e w))) at 1.
  rewrite sumZ_app. f_equal.
  set (l1 := take (length (coros w)) (coros (step e w))).
  assert (length l1 = length (coros w)) as Hl1 by (unfold l1; rewrite length_take; lia).
  assert (forall j c', l1 !! j = Some c' -> coros (step e w) !! j = Some c') as Hl1'.
  { intros j c' Hj. unfold l1 in Hj. apply lookup_take_Some in Hj as [? _]. done. }
  assert (forall j c c', (forall o d, e <> Resume j o d) -> coros w !! j = Some c ->
                         l1 !! j = Some c' -> f c' = f c) as Hframe.
  { intros j c c' Hne Hc Hc'. apply Hl1' in Hc'.
    destruct (step_frame e w j c Hc Hne) as (c1 & Hc1 & Hfr).
    assert (c1 = c') as -> by congruence. by apply Hf. }
  unfold own_change. destruct e as [| | |cid o d].
  1-3: rewrite Z.add_0_r; apply sumZ_same; [done|];
       intros j c c' Hc Hc'; by apply (Hframe j c c').
  rewrite (sumZ_but f (coros w) l1 cid); [|done|].
  2: { intros j c c' Hne Hc Hc'. apply (Hframe j c c'); [congruence|done..]. }
  f_equal. destruct (coros w !! cid) as [c|] eqn:Hc; [|done].
  assert (cid < length (coros w))%nat as Hlt by (by eapply lookup_lt_Some).
  unfold l1. rewrite lookup_take_lt by done. done.
Qed.

Lemma run_snoc evs e : forall w, run (evs ++ [e]) w = step e (run evs w).
Proof. induction evs as [|e' evs IH]; intros w; simpl; [done|]. apply IH. Qed.

Lemma reachable_induction (P : World -> Prop) :
  (forall b, P (init b)) ->
  (forall e w, reachable w -> P w -> P (step e w)) ->
  forall w, reachable w -> P w.
Proof.
  intros Hi Hs w (b & evs & ->).
  induction evs as [|e evs IH] using rev_ind; [apply Hi|].
  rewrite run_snoc. apply Hs; [|done]. by exists b, evs.
Qed.

(** Only the creation of a task adds a [Task] object. *)
Lemma step_new_task e w r :
  heap w !! r = None -> is_Some (heap (step e w) !! r) ->
  coros (step e w) = coros w
  /\ r = length (heap w)
  /\ exists task_id p n, heap (step e w) = heap w ++ [new_task task_id p n].
Proof.
  intros Hn [t' Hs].
  assert (length (heap (step e w)) = length (heap w) -> False) as Hlen.
  { intros E. apply lookup_lt_Some in Hs. apply lookup_ge_None in Hn. lia. }
  assert (forall tid p n, step e w = add_task tid p n w ->
            coros (step e w) = coros w /\ r = length (heap w)
            /\ exists task_id p n, heap (step e w) = heap w ++ [new_task task_id p n])
    as Hadd.
  { intros tid p n E. rewrite E in *. simpl in *. split; [done|]. split; [|eauto].
    apply lookup_ge_None in Hn. apply lookup_lt_Some in Hs.
    rewrite length_app in Hs. simpl in Hs. lia. }
  destruct e as [tid p n|tid|tid|cid o d].
  - by apply (Hadd tid p n).
  - destruct Hlen. simpl. unfold start_task. by case_match.
  - destruct Hlen. simpl. unfold stop_task.
    destruct (tasks w !! tid) as [r0|]; [|done].
    destruct (heap w !! r0) as [t|]; [|done].
    destruct (stop_loop _ _ _) as [pc w2] eqn:Hl.
    apply stop_loop_effect in Hl as [E1 E2 _ _ _ _ _ _]. simpl in *.
    by rewrite E2, length_insert.
  - destruct Hlen. simpl.
    destruct (coros w !! cid) as [[s|rn|st]|] eqn:Hcid; [| | |done].
    + unfold resume_session.
      destruct (s_pc s); try done; try (repeat case_match; by simpl).
      all: destruct (s_task s) as [r0|]; [|done].
      all: destruct (heap w !! r0) as [t|]; [|done].
      all: destruct (session_resume _ _ _ _) as [[pc t''] dumps].
      all: destruct (runs_outer_finally pc); simpl; by rewrite length_insert.
    + destruct (resume_run_closed cid o d rn w)
        as [[E|E]|[(pc & _ & E)|(t & t1 & b1 & m & fin & rn' & Ht & E & Hf)]];
        rewrite E; simpl; try done.
      by rewrite length_insert.
    + unfold resume_stop. destruct (st_pc st); try done.
      destruct (exit_of handle w) as [[]|]; try done.
      all: destruct (st_task st); try done.
      all: destruct (stop_loop _ _ _) as [pc w1] eqn:Hl.
      all: apply stop_loop_effect in Hl as [E1 E2 _ _ _ _ _ _]; simpl in *.
      all: by rewrite E2.
Qed.

Lemma unique_id_step e w r :
  is_Some (heap w !! r) -> unique_id r (step e w) -> unique_id r w.
Proof.
  intros _ Hu t r' t' Ht Ht' Hid.
  destruct (step_immutable e w r t Ht) as (t1 & Ht1 & E1 & _).
  destruct (step_immutable e w r' t' Ht') as (t1' & Ht1' & E1' & _).
  apply (Hu t1 r' t1'); congruence.
Qed.

Lemma single_run_step e w r : single_run r (step e w) -> single_run r w.
Proof.
  intros Hs c c' rn rn' Hc Hc' Hr Hr'.
  destruct (step_kind e w c _ Hc) as ([|rn1|] & Hc1 & Hk); try done.
  destruct (step_kind e w c' _ Hc') as ([|rn1'|] & Hc1' & Hk'); try done.
  simpl in *. apply (Hs c c' rn1 rn1'); congruence.
Qed.

Lemma run_bounds_init rn sc :
  run_bounds rn sc -> past_init (r_pc rn) = false -> r_session_id_counter rn = 0%nat.
Proof. intros (_ & _ & H) Hp. by destruct (r_pc rn). Qed.

Lemma elem_of_drop_lookup {A} (c : A) n l :
  c ∈ drop n l -> exists j, (n <= j)%nat /\ l !! j = Some c.
Proof.
  intros [i Hi]%list_elem_of_lookup. rewrite lookup_drop in Hi.
  exists (n + i)%nat. split; [lia|done].
Qed.

(** The weights of the coroutines that a step other than a step of a run
    adds, and the change of weight at the coroutine it resumes. *)
Lemma step_counts_other e w task_id r :
  ~ (exists cid o d rn, e = Resume cid o d /\ coros w !! cid = Some (CRun rn)) ->
  own_change (member task_id) e w = 0
  /\ own_change (launched_count r) e w = 0
  /\ sumZ (member task_id) (drop (length (coros w)) (coros (step e w))) = 0
  /\ sumZ (launched_count r) (drop (length (coros w)) (coros (step e w))) = 0.
Proof.
  intros Hnr.
  assert (forall c, c ∈ drop (length (coros w)) (coros (step e w)) ->
            member task_id c = 0 /\ launched_count r c = 0) as Hnew.
  { intros c (j & Hj & Hc)%elem_of_drop_lookup.
    destruct (step_new_coro e w j c Hj Hc)
      as [(tid & r0 & _ & _ & ->)|[(tid & st & _ & -> & _)|[k Hl]]].
    - simpl. by case_decide.
    - done.
    - destruct Hnr. destruct Hl as (cid & o & d & rn & ? & ? & ? & ? & ? & _). eauto 10. }
  split; [|split; [|split]].
  - unfold own_change. destruct e as [| | |cid o d]; try done.
    destruct (coros w !! cid) as [c|] eqn:Hc; [|done].
    destruct (step_kind (Resume cid o d) w cid c Hc) as (c' & Hc' & Hk).
    rewrite Hc'. destruct c as [s| |], c' as [s'| |]; try done.
    destruct (step_sessions_kept (Resume cid o d) w cid s Hc) as (s1 & Hs1 & E & _).
    assert (s1 = s') as -> by congruence. simpl. rewrite E. lia.
  - unfold own_change. destruct e as [| | |cid o d]; try done.
    destruct (coros w !! cid) as [c|] eqn:Hc; [|done].
    destruct (step_kind (Resume cid o d) w cid c Hc) as (c' & Hc' & Hk).
    rewrite Hc'. destruct c as [s|rn|], c' as [s'| |]; try done.
    destruct Hnr. eauto 10.
  - apply sumZ_zero. intros c Hc. by apply Hnew.
  - apply sumZ_zero. intros c Hc. by apply Hnew.
Qed.

(** The coroutines after a step of a run: the sessions of one wave are
    added, and the counter advances by their number. *)
Lemma resume_run_coros cid o d rn w :
  wf w -> coros w !! cid = Some (CRun rn) ->
  exists t m rn',
    heap w !! r_task rn = Some t
    /\ coros (resume_run cid o d rn w)
       = <[cid := CRun rn']> (coros w ++ launched t (r_session_id_counter rn) m)
    /\ r_task rn' = r_task rn
    /\ r_session_id_counter rn' = (r_session_id_counter rn + m)%nat.
Proof.
  intros Hwf Hc.
  destruct (wf_run w Hwf cid rn Hc) as [(t & Ht & Hb) _].
  pose proof (run_bounds_init rn _ Hb) as Hinit.
  assert (coros w = <[cid := CRun rn]> (coros w ++ launched t (r_session_id_counter rn) 0))
    as Hsame.
  { simpl. rewrite app_nil_r. by rewrite list_insert_id. }
  destruct (resume_run_closed cid o d rn w)
    as [[E|E]|[(pc & Hpc & E)|(t0 & t1 & b1 & m & fin & rn' & Ht0 & E & Hf)]];
    rewrite E.
  - exists t, 0%nat, rn. split; [done|]. split; [done|]. split; [done|lia].
  - exists t, 0%nat, rn. split; [done|]. split; [done|]. split; [done|lia].
  - exists t, 0%nat. eexists. split; [done|]. simpl. rewrite app_nil_r.
    split; [done|]. split; [done|]. simpl.
    destruct Hpc as [[-> Hi]|[-> Hp]]; simpl; [|lia].
    rewrite Hinit; [done|]. by rewrite Hi.
  - assert (t0 = t) as -> by congruence. exists t, m, rn'.
    split; [done|]. split; [done|]. destruct Hf as [? _ _ Hl _ _].
    split; [done|].
    destruct Hl as [[-> [->|[Hp ->]]]|(k & _ & _ & _ & ->)]; try lia.
    rewrite Hinit by done. lia.
Qed.

(** Every session was launched by a run of the task object it names. *)
Lemma members_launched w :
  reachable w ->
  forall r t, heap w !! r = Some t -> unique_id r w ->
    sumZ (member (id t)) (coros w) = sumZ (launched_count r) (coros w).
Proof.
  intros Hw. induction Hw as [b|e w Hw IH] using reachable_induction;
    intros r t' Ht' Hu; [done|].
  pose proof (reachable_wf w Hw) as Hwf.
  destruct (heap w !! r) as [t|] eqn:Ht.
  2: { (* the task is created by this step *)
    destruct (step_new_task e w r Ht) as (Ec & -> & tid & p & n & Eh); [eauto|].
    rewrite Ec. rewrite !sumZ_zero; [done| |].
    - intros [|rn|] Hc; try done. simpl. case_decide as E; [|done].
      apply list_elem_of_lookup in Hc as [c Hc].
      destruct (wf_run w Hwf c rn Hc) as [(t0 & Ht0 & _) _].
      rewrite E in Ht0. congruence.
    - intros [s| |] Hc; try done. simpl. case_decide as E; [|done].
      apply list_elem_of_lookup in Hc as [c Hc].
      destruct (so_task_id _ _ (wf_session w Hwf c s Hc)) as (r0 & t0 & Ht0 & Hid).
      assert (heap (step e w) !! r0 = Some t0) as Ht0'.
      { rewrite Eh. by apply lookup_app_l_Some. }
      assert (r0 = length (heap w)) as -> by (apply (Hu t' r0 t0); congruence).
      apply lookup_lt_Some in Ht0. lia. }
  destruct (step_immutable e w r t Ht) as (t1 & Ht1 & Eid & _).
  assert (t1 = t') as -> by congruence. rewrite Eid.
  specialize (IH r t Ht (unique_id_step e w r ltac:(eauto) Hu)).
  assert ((exists cid o d rn, e = Resume cid o d /\ coros w !! cid = Some (CRun rn))
          \/ ~ (exists cid o d rn, e = Resume cid o d /\ coros w !! cid = Some (CRun rn)))
    as [(cid & o & d & rn & -> & Hc)|Hnr].
  { destruct e as [| | |cid o d]; try (right; by intros (?&?&?&?&?&?)).
    destruct (coros w !! cid) as [[|rn|]|] eqn:Hc; try (right; intros (?&?&?&?&?&?); congruence).
    left. eauto 10. }
  - (* a step of a run *)
    assert (cid < length (coros w))%nat as Hlt by (by eapply lookup_lt_Some).
    simpl. rewrite Hc.
    destruct (resume_run_coros cid o d rn w Hwf Hc) as (t0 & m & rn' & Ht0 & -> & Hr & Hn).
    rewrite !(sumZ_insert _ _ cid (CRun rn)) by (by apply lookup_app_l_Some).
    rewrite !sumZ_app, IH.
    rewrite (sumZ_launched_zero (launched_count r)) by done.
    simpl. rewrite Hr.
    destruct (decide (r_task rn = r)) as [Er|Er].
    + assert (t0 = t) as -> by congruence.
      rewrite (sumZ_launched (member (id t))); [lia|].
      intros s E _ _. simpl. by rewrite decide_True.
    + rewrite (sumZ_launched_zero (member (id t))); [lia|].
      intros s E _. simpl. rewrite decide_False; [done|]. intros E'.
      apply Er.
      apply (unique_id_step (Resume cid o d) w r ltac:(eauto) Hu t (r_task rn) t0);
        congruence.
  - (* no session is created and no counter changes *)
    rewrite !(step_sumZ _ e w) by (apply member_stable || apply launched_count_stable).
    rewrite IH.
    destruct (step_counts_other e w (id t) r Hnr) as (-> & -> & -> & ->). done.
Qed.

Lemma sumZ_single {A} (f : A -> Z) l : forall i c,
  l !! i = Some c ->
  (forall j c', j <> i -> l !! j = Some c' -> f c' = 0) ->
  sumZ f l = f c.
Proof.
  induction l as [|x l IH]; intros [|i] c Hc H; simplify_eq/=.
  - rewrite sumZ_zero; [lia|]. intros c' [j Hj]%list_elem_of_lookup.
    by apply (H (S j) c').
  - rewrite (IH i c Hc), (H 0%nat x); [lia|done|done|].
    intros j c' ? Hj. apply (H (S j) c'); [lia|done].
Qed.

Lemma sumZ_zero_or {A} (f : A -> Z) l :
  sumZ f l = 0 \/ exists i c, l !! i = Some c /\ f c <> 0.
Proof.
  induction l as [|x l [IH|(i & c & Hc & Hn)]]; [by left| |].
  - destruct (decide (f x = 0)) as [E|E].
    + left. simpl. lia.
    + right. by exists 0%nat, x.
  - right. by exists (S i), c.
Qed.

(** With a single run, the sessions launched are those of its counter. *)
Lemma launched_single w r cid rn :
  single_run r w -> coros w !! cid = Some (CRun rn) -> r_task rn = r ->
  sumZ (launched_count r) (coros w) = Z.of_nat (r_session_id_counter rn).
Proof.
  intros Hs Hc Hr. rewrite (sumZ_single _ _ cid (CRun rn) Hc).
  - simpl. by rewrite decide_True.
  - intros j [|rn'|] Hne Hj; try done. simpl. case_decide; [|done].
    destruct Hne. by apply (Hs j cid rn' rn).
Qed.

Lemma launched_bound w r t :
  wf w -> heap w !! r = Some t -> single_run r w -> 0 <= session_count t ->
  0 <= sumZ (launched_count r) (coros w) <= session_count t.
Proof.
  intros Hwf Ht Hs Hsc.
  destruct (sumZ_zero_or (launched_count r) (coros w)) as [->|(i & c & Hc & Hn)]; [lia|].
  destruct c as [|rn|]; try done. simpl in Hn. case_decide as Hr; [|done].
  rewrite (launched_single w r i rn Hs Hc Hr).
  destruct (wf_run w Hwf i rn Hc) as [(t0 & Ht0 & _ & Hb & _) _].
  rewrite Hr in Ht0. assert (t0 = t) as -> by congruence. lia.
Qed.

(** A session bound to [r] is a session created for the id of [r]. *)
Lemma held_le_member w r t c :
  wf w -> heap w !! r = Some t -> c ∈ coros w -> held r c <= member (id t) c.
Proof.
  intros Hwf Ht [i Hc]%list_elem_of_lookup.
  destruct c as [s| |]; try done.
  pose proof (held_nonneg r (CSession s)) as Hh. simpl in *.
  destruct (decide (s_task s = Some r)) as [Hb|Hb]; [|case_decide; lia].
  destruct (so_bound _ _ (wf_session w Hwf i s Hc) r Hb) as (t0 & Ht0 & E).
  assert (t0 = t) as -> by congruence. rewrite decide_True by done. lia.
Qed.

Lemma no_member_no_holder w r t :
  wf w -> heap w !! r = Some t ->
  sumZ (member (id t)) (coros w) = 0 -> sumZ (held r) (coros w) = 0.
Proof.
  intros Hwf Ht Hz. apply sumZ_zero. intros c Hc.
  pose proof (held_le_member w r t c Hwf Ht Hc).
  pose proof (held_nonneg r c).
  rewrite (sumZ_zero_inv (member (id t)) (coros w) c) in H; [lia| |done|done].
  intros c' _. apply member_nonneg.
Qed.

(** A step of a session changes what it holds as it changes the counter. *)
Lemma resume_session_balance cid o d s w r t :
  coros w !! cid = Some (CSession s) -> heap w !! r = Some t ->
  exists t', heap (resume_session cid o s w) !! r = Some t'
    /\ active_sessions t' - active_sessions t
       = own_change (held r) (Resume cid o d) w.
Proof.
  intros Hc Ht.
  assert (cid < length (coros w))%nat as Hlt by (by eapply lookup_lt_Some).
  unfold own_change. cbn [step]. rewrite Hc.
  assert (forall s', holding (s_pc s') = 0 -> holding (s_pc s) = 0 ->
            resume_session cid o s w
            = with_coros (<[cid := CSession s']> (coros w)) w ->
            exists t', heap (resume_session cid o s w) !! r = Some t'
              /\ active_sessions t' - active_sessions t
                 = match coros (resume_session cid o s w) !! cid with
                   | Some c' => held r c' - held r (CSession s)
                   | None => 0
                   end) as Hflat.
  { intros s' H1 H2 ->. exists t. split; [done|]. simpl.
    rewrite list_lookup_insert_eq by done. simpl. rewrite H1, H2.
    repeat case_decide; lia. }
  assert (resume_session cid o s w = w ->
            exists t', heap (resume_session cid o s w) !! r = Some t'
              /\ active_sessions t' - active_sessions t
                 = match coros (resume_session cid o s w) !! cid with
                   | Some c' => held r c' - held r (CSession s)
                   | None => 0
                   end) as Hsame.
  { intros ->. exists t. rewrite Hc. split; [done|lia]. }
  destruct (s_pc s) as [| | | | | |i k|stage how i|ex] eqn:Hpc.
  1: { destruct (s_must_cancel s) eqn:Hm.
       { apply (Hflat (at_pc (SDone NeverRan) s)); [done|done|].
         unfold resume_session. by rewrite Hpc, Hm. }
       destruct (tasks w !! s_task_id s) as [r'|] eqn:Hr'.
       - apply (Hflat (bind_task r' s)); [done|done|].
         unfold resume_session. by rewrite Hpc, Hm, Hr'.
       - apply (Hflat (at_pc (SDone Crashed) s)); [done|done|].
         unfold resume_session. by rewrite Hpc, Hm, Hr'. }
  8: { apply Hsame. unfold resume_session. by rewrite Hpc. }
  all: destruct (s_task s) as [r0|] eqn:Hr0;
    [|apply Hsame; unfold resume_session; by rewrite Hpc, Hr0].
  all: destruct (heap w !! r0) as [t0|] eqn:Ht0;
    [|apply Hsame; unfold resume_session; by rewrite Hpc, Hr0, Ht0].
  all: destruct (session_resume (browser w) o s t0) as [[pc t0'] dumps] eqn:Hres.
  all: pose proof (session_resume_task_step _ _ _ _ _ _ _ Hres) as Hts.
  all: destruct (resume_session_resumed cid o s w r0 t0 pc t0' dumps) as [Eh Ec];
    [by rewrite Hpc|by rewrite Hpc|done|done|done|].
  all: rewrite Eh, Ec, list_lookup_insert_eq by done.
  all: assert (r0 < length (heap w))%nat by (by eapply lookup_lt_Some).
  all: simpl; rewrite Hr0, Hpc.
  all: destruct (decide (r0 = r)) as [->|Hne];
    [assert (t0 = t) as -> by congruence; exists t0';
     rewrite list_lookup_insert_eq by done; split; [done|];
     rewrite !decide_True by done; destruct Hts as [_ _ _ _ Ha _ _ _];
     by rewrite Hpc in Ha
    |exists t; rewrite list_lookup_insert_ne by done; split; [done|];
     rewrite !decide_False by congruence; lia].
Qed.

Lemma step_new_held e w r c :
  c ∈ drop (length (coros w)) (coros (step e w)) -> held r c = 0.
Proof.
  intros (j & Hj & Hc)%elem_of_drop_lookup.
  destruct (step_new_coro e w j c Hj Hc)
    as [(tid & r0 & _ & _ & ->)|[(tid & st & _ & -> & _)|[k Hl]]]; try done.
  destruct Hl as (cid & o & d & rn & rn' & t & n & _ & _ & _ & _ & _ & _ & _ & _ & _ & Hn & _).
  assert (c = CSession (new_session t (pretty n))) as -> by congruence. done.
Qed.

(** [active_sessions] counts the sessions that are between their
    increment and their decrement, as long as the task has one run. *)
Lemma active_held w :
  reachable w ->
  forall r t, heap w !! r = Some t -> unique_id r w -> single_run r w ->
    active_sessions t = sumZ (held r) (coros w).
Proof.
  intros Hw. induction Hw as [b|e w Hw IH] using reachable_induction;
    intros r t' Ht' Hu Hs; [done|].
  pose proof (reachable_wf w Hw) as Hwf.
  destruct (heap w !! r) as [t|] eqn:Ht.
  2: { destruct (step_new_task e w r Ht) as (Ec & -> & tid & p & n & Eh); [eauto|].
    rewrite Ec. rewrite Eh, lookup_app_r, Nat.sub_diag in Ht' by done.
    simplify_eq/=. symmetry. apply sumZ_zero.
    intros [s| |] [c Hc]%list_elem_of_lookup; try done. simpl.
    case_decide as E; [|done].
    destruct (so_bound _ _ (wf_session w Hwf c s Hc) _ E) as (t0 & Ht0 & _).
    congruence. }
  pose proof (unique_id_step e w r ltac:(eauto) Hu) as Hu0.
  pose proof (single_run_step e w r Hs) as Hs0.
  specialize (IH r t Ht Hu0 Hs0).
  rewrite (step_sumZ _ e w) by apply held_stable.
  rewrite (sumZ_zero _ (drop _ _)) by (intros c Hc; by eapply step_new_held).
  rewrite <- IH, Z.add_0_r.
  assert ((exists cid o d s, e = Resume cid o d /\ coros w !! cid = Some (CSession s))
          \/ ~ (exists cid o d s, e = Resume cid o d /\ coros w !! cid = Some (CSession s)))
    as [(cid & o & d & s & -> & Hc)|Hnr].
  { destruct e as [| | |cid o d]; try (right; by intros (?&?&?&?&?&?)).
    destruct (coros w !! cid) as [[s| |]|] eqn:Hc;
      try (right; intros (?&?&?&?&?&?); congruence).
    left. eauto 10. }
  { destruct (resume_session_balance cid o d s w r t Hc Ht) as (t1 & Ht1 & E).
    simpl in Ht'. rewrite Hc in Ht'. assert (t1 = t') as -> by congruence. lia. }
  assert (own_change (held r) e w = 0) as ->.
  { unfold own_change. destruct e as [| | |cid o d]; try done.
    destruct (coros w !! cid) as [c|] eqn:Hc; [|done].
    destruct (step_kind (Resume cid o d) w cid c Hc) as (c' & Hc' & Hk).
    rewrite Hc'. destruct c as [s| |], c' as [s'| |]; try done.
    destruct Hnr. eauto 10. }
  destruct (step_task_change e w r t Ht) as (t1 & Ht1 & Hch).
  assert (t1 = t') as -> by congruence.
  assert (forall cid rn, coros w !! cid = Some (CRun rn) -> r_task rn = r ->
            r_pc rn = RNotStarted -> active_sessions t = 0) as Hstart.
  { intros cid rn Hc Hr Hpc. rewrite IH.
    apply (no_member_no_holder w r t Hwf Ht).
    rewrite (members_launched w Hw r t Ht Hu0).
    rewrite (launched_single w r cid rn Hs0 Hc Hr).
    destruct (wf_run w Hwf cid rn Hc) as [(t0 & _ & Hb) _].
    rewrite (run_bounds_init rn _ Hb); [done|]. by rewrite Hpc. }
  destruct Hch as [|cid o d s pc t1 dumps -> Hc|cid o d rn _ Hc Hr Hpc
                   |cid o d rn _ Hc Hr Hpc|cid o d rn|tid]; task_simpl; try lia.
  - destruct Hnr. eauto 10.
  - rewrite (Hstart cid rn Hc Hr Hpc). lia.
  - rewrite (Hstart cid rn Hc Hr Hpc). lia.
Qed.

(** C7 (amended).  In every reachable world, for a task object whose id
    no other task object has, on which [run_task] was called at most
    once, and whose [session_count] is not negative,
    [0 <= active_sessions <= session_count]. *)
Theorem active_sessions_bounded_single_run w r t :
  reachable w -> heap w !! r = Some t ->
  unique_id r w -> single_run r w -> 0 <= session_count t ->
  0 <= active_sessions t <= session_count t.
Proof.
  intros Hw Ht Hu Hs Hsc. pose proof (reachable_wf w Hw) as Hwf.
  rewrite (active_held w Hw r t Ht Hu Hs).
  pose proof (launched_bound w r t Hwf Ht Hs Hsc) as Hb.
  rewrite <- (members_launched w Hw r t Ht Hu) in Hb.
  assert (sumZ (held r) (coros w) <= sumZ (member (id t)) (coros w)).
  { apply sumZ_le. intros c Hc. by apply (held_le_member w r t). }
  assert (0 <= sumZ (held r) (coros w)).
  { apply sumZ_nonneg. intros c _. apply held_nonneg. }
  lia.
Qed.

Lemma active_sessions_bounded_single_run_witness :
  let w := run ([AddTask "t" "x" 1; StartTask "t"; Resume 0 Ok 0; Resume 0 Ok 0]
                ++ replicate 6 (Resume 1 Ok 0)) (init true) in
  let t := {| id := "t"; prompt := "x"; session_count := 1; status := Running;
              active_sessions := 1; completed_sessions := 0;
              failed_sessions := 0; results := [] |} in
  heap w !! 0%nat = Some t /\ 0 <= active_sessions t <= session_count t.
Proof.
  intros w t. split; [vm_compute; reflexivity|].
  apply (active_sessions_bounded_single_run w 0 t).
  - eexists true, _. reflexivity.
  - vm_compute. reflexivity.
  - intros t0 r' t' _ H _. apply lookup_lt_Some in H. vm_compute in H. lia.
  - intros c c' rn rn' Hc Hc' _ _. vm_compute in Hc, Hc'.
    destruct c as [|[|c]]; [|discriminate Hc|discriminate Hc].
    destruct c' as [|[|c']]; [reflexivity|discriminate Hc'|discriminate Hc'].
  - simpl. lia.
Defined.

(** A second call of [run_task] resets [active_sessions] under the
    sessions of the first, or adds its own sessions to theirs. *)
Lemma second_run_breaks_active_bounds :
  let below :=
    run ([AddTask "t" "x" 1; StartTask "t"; Resume 0 Ok 0; Resume 0 Ok 0]
         ++ replicate 6 (Resume 1 Ok 0)
         ++ [StartTask "t"; Resume 2 Ok 0; Resume 1 Timeout 0]) (init true) in
  let above :=
    run ([AddTask "t" "x" 1; StartTask "t"; StartTask "t";
          Resume 0 Ok 0; Resume 1 Ok 0; Resume 0 Ok 0; Resume 1 Ok 0]
         ++ replicate 6 (Resume 2 Ok 0) ++ replicate 6 (Resume 3 Ok 0))
        (init true) in
  task_field active_sessions 0 below = Some (-1)
  /\ task_field session_count 0 above = Some 1
  /\ task_field active_sessions 0 above = Some 2.
Proof. vm_compute. repeat split; reflexivity. Qed.

Lemma pretty_N_go_no_underscore x : forall s,
  no_underscore s = true -> no_underscore (pretty_N_go x s) = true.
Proof.
  induction (N.lt_wf_0 x) as [x _ IH]; intros s Hs.
  assert (x = 0 \/ 0 < x)%N as [->|Hx] by lia; [by rewrite pretty_N_go_0|].
  rewrite pretty_N_go_step by done. apply IH; [by apply N.div_lt|].
  simpl. rewrite Hs. unfold pretty_N_char. by repeat case_match.
Qed.

Lemma pretty_no_underscore (n : nat) : no_underscore (pretty n) = true.
Proof.
  unfold pretty, pretty_nat, pretty, pretty_N. case_decide; [done|].
  by apply pretty_N_go_no_underscore.
Qed.

Lemma no_underscore_app a b : no_underscore (a +:+ String "_"%char b) = false.
Proof.
  induction a as [|c a IH]; [done|].
  change (negb (Ascii.eqb c "_"%char) && no_underscore (a +:+ String "_"%char b) = false).
  rewrite IH. apply andb_false_r.
Qed.

(** [f"{task_id}_{session_id}"] determines both parts when the session id
    is a numeral. *)
Lemma session_key_inj t1 s1 t2 s2 :
  no_underscore s1 = true -> no_underscore s2 = true ->
  session_key t1 s1 = session_key t2 s2 -> t1 = t2 /\ s1 = s2.
Proof.
  unfold session_key. intros H1 H2. revert t2.
  induction t1 as [|c t1 IH]; intros [|c' t2] E; cbv [String.append] in E;
    fold String.append in E.
  - by simplify_eq.
  - injection E as <- ->. by rewrite no_underscore_app in H1.
  - injection E as -> <-. by rewrite no_underscore_app in H2.
  - injection E as -> E. destruct (IH t2 E) as [-> ->]. done.
Qed.

Lemma session_key_numeral_inj t1 s1 t2 s2 :
  numeral s1 -> numeral s2 ->
  session_key t1 s1 = session_key t2 s2 -> t1 = t2 /\ s1 = s2.
Proof.
  intros (n1 & _ & ->) (n2 & _ & ->). apply session_key_inj; apply pretty_no_underscore.
Qed.

Lemma prefix_session_key task_id task_id' session_id :
  String.prefix task_id task_id' = true ->
  String.prefix task_id (session_key task_id' session_id) = true.
Proof.
  intros H. eapply RegistryFacts.prefix_trans; [exact H|].
  apply RegistryFacts.prefix_app.
Qed.

(** * The sessions of a task with a single run *)

Lemma resumes_or_not e cid :
  (exists o d, e = Resume cid o d) \/ (forall o d, e <> Resume cid o d).
Proof.
  destruct e as [| | |c o d]; try (by right).
  destruct (decide (c = cid)) as [->|]; [left; eauto|right; congruence].
Qed.

(** A new session is the [j]-th session of the wave that a run launches. *)
Lemma step_new_session e w h s :
  wf w -> (length (coros w) <= h)%nat ->
  coros (step e w) !! h = Some (CSession s) ->
  exists cid o d rn t j,
    e = Resume cid o d /\ coros w !! cid = Some (CRun rn)
    /\ heap w !! r_task rn = Some t /\ status t = Running
    /\ h = (length (coros w) + j)%nat
    /\ s = new_session t (pretty (r_session_id_counter rn + 1 + j)%nat)
    /\ Registry.lookup (session_key (id t) (s_session_id s))
         (session_tasks (step e w)) = Some h.
Proof.
  intros Hwf Hh Hs.
  destruct (step_new_coro e w h _ Hh Hs)
    as [(tid & r0 & _ & _ & ?)|[(tid & st & _ & ? & _)|[k Hl]]]; try done.
  destruct Hl as (cid & o & d & rn & rn1 & t & n & -> & Hc & _ & Ht & Hst & _ & _
                  & -> & _ & Hn & Hk).
  assert (cid < length (coros w))%nat as Hlt by (by eapply lookup_lt_Some).
  assert (s = new_session t (pretty n)) as Es by congruence.
  exists cid, o, d, rn, t, (h - length (coros w))%nat.
  split; [done|]. split; [done|]. split; [done|]. split; [done|]. split; [lia|].
  split; [|by rewrite Es].
  simpl in Hs. rewrite Hc in Hs.
  destruct (resume_run_coros cid o d rn w Hwf Hc) as (t0 & m & rn' & Ht0 & E & _).
  assert (t0 = t) as -> by congruence.
  rewrite E, list_lookup_insert_ne, lookup_app_r in Hs by lia.
  assert (h - length (coros w) < m)%nat as Hj.
  { apply lookup_lt_Some in Hs. by rewrite launched_length in Hs. }
  rewrite launched_lookup in Hs by done. congruence.
Qed.

(** The counter of a run never decreases. *)
Lemma step_run_counter e w cid rn :
  wf w -> coros w !! cid = Some (CRun rn) ->
  exists rn', coros (step e w) !! cid = Some (CRun rn')
              /\ r_task rn' = r_task rn
              /\ (r_session_id_counter rn <= r_session_id_counter rn')%nat.
Proof.
  intros Hwf Hc.
  assert (cid < length (coros w))%nat as Hlt by (by eapply lookup_lt_Some).
  destruct (resumes_or_not e cid) as [(o & d & ->)|Hne].
  - simpl. rewrite Hc.
    destruct (resume_run_coros cid o d rn w Hwf Hc) as (t & m & rn' & _ & -> & ? & ?).
    exists rn'. rewrite list_lookup_insert_eq by (rewrite length_app; lia).
    split; [done|]. split; [done|lia].
  - destruct (step_frame e w cid _ Hc Hne) as (c' & Hc' & Hf). simpl in Hf. subst c'.
    exists rn. split; [done|]. split; [done|lia].
Qed.

(** Session ids are the values that the counter of a run of the task has
    passed. *)
Lemma session_numbered w :
  reachable w ->
  forall r t h s, heap w !! r = Some t -> unique_id r w ->
    coros w !! h = Some (CSession s) -> s_task_id s = id t ->
    exists cid rn n, coros w !! cid = Some (CRun rn) /\ r_task rn = r
                     /\ s_session_id s = pretty n
                     /\ (1 <= n <= r_session_id_counter rn)%nat.
Proof.
  intros Hw. induction Hw as [b|e w Hw IH] using reachable_induction;
    intros r t' h s' Ht' Hu Hs' Hid; [done|].
  pose proof (reachable_wf w Hw) as Hwf.
  destruct (decide (h < length (coros w))%nat) as [Hlt|Hge].
  - (* a session that was there *)
    apply lookup_lt_is_Some in Hlt as [c Hc].
    destruct (step_kind e w h c Hc) as (c' & Hc' & Hk).
    assert (c' = CSession s') as -> by congruence.
    destruct c as [s| |]; try done.
    destruct (step_sessions_kept e w h s Hc) as (s1 & Hs1 & E1 & E2 & _).
    assert (s1 = s') as -> by congruence.
    destruct (so_task_id _ _ (wf_session w Hwf h s Hc)) as (r0 & t0 & Ht0 & Hid0).
    destruct (step_immutable e w r0 t0 Ht0) as (t0' & Ht0' & Eid & _).
    assert (r0 = r) as -> by (apply (Hu t' r0 t0'); congruence).
    destruct (IH r t0 h s Ht0 (unique_id_step e w r ltac:(eauto) Hu) Hc (eq_sym Hid0))
      as (cid & rn & n & Hrn & Hr & En & Hn).
    destruct (step_run_counter e w cid rn Hwf Hrn) as (rn' & Hrn' & Hr' & Hle).
    exists cid, rn', n. rewrite E2. repeat split; try done; try congruence; lia.
  - (* a session of this wave *)
    destruct (step_new_session e w h s' Hwf ltac:(lia) Hs')
      as (cid & o & d & rn & t & j & -> & Hc & Ht & _ & Hh & -> & _).
    assert (cid < length (coros w))%nat as Hlt by (by eapply lookup_lt_Some).
    destruct (step_immutable (Resume cid o d) w _ t Ht) as (t1 & Ht1 & Eid & _).
    assert (r_task rn = r) as Hr by (apply (Hu t' _ t1); simpl in *; congruence).
    simpl in Hs' |- *. rewrite Hc in Hs' |- *.
    destruct (resume_run_coros cid o d rn w Hwf Hc) as (t0 & m & rn' & Ht0 & E & Hr' & Hn).
    rewrite E in Hs' |- *.
    rewrite list_lookup_insert_ne, lookup_app_r in Hs' by lia.
    assert (h - length (coros w) < m)%nat as Hj.
    { apply lookup_lt_Some in Hs'. by rewrite launched_length in Hs'. }
    exists cid, rn', (r_session_id_counter rn + 1 + j)%nat.
    rewrite list_lookup_insert_eq by (rewrite length_app; lia).
    repeat split; try done; try congruence; lia.
Qed.

(** What a launch registers is new, for a task that has a single run. *)
Lemma launch_fresh e w r t h s k h' :
  reachable w -> heap w !! r = Some t ->
  unique_id r w -> single_run r w ->
  coros w !! h = Some (CSession s) -> s_task_id s = id t ->
  k = session_key (s_task_id s) (s_session_id s) ->
  launched_by w e k h' -> False.
Proof.
  intros Hw Ht Hu Hs Hc Hid -> Hl.
  destruct (session_numbered w Hw r t h s Ht Hu Hc Hid)
    as (cid & rn & n & Hrn & Hr & En & Hn).
  destruct Hl as (cid2 & o & d & rn2 & rn2' & t2 & n2 & -> & Hc2 & _ & Ht2 & _ & _
                  & Hn2 & Hk & _).
  rewrite En in Hk. apply session_key_inj in Hk as [E1 E2];
    try apply pretty_no_underscore.
  apply (inj pretty) in E2. subst n2.
  assert (r_task rn2 = r) as Hr2 by (apply (Hu t _ t2); congruence).
  assert (cid2 = cid) as -> by (by apply (Hs cid2 cid rn2 rn)).
  assert (rn2 = rn) as -> by congruence. lia.
Qed.

(** Two sessions of such a task have different session ids. *)
Lemma sessions_distinct w :
  reachable w ->
  forall r t h1 h2 s1 s2, heap w !! r = Some t -> unique_id r w -> single_run r w ->
    coros w !! h1 = Some (CSession s1) -> coros w !! h2 = Some (CSession s2) ->
    s_task_id s1 = id t -> s_task_id s2 = id t ->
    s_session_id s1 = s_session_id s2 -> h1 = h2.
Proof.
  intros Hw. induction Hw as [b|e w Hw IH] using reachable_induction;
    intros r t' h1 h2 s1' s2' Ht' Hu Hs H1 H2 Hid1 Hid2 Hsid; [done|].
  pose proof (reachable_wf w Hw) as Hwf.
  pose proof (single_run_step e w r Hs) as Hs0.
  assert (forall h s', (h < length (coros w))%nat ->
            coros (step e w) !! h = Some (CSession s') -> s_task_id s' = id t' ->
            exists s t, coros w !! h = Some (CSession s) /\ heap w !! r = Some t
                        /\ id t = id t' /\ unique_id r w
                        /\ s_task_id s = id t /\ s_session_id s = s_session_id s')
    as Hold.
  { intros h s' Hlt Hs' Hid.
    apply lookup_lt_is_Some in Hlt as [c Hc].
    destruct (step_kind e w h c Hc) as (c' & Hc' & Hk).
    assert (c' = CSession s') as -> by congruence.
    destruct c as [s| |]; try done.
    destruct (step_sessions_kept e w h s Hc) as (s1 & Hs1 & E1 & E2 & _).
    assert (s1 = s') as -> by congruence.
    destruct (so_task_id _ _ (wf_session w Hwf h s Hc)) as (r0 & t0 & Ht0 & Hid0).
    destruct (step_immutable e w r0 t0 Ht0) as (t0' & Ht0' & Eid & _).
    assert (r0 = r) as -> by (apply (Hu t' r0 t0'); congruence).
    assert (t0' = t') as -> by congruence.
    exists s, t0. repeat split; try done; try congruence.
    by apply (unique_id_step e w r ltac:(eauto) Hu). }
  assert (forall h s', (length (coros w) <= h)%nat ->
            coros (step e w) !! h = Some (CSession s') -> s_task_id s' = id t' ->
            exists cid o d rn t,
              e = Resume cid o d /\ coros w !! cid = Some (CRun rn)
              /\ r_task rn = r /\ heap w !! r = Some t /\ unique_id r w
              /\ s_session_id s'
                 = pretty (r_session_id_counter rn + 1 + (h - length (coros w)))%nat)
    as Hnew.
  { intros h s' Hge Hs' Hid.
    destruct (step_new_session e w h s' Hwf Hge Hs')
      as (cid & o & d & rn & t & j & -> & Hc & Ht & _ & Hh & -> & _).
    destruct (step_immutable (Resume cid o d) w _ t Ht) as (t1 & Ht1 & Eid & _).
    assert (r_task rn = r) as Hr by (apply (Hu t' _ t1); simpl in *; congruence).
    exists cid, o, d, rn, t. rewrite <- Hr. repeat split; try done.
    - rewrite Hr. apply (unique_id_step (Resume cid o d) w r); [|done].
      rewrite <- Hr. eauto.
    - simpl. do 2 f_equal. lia. }
  destruct (decide (h1 < length (coros w))%nat) as [Hlt1|Hge1];
    destruct (decide (h2 < length (coros w))%nat) as [Hlt2|Hge2].
  - destruct (Hold h1 s1' Hlt1 H1 Hid1) as (s1 & t & Hc1 & Ht & _ & Hu0 & E1 & F1).
    destruct (Hold h2 s2' Hlt2 H2 Hid2) as (s2 & t2 & Hc2 & Ht2 & _ & _ & E2 & F2).
    assert (t2 = t) as -> by congruence.
    apply (IH r t h1 h2 s1 s2); try done. congruence.
  - exfalso.
    destruct (Hold h1 s1' Hlt1 H1 Hid1) as (s1 & t & Hc1 & Ht & _ & Hu0 & E1 & F1).
    destruct (Hnew h2 s2' ltac:(lia) H2 Hid2)
      as (cid & o & d & rn & t2 & _ & Hc & Hr & _ & _ & F2).
    destruct (session_numbered w Hw r t h1 s1 Ht Hu0 Hc1 E1)
      as (cid1 & rn1 & n & Hrn & Hr1 & En & Hn).
    assert (cid1 = cid) as -> by (by apply (Hs0 cid1 cid rn1 rn)).
    assert (rn1 = rn) as -> by congruence.
    rewrite F1, Hsid, F2 in En. apply (inj pretty) in En. lia.
  - exfalso.
    destruct (Hold h2 s2' Hlt2 H2 Hid2) as (s2 & t & Hc2 & Ht & _ & Hu0 & E2 & F2).
    destruct (Hnew h1 s1' ltac:(lia) H1 Hid1)
      as (cid & o & d & rn & t2 & _ & Hc & Hr & _ & _ & F1).
    destruct (session_numbered w Hw r t h2 s2 Ht Hu0 Hc2 E2)
      as (cid1 & rn1 & n & Hrn & Hr1 & En & Hn).
    assert (cid1 = cid) as -> by (by apply (Hs0 cid1 cid rn1 rn)).
    assert (rn1 = rn) as -> by congruence.
    rewrite F2, <- Hsid, F1 in En. apply (inj pretty) in En. lia.
  - destruct (Hnew h1 s1' ltac:(lia) H1 Hid1)
      as (cid & o & d & rn & t & -> & Hc & Hr & _ & _ & F1).
    destruct (Hnew h2 s2' ltac:(lia) H2 Hid2)
      as (cid2 & o2 & d2 & rn2 & t2 & [= <- <- <-] & Hc2 & _ & _ & _ & F2).
    assert (rn2 = rn) as -> by congruence.
    rewrite F1, F2 in Hsid. apply (inj pretty) in Hsid. lia.
Qed.

Lemma wf_loop_ok w : wf w -> loop_ok w.
Proof.
  intros Hwf. split; [by apply wf_nodup|]. intros k h Hin.
  destruct (wf_registry w Hwf k h Hin) as (s & Hs & _ & Hd).
  exists s. split; [done|]. intros Hdone.
  apply (so_requests _ _ (wf_session w Hwf h s Hs)). right. auto.
Qed.

Lemma loop_ok_effect w w' : stop_effect w w' -> loop_ok w -> loop_ok w'.
Proof.
  intros [_ _ _ _ Hc Hr Hn _] [Hnd Hreg]. split; [auto|]. intros k h Hin.
  destruct (Hreg k h (Hr _ Hin)) as (s & Hs & Hd).
  destruct (Hc h _ Hs) as (c' & Hc' & s' & -> & Hf).
  exists s'. split; [done|].
  destruct Hf as (_ & _ & _ & _ & Epc & [[_ ->]|(_ & _ & ?)]); [by rewrite Epc|lia].
Qed.

Lemma processed_effect k h w w' : stop_effect w w' -> processed k h w -> processed k h w'.
Proof.
  intros [_ _ _ _ Hc Hr _ _] [Hn (s & Hs & Hd & Hq)]. split; [by intros ?%Hr|].
  destruct (Hc h _ Hs) as (c' & Hc' & s' & -> & Hf).
  exists s'. split; [done|].
  destruct Hf as (_ & _ & _ & _ & Epc & [[_ ->]|(_ & _ & ?)]); rewrite Epc;
    (split; [done|lia]).
Qed.

Lemma processed_inv k h pc w : processed k h w -> stop_inv k h pc w.
Proof. intros H. destruct pc; simpl; auto. Qed.

Lemma not_elem_delete k h d :
  NoDup (Registry.keys d) -> (k, h) ∉ Registry.delete k d.
Proof.
  intros Hnd Hin. pose proof (RegistryFacts.NoDup_delete k d Hnd) as Hnd'.
  apply (RegistryFacts.elem_lookup _ _ _ Hnd') in Hin.
  by rewrite RegistryFacts.lookup_delete_eq in Hin.
Qed.

Lemma pending_delete key k h w :
  NoDup (Registry.keys (session_tasks w)) -> pending k h w ->
  pending k h (with_session_tasks (Registry.delete key (session_tasks w)) w).
Proof.
  intros Hnd Hp. unfold pending. simpl.
  destruct (decide (key = k)) as [->|Hne].
  - right. by apply RegistryFacts.lookup_delete_eq.
  - by rewrite RegistryFacts.lookup_delete_ne.
Qed.

Lemma stop_loop_processed keys r w pc w' k h :
  stop_loop keys r w = (pc, w') -> processed k h w -> processed k h w'.
Proof. intros Hl. apply processed_effect. by eapply stop_loop_effect. Qed.

(** The loop from a state in which the entry is still to be handled. *)
Lemma stop_loop_pending k h keys r : forall w pc w',
  loop_ok w -> k ∈ keys -> pending k h w ->
  stop_loop keys r w = (pc, w') -> stop_inv k h pc w'.
Proof.
  induction keys as [|key rest IH]; intros w pc w' Hok Hin Hp Hl.
  { by apply elem_of_nil in Hin. }
  simpl in Hl.
  destruct (Registry.lookup key (session_tasks w)) as [h'|] eqn:Hk;
    [|by simplify_eq].
  pose proof (stop_effect_cancel h' w) as Hcancel.
  pose proof (loop_ok_effect _ _ Hcancel Hok) as Hok1.
  destruct (cancel_spec h' w) as (_ & _ & Ereg & _).
  assert (key = k -> h' = h) as Hsame.
  { intros ->. destruct Hp as [Hp|Hp]; congruence. }
  destruct Hok as [Hnd Hreg].
  destruct (Hreg key h' (RegistryFacts.lookup_Some_elem _ _ _ Hk)) as (s & Hs & _).
  destruct (exit_of h' (cancel h' w)) as [ex|] eqn:Hex.
  - (* the awaited session is done: no suspension *)
    assert (ex = Crashed \/ ex <> Crashed) as [->|Hnc] by (destruct ex; auto).
    { by simplify_eq. }
    assert (stop_loop rest r
              (with_session_tasks (Registry.delete key (session_tasks (cancel h' w)))
                 (cancel h' w)) = (pc, w')) as Hl' by (by destruct ex).
    clear Hl. destruct (decide (key = k)) as [->|Hne].
    + rewrite (Hsame eq_refl) in *. apply processed_inv.
      apply (stop_loop_processed _ _ _ _ _ _ _ Hl'). split.
      * simpl. apply not_elem_delete. by rewrite Ereg.
      * destruct Hok1 as [_ Hreg1].
        destruct (Hreg1 k h) as (s1 & Hs1 & Hd1).
        { rewrite Ereg. by apply RegistryFacts.lookup_Some_elem. }
        exists s1. unfold exit_of in Hex. rewrite Hs1 in Hex.
        destruct (s_pc s1) eqn:Hpc; try done. split; [done|]. split; [done|].
        apply Hd1. done.
    + refine (IH _ pc w' _ _ _ Hl').
      * eapply loop_ok_effect; [apply stop_effect_delete|done].
      * apply elem_of_cons in Hin as [->|]; [done|done].
      * apply pending_delete; [by rewrite Ereg|]. unfold pending. by rewrite Ereg.
  - (* suspended at [await] *)
    simplify_eq. simpl. destruct (decide (key = k)) as [->|Hne].
    + right; left. rewrite (Hsame eq_refl) in *.
      destruct (cancel_live h w s Hs Hex) as (s' & Hs' & _ & _ & ?). eauto.
    + left. split.
      * apply elem_of_cons in Hin as [->|]; [done|done].
      * unfold pending. by rewrite Ereg.
Qed.

(** ** Along the steps of the other coroutines *)

Lemma step_done e w h s :
  coros w !! h = Some (CSession s) -> done (s_pc s) = true ->
  exists s', coros (step e w) !! h = Some (CSession s') /\ s_pc s' = s_pc s
             /\ (s_cancel_requests s <= s_cancel_requests s')%nat.
Proof.
  intros Hs Hd.
  destruct (step_session e w h s Hs) as (s' & Hs' & [Hf|(o & d & -> & Ho)]).
  - exists s'. destruct Hf as (_ & _ & _ & _ & Epc & [[_ ->]|(_ & _ & ?)]);
      (split; [done|]); (split; [done|lia]).
  - exists s'. split; [done|].
    destruct Ho as [_|Hn|Hn|r Hn|r t pc t' dumps _ Hnd]; try done;
      try (rewrite Hn in Hd; done). congruence.
Qed.

Lemma processed_step e w k h : wf w -> processed k h w -> processed k h (step e w).
Proof.
  intros Hwf [Hn (s & Hs & Hd & Hq)]. split.
  - intros [Hin|Hl]%step_registry; [done|].
    destruct Hl as (cid & o & d & rn & rn' & t & n & _ & _ & _ & _ & _ & _ & _ & _ & Hh & _).
    apply lookup_lt_Some in Hs. lia.
  - destruct (step_done e w h s Hs Hd) as (s' & Hs' & Epc & ?).
    exists s'. rewrite Epc. split; [done|]. split; [done|lia].
Qed.

Lemma owned_step e w k h r : owned k h r w -> owned k h r (step e w).
Proof.
  intros (s & t & Hs & Ht & Hid & ->).
  destruct (step_sessions_kept e w h s Hs) as (s' & Hs' & E1 & E2 & _).
  destruct (step_immutable e w r t Ht) as (t' & Ht' & Eid & _).
  exists s', t'. rewrite E1, E2, Eid. done.
Qed.

Lemma pending_step e w k h r :
  reachable w -> owned k h r w ->
  unique_id r (step e w) -> single_run r (step e w) ->
  pending k h w -> pending k h (step e w).
Proof.
  intros Hw (s & t & Hs & Ht & Hid & Hk) Hu Hsr Hp.
  pose proof (reachable_wf w Hw) as Hwf.
  unfold pending.
  destruct (Registry.lookup k (session_tasks (step e w))) as [h'|] eqn:Hl; [|by right].
  left. f_equal. apply RegistryFacts.lookup_Some_elem in Hl.
  apply step_registry in Hl as [Hin|Hl].
  - apply (RegistryFacts.elem_lookup _ _ _ (wf_nodup w Hwf)) in Hin.
    destruct Hp as [Hp|Hp]; congruence.
  - exfalso. eapply (launch_fresh e w r t h s k h'); try done.
    + by apply (unique_id_step e w r ltac:(eauto)).
    + by apply (single_run_step e w r).
Qed.

Lemma stop_inv_insert k h pc w c x :
  h <> c -> stop_inv k h pc w ->
  stop_inv k h pc (with_coros (<[c := x]> (coros w)) w).
Proof.
  intros Hne. unfold stop_inv, processed, pending. simpl.
  by rewrite list_lookup_insert_ne.
Qed.

(** One step of the system, seen from the entry [(k, h)]. *)
Lemma stop_inv_step e w k h r c st :
  reachable w -> owned k h r w ->
  unique_id r (step e w) -> single_run r (step e w) ->
  coros w !! c = Some (CStop st) -> stop_inv k h (st_pc st) w ->
  exists st', coros (step e w) !! c = Some (CStop st')
              /\ stop_inv k h (st_pc st') (step e w).
Proof.
  intros Hw Hown Hu Hsr Hc Hinv.
  pose proof (reachable_wf w Hw) as Hwf.
  assert (c < length (coros w))%nat as Hlt by (by eapply lookup_lt_Some).
  assert (h <> c) as Hhc.
  { destruct Hown as (s & _ & Hs & _). congruence. }
  destruct (resumes_or_not e c) as [(o & d & ->)|Hne].
  - (* [stop_task] itself *)
    simpl. rewrite Hc.
    destruct (resume_stop_closed c st w)
      as [_|key hh rest Hpc _|key hh rest ex r0 pc w1 Hpc Hex Hnc _ Hl].
    + eauto.
    + eexists. simpl. by rewrite list_lookup_insert_eq.
    + pose proof (stop_loop_effect _ _ _ _ _ Hl) as Heff.
      exists (at_stop pc st). split.
      { simpl. apply list_lookup_insert_eq. destruct Heff. simpl in *. lia. }
      simpl. apply stop_inv_insert; [done|].
      set (w0 := with_session_tasks _ w) in *.
      assert (loop_ok w0) as Hok.
      { eapply loop_ok_effect; [apply stop_effect_delete|by apply wf_loop_ok]. }
      rewrite Hpc in Hinv. simpl in Hinv.
      destruct Hinv as [[Hin Hp]|[(-> & -> & s & Hs & Hq)|Hp]].
      * apply (stop_loop_pending k h rest r0 w0 pc w1 Hok Hin); [|done].
        apply pending_delete; [by apply wf_nodup|done].
      * apply processed_inv. apply (stop_loop_processed _ _ _ _ _ _ _ Hl).
        split; [apply not_elem_delete; by apply wf_nodup|].
        exists s. split; [done|]. split; [|done].
        unfold exit_of in Hex. rewrite Hs in Hex. by destruct (s_pc s).
      * apply processed_inv. apply (stop_loop_processed _ _ _ _ _ _ _ Hl).
        eapply processed_effect; [apply stop_effect_delete|done].
  - (* another coroutine, or the control plane *)
    destruct (step_frame e w c _ Hc Hne) as (c' & Hc' & Hf). simpl in Hf. subst c'.
    exists st. split; [done|].
    destruct (st_pc st) as [key hh rest| | | |]; simpl in *; try done.
    + destruct Hinv as [[Hin Hp]|[(-> & -> & s & Hs & Hq)|Hp]].
      * left. split; [done|]. by eapply pending_step.
      * right; left. split; [done|]. split; [done|].
        destruct (step_sessions_kept e w h s Hs) as (s' & Hs' & _ & _ & ?).
        exists s'. split; [done|lia].
      * right; right. by apply processed_step.
    + by apply processed_step.
Qed.

Lemma unique_id_run evs : forall w r,
  is_Some (heap w !! r) -> unique_id r (run evs w) -> unique_id r w.
Proof.
  induction evs as [|e evs IH]; intros w r [t Ht] Hu; [done|]. simpl in Hu.
  destruct (step_immutable e w r t Ht) as (t' & Ht' & _).
  apply (unique_id_step e w r); eauto.
Qed.

Lemma single_run_run evs : forall w r, single_run r (run evs w) -> single_run r w.
Proof.
  induction evs as [|e evs IH]; intros w r Hs; [done|]. simpl in Hs.
  apply (single_run_step e w r). eauto.
Qed.

(** The whole trace. *)
Lemma stop_inv_run k h r c evs : forall w st,
  reachable w -> owned k h r w ->
  unique_id r (run evs w) -> single_run r (run evs w) ->
  coros w !! c = Some (CStop st) -> stop_inv k h (st_pc st) w ->
  exists st', coros (run evs w) !! c = Some (CStop st')
              /\ stop_inv k h (st_pc st') (run evs w).
Proof.
  induction evs as [|e evs IH]; intros w st Hw Hown Hu Hsr Hc Hinv; [eauto|].
  simpl in *.
  assert (is_Some (heap (step e w) !! r)) as Hr.
  { destruct (owned_step e w k h r Hown) as (_ & t & _ & ? & _). eauto. }
  destruct (stop_inv_step e w k h r c st Hw Hown) as (st1 & Hc1 & Hinv1); try done.
  - by apply (unique_id_run evs).
  - by apply (single_run_run evs).
  - apply (IH (step e w) st1); try done.
    + by apply reachable_step.
    + by apply owned_step.
Qed.

Lemma stop_inv_spawn k h pc w x :
  stop_inv k h pc w -> stop_inv k h pc (spawn x w).
Proof.
  assert (processed k h w -> processed k h (spawn x w)) as Hp.
  { intros [Hn (s & Hs & ?)]. split; [done|]. exists s. split; [|done].
    simpl. by apply lookup_app_l_Some. }
  destruct pc as [key hh rest| | | |]; simpl; try done.
  intros [?|[(-> & -> & s & Hs & ?)|?]]; [by left| |by auto].
  right; left. split; [done|]. split; [done|]. exists s. split; [|done].
  by apply lookup_app_l_Some.
Qed.

(** The call of [stop_task], up to its first suspension. *)
Lemma stop_task_inv task_id w k h :
  wf w -> (k, h) ∈ session_tasks w -> String.prefix task_id k = true ->
  exists st, coros (stop_task task_id w) !! length (coros w) = Some (CStop st)
             /\ stop_inv k h (st_pc st) (stop_task task_id w).
Proof.
  intros Hwf Hin Hpre. unfold stop_task.
  destruct (tasks w !! task_id) as [r|] eqn:Hr.
  2: { eexists. split; [apply list_lookup_middle; done|done]. }
  destruct (wf_tasks w Hwf _ _ Hr) as (t & Ht & _). rewrite Ht.
  set (w1 := with_heap _ w).
  destruct (stop_loop _ r w1) as [pc w2] eqn:Hl.
  pose proof (stop_loop_effect _ _ _ _ _ Hl) as Heff.
  eexists. split.
  { simpl. apply list_lookup_middle. destruct Heff. simpl in *. lia. }
  simpl. apply stop_inv_spawn.
  refine (stop_loop_pending k h _ r w1 pc w2 _ _ _ Hl).
  - by apply (wf_loop_ok w).
  - apply RegistryFacts.elem_keys_with_prefix. split; [|done].
    apply list_elem_of_fmap. by exists (k, h).
  - left. simpl. apply RegistryFacts.elem_lookup; [by apply wf_nodup|done].
Qed.

(** The entry [(k, h)] once [stop_task] has returned. *)
Lemma stop_returned_processed task_id w0 evs k h r :
  reachable w0 -> (k, h) ∈ session_tasks w0 -> String.prefix task_id k = true ->
  owned k h r w0 ->
  unique_id r (run evs (step (StopTask task_id) w0)) ->
  single_run r (run evs (step (StopTask task_id) w0)) ->
  stop_at (length (coros w0)) (run evs (step (StopTask task_id) w0))
  = Some StopReturned ->
  processed k h (run evs (step (StopTask task_id) w0)).
Proof.
  intros Hw Hin Hpre Hown Hu Hsr Hret.
  destruct (stop_task_inv task_id w0 k h (reachable_wf w0 Hw) Hin Hpre)
    as (st & Hst & Hinv).
  destruct (stop_inv_run k h r (length (coros w0)) evs
              (step (StopTask task_id) w0) st) as (st' & Hst' & Hinv'); try done.
  - by apply reachable_step.
  - by apply owned_step.
  - unfold stop_at in Hret. rewrite Hst' in Hret.
    assert (st_pc st' = StopReturned) as E by congruence.
    by rewrite E in Hinv'.
Qed.

(** C10 (amended).  When [stop_task(task_id)] has returned, every registry
    entry that was there at the call, whose key starts with [task_id], and
    whose session belongs to a task with an id of its own that was started
    at most once, is gone: [cancel()] was called on its session and the
    session has ended.  The key of a session starts with the id of its
    task, hence with every prefix of that id. *)
Theorem stop_cancels_entries_with_prefixed_key task_id w0 evs k h r :
  reachable w0 -> (k, h) ∈ session_tasks w0 -> String.prefix task_id k = true ->
  owned k h r w0 ->
  unique_id r (run evs (step (StopTask task_id) w0)) ->
  single_run r (run evs (step (StopTask task_id) w0)) ->
  stop_at (length (coros w0)) (run evs (step (StopTask task_id) w0))
  = Some StopReturned ->
  processed k h (run evs (step (StopTask task_id) w0))
  /\ forall task_id' session_id,
       String.prefix task_id task_id' = true ->
       String.prefix task_id (session_key task_id' session_id) = true.
Proof.
  intros Hw Hin Hpre Hown Hu Hsr Hret. split; [|by apply prefix_session_key].
  by apply (stop_returned_processed task_id w0 evs k h r).
Qed.

Lemma stop_cancels_entries_with_prefixed_key_witness :
  let w0 := run [AddTask "t" "x" 1; AddTask "t2" "x" 1; StartTask "t2";
                 Resume 0 Ok 0; Resume 0 Ok 0; Resume 1 Ok 0] (init true) in
  let evs := [Resume 1 Ok 0; Resume 2 Ok 0] in
  processed "t2_1" 1 (run evs (step (StopTask "t") w0))
  /\ forall task_id' session_id,
       String.prefix "t" task_id' = true ->
       String.prefix "t" (session_key task_id' session_id) = true.
Proof.
  intros w0 evs.
  apply (stop_cancels_entries_with_prefixed_key "t" w0 evs "t2_1" 1 1).
  - eexists true, _. reflexivity.
  - vm_compute. apply list_elem_of_here.
  - reflexivity.
  - eexists _, _. vm_compute. repeat split; reflexivity.
  - intros t r' t' H0 H1 H2. vm_compute in H0, H1. injection H0 as <-.
    destruct r' as [|[|r']]; [|reflexivity|discriminate H1].
    injection H1 as <-. discriminate H2.
  - intros c c' rn rn' Hc Hc' _ _. vm_compute in Hc, Hc'.
    destruct c as [|c]; [|destruct c as [|[|c]]; discriminate Hc].
    destruct c' as [|c']; [reflexivity|destruct c' as [|[|c']]; discriminate Hc'].
  - vm_compute. reflexivity.
Defined.

(** A second call of [run_task] binds the key of a waiting entry to a new
    session: [stop_task] returns, and the session that was registered at
    the call has not been cancelled. *)
Lemma restart_hides_entry_from_stop :
  let w0 := run [AddTask "t" "x" 10; StartTask "t"; Resume 0 Ok 0; Resume 0 Ok 0;
                 Resume 1 Ok 0; Resume 2 Ok 0] (init true) in
  let evs := [StartTask "t"; Resume 4 Ok 0; Resume 4 Ok 0; Resume 1 Ok 0;
              Resume 3 Ok 0; Resume 6 Ok 0; Resume 3 Ok 0] in
  let w := run evs (step (StopTask "t") w0) in
  Registry.lookup "t_2" (session_tasks w0) = Some 2%nat
  /\ String.prefix "t" "t_2" = true
  /\ stop_at (length (coros w0)) w = Some StopReturned
  /\ s_cancel_requests <$> session_at 2 w = Some 0%nat
  /\ s_pc <$> session_at 2 w = Some SStartDelay.
Proof. vm_compute. repeat split; reflexivity. Qed.

(** * How an entry leaves the registry *)

Lemma elem_delete_ne k key h d :
  (k, h) ∈ d -> k <> key -> (k, h) ∈ Registry.delete key d.
Proof.
  intros Hin Hne. induction d as [|[k0 v0] d IH]; simpl; [done|].
  apply elem_of_cons in Hin as [[= <- <-]|Hin].
  - rewrite decide_False by done. left.
  - destruct (decide (k0 = key)); [done|]. right. auto.
Qed.

Lemma key_among (f : nat -> string) k n :
  (exists j, (j < n)%nat /\ k = f j) \/ (forall j, (j < n)%nat -> k <> f j).
Proof.
  induction n as [|n [(j & ? & ?)|IH]].
  - right. lia.
  - left. exists j. split; [lia|done].
  - destruct (decide (k = f n)) as [E|E].
    + left. exists n. split; [lia|done].
    + right. intros j Hj. destruct (decide (j = n)) as [->|]; [done|].
      apply IH. lia.
Qed.

Lemma registered_kept task_id n counter handle d k h :
  NoDup (Registry.keys d) -> (k, h) ∈ d ->
  (k, h) ∈ registered task_id counter handle n d
  \/ exists j, (j < n)%nat /\ k = session_key task_id (pretty (counter + 1 + j)%nat).
Proof.
  intros Hnd Hin.
  destruct (key_among (fun j => session_key task_id (pretty (counter + 1 + j)%nat)) k n)
    as [?|Hne]; [by right|left].
  apply RegistryFacts.lookup_Some_elem. rewrite lookup_registered_ne by done.
  by apply RegistryFacts.elem_lookup.
Qed.

Lemma stop_loop_kept k h keys r : forall w pc w',
  loop_ok w -> stop_loop keys r w = (pc, w') -> (k, h) ∈ session_tasks w ->
  (k, h) ∈ session_tasks w'
  \/ exists sx, coros w' !! h = Some (CSession sx) /\ done (s_pc sx) = true.
Proof.
  induction keys as [|key rest IH]; intros w pc w' Hok Hl Hin; simpl in Hl.
  { left. destruct (heap w !! r); by simplify_eq. }
  destruct (Registry.lookup key (session_tasks w)) as [h'|] eqn:Hk;
    [|left; by simplify_eq].
  pose proof (stop_effect_cancel h' w) as Hcancel.
  pose proof (loop_ok_effect _ _ Hcancel Hok) as Hok1.
  destruct (cancel_spec h' w) as (_ & _ & Ereg & _).
  destruct (exit_of h' (cancel h' w)) as [ex|] eqn:Hex.
  2: { left. simplify_eq. by rewrite Ereg. }
  assert (ex = Crashed \/ ex <> Crashed) as [->|Hnc] by (destruct ex; auto).
  { left. simplify_eq. by rewrite Ereg. }
  assert (stop_loop rest r
            (with_session_tasks (Registry.delete key (session_tasks (cancel h' w)))
               (cancel h' w)) = (pc, w')) as Hl' by (by destruct ex).
  clear Hl. destruct (decide (key = k)) as [->|Hne].
  - right. destruct Hok as [Hnd _].
    apply (RegistryFacts.elem_lookup _ _ _ Hnd) in Hin.
    assert (h' = h) as -> by congruence.
    unfold exit_of in Hex.
    destruct (coros (cancel h w) !! h) as [[s1| |]|] eqn:Hs1; try done.
    destruct (stop_loop_effect _ _ _ _ _ Hl') as [_ _ _ _ Hc _ _ _].
    destruct (Hc h _ Hs1) as (c' & Hc' & s' & -> & Hf).
    exists s'. split; [done|].
    destruct Hf as (_ & _ & _ & _ & -> & _). by destruct (s_pc s1).
  - refine (IH _ pc w' _ Hl' _).
    + eapply loop_ok_effect; [apply stop_effect_delete|done].
    + simpl. apply elem_delete_ne; [by rewrite Ereg|done].
Qed.

(** An entry stays, or its key is registered anew by a launch, or a
    session with this key has ended. *)
Lemma step_registry_kept e w k h :
  wf w -> (k, h) ∈ session_tasks w ->
  (k, h) ∈ session_tasks (step e w)
  \/ (exists h', launched_by w e k h')
  \/ (exists hx sx, coros (step e w) !! hx = Some (CSession sx)
                    /\ k = session_key (s_task_id sx) (s_session_id sx)
                    /\ done (s_pc sx) = true).
Proof.
  intros Hwf Hin.
  destruct (wf_registry w Hwf k h Hin) as (s & Hs & Hk & _).
  assert (forall sx, coros (step e w) !! h = Some (CSession sx) ->
            k = session_key (s_task_id sx) (s_session_id sx)) as Hkey.
  { intros sx Hsx.
    destruct (step_sessions_kept e w h s Hs) as (s' & Hs' & E1 & E2 & _).
    assert (s' = sx) as -> by congruence. by rewrite E1, E2. }
  destruct e as [tid p n|tid|tid|cid o d].
  - by left.
  - left. simpl. unfold start_task. by case_match.
  - (* [stop_task] is called *)
    assert (session_tasks (step (StopTask tid) w) = session_tasks w
            \/ exists r t pc w2,
                 stop_loop (Registry.keys_with_prefix tid (session_tasks w)) r
                   (with_heap (<[r := set_status Stopped t]> (heap w)) w) = (pc, w2)
                 /\ session_tasks (step (StopTask tid) w) = session_tasks w2
                 /\ forall x, coros w2 !! h = Some x ->
                              coros (step (StopTask tid) w) !! h = Some x)
      as [E|(r & t & pc & w2 & Hl & E & Hco)].
    { simpl. unfold stop_task. destruct (tasks w !! tid) as [r|]; [|by left].
      destruct (heap w !! r) as [t|]; [|by left].
      destruct (stop_loop _ _ _) as [pc w2] eqn:Hl. right.
      exists r, t, pc, w2. split; [done|]. split; [done|].
      intros x Hx. simpl. by apply lookup_app_l_Some. }
    { left. by rewrite E. }
    rewrite E.
    destruct (stop_loop_kept k h _ r
                (with_heap (<[r := set_status Stopped t]> (heap w)) w) pc w2
                (wf_loop_ok w Hwf) Hl Hin)
      as [?|(sx & Hsx & Hd)]; [by left|].
    right; right. exists h, sx. split; [by apply Hco|]. split; [|done].
    apply Hkey. by apply Hco.
  - simpl. destruct (coros w !! cid) as [[s0|rn|st]|] eqn:Hcid; [| | |by left].
    + (* a session *)
      assert (cid < length (coros w))%nat as Hlt by (by eapply lookup_lt_Some).
      assert (session_tasks (resume_session cid o s0 w) = session_tasks w
              \/ exists pc,
                   session_tasks (resume_session cid o s0 w)
                   = Registry.delete (session_key (s_task_id s0) (s_session_id s0))
                       (session_tasks w)
                   /\ coros (resume_session cid o s0 w) !! cid
                      = Some (CSession (at_pc pc s0))
                   /\ done pc = true) as [E|(pc & E & Hco & Hd)].
      { unfold resume_session.
        destruct (s_pc s0); try (by left); try (repeat case_match; by left).
        all: destruct (s_task s0) as [r|]; [|by left].
        all: destruct (heap w !! r) as [t|]; [|by left].
        all: destruct (session_resume _ _ _ _) as [[pc t'] dumps].
        all: destruct (runs_outer_finally pc) eqn:Ho; [right|by left].
        all: exists pc; simpl; rewrite list_lookup_insert_eq by done.
        all: split; [done|]; split; [done|]; by destruct pc. }
      { left. by rewrite E. }
      rewrite E.
      destruct (decide (k = session_key (s_task_id s0) (s_session_id s0))) as [->|Hne].
      * right; right. exists cid, (at_pc pc s0). done.
      * left. by apply elem_delete_ne.
    + (* a run *)
      destruct (resume_run_closed cid o d rn w)
        as [[E|E]|[(pc & _ & E)|(t & t1 & b1 & m & fin & rn' & Ht & E & Hf)]];
        rewrite ?E; try (by left).
      unfold run_result at 1. simpl.
      destruct (registered_kept (id t) m (r_session_id_counter rn)
                  (length (coros w)) (session_tasks w) k h (wf_nodup w Hwf) Hin)
        as [?|(j & Hj & ->)]; [by left|].
      right; left. exists (length (coros w) + j)%nat.
      by eapply run_result_launched.
    + (* [stop_task] is resumed *)
      assert (forall sx, coros (resume_stop cid st w) !! h = Some (CSession sx) ->
                k = session_key (s_task_id sx) (s_session_id sx)) as Hkey'.
      { intros sx Hsx. apply Hkey. simpl. by rewrite Hcid. }
      clear Hkey.
      destruct (resume_stop_closed cid st w)
        as [_|key hh rest Hpc _|key hh rest ex r0 pc w1 Hpc Hex Hnc Htask Hl];
        try (by left).
      simpl in *.
      assert (forall hx x, hx <> cid -> coros w1 !! hx = Some x ->
                <[cid := CStop (at_stop pc st)]> (coros w1) !! hx = Some x) as Hco.
      { intros hx x Hne Hx. by rewrite list_lookup_insert_ne. }
      pose proof (stop_loop_effect _ _ _ _ _ Hl) as Heff.
      destruct (decide (key = k)) as [->|Hne].
      * (* the entry of the awaited session *)
        right; right.
        destruct (wf_stop w Hwf cid st Hcid k hh rest Hpc) as (sh & Hsh & Hkh & _).
        destruct Heff as [_ _ _ _ Hc _ _ _]. simpl in Hc.
        destruct (Hc hh _ Hsh) as (c' & Hc' & s' & -> & Hf).
        exists hh, s'. split; [apply Hco; [congruence|done]|].
        destruct Hf as (-> & _ & -> & _ & Epc & _). split; [done|].
        rewrite Epc. unfold exit_of in Hex. rewrite Hsh in Hex. by destruct (s_pc sh).
      * assert (loop_ok (with_session_tasks
                             (Registry.delete key (session_tasks w)) w)) as Hok.
        { eapply loop_ok_effect; [apply stop_effect_delete|by apply wf_loop_ok]. }
        destruct (stop_loop_kept k h rest r0 _ pc w1 Hok Hl)
          as [?|(sx & Hsx & Hd)]; [simpl; by apply elem_delete_ne|by left|].
        right; right. exists h, sx.
        assert (<[cid := CStop (at_stop pc st)]> (coros w1) !! h = Some (CSession sx))
          as Hh by (apply Hco; [congruence|done]).
        split; [done|]. split; [|done]. by apply Hkey'.
Qed.

(** A session of a task with a single run is registered under its key
    until it ends. *)
Lemma live_registered w :
  reachable w ->
  forall r t h s, heap w !! r = Some t -> unique_id r w -> single_run r w ->
    coros w !! h = Some (CSession s) -> s_task_id s = id t ->
    done (s_pc s) = false ->
    (session_key (s_task_id s) (s_session_id s), h) ∈ session_tasks w.
Proof.
  intros Hw. induction Hw as [b|e w Hw IH] using reachable_induction;
    intros r t' h s' Ht' Hu Hsr Hs' Hid Hnd; [done|].
  pose proof (reachable_wf w Hw) as Hwf.
  pose proof (wf_step e w Hwf) as Hwf'.
  destruct (decide (h < length (coros w))%nat) as [Hlt|Hge].
  2: { destruct (step_new_session e w h s' Hwf ltac:(lia) Hs')
         as (cid & o & d & rn & t & j & _ & _ & _ & _ & _ & Es & Hk).
       apply RegistryFacts.lookup_Some_elem. rewrite <- Hk. by rewrite Es. }
  apply lookup_lt_is_Some in Hlt as [c Hc].
  destruct (step_kind e w h c Hc) as (c' & Hc' & Hk).
  assert (c' = CSession s') as -> by congruence.
  destruct c as [s| |]; try done.
  destruct (step_sessions_kept e w h s Hc) as (s1 & Hs1 & E1 & E2 & _).
  assert (s1 = s') as -> by congruence.
  assert (done (s_pc s) = false) as Hnd0.
  { destruct (done (s_pc s)) eqn:Hd; [|done].
    destruct (step_done e w h s Hc Hd) as (s2 & Hs2 & Epc & _).
    assert (s2 = s') as -> by congruence. congruence. }
  destruct (so_task_id _ _ (wf_session w Hwf h s Hc)) as (r0 & t0 & Ht0 & Hid0).
  destruct (step_immutable e w r0 t0 Ht0) as (t0' & Ht0' & Eid & _).
  assert (r0 = r) as -> by (apply (Hu t' r0 t0'); congruence).
  pose proof (unique_id_step e w r ltac:(eauto) Hu) as Hu0.
  pose proof (single_run_step e w r Hsr) as Hsr0.
  pose proof (IH r t0 h s Ht0 Hu0 Hsr0 Hc (eq_sym Hid0) Hnd0) as Hin.
  rewrite E1, E2.
  destruct (step_registry_kept e w _ h Hwf Hin)
    as [?|[[h' Hl]|(hx & sx & Hsx & Ekey & Hd)]]; [done| |].
  - destruct (launch_fresh e w r t0 h s _ h' Hw Ht0 Hu0 Hsr0 Hc (eq_sym Hid0) eq_refl Hl).
  - exfalso.
    apply session_key_numeral_inj in Ekey as [Et Es].
    2: { rewrite <- E2. apply (so_numeral _ _ (wf_session _ Hwf' h s' Hs')). }
    2: { apply (so_numeral _ _ (wf_session _ Hwf' hx sx Hsx)). }
    assert (hx = h) as ->.
    { apply (sessions_distinct (step e w) (reachable_step e w Hw) r t' hx h sx s');
        try done; congruence. }
    assert (sx = s') as -> by congruence. congruence.
Qed.

(** While no run is started, a stopped task stays stopped. *)
Lemma stopped_run r evs : forall w t,
  heap w !! r = Some t -> status t = Stopped -> never_started r evs w = true ->
  exists t', heap (run evs w) !! r = Some t' /\ status t' = Stopped.
Proof.
  induction evs as [|e evs IH]; intros w t Ht Hst Hn; simpl in *; [eauto|].
  apply andb_true_iff in Hn as [Hs Hn]. apply negb_true_iff in Hs.
  destruct (step_immutable e w r t Ht) as (t1 & Ht1 & _).
  apply (IH _ t1 Ht1); [|done].
  exact (step_status_stopped e w r t t1 Ht Ht1 Hs Hst).
Qed.

(** While a task with an id of its own is stopped, no session is created
    for it. *)
Lemma stopped_no_new_session r evs : forall w t h s,
  reachable w -> heap w !! r = Some t -> status t = Stopped ->
  never_started r evs w = true -> unique_id r (run evs w) ->
  coros (run evs w) !! h = Some (CSession s) -> s_task_id s = id t ->
  (h < length (coros w))%nat.
Proof.
  induction evs as [|e evs IH]; intros w t h s Hw Ht Hst Hn Hu Hs Hid; simpl in *.
  { by eapply lookup_lt_Some. }
  apply andb_true_iff in Hn as [Hsr Hn]. apply negb_true_iff in Hsr.
  destruct (step_immutable e w r t Ht) as (t1 & Ht1 & Eid & _).
  pose proof (step_status_stopped e w r t t1 Ht Ht1 Hsr Hst) as Hst1.
  pose proof (IH (step e w) t1 h s (reachable_step e w Hw) Ht1 Hst1 Hn Hu Hs
                ltac:(congruence)) as Hlt.
  destruct (decide (h < length (coros w))%nat) as [?|Hge]; [done|exfalso].
  apply lookup_lt_is_Some in Hlt as [c Hc].
  assert (exists s1, c = CSession s1 /\ s_task_id s1 = s_task_id s) as (s1 & -> & E1).
  { clear IH Hn. revert c Hc Hs. generalize (step e w) as w1. clear.
    induction evs as [|e' evs IH]; intros w1 c Hc Hs; simpl in *.
    - exists s. split; congruence.
    - destruct (step_kind e' w1 h c Hc) as (c' & Hc' & Hk).
      destruct (IH _ c' Hc' Hs) as (s1 & -> & E).
      destruct c as [s0| |]; try done.
      destruct (step_sessions_kept e' w1 h s0 Hc) as (s2 & Hs2 & E2 & _).
      exists s0. split; [done|]. congruence. }
  destruct (step_new_session e w h s1 (reachable_wf w Hw) ltac:(lia) Hc)
    as (cid & o & d & rn & t0 & j & _ & _ & Ht0 & Hrun & _ & -> & _).
  destruct (step_immutable e w _ t0 Ht0) as (t0' & Ht0' & Eid0 & _).
  assert (is_Some (heap (step e w) !! r)) as Hsome by eauto.
  pose proof (unique_id_run evs (step e w) r Hsome Hu) as Hu1.
  assert (r_task rn = r) as Hr.
  { apply (Hu1 t1 _ t0'); try done. simpl in E1. congruence. }
  rewrite Hr in Ht0. assert (t0 = t) as -> by congruence. congruence.
Qed.

(** * Along a trace *)

Lemma run_session evs : forall w h s,
  coros w !! h = Some (CSession s) ->
  exists s', coros (run evs w) !! h = Some (CSession s')
             /\ s_task_id s' = s_task_id s /\ s_session_id s' = s_session_id s
             /\ (done (s_pc s) = true -> done (s_pc s') = true).
Proof.
  induction evs as [|e evs IH]; intros w h s Hs; simpl; [eauto 10|].
  destruct (step_sessions_kept e w h s Hs) as (s1 & Hs1 & E1 & E2 & _).
  destruct (IH _ h s1 Hs1) as (s' & Hs' & E1' & E2' & Hd').
  exists s'. repeat split; try congruence.
  intros Hd. apply Hd'.
  destruct (step_done e w h s Hs Hd) as (s2 & Hs2 & Epc & _).
  assert (s2 = s1) as -> by congruence. by rewrite Epc.
Qed.

Lemma run_kind evs : forall w h c,
  coros w !! h = Some c ->
  exists c', coros (run evs w) !! h = Some c' /\ same_kind c c'.
Proof.
  induction evs as [|e evs IH]; intros w h c Hc; simpl.
  { exists c. split; [done|]. by destruct c. }
  destruct (step_kind e w h c Hc) as (c1 & Hc1 & Hk1).
  destruct (IH _ h c1 Hc1) as (c' & Hc' & Hk').
  exists c'. split; [done|].
  destruct c, c1, c'; simpl in *; try done; try congruence.
  destruct Hk1, Hk'. split; congruence.
Qed.

(** An entry of an old session was there before. *)
Lemma run_registry_back evs : forall w k h,
  (k, h) ∈ session_tasks (run evs w) -> (h < length (coros w))%nat ->
  (k, h) ∈ session_tasks w.
Proof.
  induction evs as [|e evs IH]; intros w k h Hin Hlt; simpl in *; [done|].
  pose proof (step_length e w) as Hlen.
  apply IH in Hin; [|lia].
  apply step_registry in Hin as [?|Hl]; [done|].
  destruct Hl as (cid & o & d & rn & rn' & t & n & _ & _ & _ & _ & _ & _ & _ & _ & Hh & _).
  lia.
Qed.

Lemma stop_task_heap task_id w r t :
  tasks w !! task_id = Some r -> heap w !! r = Some t ->
  heap (stop_task task_id w) = <[r := set_status Stopped t]> (heap w)
  /\ length (coros (stop_task task_id w)) = S (length (coros w))
  /\ exists st, coros (stop_task task_id w) !! length (coros w) = Some (CStop st).
Proof.
  intros Hr Ht. unfold stop_task. rewrite Hr, Ht.
  destruct (stop_loop _ _ _) as [pc w2] eqn:Hl.
  apply stop_loop_effect in Hl as [_ Eh _ El _ _ _ _]. simpl in *.
  rewrite Eh, length_app, El. simpl. split; [done|]. split; [lia|].
  eexists. rewrite <- El. by apply list_lookup_middle.
Qed.

(** The sessions of the stopped task, once [stop_task] has returned. *)
Lemma stop_returned_sessions task_id w0 evs r t h s :
  reachable w0 -> tasks w0 !! task_id = Some r ->
  heap (run evs (step (StopTask task_id) w0)) !! r = Some t ->
  unique_id r (run evs (step (StopTask task_id) w0)) ->
  single_run r (run evs (step (StopTask task_id) w0)) ->
  never_started r evs (step (StopTask task_id) w0) = true ->
  stop_at (length (coros w0)) (run evs (step (StopTask task_id) w0))
  = Some StopReturned ->
  coros (run evs (step (StopTask task_id) w0)) !! h = Some (CSession s) ->
  s_task_id s = task_id ->
  done (s_pc s) = true
  /\ forall k, (k, h) ∉ session_tasks (run evs (step (StopTask task_id) w0)).
Proof.
  intros Hw Hr Ht Hu Hsr Hn Hret Hs Hid.
  pose proof (reachable_wf w0 Hw) as Hwf.
  set (w1 := step (StopTask task_id) w0) in *.
  set (w := run evs w1) in *.
  assert (reachable w1) as Hw1 by (by apply reachable_step).
  assert (reachable w) as Hwr by (by apply reachable_run).
  destruct (wf_tasks w0 Hwf _ _ Hr) as (t0 & Ht0 & Hid0).
  destruct (stop_task_heap task_id w0 r t0 Hr Ht0) as (Eh & El & st & Hst).
  assert (heap w1 !! r = Some (set_status Stopped t0)) as Ht1.
  { unfold w1. simpl. rewrite Eh. apply list_lookup_insert_eq. by eapply lookup_lt_Some. }
  assert (unique_id r w1) as Hu1 by (apply (unique_id_run evs); eauto).
  assert (single_run r w1) as Hsr1 by (by apply (single_run_run evs)).
  assert (unique_id r w0) as Hu0 by (apply (unique_id_step (StopTask task_id)); eauto).
  assert (single_run r w0) as Hsr0 by (by apply (single_run_step (StopTask task_id))).
  (* the session was there when [stop_task] was called *)
  assert (h < length (coros w1))%nat as Hlt1.
  { apply (stopped_no_new_session r evs w1 (set_status Stopped t0) h s); try done.
    simpl. congruence. }
  assert (exists s0, coros w0 !! h = Some (CSession s0)) as [s0 Hs0].
  { unfold w1 in Hlt1. simpl in Hlt1. rewrite El in Hlt1.
    destruct (decide (h = length (coros w0))) as [E|Hne].
    - destruct (run_kind evs w1 _ _ Hst) as (c' & Hc' & Hk).
      rewrite <- E in Hc'.
      assert (Some c' = Some (CSession s)) as [= ->] by (rewrite <- Hs; symmetry; exact Hc').
      done.
    - assert (h < length (coros w0))%nat as Hlt0 by lia.
      apply lookup_lt_is_Some in Hlt0 as [c0 Hc0].
      destruct (run_kind (StopTask task_id :: evs) w0 _ _ Hc0) as (c' & Hc' & Hk).
      assert (Some c' = Some (CSession s)) as [= ->] by (rewrite <- Hs; symmetry; exact Hc').
      destruct c0; try done. eauto. }
  destruct (run_session (StopTask task_id :: evs) w0 h s0 Hs0)
    as (s' & Hs' & E1 & E2 & Hd).
  assert (Some (CSession s') = Some (CSession s)) as [= ->]
    by (rewrite <- Hs; symmetry; exact Hs').
  assert (forall k, (k, h) ∈ session_tasks w0 -> processed k h w) as Hproc.
  { intros k Hin.
    destruct (wf_registry w0 Hwf k h Hin) as (s1 & Hs1 & Hk & _).
    assert (s1 = s0) as -> by congruence.
    apply (stop_returned_processed task_id w0 evs k h r); try done.
    - rewrite Hk, <- E1, Hid. apply RegistryFacts.prefix_app.
    - exists s0, t0. repeat split; try done. congruence. }
  assert (done (s_pc s) = true) as Hdone.
  { destruct (done (s_pc s0)) eqn:Hd0; [by apply Hd|].
    assert ((session_key (s_task_id s0) (s_session_id s0), h) ∈ session_tasks w0)
      as Hin.
    { apply (live_registered w0 Hw r t0); try done. congruence. }
    destruct (Hproc _ Hin) as [_ (s1 & Hs1 & Hd1 & _)].
    assert (Some (CSession s1) = Some (CSession s)) as [= ->]
      by (rewrite <- Hs; symmetry; exact Hs1).
    done. }
  split; [done|]. intros k Hin.
  assert ((k, h) ∈ session_tasks w0) as Hin0.
  { apply (run_registry_back (StopTask task_id :: evs)); [done|].
    by eapply lookup_lt_Some. }
  destruct (Hproc k Hin0) as [Hnot _]. done.
Qed.

Lemma run_heap_kept evs : forall w, heap_kept w (run evs w).
Proof.
  induction evs as [|e evs IH]; intros w r t Ht; simpl; [eauto|].
  destruct (step_heap_kept e w r t Ht) as (t1 & Ht1 & E1 & E2).
  destruct (IH _ r t1 Ht1) as (t' & Ht' & E1' & E2').
  exists t'. split; [done|]. split; congruence.
Qed.

(** C3 (amended).  [stop_task(task_id)] sets the status to [Stopped]
    before its first suspension.  When it has returned, if the task has an
    id of its own, was started at most once, and no run of it was started
    since the call, then the status is [Stopped], every session of the
    task has ended and has no registry entry, and [active_sessions] is 0
    provided that no session of the task was cancelled at the notification
    that follows its increment. *)
Theorem stop_returned_task_drained task_id w0 evs r t :
  reachable w0 -> tasks w0 !! task_id = Some r ->
  heap (run evs (step (StopTask task_id) w0)) !! r = Some t ->
  unique_id r (run evs (step (StopTask task_id) w0)) ->
  single_run r (run evs (step (StopTask task_id) w0)) ->
  never_started r evs (step (StopTask task_id) w0) = true ->
  stop_at (length (coros w0)) (run evs (step (StopTask task_id) w0))
  = Some StopReturned ->
  task_field status r (step (StopTask task_id) w0) = Some Stopped
  /\ status t = Stopped
  /\ (forall h s,
        coros (run evs (step (StopTask task_id) w0)) !! h = Some (CSession s) ->
        s_task_id s = task_id ->
        done (s_pc s) = true
        /\ forall k, (k, h) ∉ session_tasks (run evs (step (StopTask task_id) w0)))
  /\ ((forall h s,
         coros (run evs (step (StopTask task_id) w0)) !! h = Some (CSession s) ->
         s_task_id s = task_id -> s_pc s <> SDone CancelledActive) ->
      active_sessions t = 0).
Proof.
  intros Hw Hr Ht Hu Hsr Hn Hret.
  pose proof (reachable_wf w0 Hw) as Hwf.
  destruct (wf_tasks w0 Hwf _ _ Hr) as (t0 & Ht0 & Hid0).
  destruct (stop_task_heap task_id w0 r t0 Hr Ht0) as (Eh & El & st & Hst).
  assert (heap (step (StopTask task_id) w0) !! r = Some (set_status Stopped t0)) as Ht1.
  { simpl. rewrite Eh. apply list_lookup_insert_eq. by eapply lookup_lt_Some. }
  assert (id t = task_id) as Hid.
  { destruct (run_heap_kept evs _ r _ Ht1) as (t' & Ht' & E & _).
    assert (t' = t) as -> by congruence. rewrite E. done. }
  pose proof (stop_returned_sessions task_id w0 evs r t) as Hsess.
  split; [|split; [|split]].
  - unfold task_field. by rewrite Ht1.
  - destruct (stopped_run r evs _ _ Ht1 eq_refl Hn) as (t' & Ht' & Hst').
    congruence.
  - intros h s Hs Hids. by apply (Hsess h s).
  - intros Hleak.
    assert (reachable (run evs (step (StopTask task_id) w0))) as Hwr.
    { apply reachable_run. by apply reachable_step. }
    rewrite (active_held _ Hwr r t Ht Hu Hsr). apply sumZ_zero.
    intros [s| |] [h Hs]%list_elem_of_lookup; try done. simpl.
    case_decide as Hb; [|done].
    destruct (so_bound _ _ (wf_session _ (reachable_wf _ Hwr) h s Hs) r Hb)
      as (t' & Ht' & Hids).
    assert (t' = t) as -> by congruence.
    assert (s_task_id s = task_id) as Hids' by congruence.
    destruct (Hsess h s) as [Hd _]; try done.
    specialize (Hleak h s Hs Hids').
    destruct (s_pc s) as [| | | | | | | |[]]; done.
Qed.

Lemma stop_returned_task_drained_witness :
  let w0 := run ([AddTask "t" "x" 1; StartTask "t"; Resume 0 Ok 0; Resume 0 Ok 0]
                 ++ replicate 6 (Resume 1 Ok 0)) (init true) in
  let evs := replicate 5 (Resume 1 Ok 0) ++ [Resume 2 Ok 0] in
  let w := run evs (step (StopTask "t") w0) in
  let t := {| id := "t"; prompt := "x"; session_count := 1; status := Stopped;
              active_sessions := 0; completed_sessions := 0;
              failed_sessions := 0; results := [] |} in
  task_field active_sessions 0 w0 = Some 1
  /\ task_field status 0 (step (StopTask "t") w0) = Some Stopped
  /\ status t = Stopped
  /\ (forall h s, coros w !! h = Some (CSession s) -> s_task_id s = "t" ->
        done (s_pc s) = true /\ forall k, (k, h) ∉ session_tasks w)
  /\ ((forall h s, coros w !! h = Some (CSession s) -> s_task_id s = "t" ->
         s_pc s <> SDone CancelledActive) -> active_sessions t = 0).
Proof.
  intros w0 evs w t. split; [vm_compute; reflexivity|].
  apply (stop_returned_task_drained "t" w0 evs 0 t).
  - eexists true, _. reflexivity.
  - vm_compute. reflexivity.
  - vm_compute. reflexivity.
  - intros t0 r' t' _ H _. apply lookup_lt_Some in H. vm_compute in H. lia.
  - intros c c' rn rn' Hc Hc' _ _. vm_compute in Hc, Hc'.
    destruct c as [|[|[|c]]]; [|discriminate Hc..].
    destruct c' as [|[|[|c']]]; [reflexivity|discriminate Hc'..].
  - vm_compute. reflexivity.
  - vm_compute. reflexivity.
Defined.

(** A run that is started while [stop_task] waits: [stop_task] returns,
    the status is [Running], a session counts as active, and in the second
    trace sessions of the task are registered. *)
Lemma restart_during_stop_leaves_sessions :
  let w0 := run [AddTask "t" "x" 1; StartTask "t"; Resume 0 Ok 0; Resume 0 Ok 0;
                 Resume 1 Ok 0] (init true) in
  let evs := [Resume 1 Ok 0; StartTask "t"; Resume 3 Ok 0; Resume 3 Ok 0]
             ++ replicate 6 (Resume 4 Ok 0) ++ [Resume 2 Ok 0] in
  let w := run evs (step (StopTask "t") w0) in
  let v0 := run [AddTask "t" "x" 10; StartTask "t"; Resume 0 Ok 0; Resume 0 Ok 0;
                 Resume 1 Ok 0; Resume 2 Ok 0] (init true) in
  let evs' := [StartTask "t"; Resume 4 Ok 0; Resume 4 Ok 0; Resume 4 Ok 0;
               Resume 4 Ok 0; Resume 1 Ok 0; Resume 3 Ok 0; Resume 6 Ok 0;
               Resume 3 Ok 0] in
  let v := run evs' (step (StopTask "t") v0) in
  stop_at (length (coros w0)) w = Some StopReturned
  /\ task_field status 0 w = Some Running
  /\ task_field active_sessions 0 w = Some 1
  /\ stop_at (length (coros v0)) v = Some StopReturned
  /\ Registry.keys (session_tasks v) = ["t_3"; "t_4"].
Proof. vm_compute. repeat split; reflexivity. Qed.

Lemma launched_world_reachable n : reachable (launched_world n).
Proof. eexists true, _. reflexivity. Qed.

(** X1 ([create_session]): [task = self.tasks[task_id]] never raises: the id
    of every session coroutine is a key of [self.tasks]. *)
Theorem session_task_lookup_never_fails w c s :
  reachable w -> coros w !! c = Some (CSession s) ->
  is_Some (tasks w !! s_task_id s) /\ s_pc s <> SDone Crashed.
Proof.
  intros Hw Hs. pose proof (reachable_wf w Hw) as Hwf.
  pose proof (wf_session w Hwf c s Hs) as Hok.
  split; [by apply wf_no_crash|by destruct Hok].
Qed.

Lemma session_task_lookup_never_fails_witness :
  is_Some (tasks (launched_world 0) !! "t")
  /\ SNotStarted <> SDone Crashed.
Proof.
  apply (session_task_lookup_never_fails (launched_world 0) 1
           (new_session (new_task "t" "x" 1) "1")).
  - apply launched_world_reachable.
  - vm_compute. reflexivity.
Defined.

(** X2 ([create_session], [run_task]): a session coroutine exists only
    once [self.browser] is set, so the
    check [if not self.browser: raise RuntimeError] never fires: a session
    that wakes up from its start delay without a pending cancellation goes
    on to [new_context]. *)
Theorem session_finds_browser w c s o d :
  reachable w -> coros w !! c = Some (CSession s) ->
  browser w = true
  /\ (s_pc s = SStartDelay -> s_must_cancel s = false ->
      s_pc <$> session_at c (step (Resume c o d) w) = Some SNewContext).
Proof.
  intros Hw Hs. pose proof (reachable_wf w Hw) as Hwf.
  pose proof (wf_browser w Hwf c s Hs) as Hb. split; [done|].
  intros Hpc Hm.
  pose proof (wf_session w Hwf c s Hs) as Hok.
  destruct (s_task s) as [r|] eqn:Hr.
  2: { destruct (so_unbound _ _ Hok Hr) as [E|E]; congruence. }
  destruct (so_bound _ _ Hok r Hr) as (t & Ht & _).
  assert (c < length (coros w))%nat by (by eapply lookup_lt_Some).
  unfold session_at. simpl. rewrite Hs. unfold resume_session.
  rewrite Hpc, Hr, Ht. unfold session_resume. rewrite Hpc, Hm, Hb. simpl.
  by rewrite list_lookup_insert_eq.
Qed.

Lemma session_finds_browser_witness :
  browser (launched_world 1) = true
  /\ (SStartDelay = SStartDelay -> false = false ->
      s_pc <$> session_at 1 (step (Resume 1 Timeout 0) (launched_world 1))
      = Some SNewContext).
Proof.
  apply (session_finds_browser (launched_world 1) 1
           (bind_task 0 (new_session (new_task "t" "x" 1) "1")) Timeout 0).
  - apply launched_world_reachable.
  - vm_compute. reflexivity.
Defined.

(** X3 ([run_task]): [session_id_counter] of a run never exceeds
    [session_count], and a task
    with an id of its own that was started once never has more session
    coroutines than [session_count]. *)
Theorem run_launches_at_most_session_count w c rn :
  reachable w -> coros w !! c = Some (CRun rn) ->
  exists t, heap w !! r_task rn = Some t
    /\ (0 <= session_count t ->
        Z.of_nat (r_session_id_counter rn) <= session_count t
        /\ (unique_id (r_task rn) w -> single_run (r_task rn) w ->
            sumZ (member (id t)) (coros w) <= session_count t)).
Proof.
  intros Hw Hc. pose proof (reachable_wf w Hw) as Hwf.
  destruct (wf_run w Hwf c rn Hc) as [(t & Ht & _ & Hb & _) _].
  exists t. split; [done|]. intros Hsc. split; [auto|].
  intros Hu Hs. rewrite (members_launched w Hw _ t Ht Hu).
  by apply launched_bound.
Qed.

Lemma run_launches_at_most_session_count_witness :
  exists t, heap (launched_world 3) !! 0%nat = Some t
    /\ (0 <= session_count t ->
        Z.of_nat 1 <= session_count t
        /\ (unique_id 0 (launched_world 3) -> single_run 0 (launched_world 3) ->
            sumZ (member (id t)) (coros (launched_world 3)) <= session_count t)).
Proof.
  apply (run_launches_at_most_session_count (launched_world 3) 0
           {| r_task := 0; r_pc := RWaitSessions;
              r_plan := Timing.plan_waves 1 0; r_session_id_counter := 1 |}).
  - apply launched_world_reachable.
  - vm_compute. reflexivity.
Defined.

(** X4 ([session_tasks]): the registry has one entry per key, and each entry is the coroutine of
    a session created under that key that has not run through its outer
    [finally]: the only ended sessions it can hold are those cancelled
    before their first step. *)
Theorem registry_holds_unfinished_sessions w k h :
  reachable w -> (k, h) ∈ session_tasks w ->
  NoDup (Registry.keys (session_tasks w))
  /\ Registry.lookup k (session_tasks w) = Some h
  /\ exists s, coros w !! h = Some (CSession s)
               /\ k = session_key (s_task_id s) (s_session_id s)
               /\ runs_outer_finally (s_pc s) = false.
Proof.
  intros Hw Hin. pose proof (reachable_wf w Hw) as Hwf.
  pose proof (wf_nodup w Hwf) as Hnd. split; [done|].
  split; [by apply RegistryFacts.elem_lookup|].
  destruct (wf_registry w Hwf k h Hin) as (s & Hs & Hk & Hd).
  exists s. split; [done|]. split; [done|].
  destruct (s_pc s) as [| | | | | | | |e] eqn:Hpc; try done.
  by rewrite (Hd eq_refl).
Qed.

Lemma registry_holds_unfinished_sessions_witness :
  NoDup (Registry.keys (session_tasks (launched_world 2)))
  /\ Registry.lookup "t_1" (session_tasks (launched_world 2)) = Some 1%nat
  /\ exists s, coros (launched_world 2) !! 1%nat = Some (CSession s)
               /\ "t_1" = session_key (s_task_id s) (s_session_id s)
               /\ runs_outer_finally (s_pc s) = false.
Proof.
  apply (registry_holds_unfinished_sessions (launched_world 2) "t_1" 1).
  - apply launched_world_reachable.
  - vm_compute. apply list_elem_of_here.
Defined.

(** X5 ([run_task], [create_session]): for a task with an id of its own
    that was started at most once: its
    sessions carry the numerals of [1 .. session_id_counter] as ids, no two
    of them the same, and each stays in the registry, under its key, until
    it ends. *)
Theorem sessions_numbered_and_registered w r t h s :
  reachable w -> heap w !! r = Some t -> unique_id r w -> single_run r w ->
  coros w !! h = Some (CSession s) -> s_task_id s = id t ->
  (exists c rn n, coros w !! c = Some (CRun rn) /\ r_task rn = r
                  /\ s_session_id s = pretty n
                  /\ (1 <= n <= r_session_id_counter rn)%nat)
  /\ (forall h' s', coros w !! h' = Some (CSession s') -> s_task_id s' = id t ->
        s_session_id s' = s_session_id s -> h' = h)
  /\ (done (s_pc s) = false ->
      Registry.lookup (session_key (s_task_id s) (s_session_id s)) (session_tasks w)
      = Some h).
Proof.
  intros Hw Ht Hu Hsr Hs Hid. split; [|split].
  - by apply (session_numbered w Hw r t h s).
  - intros h' s' Hs' Hid' E. by apply (sessions_distinct w Hw r t h' h s' s).
  - intros Hd. apply RegistryFacts.elem_lookup; [by apply wf_nodup, reachable_wf|].
    by apply (live_registered w Hw r t).
Qed.

Lemma sessions_numbered_and_registered_witness :
  (exists c rn n, coros (launched_world 2) !! c = Some (CRun rn) /\ r_task rn = 0%nat
                  /\ "1" = pretty n /\ (1 <= n <= r_session_id_counter rn)%nat)
  /\ (forall h' s', coros (launched_world 2) !! h' = Some (CSession s') ->
        s_task_id s' = "t" -> s_session_id s' = "1" -> h' = 1%nat)
  /\ (false = false ->
      Registry.lookup (session_key "t" "1") (session_tasks (launched_world 2))
      = Some 1%nat).
Proof.
  apply (sessions_numbered_and_registered (launched_world 2) 0
           {| id := "t"; prompt := "x"; session_count := 1; status := Running;
              active_sessions := 0; completed_sessions := 0;
              failed_sessions := 0; results := [] |}
           1
           {| s_task_id := "t"; s_prompt := "x"; s_session_id := "1";
              s_task := Some 0%nat; s_pc := SNewContext; s_must_cancel := false;
              s_cancel_requests := 0 |}).
  - apply launched_world_reachable.
  - vm_compute. reflexivity.
  - intros t0 r' t' _ H _. apply lookup_lt_Some in H. vm_compute in H. lia.
  - intros c c' rn rn' Hc Hc' _ _. vm_compute in Hc, Hc'.
    destruct c as [|[|c]]; [|discriminate Hc|discriminate Hc].
    destruct c' as [|[|c']]; [reflexivity|discriminate Hc'|discriminate Hc'].
  - vm_compute. reflexivity.
  - reflexivity.
Defined.

(** X6 (the registry keys): the key [f"{task_id}_{session_id}"] of a
    session determines the task
    id and the session id: session ids are decimal numerals, which hold no
    underscore, whatever the task ids are. *)
Theorem session_key_determines_ids task_id1 task_id2 (n1 n2 : nat) :
  session_key task_id1 (pretty n1) = session_key task_id2 (pretty n2) ->
  task_id1 = task_id2 /\ n1 = n2.
Proof.
  intros [E1 E2]%session_key_inj; try apply pretty_no_underscore.
  split; [done|]. by apply (inj pretty).
Qed.

Lemma session_key_determines_ids_witness :
  "task_1" = "task_1" /\ 12%nat = 12%nat.
Proof.
  apply (session_key_determines_ids "task_1" "task_1" 12 12). reflexivity.
Defined.

Lemma save_result_cases sid ok data t :
  let r := {| res_session_id := sid; res_success := ok; res_data := data |} in
  let t' := set_results (results t ++ [r]) t in
  (Z.of_nat (S (length (results t))) mod 10 = 0
   /\ save_result sid ok data t = (t', [save_to_file t']))
  \/ (Z.of_nat (S (length (results t))) mod 10 <> 0
      /\ save_result sid ok data t = (t', [])).
Proof.
  intros r t'. unfold save_result. fold r. fold t'.
  assert (length (results t') = S (length (results t))) as ->.
  { unfold t'. simpl. rewrite length_app. simpl. lia. }
  destruct (Z.eqb_spec (Z.of_nat (S (length (results t))) mod 10) 0); auto.
Qed.

Lemma result_eta r :
  {| res_session_id := res_session_id r; res_success := res_success r;
     res_data := res_data r |} = r.
Proof. by destruct r. Qed.

Lemma save_results_log rs : forall t,
  results (save_results rs t).1 = results t ++ rs
  /\ id (save_results rs t).1 = id t
  /\ status (save_results rs t).1 = status t
  /\ completed_sessions (save_results rs t).1 = completed_sessions t
  /\ failed_sessions (save_results rs t).1 = failed_sessions t
  /\ active_sessions (save_results rs t).1 = active_sessions t.
Proof.
  induction rs as [|r rs IH]; intros t; simpl.
  - by rewrite app_nil_r.
  - destruct (save_result_cases (res_session_id r) (res_success r) (res_data r) t)
      as [[_ ->]|[_ ->]];
      rewrite result_eta;
      specialize (IH (set_results (results t ++ [r]) t));
      destruct (save_results rs _) as [t2 d2]; simpl in *;
      rewrite <- app_assoc in IH; simpl in IH; exact IH.
Qed.

Lemma save_results_count rs : forall t,
  Z.of_nat (length (save_results rs t).2)
  = (Z.of_nat (length (results t)) + Z.of_nat (length rs)) / 10
    - Z.of_nat (length (results t)) / 10.
Proof.
  induction rs as [|r rs IH]; intros t; simpl save_results.
  - simpl. rewrite Z.add_0_r. lia.
  - destruct (save_result_cases (res_session_id r) (res_success r) (res_data r) t)
      as [[Hm ->]|[Hm ->]];
      rewrite result_eta;
      specialize (IH (set_results (results t ++ [r]) t));
      destruct (save_results rs _) as [t2 d2]; cbn [fst snd] in *;
      cbn [results set_results] in IH; rewrite length_app in IH; simpl length in IH;
      rewrite ?length_app; simpl length;
      revert IH Hm; generalize (length (results t)); generalize (length rs);
      generalize (length d2); intros a b c IH Hm.
    + replace (Z.of_nat (1 + a)) with (1 + Z.of_nat a) by lia.
      rewrite IH. clear IH.
      replace (Z.of_nat (c + 1) + Z.of_nat b) with (Z.of_nat c + Z.of_nat (S b)) by lia.
      replace (Z.of_nat (c + 1)) with (Z.of_nat (S c)) by lia.
      assert (Z.of_nat (S c) = 10 * (Z.of_nat (S c) / 10)) as E
        by (pose proof (Z.div_mod (Z.of_nat (S c)) 10); lia).
      assert (Z.of_nat c / 10 = Z.of_nat (S c) / 10 - 1).
      { pose proof (Z.div_mod (Z.of_nat c) 10).
        pose proof (Z.mod_pos_bound (Z.of_nat c) 10). lia. }
      lia.
    + rewrite Nat.add_0_l, IH. clear IH.
      replace (Z.of_nat (c + 1) + Z.of_nat b) with (Z.of_nat c + Z.of_nat (S b)) by lia.
      replace (Z.of_nat (c + 1)) with (Z.of_nat (S c)) by lia.
      assert (Z.of_nat c / 10 = Z.of_nat (S c) / 10).
      { pose proof (Z.div_mod (Z.of_nat c) 10).
        pose proof (Z.mod_pos_bound (Z.of_nat c) 10).
        pose proof (Z.div_mod (Z.of_nat (S c)) 10).
        pose proof (Z.mod_pos_bound (Z.of_nat (S c)) 10). lia. }
      lia.
Qed.

Lemma save_results_pages rs : forall t,
  Forall (full_page (results t ++ rs)) (save_results rs t).2.
Proof.
  induction rs as [|r rs IH]; intros t; simpl save_results; [constructor|].
  destruct (save_result_cases (res_session_id r) (res_success r) (res_data r) t)
    as [[Hm ->]|[Hm ->]];
    rewrite result_eta;
    specialize (IH (set_results (results t ++ [r]) t));
    destruct (save_results rs _) as [t2 d2]; cbn [fst snd] in *;
    cbn [results set_results] in IH; rewrite <- app_assoc in IH; simpl in IH.
  - constructor; [|done].
    exists (Z.to_nat (Z.of_nat (S (length (results t))) / 10)).
    assert (length (results t ++ [r]) = S (length (results t))) as Hl
      by (rewrite length_app; simpl; lia).
    assert (10 * Z.to_nat (Z.of_nat (S (length (results t))) / 10)
            = S (length (results t)))%nat as E.
    { pose proof (Z.div_mod (Z.of_nat (S (length (results t)))) 10). lia. }
    rewrite E. simpl snap_results. split; [lia|]. split; [|done].
    rewrite <- Hl.
    replace (results t ++ r :: rs) with ((results t ++ [r]) ++ rs)
      by (by rewrite <- app_assoc).
    by rewrite take_app_length.
  - done.
Qed.

(** X7 ([Task.save_result], [Task.save_to_file]): saving the results [rs]
    one after the other appends them to the log in order and writes one
    dump each time the length of the log reaches a multiple of ten, so
    [(m + n) / 10 - m / 10] dumps for [n] results added to a log of [m];
    every dump holds a prefix of the final log whose length is a positive
    multiple of ten, and the counters and the status are not touched. *)
Theorem save_results_dumps_every_tenth rs t :
  results (save_results rs t).1 = results t ++ rs
  /\ Z.of_nat (length (save_results rs t).2)
     = (Z.of_nat (length (results t)) + Z.of_nat (length rs)) / 10
       - Z.of_nat (length (results t)) / 10
  /\ Forall (full_page (results t ++ rs)) (save_results rs t).2
  /\ status (save_results rs t).1 = status t
  /\ completed_sessions (save_results rs t).1 = completed_sessions t
  /\ failed_sessions (save_results rs t).1 = failed_sessions t.
Proof.
  destruct (save_results_log rs t) as (H1 & _ & H3 & H4 & H5 & _).
  repeat split; try done.
  - apply save_results_count.
  - apply save_results_pages.
Qed.

(** * The wave plan *)

(** X8 ([run_task], the three tiers): a task of at most 100 sessions is
    launched in waves of one to three sessions (exactly one below ten
    sessions, exactly three from fifteen on), a task of 101 to 500 sessions in
    waves of five to ten, a larger one in waves of ten to twenty, whatever
    the random generator draws; the first version of the manager computes
    the same plan. *)
Theorem plan_waves_tiers session_count draw :
  let p := Timing.plan_waves session_count draw in
  let spw := Timing.sessions_per_wave p in
  (session_count <= 100 ->
   1 <= spw <= 3 /\ Timing.delay_between_waves p = (45, 75))
  /\ (session_count < 10 -> spw = 1)
  /\ (15 <= session_count <= 100 -> spw = 3)
  /\ (100 < session_count <= 500 ->
      5 <= spw <= 10 /\ Timing.delay_between_waves p = (30, 60))
  /\ (500 < session_count ->
      10 <= spw <= 20 /\ Timing.delay_between_waves p = (20, 40))
  /\ Timing.Basic.plan_waves session_count draw = (spw, Timing.waves_count p).
Proof.
  unfold Timing.plan_waves, Timing.Basic.plan_waves, Timing.randint.
  pose proof (Z.mod_pos_bound draw (10 - 5 + 1) eq_refl).
  pose proof (Z.mod_pos_bound draw (20 - 10 + 1) eq_refl).
  destruct (Z.leb_spec session_count 100); [|destruct (Z.leb_spec session_count 500)];
    simpl; repeat split; intros; try lia; try done.
  - assert (session_count / 5 < 2) by (apply Z.div_lt_upper_bound; lia). lia.
  - assert (3 <= session_count / 5) by (apply Z.div_le_lower_bound; lia). lia.
Qed.

Lemma body_world_reachable n b : reachable (body_world n b).
Proof.
  unfold body_world. destruct b; [|apply launched_world_reachable].
  apply reachable_step, launched_world_reachable.
Qed.

Lemma typed_length (l : list ascii) :
  length (flat_map (fun _ => [TypeChar; PauseChar]) l) = (2 * length l)%nat.
Proof. induction l; simpl; lia. Qed.

Lemma typed_elem a (l : list ascii) :
  a ∈ flat_map (fun _ => [TypeChar; PauseChar]) l -> a = TypeChar \/ a = PauseChar.
Proof.
  induction l as [|x l IH]; simpl.
  - by intros ?%elem_of_nil.
  - intros [->|[->|H]%elem_of_cons]%elem_of_cons; auto.
Qed.

Lemma body_length p :
  length (iteration_body p)
  = (18 + 2 * length (String.list_ascii_of_string p))%nat.
Proof. unfold iteration_body. rewrite !length_app, typed_length. simpl. lia. Qed.

(** The last six [await]s of the body. *)
Lemma body_tail p j :
  iteration_body p !! (12 + 2 * length (String.list_ascii_of_string p) + j)%nat
  = [OutcomeWindow; AwaitAllow; RestartWait; RestartPause; RestartClick;
     RestartSettle] !! j.
Proof.
  unfold iteration_body.
  rewrite lookup_app_r by (simpl; lia).
  rewrite lookup_app_r by (rewrite typed_length; simpl; lia).
  rewrite typed_length. simpl length.
  replace (12 + 2 * length (String.list_ascii_of_string p) + j - 7
           - 2 * length (String.list_ascii_of_string p))%nat with (5 + j)%nat by lia.
  reflexivity.
Qed.

Lemma body_position p k a :
  iteration_body p !! k = Some a ->
  kind a = AllowJoin \/ kind a = RestartCall \/ kind a = RestartSleep ->
  exists j, k = (12 + 2 * length (String.list_ascii_of_string p) + j)%nat
            /\ (1 <= j < 6)%nat.
Proof.
  unfold iteration_body. intros Hk Ha.
  apply lookup_app_Some in Hk as [Hk|[Hl Hk]].
  { do 7 (destruct k as [|k];
          [injection Hk as <-; destruct Ha as [?|[?|?]]; discriminate|]). done. }
  apply lookup_app_Some in Hk as [Hk|[Hl' Hk]].
  { apply list_elem_of_lookup_2, typed_elem in Hk as [->| ->];
      destruct Ha as [?|[?|?]]; discriminate. }
  rewrite typed_length in Hl', Hk. cbn [length] in Hl, Hl', Hk.
  remember (k - 7 - 2 * length (String.list_ascii_of_string p))%nat as m eqn:Hm.
  do 6 (destruct m as [|m];
        [injection Hk as <-; destruct Ha as [?|[?|?]]; discriminate|]).
  exists (S m). split; [lia|].
  do 5 (destruct m as [|m]; [lia|]). done.
Qed.

(** One resumption of a session that is bound to its task. *)
Lemma step_bound_session w c s r t o d pc t' dumps :
  coros w !! c = Some (CSession s) -> s_task s = Some r -> heap w !! r = Some t ->
  s_pc s <> SNotStarted -> done (s_pc s) = false ->
  session_resume (browser w) o s t = (pc, t', dumps) ->
  heap (step (Resume c o d) w) = <[r := t']> (heap w)
  /\ coros (step (Resume c o d) w) = <[c := CSession (at_pc pc s)]> (coros w)
  /\ browser (step (Resume c o d) w) = browser w.
Proof.
  intros Hc Hr Ht Hn Hd Hres. simpl. rewrite Hc.
  destruct (resume_session_resumed c o s w r t pc t' dumps Hn Hd Hr Ht Hres) as [H1 H2].
  split; [done|]. split; [done|].
  unfold resume_session. destruct (s_pc s); try done; rewrite Hr, Ht, Hres;
    by case_match.
Qed.

Lemma step_bound_session_at w c s r t o d pc t' dumps :
  coros w !! c = Some (CSession s) -> s_task s = Some r -> heap w !! r = Some t ->
  s_pc s <> SNotStarted -> done (s_pc s) = false ->
  session_resume (browser w) o s t = (pc, t', dumps) ->
  let w' := step (Resume c o d) w in
  coros w' !! c = Some (CSession (at_pc pc s)) /\ heap w' !! r = Some t'
  /\ browser w' = browser w.
Proof.
  intros Hc Hr Ht Hn Hd Hres w'.
  destruct (step_bound_session w c s r t o d pc t' dumps Hc Hr Ht Hn Hd Hres)
    as (H1 & H2 & H3).
  unfold w'. rewrite H1, H2. split; [|split; [|done]].
  - apply list_lookup_insert_eq. by eapply lookup_lt_Some.
  - apply list_lookup_insert_eq. by eapply lookup_lt_Some.
Qed.

Lemma iteration_done_recorded s i t pc t' dumps :
  iteration_done s i t = (pc, t', dumps) ->
  iteration_recorded s i t t'
  /\ (status t <> Running -> pc = SCleanup PageContent LoopEnded i)
  /\ (status t = Running -> (i < 5)%nat -> pc = SBody (S i) 0).
Proof.
  intros (t1 & H1 & H2)%iteration_done_spec.
  apply save_result_spec in H1 as (?&?&?&Hs&?&?&?&?&?).
  simpl in *.
  apply loop_test_spec in H2 as [(-> & -> & ? & ?)|(-> & -> & Hor)];
    unfold iteration_recorded; simpl; repeat split; try done; try congruence.
  - intros. destruct Hor; [congruence|lia].
Qed.

(** X9 ([create_session], [_wait_and_click_restart]): a timeout or an error
    of the driver while the session waits for the Restart button or clicks
    it is swallowed: the iteration is counted in [completed_sessions] and
    logged as a success, [failed_sessions] is not changed, and the session
    goes on to the next iteration when the task is running and fewer than
    five iterations are done. *)
Theorem restart_failure_counts_as_completed w c s r t i k a o d :
  coros w !! c = Some (CSession s) -> s_task s = Some r -> heap w !! r = Some t ->
  s_pc s = SBody i k -> iteration_body (s_prompt s) !! k = Some a ->
  kind a = RestartCall -> s_must_cancel s = false -> o <> Ok ->
  let w' := step (Resume c o d) w in
  exists t', heap w' !! r = Some t' /\ iteration_recorded s i t t'
    /\ (status t = Running -> (i < 5)%nat ->
        s_pc <$> session_at c w' = Some (SBody (S i) 0)).
Proof.
  intros Hc Hr Ht Hpc Hk Ha Hm Ho w'.
  destruct (iteration_done s i t) as [[pc t'] dumps] eqn:Hd.
  assert (session_resume (browser w) o s t = (pc, t', dumps)) as Hres.
  { unfold session_resume. rewrite Hpc, Hk, Hm, Ha. by destruct o. }
  destruct (step_bound_session_at w c s r t o d pc t' dumps) as (Hc' & Ht' & _);
    try done; try (by rewrite Hpc).
  apply iteration_done_recorded in Hd as (Hrec & _ & Hnext).
  exists t'. split; [done|]. split; [done|].
  intros Hs Hi. subst w'. unfold session_at. rewrite Hc'. simpl.
  by rewrite (Hnext Hs Hi).
Qed.

Lemma restart_failure_counts_as_completed_witness :
  exists t', heap (step (Resume 1 Timeout 0) (body_world 22 false)) !! 0%nat = Some t'
    /\ iteration_recorded
         (at_pc (SBody 1 16) (bind_task 0 (new_session (new_task "t" "x" 1) "1")))
         1 (set_active 1 (reset_counters (new_task "t" "x" 1))) t'
    /\ (status (set_active 1 (reset_counters (new_task "t" "x" 1))) = Running ->
        (1 < 5)%nat ->
        s_pc <$> session_at 1 (step (Resume 1 Timeout 0) (body_world 22 false))
        = Some (SBody 2 0)).
Proof.
  apply (restart_failure_counts_as_completed (body_world 22 false) 1
           (at_pc (SBody 1 16) (bind_task 0 (new_session (new_task "t" "x" 1) "1")))
           0 (set_active 1 (reset_counters (new_task "t" "x" 1))) 1 16
           RestartWait Timeout 0).
  - vm_compute. reflexivity.
  - vm_compute. reflexivity.
  - vm_compute. reflexivity.
  - vm_compute. reflexivity.
  - vm_compute. reflexivity.
  - vm_compute. reflexivity.
  - vm_compute. reflexivity.
  - discriminate.
Defined.

(** Resuming a session inside the last [await]s of the body, when the
    awaited call neither ends the iteration nor the loop. *)
Lemma tail_advance b o s t i j a :
  let base := (12 + 2 * length (String.list_ascii_of_string (s_prompt s)))%nat in
  s_pc s = SBody i (base + j) ->
  [OutcomeWindow; AwaitAllow; RestartWait; RestartPause; RestartClick;
   RestartSettle] !! j = Some a ->
  (j < 5)%nat ->
  (if s_must_cancel s then kind a = AllowJoin
   else kind a = RestartCall -> o = Ok) ->
  session_resume b o s t = (SBody i (S (base + j)), t, []).
Proof.
  intros base Hpc Ha Hj Hk. unfold session_resume. rewrite Hpc.
  unfold base. rewrite body_tail, Ha.
  assert (advance s i (base + j) t = (SBody i (S (base + j)), t, [])) as Hadv.
  { unfold advance. rewrite body_length. fold base.
    by rewrite decide_True by lia. }
  fold base. destruct (s_must_cancel s).
  - by rewrite Hk.
  - do 5 (destruct j as [|j]; [simplify_eq/=; try done; by rewrite Hk|]). lia.
Qed.

Lemma tail_finish b o s t i :
  let base := (12 + 2 * length (String.list_ascii_of_string (s_prompt s)))%nat in
  s_pc s = SBody i (base + 5) -> s_must_cancel s = false ->
  session_resume b o s t = iteration_done s i t.
Proof.
  intros base Hpc Hm. unfold session_resume. rewrite Hpc, Hm.
  unfold base. rewrite body_tail. simpl.
  unfold advance. rewrite body_length. fold base.
  rewrite decide_False by lia. by destruct o.
Qed.

(** X10 ([create_session], the join of the Allow monitor): a cancellation
    that reaches the session while it awaits the cancelled monitor does
    not end the session: the join is inside [try: ... except
    asyncio.CancelledError: pass].  The session goes on to wait for the
    Restart button with no cancellation pending; when the four awaits of
    [_wait_and_click_restart] have answered, the iteration is
    counted as completed and logged as a success, and only then does a
    session of a task that is not running leave the loop, as if it had ended
    by itself. *)
Theorem cancel_at_allow_join_is_swallowed w c s r t i k o0 o2 o4 d0 d1 d2 d3 d4 :
  coros w !! c = Some (CSession s) -> s_task s = Some r -> heap w !! r = Some t ->
  s_pc s = SBody i k -> iteration_body (s_prompt s) !! k = Some AwaitAllow ->
  s_must_cancel s = true ->
  let w1 := step (Resume c o0 d0) w in
  let w5 :=
    run [Resume c Ok d1; Resume c o2 d2; Resume c Ok d3; Resume c o4 d4] w1 in
  session_at c w1 = Some (at_pc (SBody i (S k)) s)
  /\ iteration_body (s_prompt s) !! S k = Some RestartWait
  /\ heap w1 !! r = Some t
  /\ exists t', heap w5 !! r = Some t' /\ iteration_recorded s i t t'
       /\ (status t <> Running ->
           s_pc <$> session_at c w5 = Some (SCleanup PageContent LoopEnded i)).
Proof.
  intros Hc Hr Ht Hpc Hk Hm w1 w5.
  destruct (body_position _ _ _ Hk) as (j & -> & Hj); [by left|].
  rewrite body_tail in Hk.
  assert (j = 1%nat) as ->.
  { do 6 (destruct j as [|j]; [simplify_eq/=; try done; lia|]). lia. }
  clear Hk Hj.
  set (base := (12 + 2 * length (String.list_ascii_of_string (s_prompt s)))%nat) in *.
  (* the join *)
  destruct (step_bound_session_at w c s r t o0 d0 (SBody i (S (base + 1))) t [])
    as (Hc1 & Ht1 & Hb1); try done; try (by rewrite Hpc).
  { apply (tail_advance _ _ _ _ _ 1 AwaitAllow); try done; [lia|by rewrite Hm]. }
  fold w1 in Hc1, Ht1, Hb1.
  (* RestartWait *)
  set (s1 := at_pc (SBody i (S (base + 1))) s) in *.
  destruct (step_bound_session_at w1 c s1 r t Ok d1 (SBody i (S (base + 2))) t [])
    as (Hc2 & Ht2 & Hb2); try done.
  { refine (tail_advance (browser w1) Ok s1 t i 2 RestartWait _ eq_refl _ _);
      [simpl; f_equal; lia|lia|done]. }
  set (w2 := step (Resume c Ok d1) w1) in *.
  (* RestartPause *)
  set (s2 := at_pc (SBody i (S (base + 2))) s1) in *.
  destruct (step_bound_session_at w2 c s2 r t o2 d2 (SBody i (S (base + 3))) t [])
    as (Hc3 & Ht3 & Hb3); try done.
  { refine (tail_advance (browser w2) o2 s2 t i 3 RestartPause _ eq_refl _ _);
      [simpl; f_equal; lia|lia|done]. }
  set (w3 := step (Resume c o2 d2) w2) in *.
  (* RestartClick *)
  set (s3 := at_pc (SBody i (S (base + 3))) s2) in *.
  destruct (step_bound_session_at w3 c s3 r t Ok d3 (SBody i (S (base + 4))) t [])
    as (Hc4 & Ht4 & Hb4); try done.
  { refine (tail_advance (browser w3) Ok s3 t i 4 RestartClick _ eq_refl _ _);
      [simpl; f_equal; lia|lia|done]. }
  set (w4 := step (Resume c Ok d3) w3) in *.
  (* RestartSettle: the end of the body *)
  set (s4 := at_pc (SBody i (S (base + 4))) s3) in *.
  destruct (iteration_done s4 i t) as [[pc t'] dumps] eqn:Hd.
  destruct (step_bound_session_at w4 c s4 r t o4 d4 pc t' dumps)
    as (Hc5 & Ht5 & Hb5); try done.
  { rewrite <- Hd.
    refine (tail_finish (browser w4) o4 s4 t i _ eq_refl). simpl. f_equal. lia. }
  change (step (Resume c o4 d4) w4) with w5 in Hc5, Ht5.
  apply iteration_done_recorded in Hd as (Hrec & Hend & _).
  split; [|split; [|split; [done|]]].
  - unfold session_at. by rewrite Hc1.
  - replace (S (base + 1)) with (base + 2)%nat by lia.
    unfold base. by rewrite body_tail.
  - exists t'. split; [done|]. split; [done|].
    intros Hs. unfold session_at. rewrite Hc5. simpl. by rewrite (Hend Hs).
Qed.

Lemma cancel_at_allow_join_is_swallowed_witness :
  let s := request_cancel
             (at_pc (SBody 1 15)
                (bind_task 0 (new_session (new_task "t" "x" 1) "1"))) in
  let t := set_status Stopped (set_active 1 (reset_counters (new_task "t" "x" 1))) in
  let w1 := step (Resume 1 Ok 0) (body_world 21 true) in
  let w5 := run [Resume 1 Ok 0; Resume 1 Ok 0; Resume 1 Ok 0; Resume 1 Ok 0] w1 in
  session_at 1 w1 = Some (at_pc (SBody 1 16) s)
  /\ iteration_body (s_prompt s) !! 16%nat = Some RestartWait
  /\ heap w1 !! 0%nat = Some t
  /\ exists t', heap w5 !! 0%nat = Some t' /\ iteration_recorded s 1 t t'
       /\ (status t <> Running ->
           s_pc <$> session_at 1 w5 = Some (SCleanup PageContent LoopEnded 1)).
Proof.
  apply (cancel_at_allow_join_is_swallowed (body_world 21 true) 1
           (request_cancel
              (at_pc (SBody 1 15)
                 (bind_task 0 (new_session (new_task "t" "x" 1) "1"))))
           0 (set_status Stopped (set_active 1 (reset_counters (new_task "t" "x" 1))))
           1 15 Ok Ok Ok 0 0 0 0 0).
  - vm_compute. reflexivity.
  - vm_compute. reflexivity.
  - vm_compute. reflexivity.
  - vm_compute. reflexivity.
  - vm_compute. reflexivity.
  - vm_compute. reflexivity.
Defined.

(** X11 ([run_task], [init_browser]): when the manager has no browser and
    launching one fails, [run_task] ends with the exception after it has
    set the status and reset the counters: the task stays [Running] with
    all counters at zero, no session is created or registered, and no
    further resumption of the coroutine changes anything, so nothing will
    mark the task completed. *)
Theorem init_browser_failure_strands_task w c rn t o1 d1 o d :
  coros w !! c = Some (CRun rn) -> r_pc rn = RNotStarted ->
  heap w !! r_task rn = Some t -> browser w = false -> o <> Ok ->
  let w2 := run [Resume c o1 d1; Resume c o d] w in
  heap w2 = <[r_task rn := reset_counters t]> (heap w)
  /\ status (reset_counters t) = Running
  /\ session_tasks w2 = session_tasks w
  /\ length (coros w2) = length (coros w)
  /\ files w2 = files w
  /\ browser w2 = false
  /\ forall o' d', step (Resume c o' d') w2 = w2.
Proof.
  intros Hc Hpc Ht Hb Ho w2.
  assert (c < length (coros w))%nat as Hlt by (by eapply lookup_lt_Some).
  set (w1 := with_heap (<[r_task rn := reset_counters t]> (heap w)) w).
  set (rn1 := at_run RInitBrowser (r_plan rn) 0 rn).
  assert (step (Resume c o1 d1) w = with_coros (<[c := CRun rn1]> (coros w1)) w1)
    as E1.
  { simpl. rewrite Hc. unfold resume_run. rewrite Hpc, Ht. fold w1.
    assert (browser w1 = false) as -> by done. done. }
  set (rn2 := at_run RFailed (r_plan rn1) 0 rn1).
  assert (w2 = with_coros (<[c := CRun rn2]> (<[c := CRun rn1]> (coros w1))) w1)
    as E2.
  { unfold w2. cbn [run]. rewrite E1. simpl.
    rewrite list_lookup_insert_eq by done.
    unfold resume_run. simpl. by destruct o. }
  rewrite E2. simpl. repeat split; try done.
  - by rewrite !length_insert.
  - intros o' d'. rewrite list_lookup_insert_eq by (by rewrite length_insert).
    done.
Qed.

Lemma init_browser_failure_strands_task_witness :
  let rn := {| r_task := 0; r_pc := RNotStarted; r_plan := Timing.no_plan;
               r_session_id_counter := 0 |} in
  let t := new_task "t" "x" 1 in
  let w2 := run [Resume 0 Ok 0; Resume 0 DriverError 0] unlaunched_world in
  heap w2 = <[r_task rn := reset_counters t]> (heap unlaunched_world)
  /\ status (reset_counters t) = Running
  /\ session_tasks w2 = session_tasks unlaunched_world
  /\ length (coros w2) = length (coros unlaunched_world)
  /\ files w2 = files unlaunched_world
  /\ browser w2 = false
  /\ forall o' d', step (Resume 0 o' d') w2 = w2.
Proof.
  apply (init_browser_failure_strands_task unlaunched_world 0
           {| r_task := 0; r_pc := RNotStarted; r_plan := Timing.no_plan;
              r_session_id_counter := 0 |}
           (new_task "t" "x" 1) Ok 0 DriverError 0).
  - vm_compute. reflexivity.
  - reflexivity.
  - vm_compute. reflexivity.
  - vm_compute. reflexivity.
  - discriminate.
Defined.

(** X12 ([run_task], the launch loop of a wave): on a running task the
    loop creates [n] session coroutines with the session ids
    [counter + 1 .. counter + n], in this order, each for the id and the
    prompt of the task, and binds the key of each to its handle; the
    coroutines that were there and the bindings of all other keys are kept,
    and the task objects are not touched.  On a task that is not running
    the loop does nothing. *)
Theorem wave_registers_each_session n r counter w t :
  heap w !! r = Some t ->
  let w' := (launch n r counter w).2 in
  (status t <> Running -> launch n r counter w = (counter, w))
  /\ (status t = Running ->
      (launch n r counter w).1 = (counter + n)%nat
      /\ heap w' = heap w
      /\ length (coros w') = (length (coros w) + n)%nat
      /\ (forall h c, coros w !! h = Some c -> coros w' !! h = Some c)
      /\ (forall j, (j < n)%nat ->
            coros w' !! (length (coros w) + j)%nat
            = Some (CSession (new_session t (pretty (counter + 1 + j)%nat)))
            /\ Registry.lookup (session_key (id t) (pretty (counter + 1 + j)%nat))
                 (session_tasks w') = Some (length (coros w) + j)%nat)
      /\ (forall k,
            (forall j, (j < n)%nat ->
               k <> session_key (id t) (pretty (counter + 1 + j)%nat)) ->
            Registry.lookup k (session_tasks w')
            = Registry.lookup k (session_tasks w))).
Proof.
  intros Ht w'. split; [by apply launch_not_running|]. intros Hs.
  unfold w'. rewrite (launch_running n r counter w t Ht Hs). simpl.
  repeat split.
  - rewrite length_app, launched_length. done.
  - intros h c Hc. by apply lookup_app_l_Some.
  - rewrite lookup_app_r by lia.
    replace (length (coros w) + j - length (coros w))%nat with j by lia.
    by apply launched_lookup.
  - by apply lookup_registered.
  - intros k Hk. by apply lookup_registered_ne.
Qed.

Lemma wave_registers_each_session_witness :
  let t := reset_counters (new_task "t" "x" 1) in
  let w := run [AddTask "t" "x" 1; StartTask "t"; Resume 0 Ok 0] (init true) in
  let w' := (launch 2 0 0 w).2 in
  (status t <> Running -> launch 2 0 0 w = (0%nat, w))
  /\ (status t = Running ->
      (launch 2 0 0 w).1 = (0 + 2)%nat
      /\ heap w' = heap w
      /\ length (coros w') = (length (coros w) + 2)%nat
      /\ (forall h c, coros w !! h = Some c -> coros w' !! h = Some c)
      /\ (forall j, (j < 2)%nat ->
            coros w' !! (length (coros w) + j)%nat
            = Some (CSession (new_session t (pretty (0 + 1 + j)%nat)))
            /\ Registry.lookup (session_key (id t) (pretty (0 + 1 + j)%nat))
                 (session_tasks w') = Some (length (coros w) + j)%nat)
      /\ (forall k,
            (forall j, (j < 2)%nat ->
               k <> session_key (id t) (pretty (0 + 1 + j)%nat)) ->
            Registry.lookup k (session_tasks w')
            = Registry.lookup k (session_tasks w))).
Proof.
  apply (wave_registers_each_session 2 0 0
           (run [AddTask "t" "x" 1; StartTask "t"; Resume 0 Ok 0] (init true))
           (reset_counters (new_task "t" "x" 1))).
  vm_compute. reflexivity.
Defined.

Lemma wf_handles_inj w : wf w -> handles_inj (session_tasks w).
Proof.
  intros Hw k k' h H1 H2.
  destruct (wf_registry w Hw k h H1) as (s & Hs & -> & _).
  destruct (wf_registry w Hw k' h H2) as (s' & Hs' & -> & _).
  congruence.
Qed.

Lemma handles_inj_delete key d : handles_inj d -> handles_inj (Registry.delete key d).
Proof. intros H k k' h H1%RegistryFacts.elem_delete H2%RegistryFacts.elem_delete. eauto. Qed.

Lemma cancel_other h' h w : h <> h' -> coros (cancel h' w) !! h = coros w !! h.
Proof.
  intros Hne. unfold cancel. destruct (coros w !! h') as [[s| |]|]; try done.
  destruct (s_pc s); try done; simpl; by rewrite list_lookup_insert_ne.
Qed.

Lemma stop_loop_suffix keys r : forall w pc w',
  stop_loop keys r w = (pc, w') ->
  forall key h rest, pc = StopAwait key h rest ->
    exists pre, keys = pre ++ key :: rest.
Proof.
  induction keys as [|key0 rest0 IH]; intros w pc w'; simpl.
  - destruct (heap w !! r); intros [= <- <-]; done.
  - destruct (Registry.lookup key0 (session_tasks w)) as [h0|];
      [|intros [= <- <-]; done].
    destruct (exit_of h0 (cancel h0 w)) as [e|].
    2: { intros [= <- <-] key h rest [= <- <- <-]. by exists []. }
    assert (forall z, stop_loop rest0 r
        (with_session_tasks (Registry.delete key0 (session_tasks (cancel h0 w)))
           (cancel h0 w)) = z -> z = (pc, w') ->
        forall key h rest, pc = StopAwait key h rest ->
          exists pre, key0 :: rest0 = pre ++ key :: rest) as Hrec.
    { intros z Hz -> key h rest Hpc.
      destruct (IH _ _ _ Hz key h rest Hpc) as (pre & ->).
      by exists (key0 :: pre). }
    destruct e; try (intros H; by eapply Hrec).
    intros [= <- <-]; done.
Qed.

(** The loop of [stop_task] touches the entries of its keys only. *)
Lemma stop_loop_scope keys r : forall w pc w',
  handles_inj (session_tasks w) ->
  stop_loop keys r w = (pc, w') ->
  forall k h, (k, h) ∈ session_tasks w -> k ∉ keys ->
    (k, h) ∈ session_tasks w' /\ coros w' !! h = coros w !! h.
Proof.
  induction keys as [|key rest IH]; intros w pc w' Hinj; simpl.
  - destruct (heap w !! r); intros [= <- <-]; done.
  - destruct (Registry.lookup key (session_tasks w)) as [h'|] eqn:Hk;
      [|intros [= <- <-]; done].
    apply RegistryFacts.lookup_Some_elem in Hk.
    destruct (cancel_spec h' w) as (_ & _ & Ereg & _).
    assert (forall k h, (k, h) ∈ session_tasks w -> k ∉ key :: rest ->
              (k, h) ∈ session_tasks (cancel h' w)
              /\ coros (cancel h' w) !! h = coros w !! h) as Hcancel.
    { intros k h Hin Hnot. rewrite Ereg. split; [done|].
      apply cancel_other. intros ->.
      apply Hnot. rewrite (Hinj k key h' Hin Hk). left. }
    destruct (exit_of h' (cancel h' w)) as [e|].
    2: { intros [= <- <-]. exact Hcancel. }
    assert (forall z, stop_loop rest r
        (with_session_tasks (Registry.delete key (session_tasks (cancel h' w)))
           (cancel h' w)) = z -> z = (pc, w') ->
        forall k h, (k, h) ∈ session_tasks w -> k ∉ key :: rest ->
          (k, h) ∈ session_tasks w' /\ coros w' !! h = coros w !! h) as Hrec.
    { intros z Hz -> k h Hin Hnot.
      destruct (Hcancel k h Hin Hnot) as [Hin1 Hc1].
      apply not_elem_of_cons in Hnot as [Hne Hnot].
      assert (handles_inj (session_tasks (cancel h' w))) as Hinj1
        by (by rewrite Ereg).
      assert ((k, h) ∈ Registry.delete key (session_tasks (cancel h' w))) as Hin'
        by (by apply elem_delete_ne).
      pose proof (fun Hi => IH _ pc w' Hi Hz k h) as IH'. simpl in IH'.
      destruct (IH' (handles_inj_delete key _ Hinj1) Hin' Hnot) as [Hin2 Hc2].
      split; [done|]. congruence. }
    destruct e; try (intros H; by eapply Hrec).
    intros [= <- <-]. exact Hcancel.
Qed.

Lemma keys_with_prefix_scope p d :
  Forall (fun k => String.prefix p k = true) (Registry.keys_with_prefix p d).
Proof.
  apply Forall_forall. intros k Hk.
  by apply RegistryFacts.elem_keys_with_prefix in Hk as [_ ?].
Qed.

Lemma stop_scope_step e w : wf w -> stop_scope w -> stop_scope (step e w).
Proof.
  intros Hw Hsc c st' key h rest Hc' Hpc.
  destruct (decide (c < length (coros w))%nat) as [Hlt|Hge].
  2: { destruct (step_new_coro e w c _ ltac:(lia) Hc')
         as [(? & ? & _ & _ & ?)|[(tid & st & -> & ? & _)|[k Hl]]]; try done.
       2: { apply launched_by_new in Hl as (t & n & rn & Hn & _). congruence. }
       simplify_eq. simpl in *. unfold stop_task in *.
       destruct (tasks w !! tid) as [r|].
       2: { simpl in Hc'. rewrite lookup_app_r in Hc' by lia.
            apply list_lookup_singleton_Some in Hc' as [_ [= <-]]. done. }
       destruct (heap w !! r) as [t|]; [|by apply lookup_lt_Some in Hc'; lia].
       destruct (stop_loop _ _ _) as [pc w2] eqn:Hl.
       pose proof (stop_loop_effect _ _ _ _ _ Hl) as [_ _ _ Hlen _ _ _ _].
       simpl in *. rewrite lookup_app_r in Hc' by lia.
       apply list_lookup_singleton_Some in Hc' as [_ [= <-]]. simpl in *.
       destruct (stop_loop_suffix _ _ _ _ _ Hl key h rest Hpc) as (pre & Hpre).
       pose proof (keys_with_prefix_scope tid (session_tasks w)) as Hall.
       rewrite Hpre in Hall. by apply Forall_app in Hall as [_ ?]. }
  apply lookup_lt_is_Some in Hlt as [co Hco].
  destruct (step_kind e w c co Hco) as (co' & Hco' & Hk).
  rewrite Hc' in Hco'. simplify_eq. destruct co as [| |st]; try done.
  destruct Hk as [Hid _].
  assert ((exists o d, e = Resume c o d) \/ forall o d, e <> Resume c o d)
    as [(o & d & ->)|Hne].
  { destruct e as [| | |c' o d]; try (right; by intros).
    destruct (decide (c' = c)) as [->|]; [left; eauto|].
    right. intros ? ?. congruence. }
  2: { destruct (step_frame e w c _ Hco Hne) as (co' & Hco' & Hf). simpl in Hf.
       simplify_eq. by eapply Hsc. }
  assert (c < length (coros w))%nat as Hlt by (by eapply lookup_lt_Some).
  simpl in Hc'. rewrite Hco in Hc'.
  destruct (resume_stop_closed c st w)
    as [|key0 h0 rest0|key0 h0 rest0 ex r pc w1 Hpc0 _ _ _ Hl].
  - simplify_eq. by eapply Hsc.
  - simpl in Hc'. rewrite list_lookup_insert_eq in Hc' by done. by simplify_eq.
  - pose proof (stop_loop_effect _ _ _ _ _ Hl) as [_ _ _ Hlen _ _ _ _].
    simpl in *. rewrite list_lookup_insert_eq in Hc' by lia. simplify_eq.
    simpl in *.
    destruct (stop_loop_suffix _ _ _ _ _ Hl key h rest Hpc) as (pre & Hpre).
    pose proof (Hsc c st key0 h0 rest0 Hco Hpc0) as Hall.
    apply Forall_cons in Hall as [_ Hall]. rewrite Hpre in Hall.
    by apply Forall_app in Hall as [_ ?].
Qed.

Lemma reachable_stop_scope w : reachable w -> stop_scope w.
Proof.
  revert w. apply reachable_induction.
  - intros b c st key h rest Hc. done.
  - intros e w Hw. apply stop_scope_step. by apply reachable_wf.
Qed.

(** X13 ([stop_task]): no step of [stop_task(task_id)] reaches a registry
    entry whose key does not start with [task_id]: the entry stays in
    [session_tasks], and its session is left as it is, so [cancel()] is not
    called on it. *)
Theorem stop_leaves_other_keys_alone w e task_id k h :
  reachable w -> runs_stop task_id e w ->
  (k, h) ∈ session_tasks w -> String.prefix task_id k = false ->
  (k, h) ∈ session_tasks (step e w) /\ coros (step e w) !! h = coros w !! h.
Proof.
  intros Hr He Hin Hpre.
  pose proof (reachable_wf w Hr) as Hw.
  pose proof (wf_handles_inj w Hw) as Hinj.
  destruct (wf_registry w Hw k h Hin) as (s & Hs & _ & _).
  assert (h < length (coros w))%nat as Hlt by (by eapply lookup_lt_Some).
  destruct He as [->|(c & o & d & st & -> & Hc & Hid)].
  - simpl. unfold stop_task.
    destruct (tasks w !! task_id) as [r|]; simpl.
    2: { split; [done|]. by rewrite lookup_app_l. }
    destruct (heap w !! r) as [t|]; [|done].
    destruct (stop_loop _ _ _) as [pc w2] eqn:Hl.
    pose proof (stop_loop_effect _ _ _ _ _ Hl) as [_ _ _ Hlen _ _ _ _].
    assert (k ∉ Registry.keys_with_prefix task_id (session_tasks w)) as Hnot.
    { intros [_ E]%RegistryFacts.elem_keys_with_prefix. congruence. }
    pose proof (fun Hi => stop_loop_scope _ _ _ _ _ Hi Hl k h) as Hsc.
    simpl in Hsc. destruct (Hsc Hinj Hin Hnot) as [Hin2 Hc2].
    simpl in *. split; [done|]. rewrite lookup_app_l by lia. done.
  - simpl. rewrite Hc.
    destruct (resume_stop_closed c st w)
      as [|key0 h0 rest0|key0 h0 rest0 ex r pc w1 Hpc0 _ _ _ Hl].
    + done.
    + simpl. split; [done|]. rewrite list_lookup_insert_ne; [done|].
      intros <-. congruence.
    + pose proof (stop_loop_effect _ _ _ _ _ Hl) as [_ _ _ Hlen _ _ _ _].
      pose proof (reachable_stop_scope w Hr c st key0 h0 rest0 Hc Hpc0) as Hall.
      rewrite Hid in Hall. apply Forall_cons in Hall as [Hk0 Hall].
      assert ((k, h) ∈ Registry.delete key0 (session_tasks w)) as Hin'.
      { apply elem_delete_ne; [done|]. intros ->. congruence. }
      assert (k ∉ rest0) as Hnot.
      { intros Hk. rewrite Forall_forall in Hall. apply Hall in Hk. congruence. }
      pose proof (fun Hi => stop_loop_scope _ _ _ _ _ Hi Hl k h) as Hsc.
      simpl in Hsc.
      destruct (Hsc (handles_inj_delete key0 _ Hinj) Hin' Hnot) as [Hin2 Hc2].
      simpl in *. split; [done|]. rewrite list_lookup_insert_ne; [done|].
      intros <-. congruence.
Qed.

Lemma stop_leaves_other_keys_alone_witness :
  ("b_1", 3%nat) ∈ session_tasks (step (StopTask "a") two_tasks_world)
  /\ coros (step (StopTask "a") two_tasks_world) !! 3%nat
     = coros two_tasks_world !! 3%nat.
Proof.
  apply (stop_leaves_other_keys_alone two_tasks_world (StopTask "a") "a" "b_1" 3).
  - eexists true, _. reflexivity.
  - by left.
  - apply list_elem_of_lookup_2 with 1%nat. vm_compute. reflexivity.
  - vm_compute. reflexivity.
Defined.

(** * Leaving the loop early *)

(** The registry after a resumption of a session that is bound to its task. *)
Lemma step_bound_session_registry w c s r t o d pc t' dumps :
  coros w !! c = Some (CSession s) -> s_task s = Some r -> heap w !! r = Some t ->
  s_pc s <> SNotStarted -> done (s_pc s) = false ->
  session_resume (browser w) o s t = (pc, t', dumps) ->
  session_tasks (step (Resume c o d) w)
  = if runs_outer_finally pc
    then Registry.delete (session_key (s_task_id s) (s_session_id s)) (session_tasks w)
    else session_tasks w.
Proof.
  intros Hc Hr Ht Hn Hd Hres. simpl. rewrite Hc. unfold resume_session.
  destruct (s_pc s); try done; rewrite Hr, Ht, Hres; by case_match.
Qed.

(** The four [await]s of the [finally] block, all answered, the two
    [close()] calls without error: the session ends the way it left the
    loop, and the outermost [finally] removes its key. *)
Lemma cleanup_runs w c s r t how i o1 o4 d1 d2 d3 d4 :
  NoDup (Registry.keys (session_tasks w)) ->
  coros w !! c = Some (CSession s) -> s_task s = Some r -> heap w !! r = Some t ->
  s_pc s = SCleanup PageContent how i -> s_must_cancel s = false ->
  let w4 := run [Resume c o1 d1; Resume c Ok d2; Resume c Ok d3; Resume c o4 d4] w in
  let '(pc, t') := match how with
                   | LoopErrored => (SDone Errored, set_failed (failed_sessions t + 1) t)
                   | _ => (SDone (Finished how i), t)
                   end in
  heap w4 !! r = Some t'
  /\ s_pc <$> session_at c w4 = Some pc
  /\ Registry.lookup (session_key (s_task_id s) (s_session_id s)) (session_tasks w4)
     = None.
Proof.
  intros Hnd Hc Hr Ht Hpc Hm w4.
  (* page.content() *)
  assert (session_resume (browser w) o1 s t = (SCleanup ClosePage how i, t, []))
    as Hres1.
  { unfold session_resume. rewrite Hpc, Hm. by destruct o1. }
  destruct (step_bound_session_at w c s r t o1 d1 _ _ _ Hc Hr Ht
              ltac:(by rewrite Hpc) ltac:(by rewrite Hpc) Hres1) as (Hc1 & Ht1 & _).
  pose proof (step_bound_session_registry w c s r t o1 d1 _ _ _ Hc Hr Ht
                ltac:(by rewrite Hpc) ltac:(by rewrite Hpc) Hres1) as Hreg1.
  cbn [runs_outer_finally] in Hreg1.
  set (w1 := step (Resume c o1 d1) w) in *.
  set (s1 := at_pc (SCleanup ClosePage how i) s) in *.
  (* page.close() *)
  assert (session_resume (browser w1) Ok s1 t = (SCleanup CloseContext how i, t, []))
    as Hres2 by done.
  destruct (step_bound_session_at w1 c s1 r t Ok d2 _ _ _ Hc1 Hr Ht1
              ltac:(done) ltac:(done) Hres2) as (Hc2 & Ht2 & _).
  pose proof (step_bound_session_registry w1 c s1 r t Ok d2 _ _ _ Hc1 Hr Ht1
                ltac:(done) ltac:(done) Hres2) as Hreg2.
  cbn [runs_outer_finally] in Hreg2.
  set (w2 := step (Resume c Ok d2) w1) in *.
  set (s2 := at_pc (SCleanup CloseContext how i) s1) in *.
  (* context.close() *)
  assert (session_resume (browser w2) Ok s2 t = (SCleanup NotifyUpdate how i, t, []))
    as Hres3 by done.
  destruct (step_bound_session_at w2 c s2 r t Ok d3 _ _ _ Hc2 Hr Ht2
              ltac:(done) ltac:(done) Hres3) as (Hc3 & Ht3 & _).
  pose proof (step_bound_session_registry w2 c s2 r t Ok d3 _ _ _ Hc2 Hr Ht2
                ltac:(done) ltac:(done) Hres3) as Hreg3.
  cbn [runs_outer_finally] in Hreg3.
  set (w3 := step (Resume c Ok d3) w2) in *.
  set (s3 := at_pc (SCleanup NotifyUpdate how i) s2) in *.
  (* notify_clients *)
  assert (exists pc t',
            match how with
            | LoopErrored => (SDone Errored, set_failed (failed_sessions t + 1) t)
            | _ => (SDone (Finished how i), t)
            end = (pc, t')
            /\ session_resume (browser w3) o4 s3 t = (pc, t', [])
            /\ runs_outer_finally pc = true) as (pc & t' & -> & Hres4 & Hfin).
  { destruct how; eexists _, _; (split; [reflexivity|]); split; try done;
      unfold session_resume; simpl; by destruct o4. }
  destruct (step_bound_session_at w3 c s3 r t o4 d4 _ _ _ Hc3 Hr Ht3
              ltac:(done) ltac:(done) Hres4) as (Hc4 & Ht4 & _).
  pose proof (step_bound_session_registry w3 c s3 r t o4 d4 _ _ _ Hc3 Hr Ht3
                ltac:(done) ltac:(done) Hres4) as Hreg4.
  rewrite Hfin in Hreg4.
  change (step (Resume c o4 d4) w3) with w4 in *.
  split; [done|]. split.
  - unfold session_at. by rewrite Hc4.
  - rewrite Hreg4. simpl. apply RegistryFacts.lookup_delete_eq.
    by rewrite Hreg3, Hreg2, Hreg1.
Qed.

(** X14 ([create_session], [except asyncio.CancelledError: ...; break]): a
    cancellation delivered at an [await] of the loop other than the join of
    the Allow monitor is caught inside the loop.  Once the [finally] block
    has run, [active_sessions] is one less, [completed_sessions],
    [failed_sessions] and the results are as they were, the coroutine has
    returned normally and its key is out of the registry: a session stopped
    this way is counted neither as completed nor as failed. *)
Theorem cancel_in_loop_is_not_a_failure w c s r t i k a o0 o1 o4 d0 d1 d2 d3 d4 :
  reachable w ->
  coros w !! c = Some (CSession s) -> s_task s = Some r -> heap w !! r = Some t ->
  s_pc s = SBody i k -> iteration_body (s_prompt s) !! k = Some a ->
  kind a <> AllowJoin -> s_must_cancel s = true ->
  let w5 :=
    run [Resume c o0 d0; Resume c o1 d1; Resume c Ok d2; Resume c Ok d3;
         Resume c o4 d4] w in
  heap w5 !! r = Some (set_active (active_sessions t - 1) t)
  /\ s_pc <$> session_at c w5 = Some (SDone (Finished LoopCancelled i))
  /\ Registry.lookup (session_key (s_task_id s) (s_session_id s)) (session_tasks w5)
     = None.
Proof.
  intros Hw Hc Hr Ht Hpc Hk Ha Hm w5.
  pose proof (wf_nodup w (reachable_wf w Hw)) as Hnd.
  set (t1 := set_active (active_sessions t - 1) t).
  assert (session_resume (browser w) o0 s t
          = (SCleanup PageContent LoopCancelled i, t1, [])) as Hres.
  { unfold session_resume. rewrite Hpc, Hk, Hm. by destruct (kind a). }
  destruct (step_bound_session_at w c s r t o0 d0 _ _ _ Hc Hr Ht
              ltac:(by rewrite Hpc) ltac:(by rewrite Hpc) Hres) as (Hc1 & Ht1 & _).
  pose proof (step_bound_session_registry w c s r t o0 d0 _ _ _ Hc Hr Ht
                ltac:(by rewrite Hpc) ltac:(by rewrite Hpc) Hres) as Hreg1.
  cbn [runs_outer_finally] in Hreg1.
  apply (cleanup_runs (step (Resume c o0 d0) w) c
           (at_pc (SCleanup PageContent LoopCancelled i) s) r t1 LoopCancelled i
           o1 o4 d1 d2 d3 d4); try done.
  by rewrite Hreg1.
Qed.

Lemma cancel_in_loop_is_not_a_failure_witness :
  let t := set_status Stopped (set_active 1 (reset_counters (new_task "t" "x" 1))) in
  let w5 :=
    run [Resume 1 Ok 0; Resume 1 Ok 0; Resume 1 Ok 0; Resume 1 Ok 0; Resume 1 Ok 0]
      (body_world 20 true) in
  heap w5 !! 0%nat = Some (set_active (active_sessions t - 1) t)
  /\ s_pc <$> session_at 1 w5 = Some (SDone (Finished LoopCancelled 1))
  /\ Registry.lookup (session_key "t" "1") (session_tasks w5) = None.
Proof.
  apply (cancel_in_loop_is_not_a_failure (body_world 20 true) 1
           (request_cancel
              (at_pc (SBody 1 14)
                 (bind_task 0 (new_session (new_task "t" "x" 1) "1"))))
           0 (set_status Stopped (set_active 1 (reset_counters (new_task "t" "x" 1))))
           1 14 OutcomeWindow Ok Ok Ok 0 0 0 0 0).
  - apply body_world_reachable.
  - vm_compute. reflexivity.
  - vm_compute. reflexivity.
  - vm_compute. reflexivity.
  - vm_compute. reflexivity.
  - vm_compute. reflexivity.
  - discriminate.
  - vm_compute. reflexivity.
Defined.

(** X15 ([create_session], the outer [except Exception]): an error of the
    driver other than a timeout, raised by a call of the loop, passes
    through the [finally] block and reaches the outer handler.  Once the
    block has run, [active_sessions] is one less and [failed_sessions] one
    more, [completed_sessions] and the results are as they were, and the key
    of the session is out of the registry. *)
Theorem driver_error_counts_one_failure w c s r t i k a o1 o4 d0 d1 d2 d3 d4 :
  reachable w ->
  coros w !! c = Some (CSession s) -> s_task s = Some r -> heap w !! r = Some t ->
  s_pc s = SBody i k -> iteration_body (s_prompt s) !! k = Some a ->
  kind a = DriverCall -> s_must_cancel s = false ->
  let w5 :=
    run [Resume c DriverError d0; Resume c o1 d1; Resume c Ok d2; Resume c Ok d3;
         Resume c o4 d4] w in
  heap w5 !! r
  = Some (set_failed (failed_sessions t + 1) (set_active (active_sessions t - 1) t))
  /\ s_pc <$> session_at c w5 = Some (SDone Errored)
  /\ Registry.lookup (session_key (s_task_id s) (s_session_id s)) (session_tasks w5)
     = None.
Proof.
  intros Hw Hc Hr Ht Hpc Hk Ha Hm w5.
  pose proof (wf_nodup w (reachable_wf w Hw)) as Hnd.
  set (t1 := set_active (active_sessions t - 1) t).
  assert (session_resume (browser w) DriverError s t
          = (SCleanup PageContent LoopErrored i, t1, [])) as Hres.
  { unfold session_resume. by rewrite Hpc, Hk, Hm, Ha. }
  destruct (step_bound_session_at w c s r t DriverError d0 _ _ _ Hc Hr Ht
              ltac:(by rewrite Hpc) ltac:(by rewrite Hpc) Hres) as (Hc1 & Ht1 & _).
  pose proof (step_bound_session_registry w c s r t DriverError d0 _ _ _ Hc Hr Ht
                ltac:(by rewrite Hpc) ltac:(by rewrite Hpc) Hres) as Hreg1.
  cbn [runs_outer_finally] in Hreg1.
  apply (cleanup_runs (step (Resume c DriverError d0) w) c
           (at_pc (SCleanup PageContent LoopErrored i) s) r t1 LoopErrored i
           o1 o4 d1 d2 d3 d4); try done.
  by rewrite Hreg1.
Qed.

Lemma driver_error_counts_one_failure_witness :
  let t := set_active 1 (reset_counters (new_task "t" "x" 1)) in
  let w5 :=
    run [Resume 1 DriverError 0; Resume 1 Ok 0; Resume 1 Ok 0; Resume 1 Ok 0;
         Resume 1 Ok 0] (body_world 6 false) in
  heap w5 !! 0%nat
  = Some (set_failed (failed_sessions t + 1) (set_active (active_sessions t - 1) t))
  /\ s_pc <$> session_at 1 w5 = Some (SDone Errored)
  /\ Registry.lookup (session_key "t" "1") (session_tasks w5) = None.
Proof.
  apply (driver_error_counts_one_failure (body_world 6 false) 1
           (at_pc (SBody 1 0) (bind_task 0 (new_session (new_task "t" "x" 1) "1")))
           0 (set_active 1 (reset_counters (new_task "t" "x" 1)))
           1 0 Goto Ok Ok 0 0 0 0 0).
  - apply body_world_reachable.
  - vm_compute. reflexivity.
  - vm_compute. reflexivity.
  - vm_compute. reflexivity.
  - vm_compute. reflexivity.
  - vm_compute. reflexivity.
  - reflexivity.
  - vm_compute. reflexivity.
Defined.

Lemma monitor_run_app evs1 evs2 m :
  monitor_run (evs1 ++ evs2) m = monitor_run evs2 (monitor_run evs1 m).
Proof. revert m. induction evs1 as [|e evs1 IH]; intros m; simpl; auto. Qed.

Lemma monitor_ended_stays evs m :
  monitor_ended (m_pc m) = true -> monitor_run evs m = m.
Proof.
  induction evs as [|e evs IH]; intros Hm; simpl; [done|].
  assert (monitor_resume e m = m) as -> by (destruct m as [[] n]; done).
  auto.
Qed.

Lemma monitor_count_mono e m : (allow_count m <= allow_count (monitor_resume e m))%nat.
Proof.
  destruct m as [pc n], e as [[] []|]; destruct pc; simpl; lia.
Qed.

(** The monitor goes on as long as no cancellation reaches it at one of
    the two [asyncio.sleep(1)]. *)
Lemma monitor_goes_on evs : forall m,
  monitor_ended (m_pc m) = false -> m_pc m <> MNotStarted ->
  sleeps_return evs m = true ->
  monitor_ended (m_pc (monitor_run evs m)) = true ->
  exists pre post,
    evs = pre ++ CancelHere :: post
    /\ (m_pc (monitor_run pre m) = MPoll \/ m_pc (monitor_run pre m) = MRecover).
Proof.
  induction evs as [|e evs IH]; intros m Hm Hns Hsl Hend; simpl in *.
  { congruence. }
  apply andb_prop in Hsl as [Hsl1 Hsl2].
  destruct (monitor_ended (m_pc (monitor_resume e m))) eqn:Hnext.
  - exists [], evs. simpl.
    destruct m as [pc n], e as [[] []|]; destruct pc; simpl in *;
      try discriminate; try done; split; auto.
  - destruct (IH (monitor_resume e m) Hnext) as (pre & post & -> & Hpre); try done.
    { destruct m as [pc n], e as [[] []|]; destruct pc; simpl in *; congruence. }
    exists (e :: pre), post. done.
Qed.

(** X16 ([_monitor_and_click_allow]): the monitor counts in [allow_count]
    no more than it was resumed, and it ends only when a cancellation is
    thrown at one of its two [asyncio.sleep(1)]: a [CancelledError] thrown at
    an [await] inside the inner [try] ([query_selector], the two pauses, the
    click) is swallowed by the bare [except: pass], the monitor goes on to
    the poll sleep, and without a second [cancel()] it runs for ever. *)
Theorem allow_monitor_swallows_cancel m evs :
  in_inner_try (m_pc m) = true ->
  Forall (fun e => e <> CancelHere) evs ->
  sleeps_return (CancelHere :: evs) m = true ->
  m_pc (monitor_resume CancelHere m) = MPoll
  /\ monitor_ended (m_pc (monitor_run (CancelHere :: evs) m)) = false
  /\ (allow_count m <= allow_count (monitor_run (CancelHere :: evs) m)
      <= allow_count m + length evs)%nat.
Proof.
  intros Hin Hno Hsl.
  assert (m_pc (monitor_resume CancelHere m) = MPoll
          /\ allow_count (monitor_resume CancelHere m) = allow_count m) as [Hpc Hn].
  { destruct m as [[] n]; simpl in *; done. }
  split; [done|]. split.
  - destruct (monitor_ended (m_pc (monitor_run (CancelHere :: evs) m))) eqn:Hend;
      [|done].
    simpl in *.
    destruct (monitor_goes_on evs (monitor_resume CancelHere m))
      as (pre & post & -> & _); try done.
    + by rewrite Hpc.
    + by rewrite Hpc.
    + by destruct m as [[] n].
    + apply Forall_app in Hno as [_ Hno]. by apply Forall_cons in Hno as [? _].
  - simpl. rewrite <- Hn. clear.
    generalize (monitor_resume CancelHere m) as m0.
    induction evs as [|e evs IH]; intros m0; simpl; [lia|].
    specialize (IH (monitor_resume e m0)).
    pose proof (monitor_count_mono e m0).
    assert (allow_count (monitor_resume e m0) <= S (allow_count m0))%nat.
    { destruct m0 as [pc n], e as [[] []|]; destruct pc; simpl; lia. }
    lia.
Qed.

Lemma allow_monitor_swallows_cancel_witness :
  let m := {| m_pc := MClick; allow_count := 0 |} in
  let evs := [Answer Ok false; Answer Ok true; Answer Ok true; Answer Ok true] in
  m_pc (monitor_resume CancelHere m) = MPoll
  /\ monitor_ended (m_pc (monitor_run (CancelHere :: evs) m)) = false
  /\ (allow_count m <= allow_count (monitor_run (CancelHere :: evs) m)
      <= allow_count m + length evs)%nat.
Proof.
  apply (allow_monitor_swallows_cancel {| m_pc := MClick; allow_count := 0 |}
           [Answer Ok false; Answer Ok true; Answer Ok true; Answer Ok true]).
  - reflexivity.
  - repeat constructor; discriminate.
  - reflexivity.
Defined.

(** X17 ([_monitor_and_click_allow]): a monitor that has ended normally was
    cancelled while it slept between two polls, and a cancellation thrown at
    that sleep always ends it. *)
Theorem allow_monitor_returns_on_cancel_at_poll m evs :
  m_pc m <> MNotStarted -> monitor_ended (m_pc m) = false ->
  sleeps_return evs m = true ->
  (m_pc m = MPoll -> m_pc (monitor_resume CancelHere m) = MReturned)
  /\ (m_pc (monitor_run evs m) = MReturned ->
      exists pre post, evs = pre ++ CancelHere :: post
                       /\ m_pc (monitor_run pre m) = MPoll
                       /\ monitor_run evs m = monitor_at MReturned (monitor_run pre m)).
Proof.
  intros Hns Hm Hsl. split.
  { intros Hp. destruct m as [pc n]. simpl in *. by subst. }
  intros Hret.
  destruct (monitor_goes_on evs m Hm Hns Hsl) as (pre & post & -> & Hpre).
  { by rewrite Hret. }
  exists pre, post. split; [done|].
  rewrite monitor_run_app in Hret |- *. simpl in *.
  destruct (monitor_run pre m) as [pc n]. simpl in *.
  destruct Hpre as [-> | ->]; simpl in *.
  - split; [done|]. by apply monitor_ended_stays.
  - rewrite monitor_ended_stays in Hret by done. done.
Qed.

Lemma allow_monitor_returns_on_cancel_at_poll_witness :
  let m := {| m_pc := MQuery; allow_count := 0 |} in
  let evs := [Answer Ok false; CancelHere] in
  (m_pc m = MPoll -> m_pc (monitor_resume CancelHere m) = MReturned)
  /\ (m_pc (monitor_run evs m) = MReturned ->
      exists pre post, evs = pre ++ CancelHere :: post
                       /\ m_pc (monitor_run pre m) = MPoll
                       /\ monitor_run evs m = monitor_at MReturned (monitor_run pre m)).
Proof.
  apply (allow_monitor_returns_on_cancel_at_poll
           {| m_pc := MQuery; allow_count := 0 |} [Answer Ok false; CancelHere]).
  - discriminate.
  - reflexivity.
  - reflexivity.
Defined.

(** X18 ([gemini_automation.py], [_monitor_and_click_allow]): the monitor of
    the first version catches [Exception] only, so a cancellation thrown at
    any of its [await]s ends it: after a trace with a cancellation the
    monitor has ended, cancelled, unless an exception of its recovery sleep
    had ended it before. *)
Theorem basic_monitor_ends_at_first_cancel pc evs post :
  (basic_monitor_run (evs ++ CancelHere :: post) pc = BCancelled
   \/ basic_monitor_run (evs ++ CancelHere :: post) pc = BRaised)
  /\ (pc <> BCancelled -> pc <> BRaised ->
      basic_monitor_resume CancelHere pc = BCancelled).
Proof.
  assert (forall l, basic_monitor_run l BCancelled = BCancelled)
    as Hc by (induction l; simpl; auto).
  assert (forall l, basic_monitor_run l BRaised = BRaised)
    as Hr by (induction l; simpl; auto).
  split; [|by destruct pc].
  revert pc. induction evs as [|e evs IH]; intros pc; simpl.
  - destruct pc; simpl; rewrite ?Hc, ?Hr; auto.
  - apply IH.
Qed.

(** * The task objects *)

Lemma task_change_log w e w' r t t' :
  task_change w e w' r t t' ->
  id t' = id t /\ prompt t' = prompt t /\ session_count t' = session_count t
  /\ exists l, results t' = results t ++ l.
Proof.
  assert (exists l : list Result, results t = results t ++ l) as Hnil
    by (exists []; by rewrite app_nil_r).
  intros [|cid o d s pc t1 dumps _ _ _ Hres _| | | |]; try done.
  apply session_resume_task_step in Hres as []. done.
Qed.

Lemma run_task_log evs : forall w r t,
  heap w !! r = Some t ->
  exists t', heap (run evs w) !! r = Some t'
    /\ id t' = id t /\ prompt t' = prompt t /\ session_count t' = session_count t
    /\ exists l, results t' = results t ++ l.
Proof.
  induction evs as [|e evs IH]; intros w r t Ht; simpl.
  - exists t. repeat split; try done. exists []. by rewrite app_nil_r.
  - destruct (step_task_change e w r t Ht) as (t1 & Ht1 & Hc).
    apply task_change_log in Hc as (E1 & E2 & E3 & l1 & E4).
    destruct (IH _ r t1 Ht1) as (t' & Ht' & F1 & F2 & F3 & l2 & F4).
    exists t'. split; [done|]. repeat split; try congruence.
    exists (l1 ++ l2). by rewrite F4, E4, app_assoc.
Qed.

(** X19 (the [Task] objects of the manager): whatever happens next, a task
    object stays in place, its [id], [prompt] and [session_count] never
    change, and its [results] only grow: the entries once logged stay, in
    their order, at the head of the list. *)
Theorem task_identity_and_log_are_kept evs w r t :
  heap w !! r = Some t ->
  exists t', heap (run evs w) !! r = Some t'
    /\ id t' = id t /\ prompt t' = prompt t /\ session_count t' = session_count t
    /\ results t `prefix_of` results t'.
Proof.
  intros Ht. destruct (run_task_log evs w r t Ht) as (t' & ? & ? & ? & ? & l & ?).
  exists t'. repeat split; try done. by exists l.
Qed.

Lemma task_identity_and_log_are_kept_witness :
  exists t', heap (run [StopTask "t"; Resume 1 Ok 0; StartTask "t"; Resume 3 Ok 0]
                     (body_world 26 false)) !! 0%nat = Some t'
    /\ id t' = "t" /\ prompt t' = "x" /\ session_count t' = 1
    /\ [{| res_session_id := "1"; res_success := true;
           res_data := [("iteration", 1)] |}] `prefix_of` results t'.
Proof.
  apply (task_identity_and_log_are_kept
           [StopTask "t"; Resume 1 Ok 0; StartTask "t"; Resume 3 Ok 0]
           (body_world 26 false) 0
           {| id := "t"; prompt := "x"; session_count := 1; status := Running;
              active_sessions := 1; completed_sessions := 1; failed_sessions := 0;
              results := [{| res_session_id := "1"; res_success := true;
                             res_data := [("iteration", 1)] |}] |}).
  vm_compute. reflexivity.
Defined.

Lemma disconnected_subseteq conns answers c :
  c ∈ disconnected conns answers -> c ∈ conns.
Proof.
  revert answers. induction conns as [|x conns IH]; intros [|o answers]; simpl;
    try (by intros ?%elem_of_nil).
  destruct o; [intros H; right; eauto| |];
    (intros [->|H]%elem_of_cons; [left|right; eauto]).
Qed.

(** Dropping connections that are all further down the list leaves the
    head in place. *)
Lemma drop_connections_cons gone x l :
  x ∉ gone -> drop_connections gone (x :: l) = x :: drop_connections gone l.
Proof.
  revert l. induction gone as [|c gone IH]; intros l Hx; simpl; [done|].
  apply not_elem_of_cons in Hx as [Hne Hx].
  rewrite decide_False by done.
  destruct (bool_decide (c ∈ x :: l)) eqn:E1, (bool_decide (c ∈ l)) eqn:E2.
  - by apply IH.
  - apply bool_decide_eq_true in E1. apply bool_decide_eq_false in E2.
    apply elem_of_cons in E1 as [->|?]; done.
  - apply bool_decide_eq_false in E1. apply bool_decide_eq_true in E2.
    destruct E1. by right.
  - by apply IH.
Qed.

Lemma notify_clients_delivered conns : forall answers,
  NoDup conns -> length answers = length conns ->
  notify_clients answers conns = delivered conns answers.
Proof.
  unfold notify_clients.
  induction conns as [|x conns IH]; intros [|o answers] Hnd Hlen; simpl in *;
    try done.
  apply NoDup_cons in Hnd as [Hx Hnd].
  assert (x ∉ disconnected conns answers) as Hx'
    by (intros H%disconnected_subseteq; done).
  assert (drop_connections (disconnected conns answers) conns
          = delivered conns answers) as IH' by (apply IH; [done|lia]).
  destruct o; simpl.
  - rewrite drop_connections_cons by done. by rewrite IH'.
  - rewrite bool_decide_eq_true_2 by left. rewrite decide_True by done. done.
  - rewrite bool_decide_eq_true_2 by left. rewrite decide_True by done. done.
Qed.

(** X21 ([notify_clients]): after a call that no other coroutine
    interleaves with, [ws_connections] holds, in their order, exactly the
    connections whose [send_json] did not raise: a connection is dropped at
    its first failed send, and none is dropped when every send succeeds. *)
Theorem notify_clients_keeps_delivered conns answers :
  NoDup conns -> length answers = length conns ->
  notify_clients answers conns = delivered conns answers
  /\ notify_clients answers conns `sublist_of` conns
  /\ (forall c, c ∈ conns ->
        c ∈ notify_clients answers conns \/ c ∈ disconnected conns answers)
  /\ (Forall (fun o => o = Ok) answers -> notify_clients answers conns = conns).
Proof.
  intros Hnd Hlen. rewrite (notify_clients_delivered conns answers Hnd Hlen).
  split; [done|]. clear Hnd. repeat split.
  - revert answers Hlen. induction conns as [|x conns IH];
      intros [|o answers] Hlen; simpl in *; try done.
    destruct o; [apply sublist_skip|apply sublist_cons|apply sublist_cons];
      apply IH; lia.
  - revert answers Hlen. induction conns as [|x conns IH];
      intros [|o answers] Hlen c Hc; simpl in *; try done.
    { by apply elem_of_nil in Hc. }
    apply elem_of_cons in Hc as [->|Hc].
    + destruct o; [left|right|right]; left.
    + destruct (IH answers ltac:(lia) c Hc) as [H|H];
        destruct o; [left|left|left|right|right|right]; try (by right); done.
  - revert answers Hlen. induction conns as [|x conns IH];
      intros [|o answers] Hlen Hall; simpl in *; try done.
    apply Forall_cons in Hall as [-> Hall]. f_equal. apply IH; [lia|done].
Qed.

Lemma notify_clients_keeps_delivered_witness :
  notify_clients [Ok; DriverError; Ok] [4; 7; 9]%nat
  = delivered [4; 7; 9]%nat [Ok; DriverError; Ok]
  /\ notify_clients [Ok; DriverError; Ok] [4; 7; 9]%nat `sublist_of` [4; 7; 9]%nat
  /\ (forall c, c ∈ [4; 7; 9]%nat ->
        c ∈ notify_clients [Ok; DriverError; Ok] [4; 7; 9]%nat
        \/ c ∈ disconnected [4; 7; 9]%nat [Ok; DriverError; Ok])
  /\ (Forall (fun o => o = Ok) [Ok; DriverError; Ok] ->
      notify_clients [Ok; DriverError; Ok] [4; 7; 9]%nat = [4; 7; 9]%nat).
Proof.
  apply (notify_clients_keeps_delivered [4; 7; 9]%nat [Ok; DriverError; Ok]).
  - by apply (bool_decide_unpack (NoDup [4; 7; 9]%nat)).
  - reflexivity.
Defined.

Lemma basic_run_app evs1 evs2 w :
  basic_run (evs1 ++ evs2) w = basic_run evs2 (basic_run evs1 w).
Proof. revert w. induction evs1 as [|e evs1 IH]; intros w; simpl; auto. Qed.

Lemma basic_body_step w c r i k p t d :
  basic_in_body w c r i k p t -> status t = Running ->
  (k < length (basic_iteration_body p))%nat ->
  let last := bool_decide (S k = length (basic_iteration_body p)) in
  basic_in_body (basic_step (Resume c Ok d) w) c r
    (if last then S i else i) (if last then 0%nat else S k) p
    (if last then set_completed (completed_sessions t + 1) t else t).
Proof.
  intros (s & Hc & Hr & Hp & Hpc & Hm & Ht) Hs Hk last.
  assert (c < length (coros w))%nat as Hlt by (by eapply lookup_lt_Some).
  assert (r < length (heap w))%nat as Hrl by (by eapply lookup_lt_Some).
  destruct (lookup_lt_is_Some_2 _ _ Hk) as [a Ha].
  assert (basic_session_resume Ok s t = basic_advance s i k t) as Hres.
  { unfold basic_session_resume. rewrite Hpc, Hp, Ha, Hm. by destruct (kind a). }
  assert (basic_advance s i k t
          = (SBody (if last then S i else i) (if last then 0%nat else S k),
             if last then set_completed (completed_sessions t + 1) t else t))
    as Hadv.
  { unfold last, basic_advance. rewrite Hp. case_bool_decide as E.
    - rewrite decide_False by lia.
      unfold basic_iteration_done, basic_loop_test. simpl.
      by rewrite bool_decide_eq_true_2.
    - by rewrite decide_True by lia. }
  simpl. rewrite Hc. unfold basic_resume_session. rewrite Hpc, Hr, Ht, Hres, Hadv.
  simpl. eexists. simpl. rewrite list_lookup_insert_eq by done.
  split; [done|]. simpl. rewrite list_lookup_insert_eq by done. done.
Qed.

Lemma basic_iteration_runs n : forall w c r i k p t,
  basic_in_body w c r i k p t -> status t = Running ->
  (k + n = length (basic_iteration_body p))%nat -> (1 <= n)%nat ->
  basic_in_body (basic_run (replicate n (Resume c Ok 0)) w) c r (S i) 0 p
    (set_completed (completed_sessions t + 1) t).
Proof.
  induction n as [|n IH]; intros w c r i k p t Hin Hs Hk Hn; [lia|].
  cbn [replicate basic_run].
  pose proof (basic_body_step w c r i k p t 0 Hin Hs ltac:(lia)) as Hstep.
  cbv zeta in Hstep. case_bool_decide as E.
  - assert (n = 0)%nat as -> by lia. done.
  - apply (IH _ c r i (S k) p t); [done|done|lia|lia].
Qed.

Lemma basic_body_nonempty p : (1 <= length (basic_iteration_body p))%nat.
Proof. unfold basic_iteration_body. rewrite length_app. simpl. lia. Qed.

Lemma basic_iterations_run n : forall w c r i p t,
  basic_in_body w c r i 0 p t -> status t = Running ->
  basic_in_body
    (basic_run (replicate (n * length (basic_iteration_body p)) (Resume c Ok 0)) w)
    c r (i + n) 0 p (set_completed (completed_sessions t + Z.of_nat n) t).
Proof.
  induction n as [|n IH]; intros w c r i p t Hin Hs.
  - simpl. rewrite Nat.add_0_r, Z.add_0_r.
    destruct Hin as (s & ? & ? & ? & ? & ? & Ht). exists s.
    repeat split; try done. rewrite Ht. by destruct t.
  - replace (S n * length (basic_iteration_body p))%nat
      with (length (basic_iteration_body p) + n * length (basic_iteration_body p))%nat
      by lia.
    rewrite replicate_add, basic_run_app.
    pose proof (basic_body_nonempty p).
    pose proof (basic_iteration_runs _ w c r i 0 p t Hin Hs eq_refl ltac:(lia)) as H1.
    apply IH in H1; [|done].
    replace (i + S n)%nat with (S i + n)%nat by lia.
    destruct H1 as (s & ? & ? & ? & ? & ? & Ht). exists s.
    repeat split; try done. rewrite Ht. f_equal.
    unfold set_completed. simpl. f_equal. lia.
Qed.

(** X22 ([gemini_automation.py], [create_session]): the session loop of
    the first version has no bound on its iterations: as long as the task is
    running, the driver answers and no cancellation arrives, the session
    starts one iteration after the other, and [completed_sessions] grows by
    one with each, beyond any [session_count]. *)
Theorem basic_session_has_no_iteration_cap w c r i p t n :
  basic_in_body w c r i 0 p t -> status t = Running ->
  let w' :=
    basic_run (replicate (n * length (basic_iteration_body p)) (Resume c Ok 0)) w in
  s_pc <$> session_at c w' = Some (SBody (i + n) 0)
  /\ heap w' !! r = Some (set_completed (completed_sessions t + Z.of_nat n) t).
Proof.
  intros Hin Hs w'.
  destruct (basic_iterations_run n w c r i p t Hin Hs) as (s & Hc & _ & _ & Hpc & _ & Ht).
  fold w' in Hc, Ht. split; [|done].
  unfold session_at. rewrite Hc. simpl. by rewrite Hpc.
Qed.

Lemma basic_session_has_no_iteration_cap_witness :
  let t := set_active 1 (basic_reset_counters (new_task "t" "x" 2)) in
  let w' :=
    basic_run (replicate (7 * length (basic_iteration_body "x")) (Resume 1 Ok 0))
      (basic_session_world 4) in
  s_pc <$> session_at 1 w' = Some (SBody (0 + 7) 0)
  /\ heap w' !! 0%nat = Some (set_completed (completed_sessions t + Z.of_nat 7) t).
Proof.
  apply (basic_session_has_no_iteration_cap (basic_session_world 4) 1 0 0 "x"
           (set_active 1 (basic_reset_counters (new_task "t" "x" 2))) 7).
  - eexists. vm_compute. repeat split; reflexivity.
  - reflexivity.
Defined.

Lemma last_wave_size sc draw :
  1 <= sc ->
  let p := Timing.plan_waves sc draw in
  1 <= Timing.sessions_in_wave p sc (Timing.waves_count p - 1).
Proof.
  intros Hsc p.
  pose proof (plan_waves_per_wave sc draw) as [Hspw _].
  pose proof (ceil_div_bounds sc _ Hspw) as [Hlt _].
  rewrite <- plan_waves_count in Hlt. fold p in Hspw, Hlt.
  unfold Timing.sessions_in_wave. nia.
Qed.

(** X23 ([gemini_automation.py], [run_task]): the first version does not
    wait for its sessions: the step of [run_task] that launches the last
    wave of a running task also sets the status to completed.  At that point
    the sessions of the wave (at least one, when the plan is the one of the
    task) are registered under their keys and have not run a single line. *)
Theorem basic_run_completes_at_last_launch w c rn t wave_num o d :
  coros w !! c = Some (CRun rn) -> r_pc rn = RWaveSleep wave_num ->
  heap w !! r_task rn = Some t -> status t = Running ->
  Z.of_nat (S wave_num) = Timing.waves_count (r_plan rn) - 1 ->
  let m := Z.to_nat (Timing.sessions_in_wave (r_plan rn) (session_count t)
                       (Z.of_nat (S wave_num))) in
  let w' := basic_step (Resume c o d) w in
  heap w' !! r_task rn = Some (set_status Completed t)
  /\ (exists rn', coros w' !! c = Some (CRun rn') /\ r_pc rn' = RDone)
  /\ (forall j, (j < m)%nat ->
        coros w' !! (length (coros w) + j)%nat
        = Some (CSession
                  (new_session t (pretty (r_session_id_counter rn + 1 + j)%nat)))
        /\ Registry.lookup
             (session_key (id t) (pretty (r_session_id_counter rn + 1 + j)%nat))
             (session_tasks w') = Some (length (coros w) + j)%nat)
  /\ (forall draw, 1 <= session_count t ->
        r_plan rn = Timing.plan_waves (session_count t) draw -> (1 <= m)%nat).
Proof.
  intros Hc Hpc Ht Hs Hlast m w'.
  assert (c < length (coros w))%nat as Hlt by (by eapply lookup_lt_Some).
  assert (r_task rn < length (heap w))%nat as Hrl by (by eapply lookup_lt_Some).
  split; [|split; [|split]].
  4: { intros draw Hsc Hp. unfold m. rewrite Hlast, Hp.
       pose proof (last_wave_size (session_count t) draw Hsc) as H.
       simpl in H. lia. }
  all: unfold w'; simpl; rewrite Hc; unfold basic_resume_run; rewrite Hpc;
    unfold basic_run_wave; rewrite Ht;
    rewrite (proj2 (Z.ltb_lt _ _)) by lia;
    rewrite bool_decide_eq_true_2 by done; cbn [andb];
    rewrite (launch_running _ _ _ _ t Ht Hs); fold m;
    rewrite (proj2 (Z.ltb_ge _ _)) by lia;
    unfold basic_run_finish; cbn [heap with_session_tasks with_coros];
    rewrite Ht, bool_decide_eq_true_2 by done; simpl.
  - by rewrite list_lookup_insert_eq.
  - eexists. rewrite list_lookup_insert_eq; [done|]. rewrite length_app. lia.
  - intros j Hj. split.
    + rewrite list_lookup_insert_ne by lia. rewrite lookup_app_r by lia.
      replace (length (coros w) + j - length (coros w))%nat with j by lia.
      by apply launched_lookup.
    + by apply lookup_registered.
Qed.

Lemma basic_run_completes_at_last_launch_witness :
  let rn := {| r_task := 0; r_pc := RWaveSleep 0; r_plan := Timing.plan_waves 2 0;
               r_session_id_counter := 1 |} in
  let t := basic_reset_counters (new_task "t" "x" 2) in
  let m := Z.to_nat (Timing.sessions_in_wave (r_plan rn) (session_count t)
                       (Z.of_nat 1)) in
  let w' := basic_step (Resume 0 Ok 0) basic_two_waves in
  heap w' !! r_task rn = Some (set_status Completed t)
  /\ (exists rn', coros w' !! 0%nat = Some (CRun rn') /\ r_pc rn' = RDone)
  /\ (forall j, (j < m)%nat ->
        coros w' !! (length (coros basic_two_waves) + j)%nat
        = Some (CSession
                  (new_session t (pretty (r_session_id_counter rn + 1 + j)%nat)))
        /\ Registry.lookup
             (session_key (id t) (pretty (r_session_id_counter rn + 1 + j)%nat))
             (session_tasks w') = Some (length (coros basic_two_waves) + j)%nat)
  /\ (forall draw, 1 <= session_count t ->
        r_plan rn = Timing.plan_waves (session_count t) draw -> (1 <= m)%nat).
Proof.
  apply (basic_run_completes_at_last_launch basic_two_waves 0
           {| r_task := 0; r_pc := RWaveSleep 0; r_plan := Timing.plan_waves 2 0;
              r_session_id_counter := 1 |}
           (basic_reset_counters (new_task "t" "x" 2)) 0 Ok 0).
  - vm_compute. reflexivity.
  - reflexivity.
  - vm_compute. reflexivity.
  - reflexivity.
  - vm_compute. reflexivity.
Defined.

(** ** The unguarded [del] of the first [stop_task] *)

Lemma basic_session_resume_pc o s t :
  s_pc s <> SNotStarted -> (basic_session_resume o s t).1 <> SNotStarted.
Proof.
  unfold basic_session_resume, basic_advance, basic_iteration_done,
    basic_loop_test, basic_enter_finally.
  intros Hn. repeat case_match; simpl; congruence.
Qed.

Lemma basic_resumed_end cid e s w :
  (cid < length (coros w))%nat -> done (s_pc s) = false ->
  basic_resumed cid s w (basic_end cid e s w).
Proof.
  intros Hlt Hd. unfold basic_resumed, basic_end. simpl. rewrite length_insert.
  split; [done|]. split.
  { intros j Hj. by rewrite list_lookup_insert_ne. }
  eexists. rewrite list_lookup_insert_eq by done. split; [done|]. simpl.
  repeat split; try done. by right.
Qed.

Lemma basic_resumed_goto cid pc s w :
  (cid < length (coros w))%nat -> done (s_pc s) = false ->
  done pc = false -> pc <> SNotStarted ->
  basic_resumed cid s w (basic_goto cid pc s w).
Proof.
  intros Hlt Hd Hd' Hn. unfold basic_resumed, basic_goto. simpl.
  rewrite length_insert. split; [done|]. split.
  { intros j Hj. by rewrite list_lookup_insert_ne. }
  eexists. rewrite list_lookup_insert_eq by done. split; [done|]. simpl.
  repeat split; try done. left. by rewrite Hd, Hd'.
Qed.

Lemma basic_resume_session_started cid o s w :
  coros w !! cid = Some (CSession s) -> s_pc s <> SNotStarted ->
  basic_resumed cid s w (basic_resume_session cid o s w).
Proof.
  intros Hc Hn.
  assert (cid < length (coros w))%nat as Hlt by (by eapply lookup_lt_Some).
  assert (basic_resumed cid s w w) as Hsame.
  { split; [done|]. split; [done|]. exists s. repeat split; try done. by left. }
  unfold basic_resume_session.
  destruct (s_pc s) as [| | | | | |i k|stage how i|e] eqn:Hpc; try done.
  - (* SStartDelay *)
    repeat case_match; try (apply basic_resumed_end; by rewrite ?Hpc);
      apply basic_resumed_goto; by rewrite ?Hpc.
  - (* SNewContext *)
    repeat case_match; try (apply basic_resumed_end; by rewrite ?Hpc);
      apply basic_resumed_goto; by rewrite ?Hpc.
  - (* SNewPage *)
    destruct (s_must_cancel s); [apply basic_resumed_end; by rewrite ?Hpc|].
    destruct o; try (apply basic_resumed_end; by rewrite ?Hpc).
    destruct (tasks w !! s_task_id s) as [r|];
      [|apply basic_resumed_end; by rewrite ?Hpc].
    destruct (heap w !! r) as [t|]; [|done].
    destruct (basic_loop_test 0 _) as [pc t'] eqn:Hl.
    assert (done pc = false /\ pc <> SNotStarted) as [Hd' Hn'].
    { unfold basic_loop_test, basic_enter_finally in Hl.
      case_bool_decide; simplify_eq; done. }
    unfold basic_resumed. simpl. rewrite length_insert.
    split; [done|]. split.
    { intros j Hj. by rewrite list_lookup_insert_ne. }
    eexists. rewrite list_lookup_insert_eq by done. split; [done|]. simpl.
    repeat split; try done. left. by rewrite Hpc, Hd'.
  - (* SBody *)
    destruct (s_task s) as [r|]; [|done].
    destruct (heap w !! r) as [t|]; [|done].
    pose proof (basic_session_resume_pc o s t ltac:(by rewrite Hpc)) as Hn'.
    destruct (basic_session_resume o s t) as [pc t']. simpl in Hn'.
    unfold basic_resumed.
    destruct (done pc) eqn:Hd'; simpl; rewrite length_insert;
      (split; [done|]); (split; [intros j Hj; by rewrite list_lookup_insert_ne|]);
      eexists; rewrite list_lookup_insert_eq by done; (split; [done|]); simpl;
      repeat split; try done; rewrite Hpc, Hd'; simpl; auto.
  - (* SCleanup *)
    destruct (s_task s) as [r|]; [|done].
    destruct (heap w !! r) as [t|]; [|done].
    pose proof (basic_session_resume_pc o s t ltac:(by rewrite Hpc)) as Hn'.
    destruct (basic_session_resume o s t) as [pc t']. simpl in Hn'.
    unfold basic_resumed.
    destruct (done pc) eqn:Hd'; simpl; rewrite length_insert;
      (split; [done|]); (split; [intros j Hj; by rewrite list_lookup_insert_ne|]);
      eexists; rewrite list_lookup_insert_eq by done; (split; [done|]); simpl;
      repeat split; try done; rewrite Hpc, Hd'; simpl; auto.
Qed.

Lemma basic_resumes_of_session h evs : forall w s,
  Forall (fun e => exists o d, e = Resume h o d) evs ->
  coros w !! h = Some (CSession s) -> s_pc s <> SNotStarted ->
  basic_resumed h s w (basic_run evs w).
Proof.
  induction evs as [|e evs IH]; intros w s Hall Hc Hn; simpl.
  { split; [done|]. split; [done|]. exists s. repeat split; try done. by left. }
  apply Forall_cons in Hall as [(o & d & ->) Hall]. simpl. rewrite Hc.
  destruct (basic_resume_session_started h o s w Hc Hn)
    as (Hlen & Hfr & s1 & Hc1 & Hid1 & Hsid1 & Hn1 & Hreg1).
  destruct (IH _ s1 Hall Hc1 Hn1)
    as (Hlen2 & Hfr2 & s2 & Hc2 & Hid2 & Hsid2 & Hn2 & Hreg2).
  split; [congruence|]. split.
  { intros j Hj. rewrite Hfr2 by done. by apply Hfr. }
  exists s2. split; [done|]. repeat split; try congruence.
  rewrite Hid1, Hsid1 in Hreg2.
  destruct Hreg1 as [[E1 R1]|(D1 & D1' & R1)], Hreg2 as [[E2 R2]|(D2 & D2' & R2)].
  - left. split; congruence.
  - right. repeat split; congruence.
  - right. repeat split; congruence.
  - congruence.
Qed.

(** X24 ([gemini_automation.py], [stop_task]): in the first version
    [stop_task] deletes the key of the session it has awaited without a
    guard, but a session that had started removes its key itself when it
    ends.  So when the first session to stop has started, [stop_task] raises
    [KeyError] as soon as that session has ended, however it ended: no other
    coroutine has been touched, the other sessions of the task are neither
    cancelled nor unregistered. *)
Theorem basic_stop_task_raises_key_error w task_id r t key rest h s evs o d :
  tasks w !! task_id = Some r -> heap w !! r = Some t ->
  NoDup (Registry.keys (session_tasks w)) ->
  Registry.keys_with_prefix task_id (session_tasks w) = key :: rest ->
  Registry.lookup key (session_tasks w) = Some h ->
  coros w !! h = Some (CSession s) ->
  key = session_key (s_task_id s) (s_session_id s) ->
  s_pc s <> SNotStarted -> done (s_pc s) = false ->
  Forall (fun e => exists o d, e = Resume h o d) evs ->
  let stop := length (coros w) in
  let w1 := basic_run evs (basic_step (StopTask task_id) w) in
  is_Some (exit_of h w1) ->
  let w2 := basic_step (Resume stop o d) w1 in
  stop_at stop w1 = Some (StopAwait key h rest)
  /\ stop_at stop w2 = Some StopKeyError
  /\ session_tasks w2 = Registry.delete key (session_tasks w)
  /\ (forall h', h' <> h -> (h' < stop)%nat -> coros w2 !! h' = coros w !! h').
Proof.
  intros Htask Ht Hnd Hkeys Hk Hc Hkey Hn Hd Hall stop w1 Hex w2.
  assert (h < length (coros w))%nat as Hlt by (by eapply lookup_lt_Some).
  (* the call, up to [await self.session_tasks[key]] *)
  set (w0 := basic_step (StopTask task_id) w) in *.
  set (st0 := {| st_task_id := task_id; st_task := Some r;
                 st_pc := StopAwait key h rest |}).
  assert (coros w0 = <[h := CSession (request_cancel s)]> (coros w) ++ [CStop st0]
          /\ session_tasks w0 = session_tasks w) as [Hc0 Hr0].
  { unfold w0. simpl. unfold basic_stop_task. rewrite Htask, Ht.
    cbn [session_tasks with_heap]. rewrite Hkeys. cbn [basic_stop_loop].
    cbn [session_tasks with_heap]. rewrite Hk.
    assert (cancel h (with_heap (<[r:=set_status Stopped t]> (heap w)) w)
            = with_coros (<[h := CSession (request_cancel s)]> (coros w))
                (with_heap (<[r:=set_status Stopped t]> (heap w)) w)) as ->.
    { unfold cancel. cbn [coros with_heap]. rewrite Hc.
      by destruct (s_pc s). }
    assert (exit_of h (with_coros (<[h := CSession (request_cancel s)]> (coros w))
                         (with_heap (<[r:=set_status Stopped t]> (heap w)) w))
            = None) as ->.
    { unfold exit_of. cbn [coros with_coros].
      rewrite list_lookup_insert_eq by done. simpl. by destruct (s_pc s). }
    done. }
  assert (coros w0 !! h = Some (CSession (request_cancel s))) as Hh0.
  { rewrite Hc0, lookup_app_l by (by rewrite length_insert).
    by apply list_lookup_insert_eq. }
  assert (coros w0 !! stop = Some (CStop st0)) as Hs0.
  { rewrite Hc0, lookup_app_r by (rewrite length_insert; unfold stop; lia).
    rewrite length_insert. unfold stop. by rewrite Nat.sub_diag. }
  (* the session runs to its end *)
  destruct (basic_resumes_of_session h evs w0 (request_cancel s) Hall Hh0 Hn)
    as (Hlen1 & Hfr1 & s1 & Hc1 & Hid1 & Hsid1 & Hn1 & Hreg1).
  fold w1 in Hlen1, Hfr1, Hc1, Hreg1. simpl in Hid1, Hsid1, Hreg1.
  assert (coros w1 !! stop = Some (CStop st0)) as Hs1.
  { rewrite Hfr1; [done|]. unfold stop. lia. }
  assert (session_tasks w1 = Registry.delete key (session_tasks w)) as Hr1.
  { destruct Hreg1 as [[E _]|(_ & _ & R)]; [|by rewrite R, Hr0, Hkey].
    destruct Hex as [e He]. unfold exit_of in He. rewrite Hc1 in He.
    rewrite Hd in E. by destruct (s_pc s1). }
  (* [del self.session_tasks[key]] *)
  assert (w2 = with_coros (<[stop := CStop (at_stop StopKeyError st0)]> (coros w1)) w1)
    as Hw2.
  { unfold w2. simpl. rewrite Hs1. unfold basic_resume_stop. simpl.
    destruct Hex as [e ->]. rewrite Hr1.
    by rewrite RegistryFacts.lookup_delete_eq. }
  assert (stop < length (coros w1))%nat as Hlts by (by eapply lookup_lt_Some).
  split; [|split; [|split]].
  - unfold stop_at. by rewrite Hs1.
  - rewrite Hw2. unfold stop_at. simpl. by rewrite list_lookup_insert_eq.
  - by rewrite Hw2.
  - intros h' Hne Hlt'. rewrite Hw2. simpl.
    rewrite list_lookup_insert_ne by lia. rewrite Hfr1 by done.
    rewrite Hc0, lookup_app_l by (rewrite length_insert; unfold stop in Hlt'; lia).
    by rewrite list_lookup_insert_ne.
Qed.

Lemma basic_stop_task_raises_key_error_witness :
  let w := basic_started_world in
  let w1 := basic_run [Resume 1 Ok 0] (basic_step (StopTask "t") w) in
  let w2 := basic_step (Resume 3 Ok 0) w1 in
  stop_at 3 w1 = Some (StopAwait "t_1" 1 ["t_2"])
  /\ stop_at 3 w2 = Some StopKeyError
  /\ session_tasks w2 = Registry.delete "t_1" (session_tasks w)
  /\ (forall h', h' <> 1%nat -> (h' < 3)%nat -> coros w2 !! h' = coros w !! h').
Proof.
  apply (basic_stop_task_raises_key_error basic_started_world "t" 0
           (set_active 0 (set_status Completed (basic_reset_counters (new_task "t" "x" 2))))
           "t_1" ["t_2"] 1
           (at_pc SNewContext (new_session (new_task "t" "x" 2) "1"))
           [Resume 1 Ok 0] Ok 0).
  - vm_compute. reflexivity.
  - vm_compute. reflexivity.
  - apply (bool_decide_unpack (NoDup _)). vm_compute. exact I.
  - vm_compute. reflexivity.
  - vm_compute. reflexivity.
  - vm_compute. reflexivity.
  - vm_compute. reflexivity.
  - discriminate.
  - reflexivity.
  - repeat constructor. eauto.
  - vm_compute. eexists. reflexivity.
Defined.

Lemma session_resume_iter b o s t pc t' dumps :
  session_resume b o s t = (pc, t', dumps) -> iter_ok s ->
  forall i k, pc = SBody i k -> (i <= 5)%nat.
Proof.
  unfold session_resume, outer_handler, advance, iteration_done,
    loop_test, enter_finally, iter_ok. intros H Hb.
  destruct (s_pc s) as [| | | | | |i k|stage how i|e] eqn:Hpc.
  all: try specialize (Hb _ _ eq_refl).
  all: simplify_eq/=; repeat (case_match; simplify_eq/=);
    intros; simplify_eq; try done; try lia.
  all: repeat match goal with
       | H : _ && _ = true |- _ => apply andb_prop in H as [? ?]
       | H : (_ <? _)%nat = true |- _ => apply Nat.ltb_lt in H
       end; lia.
Qed.

Lemma own_step_iter w o s s' : own_step w o s s' -> iter_ok s -> iter_ok s'.
Proof.
  intros [|Hn Hm|Hn Hm Hnone|r Hn Hm Hr|r t pc t' dumps Hns Hnd Hr Ht Hres] Hok;
    try done.
  intros i k Hpc. simpl in Hpc. by eapply session_resume_iter.
Qed.

Lemma reachable_iter_ok w :
  reachable w -> forall c s, coros w !! c = Some (CSession s) -> iter_ok s.
Proof.
  intros Hw. induction Hw as [b|e w Hw IH] using reachable_induction;
    intros c s' Hc'; [done|].
  pose proof (reachable_wf w Hw) as Hwf.
  destruct (decide (c < length (coros w))%nat) as [Hlt|Hge].
  2: { destruct (step_new_coro e w c _ ltac:(lia) Hc')
         as [(? & ? & _ & _ & ?)|[(? & ? & _ & ? & _)|[k Hl]]]; try done.
       apply launched_by_new in Hl as (t & n & rn & Hn & _).
       rewrite Hn in Hc'. by simplify_eq. }
  apply lookup_lt_is_Some in Hlt as [co Hco].
  destruct (step_kind e w c co Hco) as (co' & Hco' & Hk).
  rewrite Hc' in Hco'. simplify_eq. destruct co as [s| |]; try done.
  destruct (step_session e w c s Hco) as (s'' & Hs'' & [Hf|(o & d & -> & Ho)]);
    rewrite Hc' in Hs''; simplify_eq.
  - destruct Hf as (_ & _ & _ & _ & E & _). intros i k Hpc. rewrite E in Hpc.
    by apply (IH c s Hco i k).
  - eapply own_step_iter; [done|]. by apply (IH c s).
Qed.

(** The pure step of a session pays for what it adds to the counters. *)
Lemma session_resume_spent b o s t pc t' dumps :
  session_resume b o s t = (pc, t', dumps) -> iter_ok s ->
  completed_sessions t' - completed_sessions t <= credit pc - credit (s_pc s)
  /\ failed_sessions t' - failed_sessions t <= failures pc - failures (s_pc s).
Proof.
  unfold session_resume, outer_handler, advance, iteration_done,
    loop_test, enter_finally, save_result, iter_ok. intros H Hb.
  destruct (s_pc s) as [| | | | | |i k|stage how i|e] eqn:Hpc.
  all: try specialize (Hb _ _ eq_refl).
  all: simplify_eq/=; repeat (case_match; simplify_eq/=); simpl; try lia.
  all: repeat match goal with
       | H : _ && _ = true |- _ => apply andb_prop in H as [? ?]
       | H : (_ <? _)%nat = true |- _ => apply Nat.ltb_lt in H
       end; lia.
Qed.

Section counter.

Variable f : Task -> Z.

Variable wt : SessPc -> Z.

Hypothesis f_reset : forall t, f (reset_counters t) = 0.

Hypothesis f_status : forall st t, f (set_status st t) = f t.

Hypothesis f_new : forall task_id p n, f (new_task task_id p n) = 0.

Hypothesis wt_not_started : wt SNotStarted = 0.

Hypothesis wt_start_delay : wt SStartDelay = 0.

Hypothesis wt_done : forall e, 0 <= wt (SDone e).

Hypothesis wt_pays : forall b o s t pc t' dumps,
  session_resume b o s t = (pc, t', dumps) -> iter_ok s ->
  f t' - f t <= wt pc - wt (s_pc s).

Lemma spent_stable r : stable (spent wt r).
Proof.
  intros [s| |] c' H; simpl in H; [|by subst..].
  destruct H as (s' & -> & _ & _ & _ & E1 & E2 & _). simpl. by rewrite E1, E2.
Qed.

Lemma step_new_spent e w r c :
  c ∈ drop (length (coros w)) (coros (step e w)) -> spent wt r c = 0.
Proof.
  intros (j & Hj & Hc)%elem_of_drop_lookup.
  destruct (step_new_coro e w j c Hj Hc)
    as [(tid & r0 & _ & _ & ->)|[(tid & st & _ & -> & _)|[k Hl]]]; try done.
  destruct Hl as (cid & o & d & rn & rn' & t & n & _ & _ & _ & _ & _ & _ & _ & _ & _ & Hn & _).
  assert (c = CSession (new_session t (pretty n))) as -> by congruence. done.
Qed.

Lemma no_member_no_spent w r t :
  wf w -> heap w !! r = Some t ->
  sumZ (member (id t)) (coros w) = 0 -> sumZ (spent wt r) (coros w) = 0.
Proof.
  intros Hwf Ht Hz. apply sumZ_zero. intros c Hc.
  pose proof (sumZ_zero_inv (member (id t)) (coros w) c
                ltac:(intros c' _; apply member_nonneg) Hz Hc) as Hm.
  apply list_elem_of_lookup in Hc as [i Hc].
  destruct c as [s| |]; try done. simpl in *.
  destruct (decide (s_task s = Some r)) as [Hb|Hb]; [|done].
  destruct (so_bound _ _ (wf_session w Hwf i s Hc) r Hb) as (t0 & Ht0 & E).
  assert (t0 = t) as -> by congruence. rewrite decide_True in Hm by done. lia.
Qed.

(** A step of a session pays for what it adds to the counter of [r]. *)
Lemma resume_session_spent cid o d s w r t :
  coros w !! cid = Some (CSession s) -> iter_ok s -> heap w !! r = Some t ->
  exists t', heap (resume_session cid o s w) !! r = Some t'
    /\ f t' - f t <= own_change (spent wt r) (Resume cid o d) w.
Proof.
  intros Hc Hok Ht.
  assert (cid < length (coros w))%nat as Hlt by (by eapply lookup_lt_Some).
  unfold own_change. cbn [step]. rewrite Hc.
  assert (forall s', s_pc s = SNotStarted ->
            (s_pc s' = SStartDelay \/ exists e, s_pc s' = SDone e) ->
            resume_session cid o s w
            = with_coros (<[cid := CSession s']> (coros w)) w ->
            exists t', heap (resume_session cid o s w) !! r = Some t'
              /\ f t' - f t
                 <= match coros (resume_session cid o s w) !! cid with
                    | Some c' => spent wt r c' - spent wt r (CSession s)
                    | None => 0
                    end) as Hflat.
  { intros s' H1 H2 ->. exists t. split; [done|]. simpl.
    rewrite list_lookup_insert_eq by done. simpl. rewrite H1, wt_not_started.
    destruct H2 as [->|[e ->]]; [rewrite wt_start_delay|pose proof (wt_done e)];
      repeat case_decide; lia. }
  assert (resume_session cid o s w = w ->
            exists t', heap (resume_session cid o s w) !! r = Some t'
              /\ f t' - f t
                 <= match coros (resume_session cid o s w) !! cid with
                    | Some c' => spent wt r c' - spent wt r (CSession s)
                    | None => 0
                    end) as Hsame.
  { intros ->. exists t. rewrite Hc. split; [done|lia]. }
  destruct (s_pc s) as [| | | | | |i k|stage how i|ex] eqn:Hpc.
  1: { destruct (s_must_cancel s) eqn:Hm.
       { apply (Hflat (at_pc (SDone NeverRan) s)); [done|right; by eexists|].
         unfold resume_session. by rewrite Hpc, Hm. }
       destruct (tasks w !! s_task_id s) as [r'|] eqn:Hr'.
       - apply (Hflat (bind_task r' s)); [done|by left|].
         unfold resume_session. by rewrite Hpc, Hm, Hr'.
       - apply (Hflat (at_pc (SDone Crashed) s)); [done|right; by eexists|].
         unfold resume_session. by rewrite Hpc, Hm, Hr'. }
  8: { apply Hsame. unfold resume_session. by rewrite Hpc. }
  all: destruct (s_task s) as [r0|] eqn:Hr0;
    [|apply Hsame; unfold resume_session; by rewrite Hpc, Hr0].
  all: destruct (heap w !! r0) as [t0|] eqn:Ht0;
    [|apply Hsame; unfold resume_session; by rewrite Hpc, Hr0, Ht0].
  all: destruct (session_resume (browser w) o s t0) as [[pc t0'] dumps] eqn:Hres.
  all: pose proof (wt_pays _ _ _ _ _ _ _ Hres Hok) as Hpay.
  all: destruct (resume_session_resumed cid o s w r0 t0 pc t0' dumps) as [Eh Ec];
    [by rewrite Hpc|by rewrite Hpc|done|done|done|].
  all: rewrite Eh, Ec, list_lookup_insert_eq by done.
  all: assert (r0 < length (heap w))%nat by (by eapply lookup_lt_Some).
  all: simpl; rewrite Hr0.
  all: destruct (decide (r0 = r)) as [->|Hne];
    [assert (t0 = t) as -> by congruence; exists t0';
     rewrite list_lookup_insert_eq by done; split; [done|];
     rewrite !decide_True by done; rewrite ?Hpc in Hpay |- *; lia
    |exists t; rewrite list_lookup_insert_ne by done; split; [done|];
     rewrite !decide_False by congruence; lia].
Qed.

(** The counter of a task with an id of its own that was started at most
    once is covered by the weights of its sessions. *)
Lemma counter_spent w :
  reachable w ->
  forall r t, heap w !! r = Some t -> unique_id r w -> single_run r w ->
    f t <= sumZ (spent wt r) (coros w).
Proof.
  intros Hw. induction Hw as [b|e w Hw IH] using reachable_induction;
    intros r t' Ht' Hu Hs; [done|].
  pose proof (reachable_wf w Hw) as Hwf.
  destruct (heap w !! r) as [t|] eqn:Ht.
  2: { destruct (step_new_task e w r Ht) as (Ec & -> & tid & p & n & Eh); [eauto|].
    rewrite Ec. rewrite Eh, lookup_app_r, Nat.sub_diag in Ht' by done.
    simplify_eq/=. rewrite f_new. rewrite sumZ_zero; [done|].
    intros [s| |] [c Hc]%list_elem_of_lookup; try done. simpl.
    case_decide as E; [|done].
    destruct (so_bound _ _ (wf_session w Hwf c s Hc) _ E) as (t0 & Ht0 & _).
    congruence. }
  pose proof (unique_id_step e w r ltac:(eauto) Hu) as Hu0.
  pose proof (single_run_step e w r Hs) as Hs0.
  specialize (IH r t Ht Hu0 Hs0).
  rewrite (step_sumZ _ e w) by apply spent_stable.
  rewrite (sumZ_zero _ (drop _ _)) by (intros c Hc; by eapply step_new_spent).
  rewrite Z.add_0_r.
  assert ((exists cid o d s, e = Resume cid o d /\ coros w !! cid = Some (CSession s))
          \/ ~ (exists cid o d s, e = Resume cid o d /\ coros w !! cid = Some (CSession s)))
    as [(cid & o & d & s & -> & Hc)|Hnr].
  { destruct e as [| | |cid o d]; try (right; by intros (?&?&?&?&?&?)).
    destruct (coros w !! cid) as [[s| |]|] eqn:Hc;
      try (right; intros (?&?&?&?&?&?); congruence).
    left. eauto 10. }
  { destruct (resume_session_spent cid o d s w r t Hc
                (reachable_iter_ok w Hw cid s Hc) Ht) as (t1 & Ht1 & E).
    simpl in Ht'. rewrite Hc in Ht'. assert (t1 = t') as -> by congruence. lia. }
  assert (own_change (spent wt r) e w = 0) as ->.
  { unfold own_change. destruct e as [| | |cid o d]; try done.
    destruct (coros w !! cid) as [c|] eqn:Hc; [|done].
    destruct (step_kind (Resume cid o d) w cid c Hc) as (c' & Hc' & Hk).
    rewrite Hc'. destruct c as [s| |], c' as [s'| |]; try done.
    destruct Hnr. eauto 10. }
  destruct (step_task_change e w r t Ht) as (t1 & Ht1 & Hch).
  assert (t1 = t') as -> by congruence.
  assert (forall cid rn, coros w !! cid = Some (CRun rn) -> r_task rn = r ->
            r_pc rn = RNotStarted -> sumZ (spent wt r) (coros w) = 0) as Hstart.
  { intros cid rn Hc Hr Hpc.
    apply (no_member_no_spent w r t Hwf Ht).
    rewrite (members_launched w Hw r t Ht Hu0).
    rewrite (launched_single w r cid rn Hs0 Hc Hr).
    destruct (wf_run w Hwf cid rn Hc) as [(t0 & _ & Hb) _].
    rewrite (run_bounds_init rn _ Hb); [done|]. by rewrite Hpc. }
  destruct Hch as [|cid o d s pc t1 dumps -> Hc|cid o d rn _ Hc Hr Hpc
                   |cid o d rn _ Hc Hr Hpc|cid o d rn|tid];
    rewrite ?f_status, ?f_reset; try lia.
  - destruct Hnr. eauto 10.
  - rewrite (Hstart cid rn Hc Hr Hpc). lia.
  - rewrite (Hstart cid rn Hc Hr Hpc). lia.
Qed.

(** The weights of the sessions of a task are bounded by their number. *)
Lemma spent_le_members w r t K :
  reachable w -> heap w !! r = Some t -> 0 <= K ->
  (forall pc, (forall i k, pc = SBody i k -> (i <= 5)%nat) -> wt pc <= K) ->
  sumZ (spent wt r) (coros w) <= K * sumZ (member (id t)) (coros w).
Proof.
  intros Hw Ht HK Hwt. pose proof (reachable_wf w Hw) as Hwf.
  assert (forall l : list Coro,
            K * sumZ (member (id t)) l = sumZ (fun c => K * member (id t) c) l)
    as -> by (induction l as [|x l IHl]; simpl; lia).
  apply sumZ_le. intros c [i Hc]%list_elem_of_lookup.
  destruct c as [s| |]; simpl; try lia.
  destruct (decide (s_task s = Some r)) as [Hb|Hb]; [|case_decide; lia].
  destruct (so_bound _ _ (wf_session w Hwf i s Hc) r Hb) as (t0 & Ht0 & E).
  assert (t0 = t) as -> by congruence. rewrite decide_True by done.
  pose proof (Hwt (s_pc s) (reachable_iter_ok w Hw i s Hc)). lia.
Qed.

End counter.

Lemma counters_nonneg w :
  reachable w -> forall r t, heap w !! r = Some t ->
    0 <= completed_sessions t /\ 0 <= failed_sessions t.
Proof.
  intros Hw. induction Hw as [b|e w Hw IH] using reachable_induction;
    intros r t' Ht'; [done|].
  destruct (heap w !! r) as [t|] eqn:Ht.
  2: { destruct (step_new_task e w r Ht) as (Ec & -> & tid & p & n & Eh); [eauto|].
    rewrite Eh, lookup_app_r, Nat.sub_diag in Ht' by done. by simplify_eq/=. }
  destruct (IH r t Ht) as [H1 H2].
  destruct (step_task_change e w r t Ht) as (t1 & Ht1 & Hch).
  assert (t1 = t') as -> by congruence.
  destruct Hch as [|cid o d s pc t1 dumps -> Hc Hr Hres _| | | |]; try done.
  apply session_resume_task_step in Hres as []. lia.
Qed.

(** X25 ([create_session], [run_task]): the counters count per session
    more than once.  For a task with an id of its own that was started at
    most once, [completed_sessions] counts iterations, at most five per
    session, and [failed_sessions] counts a session at most twice (the
    timeout handler and an outer handler can both count it):
    [0 <= completed_sessions <= 5 * session_count] and
    [0 <= failed_sessions <= 2 * session_count]. *)
Theorem counters_bounded_by_sessions w r t :
  reachable w -> heap w !! r = Some t ->
  unique_id r w -> single_run r w -> 0 <= session_count t ->
  0 <= completed_sessions t <= 5 * session_count t
  /\ 0 <= failed_sessions t <= 2 * session_count t.
Proof.
  intros Hw Ht Hu Hs Hsc. pose proof (reachable_wf w Hw) as Hwf.
  destruct (counters_nonneg w Hw r t Ht) as [Hc0 Hf0].
  pose proof (launched_bound w r t Hwf Ht Hs Hsc) as Hb.
  rewrite <- (members_launched w Hw r t Ht Hu) in Hb.
  assert (completed_sessions t <= 5 * sumZ (member (id t)) (coros w)).
  { etrans.
    - apply (counter_spent completed_sessions credit); try done.
      intros. by eapply session_resume_spent.
    - apply spent_le_members; try done.
      intros [| | | | | |i k| |] Hi; simpl; try lia. specialize (Hi i k eq_refl). lia. }
  assert (failed_sessions t <= 2 * sumZ (member (id t)) (coros w)).
  { etrans.
    - apply (counter_spent failed_sessions failures); try done.
      intros. by eapply session_resume_spent.
    - apply spent_le_members; try done.
      intros [| | | | | | |stage [] i|] Hi; simpl; lia. }
  lia.
Qed.

Lemma counters_bounded_by_sessions_witness :
  let t := {| id := "t"; prompt := "x"; session_count := 1; status := Stopped;
              active_sessions := 0; completed_sessions := 0;
              failed_sessions := 2; results := [] |} in
  0 <= completed_sessions t <= 5 * session_count t
  /\ 0 <= failed_sessions t <= 2 * session_count t.
Proof.
  apply (counters_bounded_by_sessions twice_failed_world 0
           {| id := "t"; prompt := "x"; session_count := 1; status := Stopped;
              active_sessions := 0; completed_sessions := 0;
              failed_sessions := 2; results := [] |}).
  - apply reachable_run, launched_world_reachable.
  - vm_compute. reflexivity.
  - intros t0 r' t' _ H _. apply lookup_lt_Some in H. vm_compute in H. lia.
  - intros c c' rn rn' Hc Hc' _ _. vm_compute in Hc, Hc'.
    destruct c as [|[|[|c]]]; [|discriminate Hc|discriminate Hc|discriminate Hc].
    destruct c' as [|[|[|c']]];
      [reflexivity|discriminate Hc'|discriminate Hc'|discriminate Hc'].
  - vm_compute. discriminate.
Defined.

(** X26 ([stop_task], [run_task]): as long as no [run_task] of the task
    takes its first step (the step that sets the status back to running,
    whether [start_task] was called before the stop or after it), a stopped
    task stays stopped: nothing else writes [task.status], and a [run_task]
    that is past its first step does not mark the task completed.  Over the
    same steps no session is created for it, although its [run_task] may
    still be between two waves: the task, if its id is its own, has no
    session coroutine other than those that were there when it was
    stopped. *)
Theorem stopped_task_stays_stopped r evs w t :
  reachable w -> heap w !! r = Some t -> status t = Stopped ->
  never_started r evs w = true ->
  (exists t', heap (run evs w) !! r = Some t' /\ status t' = Stopped)
  /\ (unique_id r (run evs w) ->
      forall h s, coros (run evs w) !! h = Some (CSession s) ->
                  s_task_id s = id t -> (h < length (coros w))%nat).
Proof.
  intros Hw Ht Hst Hn. split; [by eapply stopped_run|].
  intros Hu h s Hs Hid. by eapply (stopped_no_new_session r evs w t h s).
Qed.

Lemma stopped_task_stays_stopped_witness :
  let w := stopped_between_waves in
  let evs := [Resume 0 Ok 0; Resume 1 Ok 0; Resume 2 Ok 0; Resume 0 Ok 0] in
  (exists t', heap (run evs w) !! 0%nat = Some t' /\ status t' = Stopped)
  /\ (unique_id 0 (run evs w) ->
      forall h s, coros (run evs w) !! h = Some (CSession s) ->
                  s_task_id s = "t" -> (h < length (coros w))%nat).
Proof.
  apply (stopped_task_stays_stopped 0
           [Resume 0 Ok 0; Resume 1 Ok 0; Resume 2 Ok 0; Resume 0 Ok 0]
           stopped_between_waves
           (set_status Stopped (reset_counters (new_task "t" "x" 7)))).
  - eexists true, _. reflexivity.
  - vm_compute. reflexivity.
  - reflexivity.
  - vm_compute. reflexivity.
Defined.

Lemma basic_stop_loop_heap keys : forall w pc w',
  basic_stop_loop keys w = (pc, w') -> heap w' = heap w.
Proof.
  induction keys as [|key rest IH]; intros w pc w'; simpl.
  - by intros [= <- <-].
  - destruct (Registry.lookup key (session_tasks w)) as [h|]; [|by intros [= <- <-]].
    destruct (cancel_spec h w) as (_ & Hh & _).
    destruct (exit_of h (cancel h w)); [|by intros [= <- <-]].
    destruct (Registry.lookup key (session_tasks (cancel h w)));
      [|by intros [= <- <-]].
    intros H. apply IH in H. simpl in H. congruence.
Qed.

Lemma basic_loop_test_status i t : status (basic_loop_test i t).2 = status t.
Proof. unfold basic_loop_test. by case_bool_decide. Qed.

Lemma basic_session_resume_status o s t :
  status (basic_session_resume o s t).2 = status t.
Proof.
  unfold basic_session_resume, basic_advance, basic_iteration_done,
    basic_enter_finally.
  repeat case_match; simpl; try done; by rewrite basic_loop_test_status.
Qed.

(** A step of a session of the first version writes no status. *)
Lemma basic_resume_session_status cid o s w r t :
  heap w !! r = Some t ->
  exists t', heap (basic_resume_session cid o s w) !! r = Some t'
             /\ status t' = status t.
Proof.
  intros Ht. assert (r < length (heap w))%nat as Hr by (by eapply lookup_lt_Some).
  unfold basic_resume_session, basic_end, basic_goto.
  destruct (s_pc s); try (repeat case_match; simpl; by eauto).
  - (* the session enters the loop *)
    destruct (s_must_cancel s); [simpl; by eauto|].
    destruct o; try (simpl; by eauto).
    destruct (tasks w !! s_task_id s) as [r0|]; [|simpl; by eauto].
    destruct (heap w !! r0) as [t0|] eqn:Ht0; [|by eauto].
    pose proof (basic_loop_test_status 0 (set_active (active_sessions t0 + 1) t0))
      as Hst.
    destruct (basic_loop_test _ _) as [pc t']. simpl in *.
    destruct (decide (r0 = r)) as [->|Hne].
    + rewrite list_lookup_insert_eq by done. exists t'. split; [done|congruence].
    + rewrite list_lookup_insert_ne by done. eauto.
  - destruct (s_task s) as [r0|]; [|by eauto].
    destruct (heap w !! r0) as [t0|] eqn:Ht0; [|by eauto].
    pose proof (basic_session_resume_status o s t0) as Hst.
    destruct (basic_session_resume o s t0) as [pc t']. simpl in Hst.
    assert (exists t1, <[r0 := t']> (heap w) !! r = Some t1 /\ status t1 = status t)
      as Hgoal.
    { destruct (decide (r0 = r)) as [->|Hne].
      + rewrite list_lookup_insert_eq by done. exists t'. split; [done|congruence].
      + rewrite list_lookup_insert_ne by done. eauto. }
    by destruct (done pc).
  - destruct (s_task s) as [r0|]; [|by eauto].
    destruct (heap w !! r0) as [t0|] eqn:Ht0; [|by eauto].
    pose proof (basic_session_resume_status o s t0) as Hst.
    destruct (basic_session_resume o s t0) as [pc t']. simpl in Hst.
    assert (exists t1, <[r0 := t']> (heap w) !! r = Some t1 /\ status t1 = status t)
      as Hgoal.
    { destruct (decide (r0 = r)) as [->|Hne].
      + rewrite list_lookup_insert_eq by done. exists t'. split; [done|congruence].
      + rewrite list_lookup_insert_ne by done. eauto. }
    by destruct (done pc).
Qed.

(** One turn of the wave loop of the first version leaves the [Task]
    objects alone, or marks its own task, which was running, completed. *)
Lemma basic_run_wave_heap p n c r w pc c' w' t :
  heap w !! r = Some t -> basic_run_wave p n c r w = (pc, c', w') ->
  heap w' = heap w
  \/ (status t = Running /\ heap w' = <[r := set_status Completed t]> (heap w)).
Proof.
  intros Ht. unfold basic_run_wave. rewrite Ht.
  assert (forall w1, heap w1 = heap w ->
            heap (basic_run_finish r w1) = heap w
            \/ (status t = Running
                /\ heap (basic_run_finish r w1)
                   = <[r := set_status Completed t]> (heap w))) as Hfin.
  { intros w1 E. unfold basic_run_finish. rewrite E, Ht.
    case_bool_decide; simpl; [right|left]; by rewrite ?E. }
  destruct (_ && _).
  - destruct (launch _ _ _ _) as [k w1] eqn:Hl.
    apply launch_frame in Hl as (_ & Hh & _).
    destruct (_ <? _); intros [= <- <- <-]; [by left|by apply Hfin].
  - intros [= <- <- <-]. by apply Hfin.
Qed.

(** What one step of the first version does to the status of a task. *)
Lemma basic_step_status e w r t :
  heap w !! r = Some t ->
  exists t', heap (basic_step e w) !! r = Some t'
    /\ (status t' = status t
        \/ ((exists task_id, e = StopTask task_id) /\ status t' = Stopped)
        \/ starts_run r e w = true
        \/ (status t = Running /\ status t' = Completed)).
Proof.
  intros Ht. assert (r < length (heap w))%nat as Hr by (by eapply lookup_lt_Some).
  destruct e as [tid p n|tid|tid|cid o d]; cbn [basic_step].
  - exists t. split; [|by left]. unfold add_task; simpl. by apply lookup_app_l_Some.
  - exists t. split; [|by left]. unfold start_task. by case_match.
  - unfold basic_stop_task.
    destruct (tasks w !! tid) as [r0|]; [|simpl; by eauto].
    destruct (heap w !! r0) as [t0|] eqn:Ht0; [|by eauto].
    destruct (basic_stop_loop _ _) as [pc w2] eqn:Hl.
    apply basic_stop_loop_heap in Hl. simpl in *. rewrite Hl.
    destruct (decide (r0 = r)) as [->|Hne].
    + rewrite list_lookup_insert_eq by done. eexists. split; [done|].
      right; left. split; [by eexists|done].
    + rewrite list_lookup_insert_ne by done. eauto.
  - destruct (coros w !! cid) as [[s|rn|st]|] eqn:Hc; [| | |by eauto].
    + destruct (basic_resume_session_status cid o s w r t Ht) as (t' & ? & ?).
      eauto.
    + (* a step of [run_task] *)
      unfold basic_resume_run.
      destruct (r_pc rn) eqn:Hpc; try by eauto.
      * (* its first step *)
        destruct (decide (r_task rn = r)) as [E|Hne].
        { assert (starts_run r (Resume cid o d) w = true) as Hs.
          { apply starts_run_spec. by exists cid, o, d, rn. }
          enough (exists t', heap
                    (match heap w !! r_task rn with
                     | Some t0 =>
                         let w1 := with_heap
                                     (<[r_task rn := basic_reset_counters t0]> (heap w))
                                     w in
                         if browser w1 then basic_run_plan cid d rn w1
                         else with_coros
                                (<[cid := CRun (at_run RInitBrowser (r_plan rn) 0 rn)]>
                                   (coros w1)) w1
                     | None => w
                     end) !! r = Some t') as [t' Ht'] by eauto 6.
          apply lookup_lt_is_Some_2.
          rewrite E, Ht. cbv zeta.
          destruct (browser _); simpl; [|by rewrite length_insert].
          unfold basic_run_plan. simpl. rewrite E.
          rewrite list_lookup_insert_eq by done.
          destruct (basic_run_wave _ _ _ _ _) as [[pc k] w1] eqn:Hw.
          apply basic_run_wave_heap with (t := basic_reset_counters t) in Hw;
            [|simpl; by rewrite list_lookup_insert_eq].
          simpl in *. destruct Hw as [->|[_ ->]]; by rewrite ?length_insert. }
        destruct (heap w !! r_task rn) as [t0|] eqn:Ht0; [|by eauto].
        assert (r_task rn < length (heap w))%nat as Hr0 by (by eapply lookup_lt_Some).
        cbv zeta.
        destruct (browser _); [|simpl; rewrite list_lookup_insert_ne by done; by eauto].
        unfold basic_run_plan. simpl.
        rewrite list_lookup_insert_eq by done.
        destruct (basic_run_wave _ _ _ _ _) as [[pc k] w1] eqn:Hw.
        apply basic_run_wave_heap with (t := basic_reset_counters t0) in Hw;
          [|simpl; by rewrite list_lookup_insert_eq].
        simpl in *. exists t. split; [|by left].
        destruct Hw as [->|[_ ->]]; by rewrite ?list_lookup_insert_ne.
      * (* after [init_browser] *)
        destruct o; try by eauto.
        unfold basic_run_plan. simpl.
        destruct (heap w !! r_task rn) as [t0|] eqn:Ht0; [|by eauto].
        destruct (basic_run_wave _ _ _ _ _) as [[pc k] w1] eqn:Hw.
        apply basic_run_wave_heap with (t := t0) in Hw; [|done].
        simpl in *. destruct Hw as [->|[Hs ->]]; [by eauto|].
        destruct (decide (r_task rn = r)) as [E|Hne].
        -- rewrite E in *. rewrite list_lookup_insert_eq by done.
           eexists. split; [done|]. do 3 right. split; [congruence|done].
        -- rewrite list_lookup_insert_ne by done. eauto.
      * (* after the sleep between two waves *)
        destruct (heap w !! r_task rn) as [t0|] eqn:Ht0.
        2: { unfold basic_run_wave. rewrite Ht0. simpl. eauto. }
        destruct (basic_run_wave _ _ _ _ _) as [[pc k] w1] eqn:Hw.
        apply basic_run_wave_heap with (t := t0) in Hw; [|done].
        simpl in *. destruct Hw as [->|[Hs ->]]; [by eauto|].
        destruct (decide (r_task rn = r)) as [E|Hne].
        -- rewrite E in *. rewrite list_lookup_insert_eq by done.
           eexists. split; [done|]. do 3 right. split; [congruence|done].
        -- rewrite list_lookup_insert_ne by done. eauto.
    + unfold basic_resume_stop.
      destruct (st_pc st); try by eauto.
      destruct (exit_of _ _); [|by eauto].
      destruct (Registry.lookup _ _); [|simpl; by eauto].
      destruct (basic_stop_loop _ _) as [pc w1] eqn:Hl.
      apply basic_stop_loop_heap in Hl. simpl in *. rewrite Hl. eauto.
Qed.

(** C4 (amended).  In both versions the status of a task becomes
    [Completed] only if it is [Running] at that point: it was [Running]
    before the step, or the step is the first one of a [run_task] of the
    task, which sets it to [Running] itself (in the extended version that
    step can complete the task only when it has no session to launch).  In
    the extended version the status becomes [Completed] only in a step
    after which no key of the registry starts with the id of the task.  A
    [Stopped] task stays [Stopped] as long as no [run_task] of it takes its
    first step. *)
Theorem completed_only_when_running_and_drained (w : World) (r : nat) (t : Task) :
  heap w !! r = Some t ->
  ((forall e t', heap (step e w) !! r = Some t' ->
      status t' = Completed -> status t <> Completed ->
      (status t = Running \/ (starts_run r e w = true /\ session_count t <= 0))
      /\ Registry.keys_with_prefix (id t) (session_tasks (step e w)) = []
      /\ (forall session_id,
            Registry.lookup (session_key (id t) session_id)
              (session_tasks (step e w)) = None))
   /\ (forall evs, status t = Stopped -> never_started r evs w = true ->
         task_field status r (run evs w) = Some Stopped))
  /\ ((forall e t', heap (basic_step e w) !! r = Some t' ->
         status t' = Completed -> status t <> Completed ->
         status t = Running \/ starts_run r e w = true)
      /\ (forall evs, status t = Stopped -> basic_never_started r evs w = true ->
            task_field status r (basic_run evs w) = Some Stopped)).
Proof.
  intros Ht. split; split.
  - intros e t' Ht' Hc Hn.
    destruct (step_task_change e w r t Ht) as (t1 & Ht1 & Hch). simplify_eq.
    assert ((status t = Running
             \/ (starts_run r e w = true /\ session_count t <= 0))
            /\ Registry.keys_with_prefix (id t) (session_tasks (step e w)) = [])
      as [Hs Hk].
    { destruct Hch as [|cid o d s pc t' dumps He Hc' Hr Hres _
                      | |cid o d rn He Hc' Hr Hpc Hsc Hk _| |]; try done.
      - apply session_resume_task_step in Hres as []. congruence.
      - split; [|done]. right. split; [|done].
        apply starts_run_spec. by exists cid, o, d, rn.
      - by split; [left|]. }
    repeat split; try done.
    intros sid. apply RegistryFacts.lookup_None_keys. intros Hin.
    assert (session_key (id t) sid
            ∈ Registry.keys_with_prefix (id t) (session_tasks (step e w))) as Hin'.
    { apply RegistryFacts.elem_keys_with_prefix. split; [done|].
      apply RegistryFacts.prefix_app. }
    rewrite Hk in Hin'. by apply elem_of_nil in Hin'.
  - intros evs. revert w t Ht.
    induction evs as [|e evs IH]; intros w t Ht Hst; simpl.
    + intros _. unfold task_field. by rewrite Ht, <- Hst.
    + intros [Hs Hn]%andb_true_iff. apply negb_true_iff in Hs.
      destruct (step_immutable e w r t Ht) as (t1 & Ht1 & _).
      apply (IH _ t1 Ht1); [|done].
      exact (step_status_stopped e w r t t1 Ht Ht1 Hs Hst).
  - intros e t' Ht' Hc Hn.
    destruct (basic_step_status e w r t Ht) as (t1 & Ht1 & Hch). simplify_eq.
    destruct Hch as [E|[[_ E]|[E|[E _]]]]; try congruence; auto.
  - intros evs. revert w t Ht.
    induction evs as [|e evs IH]; intros w t Ht Hst; simpl.
    + intros _. unfold task_field. by rewrite Ht, <- Hst.
    + intros [Hs Hn]%andb_true_iff. apply negb_true_iff in Hs.
      destruct (basic_step_status e w r t Ht) as (t1 & Ht1 & Hch).
      apply (IH _ t1 Ht1); [|done].
      destruct Hch as [E|[[_ E]|[E|[E _]]]]; congruence.
Qed.

Lemma completed_only_when_running_and_drained_witness :
  let e := Resume 0 Ok 0 in
  (task_field status 0 one_session_ended = Some Running
   /\ task_field status 0 (step e one_session_ended) = Some Completed
   /\ Registry.keys_with_prefix "t" (session_tasks (step e one_session_ended)) = [])
  /\ task_field status 0
       (run [e; Resume 1 Ok 0; Resume 2 Ok 0; e; e] stopped_in_waves)
     = Some Stopped
  /\ (task_field status 0 basic_two_waves = Some Running
      /\ task_field status 0 (basic_step e basic_two_waves) = Some Completed)
  /\ task_field status 0
       (basic_run [e; Resume 1 Ok 0; Resume 2 Ok 0; e] basic_stopped_in_waves)
     = Some Stopped.
Proof.
  intros e.
  pose (t1 := set_failed 1 (reset_counters (new_task "t" "x" 1))).
  pose (t2 := set_status Stopped (reset_counters (new_task "t" "x" 7))).
  pose (t3 := basic_reset_counters (new_task "t" "x" 2)).
  assert (heap one_session_ended !! 0%nat = Some t1) as H1
    by (vm_compute; reflexivity).
  assert (heap stopped_in_waves !! 0%nat = Some t2) as H2
    by (vm_compute; reflexivity).
  assert (heap basic_two_waves !! 0%nat = Some t3) as H3
    by (vm_compute; reflexivity).
  assert (heap basic_stopped_in_waves !! 0%nat = Some t2) as H4
    by (vm_compute; reflexivity).
  split; [|split; [|split]].
  - destruct (proj1 (proj1 (completed_only_when_running_and_drained
                              one_session_ended 0 t1 H1))
                e (set_status Completed t1)) as (_ & Hk & _).
    + vm_compute. reflexivity.
    + reflexivity.
    + discriminate.
    + split; [vm_compute; reflexivity|]. split; [vm_compute; reflexivity|].
      exact Hk.
  - apply (proj2 (proj1 (completed_only_when_running_and_drained
                           stopped_in_waves 0 t2 H2))).
    + reflexivity.
    + vm_compute. reflexivity.
  - destruct (proj1 (proj2 (completed_only_when_running_and_drained
                              basic_two_waves 0 t3 H3))
                e (set_status Completed t3)) as [Hr|Hr].
    + vm_compute. reflexivity.
    + reflexivity.
    + discriminate.
    + split; vm_compute; reflexivity.
    + vm_compute in Hr. discriminate.
  - apply (proj2 (proj2 (completed_only_when_running_and_drained
                           basic_stopped_in_waves 0 t2 H4))).
    + reflexivity.
    + vm_compute. reflexivity.
Defined.

(** * The undisturbed session in both versions *)

(** C2 (amended).  Extended version: in a reachable world, a session that
    has not yet run, that is resumed at least [session_steps] times, and
    that at each of its resumptions before its end finds no pending
    cancellation, an awaited call that answers without timeout or any other
    driver error, and its task [Running], ends by leaving the loop at its
    cap of 5 iterations; its steps add exactly 5 to [completed_sessions] and
    nothing to [failed_sessions].  First version: the loop has no cap; a
    session at the head of an iteration with no cancellation pending, that
    is resumed alone with calls that all answer while its task is [Running],
    is at the head of a further iteration after every
    [length (basic_iteration_body p)] resumptions, has not ended, and has
    added one to [completed_sessions] with each iteration, past 5. *)
Theorem nominal_session_reaches_cap :
  (forall cid evs w s,
     reachable w -> session_at cid w = Some s -> s_pc s = SNotStarted ->
     nominal cid evs w = true ->
     (session_steps (s_prompt s) <= resumes cid evs)%nat ->
     exit_of cid (run evs w) = Some (Finished LoopEnded 5)
     /\ contribution completed_sessions cid evs w = 5
     /\ contribution failed_sessions cid evs w = 0)
  /\ (forall w c r i p t n,
        basic_in_body w c r i 0 p t -> status t = Running ->
        let w' :=
          basic_run
            (replicate (n * length (basic_iteration_body p)) (Resume c Ok 0)) w in
        exit_of c w' = None
        /\ s_pc <$> session_at c w' = Some (SBody (i + n) 0)
        /\ task_field completed_sessions r w'
           = Some (completed_sessions t + Z.of_nat n)).
Proof.
  split.
  - intros cid evs w s Hw Hs Hpc Hn Hr. apply reachable_wf in Hw.
    unfold session_at in Hs.
    destruct (coros w !! cid) as [[s0| |]|] eqn:Hc; simplify_eq/=.
    destruct (nominal_run cid evs w s Hw Hc) as (H1 & H2 & H3); try done.
    + by rewrite Hpc.
    + rewrite Hpc. unfold session_steps in Hr. unfold remaining. lia.
    + rewrite Hpc in H2. simpl in H2. split; [|split; [lia|done]].
      unfold session_at in H1. unfold exit_of.
      destruct (coros (run evs w) !! cid) as [[s1| |]|]; try done.
      simpl in H1. injection H1 as ->. done.
  - intros w c r i p t n Hin Hs w'.
    destruct (basic_iterations_run n w c r i p t Hin Hs)
      as (s & Hc & _ & _ & Hpc & _ & Ht).
    fold w' in Hc, Ht. unfold exit_of, session_at, task_field.
    rewrite Hc, Ht. simpl. by rewrite Hpc.
Qed.

Lemma nominal_session_reaches_cap_witness :
  let w := run [AddTask "t" "x" 1; StartTask "t"; Resume 0 Ok 0; Resume 0 Ok 0]
               (init true) in
  let evs := replicate 110 (Resume 1 Ok 0) in
  let b :=
    basic_run (replicate (7 * length (basic_iteration_body "x")) (Resume 1 Ok 0))
      (basic_session_world 4) in
  (exit_of 1 (run evs w) = Some (Finished LoopEnded 5)
   /\ contribution completed_sessions 1 evs w = 5
   /\ contribution failed_sessions 1 evs w = 0)
  /\ (exit_of 1 b = None
      /\ s_pc <$> session_at 1 b = Some (SBody (0 + 7) 0)
      /\ task_field completed_sessions 0 b = Some (0 + Z.of_nat 7)).
Proof.
  intros w evs b. split.
  - apply (proj1 nominal_session_reaches_cap 1%nat evs w
             {| s_task_id := "t"; s_prompt := "x"; s_session_id := "1";
                s_task := None; s_pc := SNotStarted; s_must_cancel := false;
                s_cancel_requests := 0 |}).
    + exists true, [AddTask "t" "x" 1; StartTask "t"; Resume 0 Ok 0; Resume 0 Ok 0].
      reflexivity.
    + vm_compute. reflexivity.
    + reflexivity.
    + vm_compute. reflexivity.
    + vm_compute. lia.
  - apply (proj2 nominal_session_reaches_cap (basic_session_world 4)
             1%nat 0%nat 0%nat "x"
             (set_active 1 (basic_reset_counters (new_task "t" "x" 2))) 7%nat).
    + eexists. vm_compute. repeat split; reflexivity.
    + reflexivity.
Defined.

(** C2, as stated, fails in both versions.  Neither session below is
    cancelled or meets a timeout.  In the extended version the first
    [page.goto] of the first iteration raises another error, and the session
    ends with no iteration completed.  In the first version every call
    answers, and the session is in its seventh iteration with six counted. *)
Lemma undisturbed_session_misses_cap :
  let no_timeout :=
    forallb (fun e => match e with Resume _ Timeout _ => false | _ => true end) in
  let w := run [AddTask "t" "x" 1; StartTask "t"; Resume 0 Ok 0; Resume 0 Ok 0]
               (init true) in
  let evs := replicate 6 (Resume 1 Ok 0) ++ [Resume 1 DriverError 0]
             ++ replicate 4 (Resume 1 Ok 0) in
  let basic_evs :=
    replicate (4 + 6 * length (basic_iteration_body "x")) (Resume 1 Ok 0) in
  (no_timeout evs = true
   /\ s_cancel_requests <$> session_at 1 (run evs w) = Some 0%nat
   /\ s_pc <$> session_at 1 (run (replicate 6 (Resume 1 Ok 0)) w) = Some (SBody 1 0)
   /\ exit_of 1 (run evs w) = Some Errored
   /\ contribution completed_sessions 1 evs w = 0
   /\ task_field completed_sessions 0 (run evs w) = Some 0)
  /\ (no_timeout basic_evs = true
      /\ s_cancel_requests <$> session_at 1 (basic_run basic_evs basic_two_waves)
         = Some 0%nat
      /\ task_field status 0 (basic_run basic_evs basic_two_waves) = Some Running
      /\ s_pc <$> session_at 1 (basic_run basic_evs basic_two_waves)
         = Some (SBody 6 0)
      /\ exit_of 1 (basic_run basic_evs basic_two_waves) = None
      /\ task_field completed_sessions 0 (basic_run basic_evs basic_two_waves)
         = Some 6).
Proof. vm_compute. repeat split; reflexivity. Qed.
